(** * SDFileSystem: an SPI-mode SD/MMC block driver, embedded in Rocq

    The development follows [SDFileSystem.cpp] (latest revision in the
    repository: the one with [command], [commandTransaction], [readBlocks]
    and [writeBlocks]).  The driver object is a record, every member
    function is a state-passing function on that record, and the SPI bus
    is an input stream of frames that the card shifts out, one frame per
    [m_Spi.write].

    Conventions.
    - [char] is the 8-bit unsigned type of the ARM targets of mbed,
      [unsigned short] is 16 bits, [int]/[unsigned int] are 32 bits and
      [unsigned long long] is 64 bits; all of them are [Z] with the
      wrap-around written out.
    - Loops with a constant trip count are structural recursions on the
      number of iterations left.  The loops without a bound
      ([while (!m_Spi.write(0xFF));] and the retry loops whose counter is
      reset) take fuel and return [None] when it runs out. *)

From Stdlib Require Import ZArith List Bool Lia PeanoNat.
Import ListNotations.
Local Open Scope Z_scope.

(** ** Fixed-width integers *)

Definition to_char (z : Z) : Z := Z.land z 0xFF.
Definition to_uint16 (z : Z) : Z := Z.land z 0xFFFF.
Definition to_uint32 (z : Z) : Z := z mod 2 ^ 32.
Definition to_uint64 (z : Z) : Z := z mod 2 ^ 64.
Definition to_int32 (z : Z) : Z :=
  let u := to_uint32 z in if u <? 2 ^ 31 then u else u - 2 ^ 32.

(** ** Constants of [diskio.h] and of the class declaration *)

(** Modelled from the spec: [diskio.h] is not part of the sources; the
    status bits are NotInitialized=1, NoDisk=2, WriteProtected=4. *)
Definition STA_NOINIT : Z := 1.
Definition STA_NODISK : Z := 2.
Definition STA_PROTECT : Z := 4.

(** Modelled from the spec: the facade return codes of [diskio.h] are
    OK=0, Error=1, WriteProtected=2, NotReady=3, ParameterError=4. *)
Definition RES_OK : Z := 0.
Definition RES_ERROR : Z := 1.
Definition RES_WRPRT : Z := 2.
Definition RES_NOTRDY : Z := 3.
Definition RES_PARERR : Z := 4.

Inductive CardType : Type :=
| CARD_NONE
| CARD_MMC
| CARD_SD
| CARD_SDHC
| CARD_UNKNOWN.

Definition CardType_eqb (a b : CardType) : bool :=
  match a, b with
  | CARD_NONE, CARD_NONE | CARD_MMC, CARD_MMC | CARD_SD, CARD_SD
  | CARD_SDHC, CARD_SDHC | CARD_UNKNOWN, CARD_UNKNOWN => true
  | _, _ => false
  end.

(** The commands used by this revision of the driver. *)
Inductive Command : Type :=
| CMD0 | CMD1 | CMD8 | CMD9 | CMD12 | CMD13 | CMD16 | CMD17 | CMD18
| ACMD22 | ACMD23 | CMD24 | CMD25 | ACMD41 | ACMD42 | CMD55 | CMD58 | CMD59.

Definition cmd_index (c : Command) : Z :=
  match c with
  | CMD0 => 0 | CMD1 => 1 | CMD8 => 8 | CMD9 => 9 | CMD12 => 12
  | CMD13 => 13 | CMD16 => 16 | CMD17 => 17 | CMD18 => 18
  | ACMD22 => 22 | ACMD23 => 23 | CMD24 => 24 | CMD25 => 25
  | ACMD41 => 41 | ACMD42 => 42 | CMD55 => 55 | CMD58 => 58 | CMD59 => 59
  end.

(** Modelled from the spec: the header of this revision is not part of
    the sources; the enumerators carry the start and transmission bits
    of the frame, so the first byte of a frame is [0x40 | index]. *)
Definition cmd_byte (c : Command) : Z := Z.lor 0x40 (cmd_index c).

Definition Command_eqb (a b : Command) : bool := cmd_byte a =? cmd_byte b.

(** ** CRC primitives *)

Definition bits_msb_first (byte : Z) : list bool :=
  map (fun i => Z.testbit byte (Z.of_nat i)) [7; 6; 5; 4; 3; 2; 1; 0]%nat.

Definition crc7_bit (crc : Z) (b : bool) : Z :=
  let shifted := Z.land (Z.shiftl crc 1) 0x7F in
  if xorb (Z.testbit crc 6) b then Z.lxor shifted 0x09 else shifted.

(** Modelled from the spec: [CRC7.h] is not part of the sources; CRC7 is
    a 7-bit shift register, polynomial 0x09, MSB first, initial value 0. *)
Definition CRC7 (data : list Z) : Z :=
  fold_left (fun crc byte => fold_left crc7_bit (bits_msb_first byte) crc) data 0.

Definition crc16_bit (crc : Z) (b : bool) : Z :=
  let shifted := Z.land (Z.shiftl crc 1) 0xFFFF in
  if xorb (Z.testbit crc 15) b then Z.lxor shifted 0x1021 else shifted.

(** Modelled from the spec: [CRC16.h] is not part of the sources; CRC16
    is the CCITT one, polynomial 0x1021, MSB first, initial value 0. *)
Definition CRC16 (data : list Z) : Z :=
  fold_left (fun crc byte => fold_left crc16_bit (bits_msb_first byte) crc) data 0.

(** ** The peripherals *)

(** The SPI master.  [miso] is what the card shifts out, indexed by the
    number of the transfer; [xfers] counts the transfers made so far and
    [mosi] keeps what the driver shifted out, most recent first. *)
Record SPI : Type := mkSPI {
  miso : nat -> Z;
  xfers : nat;
  mosi : list Z;
  bits : Z;
  hz : Z
}.

(** The card-detect input: [level] is the pin level at each sample. *)
Record InterruptIn : Type := mkInterruptIn {
  level : nat -> Z;
  samples : nat
}.

(** One entry of the command log: a frame that went out, with the R1
    token the response window produced for it.  The log is kept oldest
    first. *)
Record CmdEvent : Type := mkCmdEvent {
  ev_cmd : Command;
  ev_arg : Z;
  ev_r1 : Z
}.

(** ** The driver object *)

Record SDFileSystem : Type := mkSD {
  m_Spi : SPI;
  m_Cs : Z;
  m_Cd : InterruptIn;
  m_CD_ASSERT : Z;
  m_FREQ : Z;
  m_CardType : CardType;
  m_Crc : bool;
  m_LargeFrames : bool;
  m_Status : Z;
  (* observers, not members of the class *)
  elapsed_ms : nat;
  cmd_log : list CmdEvent
}.

Definition set_Spi (f : SPI -> SPI) (s : SDFileSystem) : SDFileSystem :=
  mkSD (f (m_Spi s)) (m_Cs s) (m_Cd s) (m_CD_ASSERT s) (m_FREQ s)
       (m_CardType s) (m_Crc s) (m_LargeFrames s) (m_Status s)
       (elapsed_ms s) (cmd_log s).

Definition set_Cs (v : Z) (s : SDFileSystem) : SDFileSystem :=
  mkSD (m_Spi s) v (m_Cd s) (m_CD_ASSERT s) (m_FREQ s)
       (m_CardType s) (m_Crc s) (m_LargeFrames s) (m_Status s)
       (elapsed_ms s) (cmd_log s).

Definition set_Cd (v : InterruptIn) (s : SDFileSystem) : SDFileSystem :=
  mkSD (m_Spi s) (m_Cs s) v (m_CD_ASSERT s) (m_FREQ s)
       (m_CardType s) (m_Crc s) (m_LargeFrames s) (m_Status s)
       (elapsed_ms s) (cmd_log s).

Definition set_CardType (v : CardType) (s : SDFileSystem) : SDFileSystem :=
  mkSD (m_Spi s) (m_Cs s) (m_Cd s) (m_CD_ASSERT s) (m_FREQ s)
       v (m_Crc s) (m_LargeFrames s) (m_Status s)
       (elapsed_ms s) (cmd_log s).

Definition set_Crc (v : bool) (s : SDFileSystem) : SDFileSystem :=
  mkSD (m_Spi s) (m_Cs s) (m_Cd s) (m_CD_ASSERT s) (m_FREQ s)
       (m_CardType s) v (m_LargeFrames s) (m_Status s)
       (elapsed_ms s) (cmd_log s).

Definition set_LargeFrames (v : bool) (s : SDFileSystem) : SDFileSystem :=
  mkSD (m_Spi s) (m_Cs s) (m_Cd s) (m_CD_ASSERT s) (m_FREQ s)
       (m_CardType s) (m_Crc s) v (m_Status s)
       (elapsed_ms s) (cmd_log s).

Definition set_Status (v : Z) (s : SDFileSystem) : SDFileSystem :=
  mkSD (m_Spi s) (m_Cs s) (m_Cd s) (m_CD_ASSERT s) (m_FREQ s)
       (m_CardType s) (m_Crc s) (m_LargeFrames s) v
       (elapsed_ms s) (cmd_log s).

Definition set_elapsed (v : nat) (s : SDFileSystem) : SDFileSystem :=
  mkSD (m_Spi s) (m_Cs s) (m_Cd s) (m_CD_ASSERT s) (m_FREQ s)
       (m_CardType s) (m_Crc s) (m_LargeFrames s) (m_Status s)
       v (cmd_log s).

Definition set_log (v : list CmdEvent) (s : SDFileSystem) : SDFileSystem :=
  mkSD (m_Spi s) (m_Cs s) (m_Cd s) (m_CD_ASSERT s) (m_FREQ s)
       (m_CardType s) (m_Crc s) (m_LargeFrames s) (m_Status s)
       (elapsed_ms s) v.

(** ** State passing *)

Definition M (A : Type) : Type := SDFileSystem -> A * SDFileSystem.

Definition ret {A} (a : A) : M A := fun s => (a, s).

Definition bind {A B} (m : M A) (k : A -> M B) : M B :=
  fun s => let (a, s1) := m s in k a s1.

Declare Scope sd_scope.
Delimit Scope sd_scope with sd.
Notation "x <- c1 ;; c2" := (bind c1 (fun x => c2))
  (at level 61, c1 at next level, right associativity) : sd_scope.
Notation "c1 ;; c2" := (bind c1 (fun _ => c2))
  (at level 61, right associativity) : sd_scope.
Local Open Scope sd_scope.

(** A computation that may not come back: [None] is fuel exhaustion. *)
Definition P (A : Type) : Type := SDFileSystem -> option (A * SDFileSystem).

Definition retP {A} (a : A) : P A := fun s => Some (a, s).

Definition bindP {A B} (m : P A) (k : A -> P B) : P B :=
  fun s => match m s with
           | Some (a, s1) => k a s1
           | None => None
           end.

Definition liftP {A} (m : M A) : P A := fun s => Some (m s).

Notation "x <~ c1 ;; c2" := (bindP c1 (fun x => c2))
  (at level 61, c1 at next level, right associativity) : sd_scope.
Notation "c1 ;;; c2" := (bindP c1 (fun _ => c2))
  (at level 61, right associativity) : sd_scope.

(** ** Primitives of the platform *)

(** [m_Spi.write(v)]: one full-duplex transfer of the current width. *)
Definition spi_write (v : Z) : M Z := fun s =>
  let spi := m_Spi s in
  let mask := Z.ones (bits spi) in
  (Z.land (miso spi (xfers spi)) mask,
   set_Spi (fun p => mkSPI (miso p) (S (xfers p)) (Z.land v mask :: mosi p)
                           (bits p) (hz p)) s).

(** [m_Spi.format(b, 0)]. *)
Definition spi_format (b : Z) : M unit := fun s =>
  (tt, set_Spi (fun p => mkSPI (miso p) (xfers p) (mosi p) b (hz p)) s).

(** [m_Spi.frequency(f)]. *)
Definition spi_frequency (f : Z) : M unit := fun s =>
  (tt, set_Spi (fun p => mkSPI (miso p) (xfers p) (mosi p) (bits p) f) s).

(** [m_Cs = v]. *)
Definition cs_write (v : Z) : M unit := fun s => (tt, set_Cs v s).

(** Reading [m_Cd]: one sample of the pin, 0 or 1. *)
Definition cd_read : M Z := fun s =>
  let cd := m_Cd s in
  ((if level cd (samples cd) =? 0 then 0 else 1),
   set_Cd (mkInterruptIn (level cd) (S (samples cd))) s).

(** [wait_ms(n)]. *)
Definition wait_ms (n : nat) : M unit := fun s =>
  (tt, set_elapsed (elapsed_ms s + n)%nat s).

Definition log_cmd (c : Command) (arg r1 : Z) : M unit := fun s =>
  (tt, set_log (cmd_log s ++ [mkCmdEvent c arg r1]) s).

Definition get {A} (f : SDFileSystem -> A) : M A := fun s => (f s, s).

Definition modify (f : SDFileSystem -> SDFileSystem) : M unit :=
  fun s => (tt, f s).

Arguments spi_write : simpl never.
Arguments spi_format : simpl never.
Arguments spi_frequency : simpl never.
Arguments cs_write : simpl never.
Arguments cd_read : simpl never.
Arguments wait_ms : simpl never.
Arguments log_cmd : simpl never.
Arguments get : simpl never.
Arguments modify : simpl never.

(** ** Construction *)

(** The constructor: [m_Cs(cs, 1)], [m_CD_ASSERT((int)cdtype)],
    [m_FREQ(hz)], the four assignments and [m_Spi.format(8, 0)].  The
    bus and the pin are the environment the object is created in; the
    SPI object starts with the 1 MHz clock of mbed. *)
Definition construct (card : nat -> Z) (pin : nat -> Z) (cdtype hz0 : Z)
  : SDFileSystem :=
  mkSD (mkSPI card 0 [] 8 1000000) 1 (mkInterruptIn pin 0) cdtype hz0
       CARD_NONE true false STA_NOINIT 0 [].

(** ** Bus gateway *)

(** [waitReady(timeout)]: up to [timeout] transfers, one per ms. *)
Fixpoint waitReady (timeout : nat) : M bool :=
  match timeout with
  | O => ret false
  | S n =>
      v <- spi_write 0xFF ;;
      if v =? 0xFF then ret true
      else wait_ms 1 ;; waitReady n
  end.

Definition deselect : M unit :=
  cs_write 1 ;;
  spi_write 0xFF ;;
  ret tt.

Definition select : M bool :=
  cs_write 0 ;;
  spi_write 0xFF ;;
  ready <- waitReady 500 ;;
  if ready then ret true
  else deselect ;; ret false.

(** ** Command codec *)

Definition is_app_cmd (cmd : Command) : bool :=
  Command_eqb cmd ACMD23 || Command_eqb cmd ACMD41 || Command_eqb cmd ACMD42.

(** The five header bytes of [cmdPacket]. *)
Definition cmdHeader (cmd : Command) (arg : Z) : list Z :=
  [ to_char (cmd_byte cmd);
    to_char (Z.shiftr arg 24);
    to_char (Z.shiftr arg 16);
    to_char (Z.shiftr arg 8);
    to_char arg ].

Definition cmdPacket (crc : bool) (cmd : Command) (arg : Z) : list Z :=
  cmdHeader cmd arg ++
  [ if crc || Command_eqb cmd CMD0 || Command_eqb cmd CMD8
    then to_char (Z.lor (Z.shiftl (CRC7 (cmdHeader cmd arg)) 1) 0x01)
    else 0x01 ].

Fixpoint send_bytes (l : list Z) : M unit :=
  match l with
  | [] => ret tt
  | b :: rest => spi_write b ;; send_bytes rest
  end.

(** The response window:
    [for (i = 0; i < 9; i++) { token = m_Spi.write(0xFF);
                              if (!(token & 0x80)) break; }]
    called with the number of iterations left and the current [token]. *)
Fixpoint recv_r1 (n : nat) (token : Z) : M Z :=
  match n with
  | O => ret token
  | S k =>
      v <- spi_write 0xFF ;;
      let token := to_char v in
      if Z.land token 0x80 =? 0 then ret token
      else recv_r1 k token
  end.

(** The out-parameter [resp]: [None] is the null pointer, [Some v] a
    variable that holds [v]. *)
Definition read_response (cmd : Command) (resp : option Z) : M (option Z) :=
  match resp with
  | None => ret None
  | Some old =>
      if Command_eqb cmd CMD13 then
        v <- spi_write 0xFF ;;
        ret (Some (to_uint32 v))
      else if Command_eqb cmd CMD8 || Command_eqb cmd CMD58 then
        b3 <- spi_write 0xFF ;;
        b2 <- spi_write 0xFF ;;
        b1 <- spi_write 0xFF ;;
        b0 <- spi_write 0xFF ;;
        ret (Some (to_uint32
               (Z.lor (Z.lor (Z.lor (Z.shiftl b3 24) (Z.shiftl b2 16))
                             (Z.shiftl b1 8)) b0)))
      else ret (Some old)
  end.

(** The command packet, and the stuff byte that follows CMD12. *)
Definition transmit (cmd : Command) (arg : Z) : M unit :=
  crc <- get m_Crc ;;
  send_bytes (cmdPacket crc cmd arg) ;;
  if Command_eqb cmd CMD12 then spi_write 0xFF ;; ret tt else ret tt.

(** The [for (f = 0; f < 3; f++)] loop of [command], with [n] iterations
    left.  [prefix] is the recursive call [command(CMD55, 0)]. *)
Fixpoint command_loop (prefix : M Z) (n : nat) (cmd : Command) (arg : Z)
         (resp : option Z) (token : Z) : M (Z * option Z) :=
  match n with
  | O => ret (token, resp)
  | S k =>
      let frame (token : Z) : M (Z * option Z) :=
        transmit cmd arg ;;
        token <- recv_r1 9 token ;;
        log_cmd cmd arg token ;;
        if token =? 0xFF then ret (token, resp)
        else if negb (Z.land token (Z.shiftl 1 3) =? 0) then
          command_loop prefix k cmd arg resp token
        else if token >? 0x01 then ret (token, resp)
        else
          r <- read_response cmd resp ;;
          ret (token, r)
      in
      if is_app_cmd cmd then
        token <- prefix ;;
        if token >? 0x01 then ret (token, resp)
        else spi_write 0xFF ;; frame token
      else frame token
  end.

(** The R1 token alone. *)
Definition token_of (m : M (Z * option Z)) : M Z :=
  r <- m ;; ret (fst r).

(** [command] calls itself for the CMD55 prefix; [d] bounds the depth of
    that recursion (CMD55 is not an application command, so 2 is enough:
    see [command_depth_enough]). *)
Fixpoint command_depth (d : nat) (cmd : Command) (arg : Z) (resp : option Z)
  : M (Z * option Z) :=
  match d with
  | O => ret (0xFF, resp)
  | S d' =>
      command_loop (token_of (command_depth d' CMD55 0x00000000 None))
                   3 cmd arg resp 0
  end.

Definition command (cmd : Command) (arg : Z) (resp : option Z)
  : M (Z * option Z) :=
  command_depth 2 cmd arg resp.

Definition commandTransaction (cmd : Command) (arg : Z) (resp : option Z)
  : M (Z * option Z) :=
  ok <- select ;;
  if negb ok then ret (0xFF, resp)
  else
    r <- command cmd arg resp ;;
    deselect ;;
    ret r.

Definition deref (r : option Z) : Z :=
  match r with Some v => v | None => 0 end.

(** ** Presence and status *)

Definition checkSocket : M unit :=
  pin <- cd_read ;;
  asserted <- get m_CD_ASSERT ;;
  if pin =? asserted then
    modify (fun s => set_Status (Z.land (m_Status s) (Z.lnot STA_NODISK)) s)
  else
    modify (fun s => set_Status
                       (Z.lor (m_Status s) (Z.lor STA_NODISK STA_NOINIT)) s) ;;
    modify (set_CardType CARD_NONE).

Definition status_has (flag : Z) (s : SDFileSystem) : bool :=
  negb (Z.land (m_Status s) flag =? 0).

(** ** Initialization sequencer *)

(** [m_CardType = CARD_UNKNOWN; return m_Status;] *)
Definition init_failed : M Z :=
  modify (set_CardType CARD_UNKNOWN) ;;
  get m_Status.

(** The activation polls:
    [for (i = 0; i < 1000; i++) { token = commandTransaction(cmd, arg);
                                 if (token != 0x01) break; wait_ms(1); }] *)
Fixpoint init_poll (n : nat) (cmd : Command) (arg : Z) (token : Z) : M Z :=
  match n with
  | O => ret token
  | S k =>
      token <- token_of (commandTransaction cmd arg None) ;;
      if negb (token =? 0x01) then ret token
      else wait_ms 1 ;; init_poll k cmd arg token
  end.

(** The card is now initialized: clear [STA_NOINIT], go to full speed. *)
Definition init_done : M Z :=
  modify (fun s => set_Status (Z.land (m_Status s) (Z.lnot STA_NOINIT)) s) ;;
  ct <- get m_CardType ;;
  freq <- get m_FREQ ;;
  (if CardType_eqb ct CARD_MMC && (freq >? 20000000) then spi_frequency 20000000
   else if freq >? 25000000 then spi_frequency 25000000
   else spi_frequency freq) ;;
  get m_Status.

(** ACMD42(0x00000000), unless the card is an MMC. *)
Definition init_pullup : M Z :=
  ct <- get m_CardType ;;
  if negb (CardType_eqb ct CARD_MMC) then
    token <- token_of (commandTransaction ACMD42 0x00000000 None) ;;
    if negb (token =? 0x00) then init_failed
    else init_done
  else init_done.

(** CMD16(0x00000200), unless the card is block addressed. *)
Definition init_blocklen : M Z :=
  ct <- get m_CardType ;;
  if negb (CardType_eqb ct CARD_SDHC) then
    token <- token_of (commandTransaction CMD16 0x00000200 None) ;;
    if negb (token =? 0x00) then init_failed
    else init_pullup
  else init_pullup.

(** The branch taken when CMD8 answered 0x01, entered with the R7 value. *)
Definition init_sdv2 (resp : Z) : M Z :=
  if negb (Z.land resp 0xFFF =? 0x1AA) then init_failed
  else
    r <- commandTransaction CMD58 0x00000000 (Some resp) ;;
    if negb (fst r =? 0x01) || (Z.land (deref (snd r)) (Z.shiftl 1 20) =? 0)
    then init_failed
    else
      token <- init_poll 1000 ACMD41 0x40100000 0 ;;
      if negb (token =? 0x00) then init_failed
      else
        r <- commandTransaction CMD58 0x00000000 (snd r) ;;
        if fst r =? 0x00 then
          (if negb (Z.land (deref (snd r)) (Z.shiftl 1 30) =? 0)
           then modify (set_CardType CARD_SDHC)
           else modify (set_CardType CARD_SD)) ;;
          init_blocklen
        else init_failed.

(** The branch taken when CMD8 did not answer 0x01. *)
Definition init_sdv1_mmc (resp : option Z) : M Z :=
  r <- commandTransaction CMD58 0x00000000 resp ;;
  if negb (fst r =? 0x01) || (Z.land (deref (snd r)) (Z.shiftl 1 20) =? 0)
  then init_failed
  else
    token <- init_poll 1000 ACMD41 0x00100000 0 ;;
    if token =? 0x00 then
      modify (set_CardType CARD_SD) ;;
      init_blocklen
    else
      token <- init_poll 1000 CMD1 0x00100000 token ;;
      if token =? 0x00 then
        modify (set_CardType CARD_MMC) ;;
        init_blocklen
      else init_failed.

(** CMD8(0x000001AA) and the two branches. *)
Definition init_probe : M Z :=
  r <- commandTransaction CMD8 0x000001AA (Some 0) ;;
  if fst r =? 0x01 then init_sdv2 (deref (snd r))
  else init_sdv1_mmc (snd r).

(** CMD59(0x00000001) when CRC is enabled. *)
Definition init_crc : M Z :=
  crc <- get m_Crc ;;
  if crc then
    token <- token_of (commandTransaction CMD59 0x00000001 None) ;;
    if negb (token =? 0x01) then init_failed
    else init_probe
  else init_probe.

(** CMD0(0x00000000). *)
Definition init_reset : M Z :=
  token <- token_of (commandTransaction CMD0 0x00000000 None) ;;
  if negb (token =? 0x01) then init_failed
  else init_crc.

(** 400 kHz, /CS high and 80 dummy clocks. *)
Definition init_clocks : M unit :=
  spi_frequency 400000 ;;
  cs_write 1 ;;
  send_bytes (repeat 0xFF 10).

Definition disk_initialize : M Z :=
  checkSocket ;;
  nodisk <- get (status_has STA_NODISK) ;;
  if nodisk then get m_Status
  else
    noinit <- get (status_has STA_NOINIT) ;;
    if negb noinit then get m_Status
    else
      init_clocks ;;
      init_reset.

(** ** The small public operations *)

Definition card_type : M CardType :=
  checkSocket ;;
  nodisk <- get (status_has STA_NODISK) ;;
  noinit <- get (status_has STA_NOINIT) ;;
  (if negb nodisk && noinit then disk_initialize ;; ret tt else ret tt) ;;
  get m_CardType.

Definition crc : M bool := get m_Crc.

Definition set_crc (enabled : bool) : M unit :=
  checkSocket ;;
  noinit <- get (status_has STA_NOINIT) ;;
  if noinit then modify (set_Crc enabled)
  else
    cur <- get m_Crc ;;
    if enabled && negb cur then
      modify (set_Crc true) ;;
      commandTransaction CMD59 0x00000001 None ;;
      ret tt
    else if negb enabled && cur then
      commandTransaction CMD59 0x00000000 None ;;
      modify (set_Crc false)
    else ret tt.

Definition large_frames : M bool := get m_LargeFrames.

Definition set_large_frames (enabled : bool) : M unit :=
  modify (set_LargeFrames enabled).

(** [FATFileSystem::unmount()] belongs to the file-system layer and has
    no access to the private members of the driver. *)
Definition unmount : M Z :=
  modify (fun s => set_Status (Z.lor (m_Status s) STA_NOINIT) s) ;;
  modify (set_CardType CARD_NONE) ;;
  ret 0.

Definition disk_status : M Z :=
  checkSocket ;;
  get m_Status.

Definition disk_sync : M Z :=
  ok <- select ;;
  if ok then deselect ;; ret RES_OK
  else ret RES_ERROR.

(** ** Data transfer engine *)

(** Caller-owned memory is a list of bytes addressed from 0; a pointer
    into it is an offset.  The callers provide room for what they ask:
    a store outside the list is dropped and a load outside it reads 0. *)
Fixpoint poke (buf : list Z) (i : nat) (v : Z) : list Z :=
  match buf, i with
  | [], _ => []
  | _ :: t, O => v :: t
  | h :: t, S j => h :: poke t j v
  end.

Definition peek (buf : list Z) (i : nat) : Z := nth i buf 0.

Definition slice (buf : list Z) (off n : nat) : list Z :=
  map (peek buf) (seq off n).

(** The wait for the start block token:
    [for (i = 0; i < 200; i++) { token = m_Spi.write(0xFF);
                                if (token != 0xFF) break; wait_ms(1); }] *)
Fixpoint recv_token (n : nat) (token : Z) : M Z :=
  match n with
  | O => ret token
  | S k =>
      v <- spi_write 0xFF ;;
      let token := to_char v in
      if negb (token =? 0xFF) then ret token
      else wait_ms 1 ;; recv_token k token
  end.

(** [for (i = 0; i < length; i++) buffer[i] = m_Spi.write(0xFF);] with
    [n] iterations left and [i] the offset of the next byte. *)
Fixpoint read_bytes (n : nat) (buffer : list Z) (i : nat) : M (list Z) :=
  match n with
  | O => ret buffer
  | S k =>
      v <- spi_write 0xFF ;;
      read_bytes k (poke buffer i (to_char v)) (S i)
  end.

(** [for (i = 0; i < length; i += 2) { dataWord = m_Spi.write(0xFFFF);
      buffer[i] = dataWord >> 8; buffer[i + 1] = dataWord; }] *)
Fixpoint read_words (n : nat) (buffer : list Z) (i : nat) : M (list Z) :=
  match n with
  | O => ret buffer
  | S k =>
      v <- spi_write 0xFFFF ;;
      let dataWord := to_uint16 v in
      read_words k
        (poke (poke buffer i (to_char (Z.shiftr dataWord 8)))
              (S i) (to_char dataWord))
        (S (S i))
  end.

(** The payload and the CRC16 trailer, in the current frame mode. *)
Definition read_payload (buffer : list Z) (off length : nat)
  : M (list Z * Z) :=
  large <- get m_LargeFrames ;;
  if large then
    spi_format 16 ;;
    b <- read_words (Nat.div2 (S length)) buffer off ;;
    c <- spi_write 0xFFFF ;;
    spi_format 8 ;;
    ret (b, to_uint16 c)
  else
    b <- read_bytes length buffer off ;;
    hi <- spi_write 0xFF ;;
    lo <- spi_write 0xFF ;;
    ret (b, to_uint16 (Z.lor (Z.shiftl hi 8) lo)).

Definition readData (buffer : list Z) (off length : nat)
  : M (bool * list Z) :=
  token <- recv_token 200 0 ;;
  if negb (token =? 0xFE) then ret (false, buffer)
  else
    r <- read_payload buffer off length ;;
    crc_on <- get m_Crc ;;
    ret (negb crc_on || (snd r =? CRC16 (slice (fst r) off length)), fst r).

(** [while (!m_Spi.write(0xFF));] *)
Fixpoint wait_busy (fuel : nat) : P unit :=
  match fuel with
  | O => fun _ => None
  | S k =>
      v <~ liftP (spi_write 0xFF) ;;
      if v =? 0 then wait_busy k else retP tt
  end.

Fixpoint write_bytes (n : nat) (buffer : list Z) (i : nat) : M unit :=
  match n with
  | O => ret tt
  | S k => spi_write (peek buffer i) ;; write_bytes k buffer (S i)
  end.

Fixpoint write_words (n : nat) (buffer : list Z) (i : nat) : M unit :=
  match n with
  | O => ret tt
  | S k =>
      spi_write (Z.lor (Z.shiftl (peek buffer i) 8) (peek buffer (S i))) ;;
      write_words k buffer (S (S i))
  end.

Definition writeData (fuel : nat) (buffer : list Z) (off : nat) (token : Z)
  : P Z :=
  crc_on <~ liftP (get m_Crc) ;;
  let crc := if crc_on : bool then CRC16 (slice buffer off 512) else 0xFFFF in
  wait_busy fuel ;;;
  liftP (
    spi_write token ;;
    large <- get m_LargeFrames ;;
    (if large then
       spi_format 16 ;;
       write_words 256 buffer off ;;
       spi_write crc ;;
       spi_format 8
     else
       write_bytes 512 buffer off ;;
       spi_write (Z.shiftr crc 8) ;;
       spi_write crc ;;
       ret tt) ;;
    v <- spi_write 0xFF ;;
    ret (Z.land v 0x1F)).

(** ** Block I/O *)

(** [(m_CardType == CARD_SDHC) ? lba : lba * 512], as the 32-bit
    argument of a command. *)
Definition block_addr (ct : CardType) (lba : Z) : Z :=
  to_uint32 (if CardType_eqb ct CARD_SDHC then lba else to_uint64 (lba * 512)).

(** After the loop: [deselect(); return false;] *)
Definition read_failed (buffer : list Z) : M (bool * list Z) :=
  deselect ;; ret (false, buffer).

Fixpoint readBlock_loop (n : nat) (buffer : list Z) (lba : Z)
  : M (bool * list Z) :=
  match n with
  | O => read_failed buffer
  | S k =>
      ok <- select ;;
      if negb ok then read_failed buffer
      else
        ct <- get m_CardType ;;
        token <- token_of (command CMD17 (block_addr ct lba) None) ;;
        if token =? 0x00 then
          r <- readData buffer 0 512 ;;
          deselect ;;
          if fst r then ret (true, snd r)
          else readBlock_loop k (snd r) lba
        else read_failed buffer
  end.

Definition readBlock (buffer : list Z) (lba : Z) : M (bool * list Z) :=
  readBlock_loop 3 buffer lba.

(** The variables of a multiple block transfer. *)
Record Cursor : Type := mkCursor {
  c_mem : list Z;
  c_off : nat;
  c_lba : Z;
  c_count : Z;
  c_f : Z;
  c_token : Z
}.

(** The [do { ... } while (--count);] loop of [readBlocks]. *)
Fixpoint readBlocks_stream (fuel : nat) (c : Cursor) : P Cursor :=
  match fuel with
  | O => fun _ => None
  | S k =>
      r <~ liftP (readData (c_mem c) (c_off c) 512) ;;
      if negb (fst r) then
        retP (mkCursor (snd r) (c_off c) (c_lba c) (c_count c)
                       (to_int32 (c_f c + 1)) (c_token c))
      else
        let c1 := mkCursor (snd r) (c_off c + 512)%nat
                           (to_uint64 (c_lba c + 1))
                           (to_int32 (c_count c - 1)) 0 (c_token c) in
        if negb (c_count c1 =? 0) then readBlocks_stream k c1
        else retP c1
  end.

Definition readBlocks_failed (c : Cursor) : P (bool * list Z) :=
  liftP (read_failed (c_mem c)).

(** The [for (f = 0; f < 3;)] loop of [readBlocks]. *)
Fixpoint readBlocks_loop (fuel : nat) (c : Cursor) : P (bool * list Z) :=
  match fuel with
  | O => fun _ => None
  | S k =>
      if negb (c_f c <? 3) then readBlocks_failed c
      else
        ok <~ liftP select ;;
        if negb ok then readBlocks_failed c
        else
          ct <~ liftP (get m_CardType) ;;
          token <~ liftP (token_of
                            (command CMD18 (block_addr ct (c_lba c)) None)) ;;
          if token =? 0x00 then
            c1 <~ readBlocks_stream fuel c ;;
            token <~ liftP (token_of (command CMD12 0x00000000 None)) ;;
            if negb (token =? 0x00) then readBlocks_failed c1
            else
              (if negb (c_count c1 =? 0) then wait_busy fuel else retP tt) ;;;
              liftP deselect ;;;
              if c_count c1 =? 0 then retP (true, c_mem c1)
              else readBlocks_loop k c1
          else readBlocks_failed c
  end.

Definition readBlocks (fuel : nat) (buffer : list Z) (lba : Z) (count : Z)
  : P (bool * list Z) :=
  readBlocks_loop fuel (mkCursor buffer 0 lba count 0 0).

(** After the loop: [deselect(); return false;] *)
Definition write_failed : P bool :=
  liftP (deselect ;; ret false).

(** CMD13(0x00000000): both R1 and the R2 byte must be zero. *)
Definition programming_ok : M bool :=
  r <- commandTransaction CMD13 0x00000000 (Some 0) ;;
  ret (negb (negb (fst r =? 0x00) || negb (deref (snd r) =? 0x00))).

Fixpoint writeBlock_loop (fuel : nat) (n : nat) (buffer : list Z) (lba : Z)
  : P bool :=
  match n with
  | O => write_failed
  | S k =>
      ok <~ liftP select ;;
      if negb ok then write_failed
      else
        ct <~ liftP (get m_CardType) ;;
        token <~ liftP (token_of
                          (command CMD24 (block_addr ct lba) None)) ;;
        if token =? 0x00 then
          token <~ writeData fuel buffer 0 0xFE ;;
          liftP deselect ;;;
          if token =? 0x0A then writeBlock_loop fuel k buffer lba
          else if token =? 0x0C then write_failed
          else
            ok <~ liftP programming_ok ;;
            if negb ok then write_failed
            else retP true
        else write_failed
  end.

Definition writeBlock (fuel : nat) (buffer : list Z) (lba : Z) : P bool :=
  writeBlock_loop fuel 3 buffer lba.

(** The [do { ... } while (--currentCount);] loop of [writeBlocks]. *)
Fixpoint writeBlocks_stream (fuel : nat) (c : Cursor) : P Cursor :=
  match fuel with
  | O => fun _ => None
  | S k =>
      token <~ writeData fuel (c_mem c) (c_off c) 0xFC ;;
      if negb (token =? 0x05) then
        retP (mkCursor (c_mem c) (c_off c) (c_lba c) (c_count c)
                       (to_int32 (c_f c + 1)) token)
      else
        let c1 := mkCursor (c_mem c) (c_off c + 512)%nat (c_lba c)
                           (to_int32 (c_count c - 1)) 0 token in
        if negb (c_count c1 =? 0) then writeBlocks_stream k c1
        else retP c1
  end.

(** ACMD22(0x00000000) and the four bytes that follow. *)
Definition well_written_blocks : M Z :=
  ct <- get m_CardType ;;
  if negb (CardType_eqb ct CARD_MMC) then
    token <- token_of (commandTransaction ACMD22 0x00000000 None) ;;
    if token =? 0x00 then
      r <- readData [0; 0; 0; 0] 0 4 ;;
      if fst r then
        let acmdData := snd r in
        ret (to_uint32
               (Z.lor (Z.lor (Z.lor (Z.shiftl (peek acmdData 0) 24)
                                    (Z.shiftl (peek acmdData 1) 16))
                             (Z.shiftl (peek acmdData 2) 8))
                      (peek acmdData 3)))
      else ret 0
    else ret 0
  else ret 0.

(** The [for (f = 0; f < 3;)] loop of [writeBlocks]; [lba] and [count]
    are the arguments of the call, the cursor holds [currentBuffer],
    [currentLba], [currentCount], [f] and [token]. *)
Fixpoint writeBlocks_loop (fuel : nat) (lba count : Z) (c : Cursor) : P bool :=
  match fuel with
  | O => fun _ => None
  | S k =>
      if negb (c_f c <? 3) then write_failed
      else
        ct <~ liftP (get m_CardType) ;;
        erase <~ liftP (if negb (CardType_eqb ct CARD_MMC) then
                          token_of (commandTransaction ACMD23
                                      (to_uint32 (c_count c)) None)
                        else ret 0x00) ;;
        if negb (erase =? 0x00) then write_failed
        else
          ok <~ liftP select ;;
          if negb ok then write_failed
          else
            token <~ liftP (token_of
                              (command CMD25 (block_addr ct (c_lba c)) None)) ;;
            if token =? 0x00 then
              c1 <~ writeBlocks_stream fuel c ;;
              wait_busy fuel ;;;
              if c_count c1 =? 0 then
                liftP (spi_write 0xFD) ;;;
                wait_busy fuel ;;;
                liftP deselect ;;;
                ok <~ liftP programming_ok ;;
                if negb ok then write_failed
                else retP true
              else
                token <~ liftP (token_of (command CMD12 0x00000000 None)) ;;
                if negb (token =? 0x00) then write_failed
                else
                  wait_busy fuel ;;;
                  liftP deselect ;;;
                  if c_token c1 =? 0x0A then
                    writtenBlocks <~ liftP well_written_blocks ;;
                    writeBlocks_loop k lba count
                      (mkCursor (c_mem c1)
                                (Z.to_nat (to_uint32 (writtenBlocks * 512)))
                                (to_uint64 (lba + writtenBlocks))
                                (to_int32 (count - writtenBlocks))
                                (c_f c1) (c_token c1))
                  else write_failed
            else write_failed
  end.

Definition writeBlocks (fuel : nat) (buffer : list Z) (lba : Z) (count : Z)
  : P bool :=
  writeBlocks_loop fuel lba count (mkCursor buffer 0 lba count 0 0).

(** ** Block-device facade *)

Definition disk_read (fuel : nat) (buffer : list Z) (sector : Z) (count : Z)
  : P (Z * list Z) :=
  let sector := to_uint64 sector in
  let count := to_char count in
  noinit <~ liftP (get (status_has STA_NOINIT)) ;;
  if noinit then retP (RES_NOTRDY, buffer)
  else
    r <~ (if count >? 1 then readBlocks fuel buffer sector count
          else liftP (readBlock buffer sector)) ;;
    if fst r then retP (RES_OK, snd r)
    else retP (RES_ERROR, snd r).

Definition disk_write (fuel : nat) (buffer : list Z) (sector : Z) (count : Z)
  : P Z :=
  let sector := to_uint64 sector in
  let count := to_char count in
  noinit <~ liftP (get (status_has STA_NOINIT)) ;;
  if noinit then retP RES_NOTRDY
  else
    protect <~ liftP (get (status_has STA_PROTECT)) ;;
    if protect then retP RES_WRPRT
    else
      ok <~ (if count >? 1 then writeBlocks fuel buffer sector count
             else writeBlock fuel buffer sector) ;;
      if ok then retP RES_OK
      else retP RES_ERROR.

(** The decoding of the CSD register at the end of [disk_sectors]; the
    arithmetic is done in [int] and widened to [uint64_t]. *)
Definition csd_sectors (csd : list Z) : Z :=
  if Z.shiftr (peek csd 0) 6 =? 0x01 then
    let size :=
      to_uint64 (to_int32
        (Z.lor (Z.lor (Z.shiftl (Z.land (peek csd 7) 0x3F) 16)
                      (Z.shiftl (peek csd 8) 8))
               (peek csd 9) + 1)) in
    to_uint64 (Z.shiftl size 10)
  else
    let size :=
      to_uint64 (to_int32
        (Z.lor (Z.lor (Z.shiftl (Z.land (peek csd 6) 0x03) 10)
                      (Z.shiftl (peek csd 7) 2))
               (Z.shiftr (Z.land (peek csd 8) 0xC0) 6) + 1)) in
    let size :=
      to_uint64 (Z.shiftl size
        (Z.lor (Z.shiftl (Z.land (peek csd 9) 0x03) 1)
               (Z.shiftr (Z.land (peek csd 10) 0x80) 7) + 2)) in
    let size := to_uint64 (Z.shiftl size (Z.land (peek csd 5) 0x0F)) in
    Z.shiftr size 9.

Fixpoint disk_sectors_loop (n : nat) : M Z :=
  match n with
  | O => deselect ;; ret 0
  | S k =>
      ok <- select ;;
      if negb ok then deselect ;; ret 0
      else
        token <- token_of (command CMD9 0x00000000 None) ;;
        if token =? 0x00 then
          r <- readData (repeat 0 16) 0 16 ;;
          deselect ;;
          if fst r then ret (csd_sectors (snd r))
          else disk_sectors_loop k
        else deselect ;; ret 0
  end.

Definition disk_sectors : M Z :=
  noinit <- get (status_has STA_NOINIT) ;;
  if noinit then ret 0
  else disk_sectors_loop 3.

(** * Observations and specifications *)

Definition keeps {X A} (f : SDFileSystem -> X) (m : M A) : Prop :=
  forall s, f (snd (m s)) = f s.

Definition keepsP {X A} (f : SDFileSystem -> X) (m : P A) : Prop :=
  forall s a s', m s = Some (a, s') -> f s' = f s.

(** The invariant of the status bits. *)
Definition nodisk_implies_noinit (s : SDFileSystem) : Prop :=
  status_has STA_NODISK s = true -> status_has STA_NOINIT s = true.

(** The [STA_NODISK] bit, as initialization sees it. *)
Definition nodisk_bit (s : SDFileSystem) : Z := Z.land (m_Status s) STA_NODISK.

(** ** The public operations as a transition system *)

Inductive Op : Type :=
| OpDiskInitialize
| OpDiskStatus
| OpDiskRead (buffer : list Z) (sector count : Z)
| OpDiskWrite (buffer : list Z) (sector count : Z)
| OpDiskSync
| OpDiskSectors
| OpUnmount
| OpCardType
| OpCrc
| OpSetCrc (enabled : bool)
| OpLargeFrames
| OpSetLargeFrames (enabled : bool)
| OpCheckSocket.

Definition forget {A} (m : M A) : P unit := liftP (m ;; ret tt).

Definition forgetP {A} (m : P A) : P unit := m ;;; retP tt.

Definition run_op (fuel : nat) (op : Op) : P unit :=
  match op with
  | OpDiskInitialize => forget disk_initialize
  | OpDiskStatus => forget disk_status
  | OpDiskRead buffer sector count => forgetP (disk_read fuel buffer sector count)
  | OpDiskWrite buffer sector count =>
      forgetP (disk_write fuel buffer sector count)
  | OpDiskSync => forget disk_sync
  | OpDiskSectors => forget disk_sectors
  | OpUnmount => forget unmount
  | OpCardType => forget card_type
  | OpCrc => forget crc
  | OpSetCrc enabled => forget (set_crc enabled)
  | OpLargeFrames => forget large_frames
  | OpSetLargeFrames enabled => forget (set_large_frames enabled)
  | OpCheckSocket => forget checkSocket
  end.

(** An operation takes [s] to [s'] when it returns there. *)
Definition step (op : Op) (s s' : SDFileSystem) : Prop :=
  exists fuel, run_op fuel op s = Some (tt, s').

Inductive reachable : SDFileSystem -> Prop :=
| reach_construct card pin cdtype hz0 :
    reachable (construct card pin cdtype hz0)
| reach_step op s s' :
    reachable s -> step op s s' -> reachable s'.


(** ** Scripted cards

    A card is scripted by the list of frames it shifts out; once the
    script is over the data line idles high. *)

Definition idle (k : nat) : list Z := repeat 0xFF k.

Definition card_of (script : list Z) : nat -> Z :=
  fun n => nth n script 0xFF.

(** What the card shifts out during one [commandTransaction] of a plain
    command that it answers at once: two idle frames for [select], six
    under the packet, R1, the rest of the response, one for [deselect]. *)
Definition reply (r1 : Z) (extra : list Z) : list Z :=
  idle 2 ++ idle 6 ++ [r1] ++ extra ++ idle 1.

(** The same for an application command: CMD55 first, answered [r55],
    one dummy frame, then the command itself. *)
Definition app_reply (r55 r1 : Z) : list Z :=
  idle 2 ++ idle 6 ++ [r55] ++ idle 1 ++ idle 6 ++ [r1] ++ idle 1.

(** A socket whose detect switch reads [pin] at every sample, asserted
    level 0, and a 30 MHz target frequency. *)
Definition socket (script : list Z) (pin : Z) : SDFileSystem :=
  construct (card_of script) (fun _ => pin) 0 30000000.

(** ** The claims that the code does not meet, as they are stated *)

(** Construction leaves both NotInitialized and NoDisk set. *)
Definition constructed_with_both_flags : Prop :=
  forall card pin cdtype hz0,
    let s := construct card pin cdtype hz0 in
    status_has STA_NOINIT s = true /\ status_has STA_NODISK s = true
    /\ m_CardType s = CARD_NONE.

(** ** CSD register, version 2 *)

(** C_SIZE of a version 2 CSD, in the words of the specification:
    [((csd[7] & 0x3F) << 16) | (csd[8] << 8) | csd[9]]. *)
Definition csd_v2_c_size (csd : list Z) : Z :=
  Z.lor (Z.lor (Z.shiftl (Z.land (peek csd 7) 0x3F) 16)
               (Z.shiftl (peek csd 8) 8))
        (peek csd 9).

Definition is_byte (z : Z) : Prop := 0 <= z < 256.

(** The CSD of an 8 GB card, and the card that sends it in answer to
    CMD9 with a start token and the CRC16 trailer. *)
Definition csd_8gb : list Z :=
  [0x40; 0x0E; 0x00; 0x32; 0x5B; 0x59; 0x00; 0x00;
   0x3B; 0x4F; 0x7F; 0x80; 0x0A; 0x40; 0x00; 0x01].

Definition csd_script (csd : list Z) : list Z :=
  idle 2 ++ idle 6 ++ [0x00] ++ [0xFE] ++ csd
  ++ [Z.shiftr (CRC16 csd) 8; Z.land (CRC16 csd) 0xFF] ++ idle 1.

(** An initialized driver in front of the card [script]. *)
Definition initialized (script : list Z) : SDFileSystem :=
  set_CardType CARD_SDHC (set_Status 0 (socket script 0)).

(** C2 as stated, on its example: a version 2 CSD read by [disk_sectors]
    with [csd[7..9] = 0x00, 0x3B, 0x4F] gives 15,552,512 sectors. *)
Definition csd_v2_example_as_stated : Prop :=
  forall s,
    let s1 := snd (select s) in
    let s2 := snd (command CMD9 0x00000000 None s1) in
    let r := readData (repeat 0 16) 0 16 s2 in
    let csd := snd (fst r) in
    status_has STA_NOINIT s = false ->
    fst (select s) = true ->
    fst (fst (command CMD9 0x00000000 None s1)) = 0x00 ->
    fst (fst r) = true ->
    Z.shiftr (peek csd 0) 6 = 0x01 ->
    peek csd 7 = 0x00 -> peek csd 8 = 0x3B -> peek csd 9 = 0x4F ->
    fst (disk_sectors s) = 15552512.

(** ** The response window and the retry discipline *)

(** The [i]-th frame that the card shifts out from now on, as the
    driver sees it in a [char]. *)
Definition rx (s : SDFileSystem) (i : nat) : Z :=
  to_char (Z.land (miso (m_Spi s) (xfers (m_Spi s) + i)%nat)
                  (Z.ones (bits (m_Spi s)))).

(** An R1 token that reports a CRC error: a response (not 0xFF) with
    bit 3 set. *)
Definition crc_error (t : Z) : Prop := t <> 0xFF /\ Z.testbit t 3 = true.

(** The R1 tokens that a call logged for its own command. *)
Definition own_tokens (cmd : Command) (evs : list CmdEvent) : list Z :=
  map ev_r1 (filter (fun e => Command_eqb (ev_cmd e) cmd) evs).

(** C6 as stated: the R1 of a command is found within 8 reads after
    the packet (the first byte with bit 7 clear, else the 8th). *)
Definition r1_within_8_reads : Prop :=
  forall cmd arg resp s,
    is_app_cmd cmd = false ->
    let s0 := snd (transmit cmd arg s) in
    exists i rest,
      (i < 8)%nat
      /\ cmd_log (snd (command cmd arg resp s))
         = cmd_log s ++ mkCmdEvent cmd arg (rx s0 i) :: rest
      /\ (forall j, (j < i)%nat -> Z.land (rx s0 j) 0x80 <> 0)
      /\ (Z.land (rx s0 i) 0x80 <> 0 -> i = 7%nat).

(** A card that answers CMD17 with 0x00 after eight idle frames. *)
Definition late_answer : SDFileSystem :=
  socket (idle 6 ++ idle 8 ++ [0x00]) 0.

(** A card that answers every CMD17 with R1 = 0x09 (CRC error). *)
Definition crc_rejecting : SDFileSystem :=
  socket (idle 6 ++ [0x09] ++ idle 6 ++ [0x09] ++ idle 6 ++ [0x09]) 0.

(** ** What a data transfer receives *)

(** The [i]-th frame from now on, read with frames of [w] bits. *)
Definition frame (w : Z) (s : SDFileSystem) (i : nat) : Z :=
  Z.land (miso (m_Spi s) (xfers (m_Spi s) + i)%nat) (Z.ones w).

(** [s'] is [s] after [k] more transfers in the same frame format. *)
Definition spi_after (k : nat) (s s' : SDFileSystem) : Prop :=
  miso (m_Spi s') = miso (m_Spi s)
  /\ xfers (m_Spi s') = (xfers (m_Spi s) + k)%nat
  /\ bits (m_Spi s') = bits (m_Spi s).

(** Byte [m] of a payload received in 16-bit frames, high byte first. *)
Definition wide_byte (s : SDFileSystem) (m : nat) : Z :=
  let w := to_uint16 (frame 16 s (Nat.div2 m)) in
  if Nat.even m then to_char (Z.shiftr w 8) else to_char w.

(** The [len] bytes of the data block that starts at the next frame. *)
Definition received_data (s : SDFileSystem) (len : nat) : list Z :=
  map (fun m => if m_LargeFrames s then wide_byte s m
                else to_char (frame 8 s m))
      (seq 0 len).

(** The 16-bit trailer that follows them. *)
Definition received_crc (s : SDFileSystem) (len : nat) : Z :=
  if m_LargeFrames s then to_uint16 (frame 16 s (Nat.div2 (S len)))
  else to_uint16 (Z.lor (Z.shiftl (frame 8 s len) 8) (frame 8 s (S len))).

(** The bytes that [readData] stores for a block of [len] bytes. *)
Definition stored_bytes (s : SDFileSystem) (len : nat) : nat :=
  if m_LargeFrames s then (2 * Nat.div2 (S len))%nat else len.

(** A card that sends, at once, a start token, four data bytes and
    their CRC16. *)
Definition four_bytes : list Z := [0xDE; 0xAD; 0xBE; 0xEF].

Definition sends_four_bytes : SDFileSystem :=
  initialized ([0xFE] ++ four_bytes
               ++ [Z.shiftr (CRC16 four_bytes) 8;
                   Z.land (CRC16 four_bytes) 0xFF]).

(** ** Budgets of the polls *)

(** [m] makes at most [bx] transfers and sleeps at most [be] ms,
    whatever the card sends. *)
Definition bounded {A} (m : M A) (bx be : nat) : Prop :=
  forall s,
    (xfers (m_Spi (snd (m s))) <= xfers (m_Spi s) + bx)%nat
    /\ (elapsed_ms (snd (m s)) <= elapsed_ms s + be)%nat.

(** C8 as stated, for the card-ready wait of [writeData]: some budget
    of transfers is enough for it to end, whatever the card sends. *)
Definition card_ready_wait_bounded : Prop :=
  exists budget : nat,
    forall buffer off token s, writeData budget buffer off token s <> None.

(** A card that holds its data line low for ever. *)
Definition stuck_low : SDFileSystem :=
  construct (fun _ => 0) (fun _ => 0) 0 30000000.

(** A card that is busy for three frames. *)
Definition busy_three : SDFileSystem := socket [0; 0; 0] 0.

(** ** The run of an initialization

    The transactions of [disk_initialize], each named with the state it
    starts from, so that "CMD0 returns 0x01" or "the OCR read by the
    second CMD58" can be said of a run that starts in [s]. *)

(** After the presence sample, and after the 80 dummy clocks. *)
Definition st_sampled (s : SDFileSystem) : SDFileSystem :=
  snd (checkSocket s).

Definition st_clocked (s : SDFileSystem) : SDFileSystem :=
  snd (init_clocks (st_sampled s)).

(** The card is present and not initialized: initialization starts. *)
Definition init_starts (s : SDFileSystem) : Prop :=
  status_has STA_NODISK (st_sampled s) = false
  /\ status_has STA_NOINIT (st_sampled s) = true.

Definition tx_cmd0 (s : SDFileSystem) : Z * option Z * SDFileSystem :=
  commandTransaction CMD0 0x00000000 None (st_clocked s).

Definition tx_cmd59 (s : SDFileSystem) : Z * option Z * SDFileSystem :=
  commandTransaction CMD59 0x00000001 None (snd (tx_cmd0 s)).

(** CMD0 returns 0x01, and CMD59 returns 0x01 when CRC is enabled. *)
Definition reset_accepted (s : SDFileSystem) : Prop :=
  fst (fst (tx_cmd0 s)) = 0x01
  /\ (m_Crc s = true -> fst (fst (tx_cmd59 s)) = 0x01).

(** The state in which CMD8 is sent. *)
Definition st_probe (s : SDFileSystem) : SDFileSystem :=
  if m_Crc s then snd (tx_cmd59 s) else snd (tx_cmd0 s).

Definition tx_cmd8 (s : SDFileSystem) : Z * option Z * SDFileSystem :=
  commandTransaction CMD8 0x000001AA (Some 0) (st_probe s).

(** The first CMD58, which both branches send next. *)
Definition tx_ocr (s : SDFileSystem) : Z * option Z * SDFileSystem :=
  commandTransaction CMD58 0x00000000 (snd (fst (tx_cmd8 s)))
                     (snd (tx_cmd8 s)).

(** The voltage check on it: R1 == 0x01 and OCR bit 20 set. *)
Definition ocr_accepted (s : SDFileSystem) : Prop :=
  fst (fst (tx_ocr s)) = 0x01
  /\ Z.land (deref (snd (fst (tx_ocr s)))) (Z.shiftl 1 20) <> 0.

(** The ACMD41(0x40100000) poll of the SDv2 branch and the second CMD58. *)
Definition poll_sdv2 (s : SDFileSystem) : Z * SDFileSystem :=
  init_poll 1000 ACMD41 0x40100000 0 (snd (tx_ocr s)).

Definition tx_ccs (s : SDFileSystem) : Z * option Z * SDFileSystem :=
  commandTransaction CMD58 0x00000000 (snd (fst (tx_ocr s)))
                     (snd (poll_sdv2 s)).

(** The checks of the SDv2 branch. *)
Definition sdv2_checks_pass (s : SDFileSystem) : Prop :=
  Z.land (deref (snd (fst (tx_cmd8 s)))) 0xFFF = 0x1AA
  /\ ocr_accepted s
  /\ fst (poll_sdv2 s) = 0x00
  /\ fst (fst (tx_ccs s)) = 0x00.

(** SDHC exactly when CCS, bit 30 of the OCR of the second CMD58, is set. *)
Definition kind_of_ccs (s : SDFileSystem) : CardType :=
  if Z.testbit (deref (snd (fst (tx_ccs s)))) 30 then CARD_SDHC else CARD_SD.

(** The ACMD41(0x00100000) and CMD1(0x00100000) polls of the other branch. *)
Definition poll_sdv1 (s : SDFileSystem) : Z * SDFileSystem :=
  init_poll 1000 ACMD41 0x00100000 0 (snd (tx_ocr s)).

Definition poll_mmc (s : SDFileSystem) : Z * SDFileSystem :=
  init_poll 1000 CMD1 0x00100000 (fst (poll_sdv1 s)) (snd (poll_sdv1 s)).

(** What follows the decision tree: CMD16(512) unless SDHC, ACMD42(0)
    unless MMC, both answered 0x00. *)
Definition configured (kind : CardType) (s : SDFileSystem) : bool :=
  let r16 := commandTransaction CMD16 0x00000200 None s in
  let ok16 := CardType_eqb kind CARD_SDHC || (fst (fst r16) =? 0x00) in
  let s16 := if CardType_eqb kind CARD_SDHC then s else snd r16 in
  let r42 := commandTransaction ACMD42 0x00000000 None s16 in
  ok16 && (CardType_eqb kind CARD_MMC || (fst (fst r42) =? 0x00)).

(** C1 as stated, on the SDv2 branch: the final card type is the one the
    decision tree chose. *)
Definition tree_decides_final_kind : Prop :=
  forall s,
    init_starts s -> reset_accepted s ->
    fst (fst (tx_cmd8 s)) = 0x01 -> sdv2_checks_pass s ->
    m_CardType (snd (disk_initialize s)) = kind_of_ccs s.

(** The cold start of an SDHC card (S1), with and without the answer
    to the ACMD42 that follows the decision tree. *)
Definition sdhc_tree_script : list Z :=
  idle 10 ++ reply 0x01 [] ++ reply 0x01 []
  ++ reply 0x01 [0x00; 0x00; 0x01; 0xAA]
  ++ reply 0x01 [0x40; 0x10; 0x00; 0x00]
  ++ app_reply 0x01 0x01 ++ app_reply 0x01 0x00
  ++ reply 0x00 [0xC0; 0x10; 0x00; 0x00].

Definition sdhc_card : SDFileSystem :=
  socket (sdhc_tree_script ++ app_reply 0x01 0x00) 0.

Definition sdhc_card_silent_on_acmd42 : SDFileSystem :=
  socket sdhc_tree_script 0.

(** The cold start of an MMC card (S2): CMD8 and the CMD55 of ACMD41
    are answered 0x05 (illegal command), CMD1 0x01 and then 0x00. *)
Definition mmc_card : SDFileSystem :=
  socket (idle 10 ++ reply 0x01 [] ++ reply 0x01 [] ++ reply 0x05 []
          ++ reply 0x01 [0x00; 0x10; 0x00; 0x00]
          ++ reply 0x05 [] ++ reply 0x01 [] ++ reply 0x00 []
          ++ reply 0x00 []) 0.

(** ** What a computation may log *)

(** Every frame that [m] logs is of a command accepted by [ok]. *)
Definition logs_only (ok : Command -> bool) {A} (m : M A) : Prop :=
  forall s,
    exists evs,
      cmd_log (snd (m s)) = cmd_log s ++ evs
      /\ Forall (fun e => ok (ev_cmd e) = true) evs.

(** Neither CMD0 nor CMD59. *)
Definition past_reset (c : Command) : bool :=
  negb (Command_eqb c CMD0) && negb (Command_eqb c CMD59).

(** A card that accepts CMD0 and answers CMD59 with 0x05 (illegal
    command), and the same driver with CRC disabled. *)
Definition refuses_cmd59 : SDFileSystem :=
  socket (idle 10 ++ reply 0x01 [] ++ reply 0x05 []) 0.

Definition crc_disabled (s : SDFileSystem) : SDFileSystem := set_Crc false s.

(** * Between two operations

    What the driver keeps from the return of one public operation to
    the call of the next. *)

(** [m] keeps [I]; [m] ends in [I] wherever it starts. *)
Definition preserves (I : SDFileSystem -> Prop) {A} (m : M A) : Prop :=
  forall s, I s -> I (snd (m s)).

Definition preservesP (I : SDFileSystem -> Prop) {A} (m : P A) : Prop :=
  forall s a s', I s -> m s = Some (a, s') -> I s'.

Definition establishes (I : SDFileSystem -> Prop) {A} (m : M A) : Prop :=
  forall s, I (snd (m s)).

Definition establishesP (I : SDFileSystem -> Prop) {A} (m : P A) : Prop :=
  forall s a s', m s = Some (a, s') -> I s'.

(** /CS is high: the card is not selected. *)
Definition cs_high (s : SDFileSystem) : Prop := m_Cs s = 1.

(** The bus is in the 8-bit frame format. *)
Definition byte_frames (s : SDFileSystem) : Prop := bits (m_Spi s) = 8.

(** The [STA_PROTECT] bit of the status. *)
Definition protect_bit (s : SDFileSystem) : Z :=
  Z.land (m_Status s) STA_PROTECT.

(** The driver does not see the card as write protected. *)
Definition unprotected (s : SDFileSystem) : Prop := protect_bit s = 0.

(** ** Ready for block transfers *)

(** A card type that the block operations work with. *)
Definition usable (ct : CardType) : bool :=
  match ct with
  | CARD_MMC | CARD_SD | CARD_SDHC => true
  | CARD_NONE | CARD_UNKNOWN => false
  end.

(** The clock limit of a card: 20 MHz for MMC, 25 MHz for SD. *)
Definition speed_limit (ct : CardType) : Z :=
  match ct with CARD_MMC => 20000000 | _ => 25000000 end.

(** [m] started where [Pre] holds ends where [Post] holds. *)
Definition hoare (Pre : SDFileSystem -> Prop) {A} (m : M A)
                 (Post : SDFileSystem -> Prop) : Prop :=
  forall s, Pre s -> Post (snd (m s)).

(** While initialization runs: the status and the target frequency are
    the ones it started with. *)
Definition initializing (st fr : Z) (s : SDFileSystem) : Prop :=
  m_Status s = st /\ m_FREQ s = fr.

(** The card type has been decided. *)
Definition decided (st fr : Z) (s : SDFileSystem) : Prop :=
  initializing st fr s /\ usable (m_CardType s) = true.

(** The two ways initialization ends: failed, the status untouched and
    the card type unknown; or done, [STA_NOINIT] cleared, the card type
    usable and the clock at the target frequency or at the limit of the
    card. *)
Definition init_outcome (st fr : Z) (s : SDFileSystem) : Prop :=
  m_FREQ s = fr
  /\ ((m_Status s = st /\ m_CardType s = CARD_UNKNOWN)
      \/ (m_Status s = Z.land st (Z.lnot STA_NOINIT)
          /\ usable (m_CardType s) = true
          /\ hz (m_Spi s) = Z.min fr (speed_limit (m_CardType s)))).

(** Initialized exactly when the card type is usable, and then clocked
    at full speed. *)
Definition ready_consistent (s : SDFileSystem) : Prop :=
  (status_has STA_NOINIT s = false <-> usable (m_CardType s) = true)
  /\ (status_has STA_NOINIT s = false ->
      hz (m_Spi s) = Z.min (m_FREQ s) (speed_limit (m_CardType s))).

(** ** The response variable *)

(** The commands whose response has a value after R1: R2 for CMD13,
    R7 for CMD8, R3 for CMD58. *)
Definition has_response_value (cmd : Command) : bool :=
  Command_eqb cmd CMD13 || Command_eqb cmd CMD8 || Command_eqb cmd CMD58.

(** What a call may do to [*resp]: leave it as it is, or assign it in a
    call that has a variable for it, for a command with a response
    value, and that returns an R1 of 0x00 or 0x01. *)
Definition resp_discipline (cmd : Command) (resp : option Z)
                           (r : Z * option Z) : Prop :=
  snd r = resp
  \/ (0 <= fst r <= 1 /\ has_response_value cmd = true
      /\ exists old v, resp = Some old /\ snd r = Some v /\ 0 <= v < 2 ^ 32).

(** ** What a data block looks like on the wire *)

(** The 16-bit frames of a block sent in wide frames: each frame has an
    even byte in its high half and the next byte in its low half. *)
Fixpoint pack_words (data : list Z) : list Z :=
  match data with
  | hi :: lo :: rest => Z.lor (Z.shiftl hi 8) lo :: pack_words rest
  | _ => []
  end.

(** The two bytes of each frame, high byte first. *)
Definition unpack_words (frames : list Z) : list Z :=
  flat_map (fun w => [Z.shiftr w 8; Z.land w 0xFF]) frames.

(** The frames that [writeData] shifts out after the card-ready wait,
    in the order they go out: the token, the block, the CRC16 (or
    0xFFFF), and the 0xFF under which the data response comes back. *)
Definition block_on_wire (large : bool) (token : Z) (data : list Z) (crc : Z)
  : list Z :=
  [token]
  ++ (if large then pack_words data ++ [to_uint16 crc]
      else data ++ [to_char (Z.shiftr crc 8); to_char crc])
  ++ [0xFF].

(** [s'] is [s] after the frames of [l] have been shifted out, first
    frame first. *)
Definition sent (l : list Z) (s s' : SDFileSystem) : Prop :=
  mosi (m_Spi s') = rev l ++ mosi (m_Spi s)
  /\ miso (m_Spi s') = miso (m_Spi s)
  /\ xfers (m_Spi s') = (xfers (m_Spi s) + length l)%nat.

(** ** CSD register, version 1 *)

(** The three fields of a version 1 CSD that give the capacity:
    C_SIZE (12 bits), C_SIZE_MULT (3 bits) and READ_BL_LEN (4 bits). *)
Definition csd_v1_c_size (csd : list Z) : Z :=
  Z.lor (Z.lor (Z.shiftl (Z.land (peek csd 6) 0x03) 10)
               (Z.shiftl (peek csd 7) 2))
        (Z.shiftr (Z.land (peek csd 8) 0xC0) 6).

Definition csd_v1_c_size_mult (csd : list Z) : Z :=
  Z.lor (Z.shiftl (Z.land (peek csd 9) 0x03) 1)
        (Z.shiftr (Z.land (peek csd 10) 0x80) 7).

Definition csd_v1_read_bl_len (csd : list Z) : Z := Z.land (peek csd 5) 0x0F.

(** The CSD of a 2 GB standard capacity card: C_SIZE = 3771,
    C_SIZE_MULT = 7, READ_BL_LEN = 10. *)
Definition csd_2gb : list Z :=
  [0x00; 0x26; 0x00; 0x32; 0x5F; 0x5A; 0x83; 0xAE;
   0xFE; 0xFB; 0xCF; 0xFF; 0x92; 0x80; 0x40; 0xDF].

(** ** What an operation sends *)

(** The frames logged since the log was [l0] all satisfy [Q], and the
    card type is [ct]. *)
Definition emitting (Q : CmdEvent -> Prop) (ct : CardType)
                    (l0 : list CmdEvent) (s : SDFileSystem) : Prop :=
  m_CardType s = ct
  /\ exists evs, cmd_log s = l0 ++ evs /\ Forall Q evs.

(** The address of block [lba] as a card of type [ct] takes it: the
    block number for SDHC, the byte offset for the others, in 32 bits. *)
Definition wire_address (ct : CardType) (lba : Z) : Z :=
  (match ct with CARD_SDHC => lba | _ => lba * 512 end) mod 2 ^ 32.

(** The frames of a single block read, and of any read. *)
Definition single_read_event (ct : CardType) (lba : Z) (e : CmdEvent) : Prop :=
  ev_cmd e = CMD17 /\ ev_arg e = wire_address ct lba.

Definition read_event (ct : CardType) (lba : Z) (e : CmdEvent) : Prop :=
  single_read_event ct lba e
  \/ ev_cmd e = CMD18
  \/ (ev_cmd e = CMD12 /\ ev_arg e = 0).

(** The frames of a single block write, and of any write. *)
Definition single_write_event (ct : CardType) (lba : Z) (e : CmdEvent)
  : Prop :=
  (ev_cmd e = CMD24 /\ ev_arg e = wire_address ct lba)
  \/ (ev_cmd e = CMD13 /\ ev_arg e = 0).

Definition write_event (ct : CardType) (lba : Z) (e : CmdEvent) : Prop :=
  single_write_event ct lba e
  \/ (ev_cmd e = CMD55 /\ ev_arg e = 0)
  \/ ev_cmd e = ACMD23
  \/ ev_cmd e = CMD25
  \/ (ev_cmd e = CMD12 /\ ev_arg e = 0)
  \/ (ev_cmd e = ACMD22 /\ ev_arg e = 0).

(** ** What a read returns *)

(** [s] is further down the output stream of the card than [s0], with
    the same settings. *)
Definition same_stream (s0 s : SDFileSystem) : Prop :=
  miso (m_Spi s) = miso (m_Spi s0)
  /\ (xfers (m_Spi s0) <= xfers (m_Spi s))%nat
  /\ m_Crc s = m_Crc s0
  /\ m_LargeFrames s = m_LargeFrames s0.

Definition streaming (s0 s : SDFileSystem) : Prop :=
  same_stream s0 s /\ byte_frames s.

(** [block] came out of the card during a call that started in [s]:
    the card sent the start token 0xFE, then the bytes of [block], then
    a trailer that is the CRC16 of [block] when CRC is enabled. *)
Definition block_received (s : SDFileSystem) (block : list Z) : Prop :=
  exists s1,
    same_stream s s1
    /\ (xfers (m_Spi s) < xfers (m_Spi s1))%nat
    /\ to_char (Z.land (miso (m_Spi s) (xfers (m_Spi s1) - 1)) (Z.ones 8))
       = 0xFE
    /\ block = received_data s1 (length block)
    /\ (m_Crc s = true -> received_crc s1 (length block) = CRC16 block).

(** ** What a write reports *)

(** [m] started where [Pre] holds returns [a] in a state where
    [Post a] holds. *)
Definition ensuresP (Pre : SDFileSystem -> Prop) {A} (m : P A)
                    (Post : A -> SDFileSystem -> Prop) : Prop :=
  forall s a s', Pre s -> m s = Some (a, s') -> Post a s'.

Definition any_event (e : CmdEvent) : Prop := True.

(** The log has grown since [l0]. *)
Definition logging (ct : CardType) (l0 : list CmdEvent) (s : SDFileSystem)
  : Prop :=
  emitting any_event ct l0 s.

(** The last frame logged since [l0] is CMD13(0), answered 0x00. *)
Definition verified (l0 : list CmdEvent) (s : SDFileSystem) : Prop :=
  exists pre, cmd_log s = l0 ++ pre ++ [mkCmdEvent CMD13 0 0x00].

(** A write that reports success has been verified. *)
Definition checked_write (l0 : list CmdEvent) (ok : bool) (s : SDFileSystem)
  : Prop :=
  ok = true -> verified l0 s.

(** What a card shifts out during a single block write that it accepts:
    R1 = 0x00 for CMD24, ready at once, the data response 0x05 after
    the block, then CMD13 answered 0x00 with a status byte of 0x00. *)
Definition write_script : list Z :=
  idle 2 ++ idle 6 ++ [0x00]
  ++ idle 1 ++ idle (1 + 512 + 2) ++ [0x05] ++ idle 1
  ++ reply 0x00 [0x00].
(** * Properties of the driver *)

(** ** State passing *)

Lemma bind_run {A B} (m : M A) (k : A -> M B) (s : SDFileSystem) :
  bind m k s = k (fst (m s)) (snd (m s)).
Proof. unfold bind. destruct (m s); reflexivity. Qed.

Lemma ret_run {A} (a : A) (s : SDFileSystem) : ret a s = (a, s).
Proof. reflexivity. Qed.

Lemma get_run {A} (f : SDFileSystem -> A) (s : SDFileSystem) :
  get f s = (f s, s).
Proof. reflexivity. Qed.

Lemma modify_run (f : SDFileSystem -> SDFileSystem) (s : SDFileSystem) :
  modify f s = (tt, f s).
Proof. reflexivity. Qed.

Create Rewrite HintDb run.
#[export] Hint Rewrite @bind_run @ret_run @get_run modify_run : run.

Ltac run := repeat (autorewrite with run; cbn [fst snd negb andb orb]).

Lemma bind_eqn {A B} (m : M A) (k : A -> M B) s a s1 :
  m s = (a, s1) -> bind m k s = k a s1.
Proof. intros H. unfold bind. rewrite H. reflexivity. Qed.

Lemma token_of_eqn (m : M (Z * option Z)) s t r s1 :
  m s = ((t, r), s1) -> token_of m s = (t, s1).
Proof. intros H. unfold token_of. rewrite (bind_eqn _ _ _ _ _ H). reflexivity. Qed.

(** One step of symbolic execution: name the result of the first
    computation of a [bind] and continue with the rest. *)
Tactic Notation "mstep" ident(a) ident(s1) ident(E) :=
  match goal with
  | |- context [bind ?m ?k ?s] =>
      destruct (m s) as [a s1] eqn:E; rewrite (bind_eqn m k s _ _ E);
      cbn [fst snd] in *
  end.


Lemma bindP_some {A B} (m : P A) (k : A -> P B) s b s' :
  bindP m k s = Some (b, s') ->
  exists a s1, m s = Some (a, s1) /\ k a s1 = Some (b, s').
Proof.
  unfold bindP. destruct (m s) as [[a s1]|]; [|discriminate].
  intros H. exists a, s1. split; [reflexivity|exact H].
Qed.

Lemma liftP_some {A} (m : M A) s a s' :
  liftP m s = Some (a, s') -> m s = (a, s').
Proof. unfold liftP. intros H. injection H as H. exact H. Qed.

(** ** Frame conditions

    An observation [f] of the driver that does not look at the bus, the
    chip select or the clock is kept by everything below the command
    codec; when it does not look at the command log either, it is kept
    by the codec and by the block transfers as well. *)

Lemma keeps_ret {X A} (f : SDFileSystem -> X) (a : A) : keeps f (ret a).
Proof. intros s. reflexivity. Qed.

Lemma keeps_bind {X A B} (f : SDFileSystem -> X) (m : M A) (k : A -> M B) :
  keeps f m -> (forall a, keeps f (k a)) -> keeps f (bind m k).
Proof.
  intros Hm Hk s. rewrite bind_run, Hk, Hm. reflexivity.
Qed.

Lemma keeps_get {X A} (f : SDFileSystem -> X) (g : SDFileSystem -> A) :
  keeps f (get g).
Proof. intros s. reflexivity. Qed.

Lemma keeps_if {X A} (f : SDFileSystem -> X) (b : bool) (m1 m2 : M A) :
  keeps f m1 -> keeps f m2 -> keeps f (if b then m1 else m2).
Proof. destruct b; auto. Qed.

Lemma keepsP_ret {X A} (f : SDFileSystem -> X) (a : A) : keepsP f (retP a).
Proof. intros s a' s' H. injection H as _ H. subst. reflexivity. Qed.

Lemma keepsP_bind {X A B} (f : SDFileSystem -> X) (m : P A) (k : A -> P B) :
  keepsP f m -> (forall a, keepsP f (k a)) -> keepsP f (bindP m k).
Proof.
  intros Hm Hk s b s' H.
  apply bindP_some in H. destruct H as (a & s1 & H1 & H2).
  rewrite (Hk _ _ _ _ H2). exact (Hm _ _ _ H1).
Qed.

Lemma keepsP_lift {X A} (f : SDFileSystem -> X) (m : M A) :
  keeps f m -> keepsP f (liftP m).
Proof.
  intros Hm s a s' H. apply liftP_some in H.
  specialize (Hm s). rewrite H in Hm. exact Hm.
Qed.

Lemma keepsP_if {X A} (f : SDFileSystem -> X) (b : bool) (m1 m2 : P A) :
  keepsP f m1 -> keepsP f m2 -> keepsP f (if b then m1 else m2).
Proof. destruct b; auto. Qed.

Create HintDb keeps discriminated.
#[export] Hint Resolve keeps_ret keeps_get keeps_if keepsP_ret keepsP_lift
  keepsP_if : keeps.

Ltac keeps_step :=
  first [ solve [auto with keeps]
        | apply keeps_bind; [|intros ?]
        | apply keepsP_bind; [|intros ?]
        | apply keeps_if
        | apply keepsP_if
        | apply keepsP_lift
        | progress cbv zeta ].

Ltac keeps_tac := repeat keeps_step.

Section HardwareBlind.
Context {X : Type} (f : SDFileSystem -> X).
Hypothesis f_Spi : forall g s, f (set_Spi g s) = f s.
Hypothesis f_Cs : forall v s, f (set_Cs v s) = f s.
Hypothesis f_elapsed : forall v s, f (set_elapsed v s) = f s.

Lemma keeps_spi_write v : keeps f (spi_write v).
Proof. intros s. apply f_Spi. Qed.

Lemma keeps_spi_format b : keeps f (spi_format b).
Proof. intros s. apply f_Spi. Qed.

Lemma keeps_spi_frequency v : keeps f (spi_frequency v).
Proof. intros s. apply f_Spi. Qed.

Lemma keeps_cs_write v : keeps f (cs_write v).
Proof. intros s. apply f_Cs. Qed.

Lemma keeps_wait_ms n : keeps f (wait_ms n).
Proof. intros s. apply f_elapsed. Qed.

Hint Resolve keeps_spi_write keeps_spi_format keeps_spi_frequency
  keeps_cs_write keeps_wait_ms : keeps.

Lemma keeps_waitReady n : keeps f (waitReady n).
Proof. induction n; simpl; keeps_tac. Qed.

Lemma keeps_deselect : keeps f deselect.
Proof. unfold deselect. keeps_tac. Qed.

Hint Resolve keeps_waitReady keeps_deselect : keeps.

Lemma keeps_select : keeps f select.
Proof. unfold select. keeps_tac. Qed.

Lemma keeps_send_bytes l : keeps f (send_bytes l).
Proof. induction l; simpl; keeps_tac. Qed.

Lemma keeps_recv_r1 n token : keeps f (recv_r1 n token).
Proof. revert token. induction n; intros; simpl; keeps_tac. Qed.

Lemma keeps_read_response cmd resp : keeps f (read_response cmd resp).
Proof. unfold read_response. destruct resp; keeps_tac. Qed.

Hint Resolve keeps_select keeps_send_bytes keeps_recv_r1
  keeps_read_response : keeps.

Lemma keeps_transmit cmd arg : keeps f (transmit cmd arg).
Proof. unfold transmit. keeps_tac. Qed.

Lemma keeps_recv_token n token : keeps f (recv_token n token).
Proof. revert token. induction n; intros; simpl; keeps_tac. Qed.

Lemma keeps_read_bytes n buffer i : keeps f (read_bytes n buffer i).
Proof. revert buffer i. induction n; intros; simpl; keeps_tac. Qed.

Lemma keeps_read_words n buffer i : keeps f (read_words n buffer i).
Proof. revert buffer i. induction n; intros; simpl; keeps_tac. Qed.

Hint Resolve keeps_transmit keeps_recv_token keeps_read_bytes
  keeps_read_words : keeps.

Lemma keeps_read_payload buffer off len :
  keeps f (read_payload buffer off len).
Proof. unfold read_payload. keeps_tac. Qed.

Hint Resolve keeps_read_payload : keeps.

Lemma keeps_readData buffer off len : keeps f (readData buffer off len).
Proof. unfold readData. keeps_tac. Qed.

Lemma keeps_write_bytes n buffer i : keeps f (write_bytes n buffer i).
Proof. revert i. induction n; intros; simpl; keeps_tac. Qed.

Lemma keeps_write_words n buffer i : keeps f (write_words n buffer i).
Proof. revert i. induction n; intros; simpl; keeps_tac. Qed.

Lemma keepsP_wait_busy fuel : keepsP f (wait_busy fuel).
Proof.
  induction fuel; simpl; [intros s a s' H; discriminate|].
  keeps_tac.
Qed.

Hint Resolve keeps_readData keeps_write_bytes keeps_write_words
  keepsP_wait_busy : keeps.

Lemma keepsP_writeData fuel buffer off token :
  keepsP f (writeData fuel buffer off token).
Proof. unfold writeData. keeps_tac. Qed.

(** When the observation does not look at the command log either. *)
Hypothesis f_log : forall v s, f (set_log v s) = f s.

Lemma keeps_log_cmd c arg r1 : keeps f (log_cmd c arg r1).
Proof. intros s. apply f_log. Qed.

Hint Resolve keeps_log_cmd keepsP_writeData : keeps.

Lemma keeps_command_loop prefix n cmd arg resp token :
  keeps f prefix -> keeps f (command_loop prefix n cmd arg resp token).
Proof.
  intros Hp. revert token.
  induction n; intros; simpl; keeps_tac.
Qed.

Lemma keeps_command_depth d cmd arg resp :
  keeps f (command_depth d cmd arg resp).
Proof.
  revert cmd arg resp.
  induction d; intros; cbn [command_depth];
    [keeps_tac | apply keeps_command_loop; keeps_tac].
Qed.

Lemma keeps_command cmd arg resp : keeps f (command cmd arg resp).
Proof. apply keeps_command_depth. Qed.

Hint Resolve keeps_command : keeps.

Lemma keeps_commandTransaction cmd arg resp :
  keeps f (commandTransaction cmd arg resp).
Proof. unfold commandTransaction. keeps_tac. Qed.

Hint Resolve keeps_commandTransaction : keeps.

Lemma keeps_token_of m : keeps f m -> keeps f (token_of m).
Proof. intros H. unfold token_of. keeps_tac. Qed.

Hint Resolve keeps_token_of : keeps.

Lemma keeps_init_poll n cmd arg token : keeps f (init_poll n cmd arg token).
Proof. revert token. induction n; intros; simpl; keeps_tac. Qed.

Lemma keeps_disk_sync : keeps f disk_sync.
Proof. unfold disk_sync. keeps_tac. Qed.

Lemma keeps_read_failed buffer : keeps f (read_failed buffer).
Proof. unfold read_failed. keeps_tac. Qed.

Hint Resolve keeps_read_failed : keeps.

Lemma keeps_readBlock buffer lba : keeps f (readBlock buffer lba).
Proof.
  unfold readBlock. generalize 3%nat as n. intros n. revert buffer.
  induction n; intros; simpl; keeps_tac.
Qed.

Lemma keeps_disk_sectors_loop n : keeps f (disk_sectors_loop n).
Proof. induction n; simpl; keeps_tac. Qed.

Hint Resolve keeps_disk_sectors_loop : keeps.

Lemma keeps_disk_sectors : keeps f disk_sectors.
Proof. unfold disk_sectors. keeps_tac. Qed.

Lemma keeps_programming_ok : keeps f programming_ok.
Proof. unfold programming_ok. keeps_tac. Qed.

Lemma keeps_well_written_blocks : keeps f well_written_blocks.
Proof. unfold well_written_blocks. keeps_tac. Qed.

Hint Resolve keeps_readBlock keeps_programming_ok
  keeps_well_written_blocks : keeps.

Lemma keepsP_write_failed : keepsP f write_failed.
Proof. unfold write_failed. keeps_tac. Qed.

Hint Resolve keepsP_write_failed : keeps.

Lemma keepsP_writeBlock fuel buffer lba : keepsP f (writeBlock fuel buffer lba).
Proof.
  unfold writeBlock. generalize 3%nat as n.
  induction n; intros; simpl; keeps_tac.
Qed.

Lemma keepsP_readBlocks_stream fuel c : keepsP f (readBlocks_stream fuel c).
Proof.
  revert c. induction fuel; intros; simpl; [intros s a s' H; discriminate|].
  keeps_tac.
Qed.

Lemma keepsP_writeBlocks_stream fuel c : keepsP f (writeBlocks_stream fuel c).
Proof.
  revert c. induction fuel; intros; simpl; [intros s a s' H; discriminate|].
  keeps_tac.
Qed.

Hint Resolve keepsP_readBlocks_stream keepsP_writeBlocks_stream : keeps.

Lemma keepsP_readBlocks fuel buffer lba count :
  keepsP f (readBlocks fuel buffer lba count).
Proof.
  unfold readBlocks. generalize (mkCursor buffer 0 lba count 0 0) as c.
  induction fuel; intros; simpl; [intros s a s' H; discriminate|].
  unfold readBlocks_failed. keeps_tac.
Qed.

Lemma keepsP_writeBlocks fuel buffer lba count :
  keepsP f (writeBlocks fuel buffer lba count).
Proof.
  unfold writeBlocks. generalize (mkCursor buffer 0 lba count 0 0) as c.
  induction fuel; intros; simpl; [intros s a s' H; discriminate|].
  keeps_tac.
Qed.

Hint Resolve keepsP_readBlocks keepsP_writeBlocks keepsP_writeBlock : keeps.

Lemma keepsP_disk_read fuel buffer sector count :
  keepsP f (disk_read fuel buffer sector count).
Proof. unfold disk_read. keeps_tac. Qed.

Lemma keepsP_disk_write fuel buffer sector count :
  keepsP f (disk_write fuel buffer sector count).
Proof. unfold disk_write. keeps_tac. Qed.

End HardwareBlind.

(** ** Status bits *)

Lemma status_has_set_Status flag v s :
  status_has flag (set_Status v s) = negb (Z.land v flag =? 0).
Proof. reflexivity. Qed.

Lemma land_clear_same st flag : Z.land (Z.land st (Z.lnot flag)) flag = 0.
Proof.
  rewrite <- Z.land_assoc, (Z.land_comm (Z.lnot flag)), Z.land_lnot_diag.
  apply Z.land_0_r.
Qed.

Lemma land_set_same st extra flag :
  flag <> 0 -> Z.land extra flag = flag -> Z.land (Z.lor st extra) flag <> 0.
Proof.
  intros Hf He H.
  rewrite Z.land_lor_distr_l, He in H.
  apply Z.lor_eq_0_iff in H. destruct H as [_ H]. contradiction.
Qed.

(** Clearing [STA_NOINIT] does not touch the [STA_NODISK] bit. *)
Lemma land_clear_noinit_nodisk st :
  Z.land (Z.land st (Z.lnot STA_NOINIT)) STA_NODISK = Z.land st STA_NODISK.
Proof. rewrite <- Z.land_assoc. reflexivity. Qed.

(** What [checkSocket] does to the status and the card type, by the
    level it samples. *)
Lemma checkSocket_present s :
  fst (cd_read s) = m_CD_ASSERT s ->
  m_Status (snd (checkSocket s)) = Z.land (m_Status s) (Z.lnot STA_NODISK)
  /\ m_CardType (snd (checkSocket s)) = m_CardType s.
Proof.
  intros H. unfold checkSocket. run.
  replace (m_CD_ASSERT (snd (cd_read s))) with (m_CD_ASSERT s) by reflexivity.
  rewrite H, Z.eqb_refl. run. split; reflexivity.
Qed.

Lemma checkSocket_absent s :
  fst (cd_read s) <> m_CD_ASSERT s ->
  m_Status (snd (checkSocket s))
  = Z.lor (m_Status s) (Z.lor STA_NODISK STA_NOINIT)
  /\ m_CardType (snd (checkSocket s)) = CARD_NONE.
Proof.
  intros H. unfold checkSocket. run.
  replace (m_CD_ASSERT (snd (cd_read s))) with (m_CD_ASSERT s) by reflexivity.
  apply Z.eqb_neq in H. rewrite H. run. split; reflexivity.
Qed.

Lemma checkSocket_invariant s : nodisk_implies_noinit (snd (checkSocket s)).
Proof.
  unfold nodisk_implies_noinit, status_has.
  destruct (Z.eq_dec (fst (cd_read s)) (m_CD_ASSERT s)) as [E|E].
  - destruct (checkSocket_present s E) as [-> _].
    rewrite land_clear_same. discriminate.
  - destruct (checkSocket_absent s E) as [-> _]. intros _.
    apply negb_true_iff, Z.eqb_neq, land_set_same; [discriminate|reflexivity].
Qed.

(** Initialization only touches the status to clear [STA_NOINIT], and
    the card type: an observation that sees neither is kept by it. *)
Section InitBlind.
Context {X : Type} (f : SDFileSystem -> X).
Hypothesis f_Spi : forall g s, f (set_Spi g s) = f s.
Hypothesis f_Cs : forall v s, f (set_Cs v s) = f s.
Hypothesis f_elapsed : forall v s, f (set_elapsed v s) = f s.
Hypothesis f_log : forall v s, f (set_log v s) = f s.
Hypothesis f_CardType : forall v s, f (set_CardType v s) = f s.
Hypothesis f_noinit :
  forall s, f (set_Status (Z.land (m_Status s) (Z.lnot STA_NOINIT)) s) = f s.

Lemma keeps_set_CardType v : keeps f (modify (set_CardType v)).
Proof. intros s. apply f_CardType. Qed.

Lemma keeps_clear_noinit :
  keeps f (modify (fun s =>
                     set_Status (Z.land (m_Status s) (Z.lnot STA_NOINIT)) s)).
Proof. intros s. apply f_noinit. Qed.

Hint Resolve keeps_set_CardType keeps_clear_noinit : keeps.
Hint Resolve keeps_spi_frequency keeps_commandTransaction keeps_init_poll
  keeps_token_of keeps_send_bytes keeps_cs_write : keeps.

Lemma keeps_init_failed : keeps f init_failed.
Proof. unfold init_failed. keeps_tac. Qed.

Lemma keeps_init_done : keeps f init_done.
Proof. unfold init_done. keeps_tac. Qed.

Hint Resolve keeps_init_failed keeps_init_done : keeps.

Lemma keeps_init_pullup : keeps f init_pullup.
Proof. unfold init_pullup. keeps_tac. Qed.

Hint Resolve keeps_init_pullup : keeps.

Lemma keeps_init_blocklen : keeps f init_blocklen.
Proof. unfold init_blocklen. keeps_tac. Qed.

Hint Resolve keeps_init_blocklen : keeps.

Lemma keeps_init_sdv2 resp : keeps f (init_sdv2 resp).
Proof. unfold init_sdv2. keeps_tac. Qed.

Lemma keeps_init_sdv1_mmc resp : keeps f (init_sdv1_mmc resp).
Proof. unfold init_sdv1_mmc. keeps_tac. Qed.

Hint Resolve keeps_init_sdv2 keeps_init_sdv1_mmc : keeps.

Lemma keeps_init_probe : keeps f init_probe.
Proof. unfold init_probe. keeps_tac. Qed.

Hint Resolve keeps_init_probe : keeps.

Lemma keeps_init_crc : keeps f init_crc.
Proof. unfold init_crc. keeps_tac. Qed.

Hint Resolve keeps_init_crc : keeps.

Lemma keeps_init_reset : keeps f init_reset.
Proof. unfold init_reset. keeps_tac. Qed.

Lemma keeps_init_clocks : keeps f init_clocks.
Proof. unfold init_clocks. keeps_tac. Qed.

End InitBlind.

Ltac blind := intros; reflexivity.

Lemma nodisk_bit_init s :
  nodisk_bit (snd (init_reset (snd (init_clocks s)))) = nodisk_bit s.
Proof.
  rewrite (keeps_init_reset nodisk_bit), (keeps_init_clocks nodisk_bit);
    try blind.
  intros s0. unfold nodisk_bit. simpl. apply land_clear_noinit_nodisk.
Qed.

Lemma status_has_nodisk s :
  status_has STA_NODISK s = negb (nodisk_bit s =? 0).
Proof. reflexivity. Qed.

Lemma disk_initialize_invariant s :
  nodisk_implies_noinit (snd (disk_initialize s)).
Proof.
  unfold disk_initialize. run.
  destruct (status_has STA_NODISK (snd (checkSocket s))) eqn:Hd; run.
  - apply checkSocket_invariant.
  - destruct (status_has STA_NOINIT (snd (checkSocket s))) eqn:Hi; run.
    + unfold nodisk_implies_noinit. intros H. exfalso.
      rewrite status_has_nodisk in H, Hd.
      rewrite nodisk_bit_init, Hd in H. discriminate.
    + apply checkSocket_invariant.
Qed.

Lemma forget_some {A} (m : M A) s s' :
  forget m s = Some (tt, s') -> s' = snd (m s).
Proof.
  unfold forget. intros H. apply liftP_some in H.
  rewrite bind_run in H. injection H as H. symmetry. exact H.
Qed.

Lemma forgetP_some {A} (m : P A) s s' :
  forgetP m s = Some (tt, s') -> exists a, m s = Some (a, s').
Proof.
  unfold forgetP. intros H. apply bindP_some in H.
  destruct H as (a & s1 & H1 & H2). injection H2 as H2. subst. eauto.
Qed.

Lemma invariant_of_status s s' :
  m_Status s' = m_Status s -> nodisk_implies_noinit s ->
  nodisk_implies_noinit s'.
Proof. unfold nodisk_implies_noinit, status_has. intros ->. auto. Qed.

Lemma card_type_invariant s : nodisk_implies_noinit (snd (card_type s)).
Proof.
  unfold card_type. run.
  destruct (negb (status_has STA_NODISK (snd (checkSocket s))) &&
            status_has STA_NOINIT (snd (checkSocket s))); run.
  - apply disk_initialize_invariant.
  - apply checkSocket_invariant.
Qed.

Lemma keeps_run {X A} (f : SDFileSystem -> X) (m : M A) s :
  keeps f m -> f (snd (m s)) = f s.
Proof. intros H. apply H. Qed.

Lemma set_crc_invariant enabled s :
  nodisk_implies_noinit (snd (set_crc enabled s)).
Proof.
  unfold set_crc. rewrite bind_run. cbn beta.
  apply invariant_of_status with (s := snd (checkSocket s));
    [|apply checkSocket_invariant].
  apply keeps_run.
  assert (Hc : forall v, keeps m_Status (modify (set_Crc v)))
    by (intros v s0; reflexivity).
  assert (Ht : forall c a r, keeps m_Status (commandTransaction c a r))
    by (intros; apply keeps_commandTransaction; blind).
  keeps_tac.
Qed.

Lemma unmount_invariant s : nodisk_implies_noinit (snd (unmount s)).
Proof.
  unfold unmount, nodisk_implies_noinit, status_has. run. simpl. intros _.
  apply negb_true_iff, Z.eqb_neq, land_set_same; [discriminate|reflexivity].
Qed.

Lemma step_invariant op s s' :
  step op s s' -> nodisk_implies_noinit s -> nodisk_implies_noinit s'.
Proof.
  intros [fuel H] Hs. destruct op; simpl in H.
  - apply forget_some in H. subst. apply disk_initialize_invariant.
  - apply forget_some in H. subst. unfold disk_status. run.
    apply checkSocket_invariant.
  - apply forgetP_some in H. destruct H as [a H].
    apply (keepsP_disk_read m_Status) in H; try blind.
    eapply invariant_of_status; eauto.
  - apply forgetP_some in H. destruct H as [a H].
    apply (keepsP_disk_write m_Status) in H; try blind.
    eapply invariant_of_status; eauto.
  - apply forget_some in H. subst.
    eapply invariant_of_status; [|exact Hs].
    apply (keeps_disk_sync m_Status); blind.
  - apply forget_some in H. subst.
    eapply invariant_of_status; [|exact Hs].
    apply (keeps_disk_sectors m_Status); blind.
  - apply forget_some in H. subst. apply unmount_invariant.
  - apply forget_some in H. subst. apply card_type_invariant.
  - apply forget_some in H. subst. exact Hs.
  - apply forget_some in H. subst. apply set_crc_invariant.
  - apply forget_some in H. subst. exact Hs.
  - apply forget_some in H. subst. exact Hs.
  - apply forget_some in H. subst. apply checkSocket_invariant.
Qed.

(** * The claims *)

(** C7.  In every state reachable from construction by the public
    operations and the card-detect sampler, NoDisk set implies
    NotInitialized set; and a sample that finds the socket empty sets
    both bits and resets the card type to [CARD_NONE]. *)
Theorem nodisk_implies_noinit_reachable (s : SDFileSystem) :
  reachable s ->
  (status_has STA_NODISK s = true -> status_has STA_NOINIT s = true)
  /\ (fst (cd_read s) <> m_CD_ASSERT s ->
      status_has STA_NODISK (snd (checkSocket s)) = true
      /\ status_has STA_NOINIT (snd (checkSocket s)) = true
      /\ m_CardType (snd (checkSocket s)) = CARD_NONE).
Proof.
  intros Hr. split.
  - induction Hr as [card pin cdtype hz0 | op s s' Hr IH Hstep].
    + unfold status_has. simpl. discriminate.
    + exact (step_invariant op s s' Hstep IH).
  - intros Habs. destruct (checkSocket_absent s Habs) as [Hst Hct].
    unfold status_has. rewrite Hst, Hct.
    repeat split; apply negb_true_iff, Z.eqb_neq, land_set_same;
      solve [discriminate | reflexivity].
Qed.

Lemma nodisk_implies_noinit_reachable_witness :
  let s0 := socket [] 1 in
  let s1 := snd (checkSocket s0) in
  (status_has STA_NODISK s1 = true /\ status_has STA_NOINIT s1 = true)
  /\ m_CardType (snd (checkSocket s1)) = CARD_NONE.
Proof.
  intros s0 s1.
  assert (R0 : reachable s0) by apply reach_construct.
  assert (R1 : reachable s1).
  { apply (reach_step OpCheckSocket s0 s1 R0). exists 0%nat. reflexivity. }
  split.
  - split; [reflexivity|].
    apply (proj1 (nodisk_implies_noinit_reachable s1 R1)). reflexivity.
  - apply (proj2 (nodisk_implies_noinit_reachable s1 R1)).
    vm_compute. discriminate.
Defined.



(** C10.  A count of zero is treated as one block: [disk_read] and
    [disk_write] with count 0 are the calls with count 1, namely the
    single block transfer, and never a parameter error. *)
Theorem zero_count_single_block fuel buffer sector s :
  disk_read fuel buffer sector 0 s = disk_read fuel buffer sector 1 s
  /\ disk_write fuel buffer sector 0 s = disk_write fuel buffer sector 1 s
  /\ disk_read fuel buffer sector 0 s
     = (if status_has STA_NOINIT s then Some ((RES_NOTRDY, buffer), s)
        else
          let r := readBlock buffer (to_uint64 sector) s in
          Some ((if fst (fst r) then RES_OK else RES_ERROR, snd (fst r)),
                snd r))
  /\ disk_write fuel buffer sector 0 s
     = (if status_has STA_NOINIT s then Some (RES_NOTRDY, s)
        else if status_has STA_PROTECT s then Some (RES_WRPRT, s)
        else
          match writeBlock fuel buffer (to_uint64 sector) s with
          | Some (ok, s') => Some (if ok then RES_OK else RES_ERROR, s')
          | None => None
          end)
  /\ match disk_read fuel buffer sector 0 s with
     | Some (r, _) => fst r <> RES_PARERR
     | None => True
     end
  /\ match disk_write fuel buffer sector 0 s with
     | Some (r, _) => r <> RES_PARERR
     | None => True
     end.
Proof.
  assert (Hr : disk_read fuel buffer sector 0 s
     = (if status_has STA_NOINIT s then Some ((RES_NOTRDY, buffer), s)
        else
          let r := readBlock buffer (to_uint64 sector) s in
          Some ((if fst (fst r) then RES_OK else RES_ERROR, snd (fst r)),
                snd r))).
  { unfold disk_read, bindP, liftP, retP. rewrite get_run.
    destruct (status_has STA_NOINIT s); [reflexivity|].
    change (to_char 0 >? 1) with false. cbv beta iota zeta.
    destruct (readBlock buffer (to_uint64 sector) s) as [[ok b] s1].
    destruct ok; reflexivity. }
  assert (Hw : disk_write fuel buffer sector 0 s
     = (if status_has STA_NOINIT s then Some (RES_NOTRDY, s)
        else if status_has STA_PROTECT s then Some (RES_WRPRT, s)
        else
          match writeBlock fuel buffer (to_uint64 sector) s with
          | Some (ok, s') => Some (if ok then RES_OK else RES_ERROR, s')
          | None => None
          end)).
  { unfold disk_write, bindP, liftP, retP. rewrite get_run.
    destruct (status_has STA_NOINIT s); [reflexivity|].
    rewrite get_run.
    destruct (status_has STA_PROTECT s); [reflexivity|].
    change (to_char 0 >? 1) with false. cbv beta iota zeta.
    destruct (writeBlock fuel buffer (to_uint64 sector) s) as [[ok s1]|];
      [destruct ok|]; reflexivity. }
  split; [reflexivity|]. split; [reflexivity|].
  split; [exact Hr|]. split; [exact Hw|].
  rewrite Hr, Hw. split.
  - destruct (status_has STA_NOINIT s); [discriminate|].
    cbv zeta. cbn [fst].
    destruct (fst (fst (readBlock buffer (to_uint64 sector) s))); discriminate.
  - destruct (status_has STA_NOINIT s); [discriminate|].
    destruct (status_has STA_PROTECT s); [discriminate|].
    destruct (writeBlock fuel buffer (to_uint64 sector) s) as [[ok s1]|];
      [destruct ok; discriminate|exact I].
Qed.

(** ** Bytes and bounds *)

Lemma to_char_range z : is_byte (to_char z).
Proof.
  unfold is_byte, to_char. change 0xFF with (Z.ones 8).
  rewrite Z.land_ones by lia. apply Z.mod_pos_bound. lia.
Qed.

Lemma to_char_byte z : is_byte z -> to_char z = z.
Proof.
  unfold is_byte, to_char. intros H. change 0xFF with (Z.ones 8).
  rewrite Z.land_ones by lia. apply Z.mod_small. lia.
Qed.

Lemma lor_bound n a b :
  0 <= a < 2 ^ n -> 0 <= b < 2 ^ n -> 0 <= Z.lor a b < 2 ^ n.
Proof.
  intros Ha Hb.
  assert (Hn : 0 <= Z.lor a b) by (apply Z.lor_nonneg; lia).
  split; [exact Hn|].
  destruct (Z.eq_dec (Z.lor a b) 0) as [E|E]; [rewrite E; lia|].
  destruct (Z.le_gt_cases 0 n) as [Hn0|Hn0].
  - apply Z.log2_lt_pow2; [lia|].
    rewrite Z.log2_lor by lia.
    assert (Hpos : 0 < n).
    { destruct (Z.eq_dec n 0) as [->|]; [|lia].
      assert (a = 0) by (simpl in Ha; lia). assert (b = 0) by (simpl in Hb; lia).
      subst. simpl in E. contradiction. }
    apply Z.max_lub_lt.
    + destruct (Z.eq_dec a 0) as [->|]; [simpl; lia|].
      apply Z.log2_lt_pow2; lia.
    + destruct (Z.eq_dec b 0) as [->|]; [simpl; lia|].
      apply Z.log2_lt_pow2; lia.
  - rewrite Z.pow_neg_r in Ha by lia. lia.
Qed.

Lemma peek_byte buf i : Forall is_byte buf -> is_byte (peek buf i).
Proof.
  intros H. unfold peek. revert i.
  induction H as [|x l Hx Hl IH]; intros [|i]; simpl;
    try (unfold is_byte; lia); auto.
Qed.

Lemma poke_byte buf i v :
  Forall is_byte buf -> is_byte v -> Forall is_byte (poke buf i v).
Proof.
  intros H Hv. revert i.
  induction H as [|x l Hx Hl IH]; intros [|i]; simpl; auto.
Qed.

Lemma read_bytes_byte n buffer i s :
  Forall is_byte buffer -> Forall is_byte (fst (read_bytes n buffer i s)).
Proof.
  revert buffer i s. induction n; intros buffer i s H; simpl; run; auto.
  apply IHn. apply poke_byte; [exact H|apply to_char_range].
Qed.

Lemma read_words_byte n buffer i s :
  Forall is_byte buffer -> Forall is_byte (fst (read_words n buffer i s)).
Proof.
  revert buffer i s. induction n; intros buffer i s H; simpl; run; auto.
  apply IHn. repeat apply poke_byte; auto using to_char_range.
Qed.

Lemma readData_byte buffer off len s :
  Forall is_byte buffer ->
  Forall is_byte (snd (fst (readData buffer off len s))).
Proof.
  intros H. unfold readData. run.
  destruct (negb (fst (recv_token 200 0 s) =? 0xFE)); run; [exact H|].
  unfold read_payload. run.
  destruct (m_LargeFrames (snd (recv_token 200 0 s))); run.
  - apply read_words_byte, H.
  - apply read_bytes_byte, H.
Qed.

(** The version 2 branch of the CSD decoding, on bytes. *)
Lemma csd_sectors_v2 csd :
  Forall is_byte csd ->
  Z.shiftr (peek csd 0) 6 = 0x01 ->
  csd_sectors csd = Z.shiftl (csd_v2_c_size csd + 1) 10.
Proof.
  intros Hb Hv. unfold csd_sectors, csd_v2_c_size.
  rewrite Hv. change (0x01 =? 0x01) with true. cbv iota zeta.
  pose proof (peek_byte csd 7 Hb) as H7.
  pose proof (peek_byte csd 8 Hb) as H8.
  pose proof (peek_byte csd 9 Hb) as H9.
  unfold is_byte in *.
  set (c := Z.lor (Z.lor (Z.shiftl (Z.land (peek csd 7) 0x3F) 16)
                         (Z.shiftl (peek csd 8) 8)) (peek csd 9)).
  assert (Hc : 0 <= c < 2 ^ 22).
  { unfold c. apply lor_bound; [apply lor_bound|lia].
    - change 0x3F with (Z.ones 6). rewrite Z.land_ones, Z.shiftl_mul_pow2 by lia.
      pose proof (Z.mod_pos_bound (peek csd 7) (2 ^ 6)). lia.
    - rewrite Z.shiftl_mul_pow2 by lia. lia. }
  assert (H32 : to_int32 (c + 1) = c + 1).
  { unfold to_int32, to_uint32. rewrite Z.mod_small by lia.
    destruct (c + 1 <? 2 ^ 31) eqn:E; [reflexivity|].
    apply Z.ltb_ge in E. lia. }
  rewrite H32. unfold to_uint64.
  rewrite (Z.mod_small (c + 1)) by lia.
  apply Z.mod_small. rewrite Z.shiftl_mul_pow2 by lia. lia.
Qed.

(** An attempt of [disk_sectors] that gets the CSD returns its decoding. *)
Lemma disk_sectors_loop_read n s s1 r s2 csd s3 :
  select s = (true, s1) ->
  command CMD9 0x00000000 None s1 = ((0x00, r), s2) ->
  readData (repeat 0 16) 0 16 s2 = ((true, csd), s3) ->
  fst (disk_sectors_loop (S n) s) = csd_sectors csd.
Proof.
  intros E1 E2 E3. cbn [disk_sectors_loop].
  rewrite (bind_eqn _ _ _ _ _ E1). cbn [negb].
  rewrite (bind_eqn _ _ _ _ _ (token_of_eqn _ _ _ _ _ E2)).
  rewrite Z.eqb_refl, (bind_eqn _ _ _ _ _ E3).
  destruct (deselect s3) as [u s4] eqn:E4.
  rewrite (bind_eqn _ _ _ _ _ E4). reflexivity.
Qed.

(** C2 as stated does not hold on its example: for [csd[7..9] = 0x00,
    0x3B, 0x4F] the code returns (0x003B4F + 1) << 10, which is
    15,548,416 and not 15,552,512. *)
Lemma csd_v2_example_as_stated_fails : ~ csd_v2_example_as_stated.
Proof.
  intros H.
  specialize (H (initialized (csd_script csd_8gb))). cbv zeta in H.
  assert (E : fst (disk_sectors (initialized (csd_script csd_8gb))) = 15552512)
    by (apply H; vm_compute; reflexivity).
  vm_compute in E. discriminate.
Qed.

(** C2, amended.  When [disk_sectors] reads a version 2 CSD, it returns
    [(C_SIZE + 1) << 10] with [C_SIZE = ((csd[7] & 0x3F) << 16) |
    (csd[8] << 8) | csd[9]] on unsigned bytes, in whichever attempt the
    register is read; for [csd[7..9] = 0x00, 0x3B, 0x4F] that is
    15,548,416 sectors. *)
Theorem disk_sectors_csd_v2 (s : SDFileSystem) :
  let s1 := snd (select s) in
  let s2 := snd (command CMD9 0x00000000 None s1) in
  let r := readData (repeat 0 16) 0 16 s2 in
  let csd := snd (fst r) in
  fst (select s) = true ->
  fst (fst (command CMD9 0x00000000 None s1)) = 0x00 ->
  fst (fst r) = true ->
  Z.shiftr (peek csd 0) 6 = 0x01 ->
  (forall n, fst (disk_sectors_loop (S n) s)
             = Z.shiftl (csd_v2_c_size csd + 1) 10)
  /\ (status_has STA_NOINIT s = false ->
      fst (disk_sectors s) = Z.shiftl (csd_v2_c_size csd + 1) 10)
  /\ (peek csd 7 = 0x00 -> peek csd 8 = 0x3B -> peek csd 9 = 0x4F ->
      Z.shiftl (csd_v2_c_size csd + 1) 10 = 15548416).
Proof.
  cbv zeta.
  destruct (select s) as [ok s1] eqn:E1. cbn [fst snd].
  destruct (command CMD9 0 None s1) as [[t r] s2] eqn:E2. cbn [fst snd].
  pose proof (readData_byte (repeat 0 16) 0 16 s2) as Hb.
  destruct (readData (repeat 0 16) 0 16 s2) as [[okr csd] s3] eqn:E3.
  cbn [fst snd] in *.
  intros -> -> -> Hv.
  assert (Hbytes : Forall is_byte csd).
  { apply Hb. apply Forall_forall. intros x Hx.
    apply repeat_spec in Hx. subst. unfold is_byte. lia. }
  assert (Hloop : forall n, fst (disk_sectors_loop (S n) s)
                            = Z.shiftl (csd_v2_c_size csd + 1) 10).
  { intros n. rewrite (disk_sectors_loop_read n s s1 r s2 csd s3 E1 E2 E3).
    apply csd_sectors_v2; assumption. }
  split; [exact Hloop|]. split.
  - intros Hi. unfold disk_sectors.
    rewrite (bind_eqn _ _ _ _ _ (get_run _ s)), Hi. apply Hloop.
  - intros H7 H8 H9. unfold csd_v2_c_size. rewrite H7, H8, H9. reflexivity.
Qed.

Lemma disk_sectors_csd_v2_witness :
  fst (disk_sectors (initialized (csd_script csd_8gb))) = 15548416.
Proof.
  pose (s := initialized (csd_script csd_8gb)).
  pose (s2 := snd (command CMD9 0x00000000 None (snd (select s)))).
  pose (r := readData (repeat 0 16) 0 16 s2).
  assert (H1 : fst (select s) = true) by (vm_compute; reflexivity).
  assert (H2 : fst (fst (command CMD9 0x00000000 None (snd (select s)))) = 0x00)
    by (vm_compute; reflexivity).
  assert (H3 : fst (fst r) = true) by (vm_compute; reflexivity).
  assert (H4 : Z.shiftr (peek (snd (fst r)) 0) 6 = 0x01)
    by (vm_compute; reflexivity).
  destruct (disk_sectors_csd_v2 s H1 H2 H3 H4) as (_ & Hd & He).
  change (fst (disk_sectors s) = 15548416).
  rewrite Hd by (vm_compute; reflexivity).
  apply He; vm_compute; reflexivity.
Defined.

(** ** The SPI stream *)

Lemma spi_write_fst v s : to_char (fst (spi_write v s)) = rx s 0.
Proof. unfold rx. rewrite Nat.add_0_r. reflexivity. Qed.

Lemma spi_write_rx v s i : rx (snd (spi_write v s)) i = rx s (S i).
Proof.
  unfold rx, spi_write. cbn [snd set_Spi m_Spi miso xfers bits].
  rewrite Nat.add_succ_comm. reflexivity.
Qed.

Lemma spi_write_xfers v s :
  xfers (m_Spi (snd (spi_write v s))) = S (xfers (m_Spi s)).
Proof. reflexivity. Qed.

Lemma spi_write_eqn v s a s1 :
  spi_write v s = (a, s1) ->
  to_char a = rx s 0
  /\ (forall i, rx s1 i = rx s (S i))
  /\ xfers (m_Spi s1) = S (xfers (m_Spi s)).
Proof.
  intros E.
  pose proof (spi_write_fst v s) as H1.
  pose proof (spi_write_rx v s) as H2.
  pose proof (spi_write_xfers v s) as H3.
  rewrite E in H1, H2, H3. auto.
Qed.

(** The response window of [n] reads: the token is the first frame with
    bit 7 clear, and the last frame read when there is none. *)
Lemma recv_r1_window n tok s :
  n <> 0%nat ->
  exists i,
    (i < n)%nat
    /\ fst (recv_r1 n tok s) = rx s i
    /\ xfers (m_Spi (snd (recv_r1 n tok s))) = (xfers (m_Spi s) + S i)%nat
    /\ (forall j, (j < i)%nat -> Z.land (rx s j) 0x80 <> 0)
    /\ (Z.land (rx s i) 0x80 <> 0 -> S i = n).
Proof.
  revert tok s. induction n as [|k IH]; intros tok s Hn; [contradiction|].
  cbn [recv_r1]. mstep v s0 E.
  destruct (spi_write_eqn _ _ _ _ E) as (Hv & Hrx & Hx).
  rewrite Hv.
  destruct (Z.land (rx s 0) 0x80 =? 0) eqn:Hb.
  - exists 0%nat. cbn [ret fst snd]. rewrite Hx.
    apply Z.eqb_eq in Hb.
    repeat split; intros; lia.
  - apply Z.eqb_neq in Hb. destruct k as [|k].
    + exists 0%nat. cbn [recv_r1 ret fst snd]. rewrite Hx.
      repeat split; intros; lia.
    + destruct (IH (rx s 0) s0 ltac:(discriminate)) as (i & Hi & Hf & Hxf & Hj & Hl).
      exists (S i). rewrite Hf, Hxf, Hx, Hrx.
      repeat split; try lia.
      * intros j Hlt. destruct j as [|j]; [exact Hb|].
        rewrite <- Hrx. apply Hj. lia.
      * intros Hne. rewrite <- Hrx in Hne. specialize (Hl Hne). lia.
Qed.

(** ** The command log *)

Lemma keeps_eqn {X A} (f : SDFileSystem -> X) (m : M A) s a s1 :
  keeps f m -> m s = (a, s1) -> f s1 = f s.
Proof. intros K E. specialize (K s). rewrite E in K. exact K. Qed.

Lemma log_transmit cmd arg : keeps cmd_log (transmit cmd arg).
Proof. apply keeps_transmit; blind. Qed.

Lemma log_recv_r1 n tok : keeps cmd_log (recv_r1 n tok).
Proof. apply keeps_recv_r1; blind. Qed.

Lemma log_read_response cmd resp : keeps cmd_log (read_response cmd resp).
Proof. apply keeps_read_response; blind. Qed.

Lemma log_spi_write v : keeps cmd_log (spi_write v).
Proof. apply keeps_spi_write; blind. Qed.

Lemma log_select : keeps cmd_log select.
Proof. apply keeps_select; blind. Qed.

Lemma log_deselect : keeps cmd_log deselect.
Proof. apply keeps_deselect; blind. Qed.

Lemma log_cmd_eqn c arg r1 s u s1 :
  log_cmd c arg r1 s = (u, s1) ->
  cmd_log s1 = cmd_log s ++ [mkCmdEvent c arg r1].
Proof. intros E. injection E as _ E. subst. reflexivity. Qed.

Lemma land_bit t n :
  0 <= n -> (Z.land t (Z.shiftl 1 n) =? 0) = negb (Z.testbit t n).
Proof.
  intros Hn. rewrite Z.shiftl_1_l.
  destruct (Z.testbit t n) eqn:E; cbn [negb].
  - apply Z.eqb_neq. intros H.
    assert (Hb : Z.testbit (Z.land t (2 ^ n)) n = false)
      by (rewrite H; apply Z.bits_0).
    rewrite Z.land_spec, E, Z.pow2_bits_true in Hb by exact Hn.
    discriminate.
  - apply Z.eqb_eq. apply Z.bits_inj'. intros k Hk.
    rewrite Z.land_spec, Z.bits_0, Z.pow2_bits_eqb by lia.
    destruct (Z.eqb_spec n k) as [<-|]; [rewrite E; reflexivity|apply andb_false_r].
Qed.

Lemma land_bit3 t : (Z.land t (Z.shiftl 1 3) =? 0) = negb (Z.testbit t 3).
Proof. apply land_bit. lia. Qed.

Lemma last_default {A} (l : list A) d d' : l <> [] -> last l d = last l d'.
Proof.
  induction l as [|a l IH]; intros H; [contradiction|].
  destruct l as [|b l]; [reflexivity|].
  change (last (b :: l) d = last (b :: l) d'). apply IH. discriminate.
Qed.

Lemma last_cons {A} (a : A) l d : last (a :: l) d = last l a.
Proof.
  destruct l as [|b l]; [reflexivity|].
  change (last (b :: l) d = last (b :: l) a). apply last_default. discriminate.
Qed.

Lemma removelast_cons_Forall {A} (Q : A -> Prop) a l :
  (l <> [] -> Q a) -> Forall Q (removelast l) -> Forall Q (removelast (a :: l)).
Proof.
  intros Ha Hl. destruct l as [|b l]; [constructor|].
  change (Forall Q (a :: removelast (b :: l))).
  constructor; [apply Ha; discriminate|exact Hl].
Qed.

(** The retry loop of a command that is not an application command:
    what it logs and what it returns. *)
Lemma command_loop_plain prefix n cmd arg resp tok s :
  is_app_cmd cmd = false ->
  exists rs,
    cmd_log (snd (command_loop prefix n cmd arg resp tok s))
    = cmd_log s ++ map (mkCmdEvent cmd arg) rs
    /\ (length rs <= n)%nat
    /\ fst (fst (command_loop prefix n cmd arg resp tok s)) = last rs tok
    /\ Forall crc_error (removelast rs)
    /\ (n <> 0%nat ->
        hd_error rs
        = Some (fst (recv_r1 9 tok (snd (transmit cmd arg s)))))
    /\ (crc_error (last rs tok) -> length rs = n).
Proof.
  intros Happ. revert tok s.
  induction n as [|k IH]; intros tok s.
  - exists []. cbn [command_loop ret fst snd map length last removelast].
    rewrite app_nil_r. repeat split; auto; try contradiction.
  - cbn [command_loop]. rewrite Happ.
    mstep u1 s1 E1. mstep z s2 E2. mstep u3 s3 E3.
    pose proof (keeps_eqn _ _ _ _ _ (log_transmit cmd arg) E1) as L1.
    pose proof (keeps_eqn _ _ _ _ _ (log_recv_r1 9 tok) E2) as L2.
    pose proof (log_cmd_eqn _ _ _ _ _ _ E3) as L3.
    rewrite L2, L1 in L3.
    assert (Hone : forall (r : Z * option Z * SDFileSystem),
               cmd_log (snd r) = cmd_log s3 -> fst (fst r) = z ->
               (crc_error z -> k = 0%nat) ->
               exists rs,
                 cmd_log (snd r) = cmd_log s ++ map (mkCmdEvent cmd arg) rs
                 /\ (length rs <= S k)%nat
                 /\ fst (fst r) = last rs tok
                 /\ Forall crc_error (removelast rs)
                 /\ (S k <> 0%nat -> hd_error rs = Some z)
                 /\ (crc_error (last rs tok) -> length rs = S k)).
    { intros r Hl Hr Hc. exists [z]. rewrite Hl, L3, Hr.
      cbn [map length last removelast hd_error].
      repeat split; auto; try lia. intros Hz. rewrite (Hc Hz). reflexivity. }
    destruct (z =? 0xFF) eqn:Hff.
    { apply Hone; try reflexivity.
      apply Z.eqb_eq in Hff. intros [Hne _]. contradiction. }
    rewrite land_bit3, negb_involutive.
    destruct (Z.testbit z 3) eqn:Hb3.
    + destruct (IH z s3) as (rs & Hlog & Hlen & Hres & Hall & Hhd & Hlast).
      exists (z :: rs). rewrite Hlog, Hres, L3, <- app_assoc.
      cbn [map app length hd_error]. rewrite last_cons.
      repeat split; auto; try lia.
      apply removelast_cons_Forall; [|exact Hall].
      intros _. split; [apply Z.eqb_neq; exact Hff|exact Hb3].
    + assert (Hnc : crc_error z -> k = 0%nat).
      { intros [_ Hc]. rewrite Hb3 in Hc. discriminate. }
      destruct (z >? 1).
      * apply Hone; try reflexivity. exact Hnc.
      * mstep r4 s4 E4.
        pose proof (keeps_eqn _ _ _ _ _ (log_read_response cmd resp) E4) as L4.
        apply Hone; try reflexivity; assumption.
Qed.

Lemma command_unfold cmd arg resp :
  command cmd arg resp
  = command_loop (token_of (command_depth 1 CMD55 0 None)) 3 cmd arg resp 0.
Proof. unfold command. cbn [command_depth]. reflexivity. Qed.

(** The retry loop only depends on what the CMD55 prefix does. *)
Lemma command_loop_ext p q n cmd arg resp tok s :
  (is_app_cmd cmd = true -> forall s0, p s0 = q s0) ->
  command_loop p n cmd arg resp tok s = command_loop q n cmd arg resp tok s.
Proof.
  intros Hpq. revert tok s. induction n as [|k IH]; intros tok s;
    cbn [command_loop]; [reflexivity|].
  assert (Hframe : forall t s0,
    (transmit cmd arg ;;
     token <- recv_r1 9 t ;;
     log_cmd cmd arg token ;;
     (if token =? 255
      then ret (token, resp)
      else
        if negb (Z.land token (Z.shiftl 1 3) =? 0)
        then command_loop p k cmd arg resp token
        else
          if token >? 1
          then ret (token, resp)
          else r <- read_response cmd resp ;; ret (token, r))) s0
    = (transmit cmd arg ;;
       token <- recv_r1 9 t ;;
       log_cmd cmd arg token ;;
       (if token =? 255
        then ret (token, resp)
        else
          if negb (Z.land token (Z.shiftl 1 3) =? 0)
          then command_loop q k cmd arg resp token
          else
            if token >? 1
            then ret (token, resp)
            else r <- read_response cmd resp ;; ret (token, r))) s0).
  { intros t s0.
    destruct (transmit cmd arg s0) as [u1 s1] eqn:E1.
    rewrite !(bind_eqn _ _ _ _ _ E1).
    destruct (recv_r1 9 t s1) as [z s2] eqn:E2.
    rewrite !(bind_eqn _ _ _ _ _ E2).
    destruct (log_cmd cmd arg z s2) as [u3 s3] eqn:E3.
    rewrite !(bind_eqn _ _ _ _ _ E3).
    destruct (z =? 255); [reflexivity|].
    destruct (negb (Z.land z (Z.shiftl 1 3) =? 0)); [apply IH|reflexivity]. }
  destruct (is_app_cmd cmd) eqn:Happ; [|apply Hframe].
  rewrite (bind_run p _ s), (bind_run q _ s), (Hpq eq_refl s).
  destruct (q s) as [t55 s1]. cbn [fst snd].
  destruct (t55 >? 1); [reflexivity|].
  destruct (spi_write 255 s1) as [u2 s2] eqn:E2.
  rewrite !(bind_eqn _ _ _ _ _ E2). apply Hframe.
Qed.

(** A depth of 2 is enough for the recursion of [command]: CMD55 is not
    an application command and does not send a prefix of its own. *)
Lemma token_of_run m s : token_of m s = (fst (fst (m s)), snd (m s)).
Proof. unfold token_of. rewrite bind_run. reflexivity. Qed.

Lemma command_depth_S d cmd arg resp :
  command_depth (S d) cmd arg resp
  = command_loop (token_of (command_depth d CMD55 0 None)) 3 cmd arg resp 0.
Proof. cbn [command_depth]. reflexivity. Qed.

Lemma command_depth_enough d cmd arg resp s :
  command_depth (S (S d)) cmd arg resp s = command cmd arg resp s.
Proof.
  unfold command. rewrite !command_depth_S.
  apply command_loop_ext. intros _ s0.
  rewrite !token_of_run.
  rewrite (command_loop_ext (token_of (command_depth d CMD55 0 None))
             (token_of (command_depth 0 CMD55 0 None)) 3 CMD55 0 None 0 s0);
    [reflexivity|].
  intros H. discriminate H.
Qed.

(** C6 as stated does not hold: the response window makes up to nine
    reads.  With eight idle frames after the packet and 0x00 in the
    ninth, [command] returns 0x00, taken from the ninth read. *)
Lemma r1_within_8_reads_fails : ~ r1_within_8_reads.
Proof.
  intros H.
  destruct (H CMD17 0 None late_answer eq_refl) as (i & rest & Hi & Hlog & _).
  assert (Hrx : rx (snd (transmit CMD17 0 late_answer)) i = 0xFF).
  { do 8 (destruct i as [|i]; [vm_compute; reflexivity|]). lia. }
  remember (snd (transmit CMD17 0 late_answer)) as s0 eqn:Es0.
  assert (E : hd_error (map ev_r1 (cmd_log (snd (command CMD17 0 None
                                                  late_answer))))
              = Some 0x00) by (vm_compute; reflexivity).
  rewrite Hlog in E.
  change (cmd_log late_answer) with (@nil CmdEvent) in E.
  cbn [app map hd_error ev_r1] in E.
  rewrite Hrx in E. discriminate.
Qed.

(** C6, amended.  After the packet, the R1 token is obtained by at most
    nine reads of 0xFF (up to eight bytes of delay, then the response):
    it is the first byte read whose bit 7 is clear, and the ninth byte
    when none of the nine has bit 7 clear.  This holds for every
    response window, and the first R1 that [command] logs for a command
    without the CMD55 prefix is the one of the window that follows its
    packet. *)
Theorem r1_window cmd arg resp s :
  (forall tok,
     exists i,
       (i < 9)%nat
       /\ fst (recv_r1 9 tok s) = rx s i
       /\ xfers (m_Spi (snd (recv_r1 9 tok s))) = (xfers (m_Spi s) + S i)%nat
       /\ (forall j, (j < i)%nat -> Z.land (rx s j) 0x80 <> 0)
       /\ (Z.land (rx s i) 0x80 <> 0 -> i = 8%nat))
  /\ (is_app_cmd cmd = false ->
      let s0 := snd (transmit cmd arg s) in
      exists i rest,
        (i < 9)%nat
        /\ cmd_log (snd (command cmd arg resp s))
           = cmd_log s ++ mkCmdEvent cmd arg (rx s0 i) :: rest
        /\ fst (fst (command cmd arg resp s))
           = last (map ev_r1 rest) (rx s0 i)
        /\ (forall j, (j < i)%nat -> Z.land (rx s0 j) 0x80 <> 0)
        /\ (Z.land (rx s0 i) 0x80 <> 0 -> i = 8%nat)).
Proof.
  split.
  - intros tok.
    destruct (recv_r1_window 9 tok s ltac:(discriminate))
      as (i & Hi & Hf & Hx & Hj & Hl).
    exists i. repeat split; auto. intros Hne. specialize (Hl Hne). lia.
  - intros Happ. cbv zeta. rewrite command_unfold.
    match goal with
    | |- context [command_loop ?p 3 cmd arg resp 0 s] =>
        destruct (command_loop_plain p 3 cmd arg resp 0 s Happ)
          as (rs & Hlog & Hlen & Hres & Hall & Hhd & Hlast);
        generalize dependent (command_loop p 3 cmd arg resp 0 s)
    end.
    intros r Hlog Hres.
    specialize (Hhd ltac:(discriminate)).
    destruct (transmit cmd arg s) as [u s0] eqn:E0. cbn [fst snd] in *.
    destruct (recv_r1_window 9 0 s0 ltac:(discriminate))
      as (i & Hi & Hf & Hx & Hj & Hl).
    rewrite Hf in Hhd.
    destruct rs as [|t rs]; [discriminate|].
    cbn [hd_error] in Hhd. injection Hhd as ->.
    exists i, (map (mkCmdEvent cmd arg) rs).
    rewrite Hlog, Hres, last_cons, map_map. cbn [map ev_r1].
    rewrite map_id.
    repeat split; auto. intros Hne. specialize (Hl Hne). lia.
Qed.

Lemma r1_window_witness :
  exists i rest,
    (i < 9)%nat
    /\ cmd_log (snd (command CMD17 0 None late_answer))
       = cmd_log late_answer
         ++ mkCmdEvent CMD17 0 (rx (snd (transmit CMD17 0 late_answer)) i)
            :: rest.
Proof.
  destruct (proj2 (r1_window CMD17 0 None late_answer) eq_refl)
    as (i & rest & H1 & H2 & _).
  exists i, rest. split; assumption.
Defined.

Lemma own_tokens_app cmd a b :
  own_tokens cmd (a ++ b) = own_tokens cmd a ++ own_tokens cmd b.
Proof. unfold own_tokens. rewrite filter_app, map_app. reflexivity. Qed.

Lemma own_tokens_self cmd arg rs :
  own_tokens cmd (map (mkCmdEvent cmd arg) rs) = rs.
Proof.
  unfold own_tokens. induction rs as [|r rs IH]; [reflexivity|].
  cbn [map filter ev_cmd]. unfold Command_eqb at 1. rewrite Z.eqb_refl.
  cbn [map ev_r1]. f_equal. exact IH.
Qed.

Lemma own_tokens_other cmd cmd' arg rs :
  Command_eqb cmd' cmd = false ->
  own_tokens cmd (map (mkCmdEvent cmd' arg) rs) = [].
Proof.
  intros H. unfold own_tokens. induction rs as [|r rs IH]; [reflexivity|].
  cbn [map filter ev_cmd]. rewrite H. exact IH.
Qed.

Lemma app_cmd_not_cmd55 cmd :
  is_app_cmd cmd = true -> Command_eqb CMD55 cmd = false.
Proof. destruct cmd; intros H; try discriminate; reflexivity. Qed.

(** The CMD55 prefix of an application command. *)
Lemma prefix_cmd55 d s :
  exists rs,
    rs <> []
    /\ cmd_log (snd (command_depth (S d) CMD55 0 None s))
       = cmd_log s ++ map (mkCmdEvent CMD55 0) rs
    /\ fst (fst (command_depth (S d) CMD55 0 None s)) = last rs 0.
Proof.
  cbn [command_depth].
  match goal with
  | |- context [command_loop ?p 3 CMD55 0 None 0 s] =>
      destruct (command_loop_plain p 3 CMD55 0 None 0 s eq_refl)
        as (rs & Hlog & _ & Hres & _ & Hhd & _)
  end.
  exists rs. repeat split; auto.
  intros ->. specialize (Hhd ltac:(discriminate)). discriminate.
Qed.

Lemma prefix_token s0 :
  exists rs,
    rs <> []
    /\ cmd_log (snd (token_of (command_depth 1 CMD55 0 None) s0))
       = cmd_log s0 ++ map (mkCmdEvent CMD55 0) rs
    /\ fst (token_of (command_depth 1 CMD55 0 None) s0) = last rs 0.
Proof.
  destruct (prefix_cmd55 0 s0) as (rs & Hne & Hl & Hr). exists rs.
  destruct (command_depth 1 CMD55 0 None s0) as [[t r] s1] eqn:E.
  rewrite (token_of_eqn _ _ _ _ _ E). cbn [fst snd] in *. auto.
Qed.

(** The retry loop of an application command. *)
Lemma command_loop_app prefix n cmd arg resp tok s :
  is_app_cmd cmd = true ->
  (forall s0, exists rs,
      rs <> []
      /\ cmd_log (snd (prefix s0)) = cmd_log s0 ++ map (mkCmdEvent CMD55 0) rs
      /\ fst (prefix s0) = last rs 0) ->
  exists evs,
    cmd_log (snd (command_loop prefix n cmd arg resp tok s)) = cmd_log s ++ evs
    /\ (length (own_tokens cmd evs) <= n)%nat
    /\ Forall crc_error (removelast (own_tokens cmd evs))
    /\ ((fst (fst (command_loop prefix n cmd arg resp tok s))
         = last (own_tokens cmd evs) tok
         /\ (n <> 0%nat -> own_tokens cmd evs <> [])
         /\ (crc_error (last (own_tokens cmd evs) tok) ->
             length (own_tokens cmd evs) = n))
        \/ (1 < fst (fst (command_loop prefix n cmd arg resp tok s))
            /\ exists pre,
                evs = pre ++ [mkCmdEvent CMD55 0
                                (fst (fst (command_loop prefix n cmd arg
                                             resp tok s)))])).
Proof.
  intros Happ Hp. pose proof (app_cmd_not_cmd55 cmd Happ) as H55.
  revert tok s. induction n as [|k IH]; intros tok s.
  - exists []. cbn [command_loop ret fst snd]. rewrite app_nil_r.
    split; [reflexivity|]. split; [cbn; lia|]. split; [constructor|].
    left. repeat split; auto.
  - cbn [command_loop]. rewrite Happ.
    destruct (Hp s) as (rs55 & Hne55 & Hl55 & Hr55).
    mstep t55 s1 E1.
    destruct (t55 >? 1) eqn:Hgt.
    + exists (map (mkCmdEvent CMD55 0) rs55).
      cbn [ret fst snd]. rewrite (own_tokens_other _ _ _ _ H55).
      split; [exact Hl55|]. split; [cbn; lia|]. split; [constructor|].
      right. split; [apply Z.gtb_lt in Hgt; lia|].
      exists (map (mkCmdEvent CMD55 0) (removelast rs55)).
      rewrite Hr55.
      rewrite (app_removelast_last 0 Hne55) at 1.
      rewrite map_app. reflexivity.
    + mstep v2 s2 E2. mstep u3 s3 E3. mstep z s4 E4. mstep u5 s5 E5.
      pose proof (keeps_eqn _ _ _ _ _ (log_spi_write 0xFF) E2) as L2.
      pose proof (keeps_eqn _ _ _ _ _ (log_transmit cmd arg) E3) as L3.
      pose proof (keeps_eqn _ _ _ _ _ (log_recv_r1 9 t55) E4) as L4.
      pose proof (log_cmd_eqn _ _ _ _ _ _ E5) as L5.
      rewrite L4, L3, L2, Hl55, <- app_assoc in L5.
      set (evs1 := map (mkCmdEvent CMD55 0) rs55 ++ [mkCmdEvent cmd arg z])
        in L5.
      assert (Hown : own_tokens cmd evs1 = [z]).
      { unfold evs1. rewrite own_tokens_app, (own_tokens_other _ _ _ _ H55).
        apply (own_tokens_self cmd arg [z]). }
      assert (Hone : forall (r : Z * option Z * SDFileSystem),
                 cmd_log (snd r) = cmd_log s5 -> fst (fst r) = z ->
                 (crc_error z -> k = 0%nat) ->
                 exists evs,
                   cmd_log (snd r) = cmd_log s ++ evs
                   /\ (length (own_tokens cmd evs) <= S k)%nat
                   /\ Forall crc_error (removelast (own_tokens cmd evs))
                   /\ ((fst (fst r) = last (own_tokens cmd evs) tok
                        /\ (S k <> 0%nat -> own_tokens cmd evs <> [])
                        /\ (crc_error (last (own_tokens cmd evs) tok) ->
                            length (own_tokens cmd evs) = S k))
                       \/ (1 < fst (fst r)
                           /\ exists pre,
                               evs = pre ++ [mkCmdEvent CMD55 0 (fst (fst r))]))).
      { intros r Hl Hr Hc. exists evs1. rewrite Hl, L5, Hr, Hown.
        cbn [length last removelast].
        split; [reflexivity|]. split; [lia|]. split; [constructor|].
        left. repeat split; try discriminate.
        intros Hz. rewrite (Hc Hz). reflexivity. }
      destruct (z =? 0xFF) eqn:Hff.
      { apply Hone; try reflexivity.
        apply Z.eqb_eq in Hff. intros [Hne _]. contradiction. }
      rewrite land_bit3, negb_involutive.
      destruct (Z.testbit z 3) eqn:Hb3.
      * destruct (IH z s5) as (evs & Hlog & Hlen & Hall & Hend).
        exists (evs1 ++ evs).
        rewrite Hlog, L5, <- app_assoc, own_tokens_app, Hown.
        cbn [app length]. rewrite last_cons.
        split; [reflexivity|]. split; [lia|]. split.
        -- apply removelast_cons_Forall; [|exact Hall].
           intros _. split; [apply Z.eqb_neq; exact Hff|exact Hb3].
        -- destruct Hend as [(Hres & Hne & Hcrc) | (Hgt1 & pre & Hpre)].
           ++ left. repeat split; auto; try discriminate.
           ++ right. split; [exact Hgt1|].
              exists (evs1 ++ pre). rewrite Hpre at 1.
              rewrite app_assoc. reflexivity.
      * assert (Hnc : crc_error z -> k = 0%nat).
        { intros [_ Hc]. rewrite Hb3 in Hc. discriminate. }
        destruct (z >? 1).
        -- apply Hone; try reflexivity. exact Hnc.
        -- mstep r6 s6 E6.
           pose proof (keeps_eqn _ _ _ _ _ (log_read_response cmd resp) E6)
             as L6.
           apply Hone; try reflexivity; assumption.
Qed.



(** ** Frames and caller memory *)

Lemma spi_after_refl s : spi_after 0 s s.
Proof. unfold spi_after. rewrite Nat.add_0_r. auto. Qed.

Lemma spi_after_trans a b s s1 s2 :
  spi_after a s s1 -> spi_after b s1 s2 -> spi_after (a + b) s s2.
Proof.
  unfold spi_after. intros (M1 & X1 & B1) (M2 & X2 & B2).
  rewrite M2, M1, X2, X1, B2, B1. repeat split; auto. lia.
Qed.

Lemma frame_after w k s s' i :
  spi_after k s s' -> frame w s' i = frame w s (k + i).
Proof.
  unfold spi_after, frame. intros (Hm & Hx & _).
  rewrite Hm, Hx, Nat.add_assoc. reflexivity.
Qed.

Lemma spi_write_frame v s a s1 :
  spi_write v s = (a, s1) ->
  a = frame (bits (m_Spi s)) s 0 /\ spi_after 1 s s1.
Proof.
  unfold spi_write. intros E. injection E as Ha Hs. subst. split.
  - unfold frame. rewrite Nat.add_0_r. reflexivity.
  - unfold spi_after. cbn [set_Spi m_Spi miso xfers bits].
    rewrite Nat.add_1_r. auto.
Qed.

Lemma wait_ms_after n s u s1 : wait_ms n s = (u, s1) -> spi_after 0 s s1.
Proof.
  intros E. injection E as _ E. subst. unfold spi_after.
  cbn [set_elapsed m_Spi]. rewrite Nat.add_0_r. auto.
Qed.

Lemma poke_length buf i v : length (poke buf i v) = length buf.
Proof.
  revert i. induction buf as [|h t IH]; intros [|i]; simpl; auto.
Qed.

Lemma peek_poke buf i v j :
  (i < length buf)%nat ->
  peek (poke buf i v) j = if (j =? i)%nat then v else peek buf j.
Proof.
  unfold peek. revert i j.
  induction buf as [|h t IH]; intros i j Hi; simpl in Hi; [lia|].
  destruct i as [|i], j as [|j]; simpl; auto.
  apply IH. lia.
Qed.

Lemma map_seq_shift {A} (f : nat -> A) off len :
  map f (seq off len) = map (fun i => f (off + i)%nat) (seq 0 len).
Proof.
  rewrite <- (Nat.add_0_r off) at 1. generalize 0%nat as base.
  induction len as [|n IH]; intros base; [reflexivity|].
  cbn [seq map]. f_equal.
  replace (S (off + base)) with (off + S base)%nat by lia. apply IH.
Qed.

(** The byte loop of [readData]. *)
Lemma read_bytes_spec n buffer i s r s' :
  read_bytes n buffer i s = (r, s') ->
  (i + n <= length buffer)%nat ->
  spi_after n s s'
  /\ length r = length buffer
  /\ forall j,
      peek r j = if ((i <=? j) && (j <? i + n))%nat
                 then to_char (frame (bits (m_Spi s)) s (j - i))
                 else peek buffer j.
Proof.
  revert buffer i s r s'.
  induction n as [|k IH]; intros buffer i s r s' E Hroom.
  - cbn [read_bytes ret] in E. injection E as -> ->.
    split; [apply spi_after_refl|]. split; [reflexivity|].
    intros j. destruct (i <=? j)%nat eqn:E1; cbn [andb]; [|reflexivity].
    destruct (j <? i + 0)%nat eqn:E2; [|reflexivity].
    apply Nat.leb_le in E1. apply Nat.ltb_lt in E2. lia.
  - cbn [read_bytes] in E.
    destruct (spi_write 0xFF s) as [v s1] eqn:Ew.
    rewrite (bind_eqn _ _ _ _ _ Ew) in E.
    destruct (spi_write_frame _ _ _ _ Ew) as (Hv & Ha).
    destruct (IH _ _ _ _ _ E) as (Hafter & Hlen & Hpeek).
    { rewrite poke_length. lia. }
    split; [apply (spi_after_trans 1 k _ _ _ Ha Hafter)|].
    split; [rewrite Hlen; apply poke_length|].
    intros j. rewrite Hpeek, peek_poke by lia.
    destruct Ha as (_ & _ & Hb). rewrite Hb.
    destruct (Nat.eqb_spec j i) as [->|Hne].
    + replace (S i <=? i)%nat with false by (symmetry; apply Nat.leb_gt; lia).
      rewrite Nat.leb_refl. cbn [andb].
      replace (i <? i + S k)%nat with true by (symmetry; apply Nat.ltb_lt; lia).
      rewrite Nat.sub_diag, Hv. reflexivity.
    + destruct (S i <=? j)%nat eqn:E1.
      * apply Nat.leb_le in E1.
        replace (i <=? j)%nat with true by (symmetry; apply Nat.leb_le; lia).
        cbn [andb].
        replace (j <? i + S k)%nat with (j <? S i + k)%nat by (f_equal; lia).
        destruct (j <? S i + k)%nat; [|reflexivity].
        rewrite (frame_after _ 1 s s1) by (unfold spi_after; destruct (spi_write_frame _ _ _ _ Ew) as (_ & H); exact H).
        do 2 f_equal. lia.
      * apply Nat.leb_gt in E1. cbn [andb].
        replace (i <=? j)%nat with false by (symmetry; apply Nat.leb_gt; lia).
        reflexivity.
Qed.

Lemma wide_byte_after s s1 m :
  spi_after 1 s s1 -> wide_byte s1 m = wide_byte s (S (S m)).
Proof.
  intros H. unfold wide_byte.
  rewrite (frame_after 16 1 s s1 _ H).
  cbn [Nat.div2 Nat.even Nat.add]. reflexivity.
Qed.

(** The word loop of [readData]. *)
Lemma read_words_spec n buffer i s r s' :
  read_words n buffer i s = (r, s') ->
  bits (m_Spi s) = 16 ->
  (i + 2 * n <= length buffer)%nat ->
  spi_after n s s'
  /\ length r = length buffer
  /\ forall j,
      peek r j = if ((i <=? j) && (j <? i + 2 * n))%nat
                 then wide_byte s (j - i)
                 else peek buffer j.
Proof.
  revert buffer i s r s'.
  induction n as [|k IH]; intros buffer i s r s' E Hbits Hroom.
  - cbn [read_words ret] in E. injection E as -> ->.
    split; [apply spi_after_refl|]. split; [reflexivity|].
    intros j. destruct (i <=? j)%nat eqn:E1; cbn [andb]; [|reflexivity].
    destruct (j <? i + 2 * 0)%nat eqn:E2; [|reflexivity].
    apply Nat.leb_le in E1. apply Nat.ltb_lt in E2. lia.
  - cbn [read_words] in E.
    destruct (spi_write 0xFFFF s) as [v s1] eqn:Ew.
    rewrite (bind_eqn _ _ _ _ _ Ew) in E.
    destruct (spi_write_frame _ _ _ _ Ew) as (Hv & Ha).
    rewrite Hbits in Hv.
    assert (Hb1 : bits (m_Spi s1) = 16)
      by (destruct Ha as (_ & _ & Hb); rewrite Hb; exact Hbits).
    destruct (IH _ _ _ _ _ E Hb1) as (Hafter & Hlen & Hpeek).
    { rewrite !poke_length. lia. }
    split; [apply (spi_after_trans 1 k _ _ _ Ha Hafter)|].
    split; [rewrite Hlen, !poke_length; reflexivity|].
    intros j. rewrite Hpeek.
    rewrite peek_poke by (rewrite poke_length; lia).
    rewrite peek_poke by lia.
    destruct (Nat.eqb_spec j (S i)) as [->|Hn1].
    + replace (S (S i) <=? S i)%nat with false
        by (symmetry; apply Nat.leb_gt; lia).
      replace (i <=? S i)%nat with true by (symmetry; apply Nat.leb_le; lia).
      replace (S i <? i + 2 * S k)%nat with true
        by (symmetry; apply Nat.ltb_lt; lia).
      cbn [andb]. replace (S i - i)%nat with 1%nat by lia.
      unfold wide_byte. cbn [Nat.div2 Nat.even]. rewrite Hv. reflexivity.
    + destruct (Nat.eqb_spec j i) as [->|Hn0].
      * replace (S (S i) <=? i)%nat with false
          by (symmetry; apply Nat.leb_gt; lia).
        rewrite Nat.leb_refl.
        replace (i <? i + 2 * S k)%nat with true
          by (symmetry; apply Nat.ltb_lt; lia).
        cbn [andb]. rewrite Nat.sub_diag.
        unfold wide_byte. cbn [Nat.div2 Nat.even]. rewrite Hv. reflexivity.
      * destruct (S (S i) <=? j)%nat eqn:E1.
        -- apply Nat.leb_le in E1.
           replace (i <=? j)%nat with true by (symmetry; apply Nat.leb_le; lia).
           cbn [andb].
           replace (j <? i + 2 * S k)%nat with (j <? S (S i) + 2 * k)%nat
             by (f_equal; lia).
           destruct (j <? S (S i) + 2 * k)%nat; [|reflexivity].
           rewrite (wide_byte_after s s1 _ Ha). f_equal. lia.
        -- apply Nat.leb_gt in E1. cbn [andb].
           replace (i <=? j)%nat with false by (symmetry; apply Nat.leb_gt; lia).
           reflexivity.
Qed.

Lemma spi_format_eqn b s u s1 :
  spi_format b s = (u, s1) ->
  miso (m_Spi s1) = miso (m_Spi s)
  /\ xfers (m_Spi s1) = xfers (m_Spi s)
  /\ bits (m_Spi s1) = b.
Proof. intros E. injection E as _ E. subst. auto. Qed.

Lemma frame_same w s s' i :
  miso (m_Spi s') = miso (m_Spi s) ->
  xfers (m_Spi s') = xfers (m_Spi s) ->
  frame w s' i = frame w s i.
Proof. unfold frame. intros -> ->. reflexivity. Qed.

Lemma slice_peek r off len (g : nat -> Z) :
  (forall m, (m < len)%nat -> peek r (off + m) = g m) ->
  slice r off len = map g (seq 0 len).
Proof.
  intros H. unfold slice. rewrite map_seq_shift.
  apply map_ext_in. intros m Hm. apply in_seq in Hm. apply H. lia.
Qed.

(** The payload and the trailer, in either frame mode. *)
Lemma read_payload_spec buffer off len s :
  bits (m_Spi s) = 8 ->
  (off + stored_bytes s len <= length buffer)%nat ->
  slice (fst (fst (read_payload buffer off len s))) off len
  = received_data s len
  /\ snd (fst (read_payload buffer off len s)) = received_crc s len
  /\ xfers (m_Spi (snd (read_payload buffer off len s)))
     = (xfers (m_Spi s)
        + (if m_LargeFrames s then Nat.div2 (S len) + 1 else len + 2))%nat
  /\ bits (m_Spi (snd (read_payload buffer off len s))) = 8.
Proof.
  intros Hbits Hroom. unfold read_payload, received_data, received_crc.
  unfold stored_bytes in Hroom.
  rewrite (bind_eqn _ _ _ _ _ (get_run m_LargeFrames s)).
  destruct (m_LargeFrames s) eqn:Hlarge.
  - mstep u1 s1 E1. mstep b s2 E2. mstep c s3 E3. mstep u4 s4 E4.
    cbn [ret fst snd].
    destruct (spi_format_eqn _ _ _ _ E1) as (M1 & X1 & B1).
    destruct (read_words_spec _ _ _ _ _ _ E2 B1) as (A2 & L2 & P2).
    { lia. }
    destruct (spi_write_frame _ _ _ _ E3) as (Hc & A3).
    destruct (spi_format_eqn _ _ _ _ E4) as (M4 & X4 & B4).
    destruct A2 as (M2 & X2 & B2). destruct A3 as (M3 & X3 & B3).
    assert (Hw : forall m, wide_byte s1 m = wide_byte s m).
    { intros m. unfold wide_byte. rewrite (frame_same 16 s s1 _ M1 X1).
      reflexivity. }
    split; [|split; [|split]].
    + apply slice_peek. intros m Hm. rewrite P2.
      assert (Hle : (len <= 2 * Nat.div2 (S len))%nat).
      { destruct (Nat.Even_Odd_dec len) as [Hev|Hod].
        - rewrite <- Nat.Even_div2 by exact Hev.
          rewrite (Nat.Even_double _ Hev) at 1. unfold Nat.double. lia.
        - rewrite (Nat.Odd_double _ Hod) at 1.
          rewrite <- Nat.Odd_div2 by exact Hod. unfold Nat.double. lia. }
      replace (off <=? off + m)%nat with true
        by (symmetry; apply Nat.leb_le; lia).
      replace (off + m <? off + 2 * Nat.div2 (S len))%nat with true
        by (symmetry; apply Nat.ltb_lt; lia).
      cbn [andb]. rewrite Hw. f_equal. lia.
    + rewrite Hc, B2, B1. f_equal. unfold frame.
      rewrite M2, M1, X2, X1, Nat.add_0_r. reflexivity.
    + rewrite X4, X3, X2, X1. lia.
    + exact B4.
  - mstep b s2 E2. mstep hi s3 E3. mstep lo s4 E4.
    cbn [ret fst snd].
    destruct (read_bytes_spec _ _ _ _ _ _ E2) as (A2 & L2 & P2); [lia|].
    destruct (spi_write_frame _ _ _ _ E3) as (Hhi & A3).
    destruct (spi_write_frame _ _ _ _ E4) as (Hlo & A4).
    pose proof (frame_after 8 _ _ _ 0%nat A2) as F2.
    pose proof (frame_after 8 _ _ _ 0%nat (spi_after_trans _ _ _ _ _ A2 A3))
      as F3.
    destruct A2 as (M2 & X2 & B2). destruct A3 as (M3 & X3 & B3).
    destruct A4 as (M4 & X4 & B4).
    rewrite Hbits in *.
    split; [|split; [|split]].
    + apply slice_peek. intros m Hm. rewrite P2.
      replace (off <=? off + m)%nat with true
        by (symmetry; apply Nat.leb_le; lia).
      replace (off + m <? off + len)%nat with true
        by (symmetry; apply Nat.ltb_lt; lia).
      cbn [andb]. do 2 f_equal. lia.
    + rewrite Hhi, Hlo, B3, B2, F2, F3.
      rewrite !Nat.add_0_r, Nat.add_1_r. reflexivity.
    + rewrite X4, X3, X2. lia.
    + rewrite B4, B3, B2. reflexivity.
Qed.

Lemma recv_token_bits n tok s :
  bits (m_Spi (snd (recv_token n tok s))) = bits (m_Spi s).
Proof.
  revert tok s. induction n as [|k IH]; intros tok s; cbn [recv_token].
  - reflexivity.
  - mstep v s1 E.
    destruct (spi_write_frame _ _ _ _ E) as (_ & _ & _ & Hb).
    destruct (negb (to_char v =? 0xFF)); [exact Hb|].
    mstep u s2 E2.
    destruct (wait_ms_after _ _ _ _ E2) as (_ & _ & Hb2).
    rewrite IH, Hb2. exact Hb.
Qed.

(** C5.  [readData(buffer, N)]: when the token of the 200 ms poll is
    not 0xFE it returns failure at once, in the state the poll left, the
    buffer untouched; otherwise it reads the N bytes of the block and
    the 16-bit trailer, and succeeds if and only if CRC is disabled or
    the trailer equals CRC16(buffer, N). *)
Theorem readData_outcome buffer off len s :
  let token := fst (recv_token 200 0 s) in
  let s1 := snd (recv_token 200 0 s) in
  let r := readData buffer off len s in
  bits (m_Spi s) = 8 ->
  (token <> 0xFE -> r = ((false, buffer), s1))
  /\ (token = 0xFE ->
      (off + stored_bytes s len <= length buffer)%nat ->
      slice (snd (fst r)) off len = received_data s1 len
      /\ fst (fst r)
         = (negb (m_Crc s)
            || (received_crc s1 len =? CRC16 (slice (snd (fst r)) off len)))
      /\ xfers (m_Spi (snd r))
         = (xfers (m_Spi s1)
            + (if m_LargeFrames s then Nat.div2 (S len) + 1 else len + 2))%nat
      /\ bits (m_Spi (snd r)) = 8).
Proof.
  cbv zeta. intros Hbits. unfold readData.
  pose proof (keeps_recv_token m_Crc ltac:(blind) ltac:(blind) 200 0 s) as Kc.
  pose proof (keeps_recv_token m_LargeFrames ltac:(blind) ltac:(blind)
                200 0 s) as Kl.
  pose proof (recv_token_bits 200 0 s) as Kb.
  destruct (recv_token 200 0 s) as [token s1] eqn:E1.
  rewrite (bind_eqn _ _ _ _ _ E1). cbn [fst snd] in *.
  assert (Hb1 : bits (m_Spi s1) = 8) by (rewrite Kb; exact Hbits).
  clear Kb. split.
  - intros Hne. apply Z.eqb_neq in Hne. rewrite Hne. reflexivity.
  - intros -> Hroom. rewrite Z.eqb_refl. cbn [negb].
    assert (Hroom1 : (off + stored_bytes s1 len <= length buffer)%nat).
    { unfold stored_bytes in *. rewrite Kl. exact Hroom. }
    destruct (read_payload_spec buffer off len s1 Hb1 Hroom1)
      as (Hdata & Hcrc & Hx & Hbits').
    destruct (read_payload buffer off len s1) as [[b c] s2] eqn:E2.
    rewrite (bind_eqn _ _ _ _ _ E2).
    rewrite (bind_eqn _ _ _ _ _ (get_run m_Crc s2)).
    cbn [ret fst snd] in *.
    assert (Kc2 : m_Crc s2 = m_Crc s1).
    { pose proof (keeps_read_payload m_Crc ltac:(blind) buffer off len s1) as K.
      rewrite E2 in K. exact K. }
    rewrite Kc2, Kc, Hcrc, <- Kl.
    split; [exact Hdata|]. split; [reflexivity|]. split; assumption.
Qed.

Lemma readData_outcome_witness :
  (fst (fst (readData [0; 0; 0; 0] 0 4 sends_four_bytes)) = true
   /\ slice (snd (fst (readData [0; 0; 0; 0] 0 4 sends_four_bytes))) 0 4
      = four_bytes)
  /\ readData [0; 0] 0 2 busy_three
     = ((false, [0; 0]), snd (recv_token 200 0 busy_three)).
Proof.
  split.
  - destruct (readData_outcome [0; 0; 0; 0] 0 4 sends_four_bytes eq_refl)
      as (_ & H).
    destruct H as (Hdata & Hok & _).
    + vm_compute. reflexivity.
    + vm_compute. lia.
    + split.
      * rewrite Hok, Hdata. vm_compute. reflexivity.
      * rewrite Hdata. vm_compute. reflexivity.
  - destruct (readData_outcome [0; 0] 0 2 busy_three eq_refl) as (H & _).
    apply H. vm_compute. discriminate.
Defined.

(** ** Budgets *)

Lemma bounded_ret {A} (a : A) : bounded (ret a) 0 0.
Proof. intros s. cbn [ret snd]. lia. Qed.

Lemma bounded_bind {A B} (m : M A) (k : A -> M B) a b c d :
  bounded m a b -> (forall x, bounded (k x) c d) ->
  bounded (bind m k) (a + c) (b + d).
Proof.
  intros Hm Hk s. specialize (Hm s).
  destruct (m s) as [x s1] eqn:E. rewrite (bind_eqn _ _ _ _ _ E).
  specialize (Hk x s1). cbn [snd] in *. lia.
Qed.

Lemma bounded_le {A} (m : M A) a b a' b' :
  bounded m a b -> (a <= a')%nat -> (b <= b')%nat -> bounded m a' b'.
Proof. intros H Ha Hb s. specialize (H s). lia. Qed.

Lemma bounded_if {A} (c : bool) (m1 m2 : M A) a b :
  bounded m1 a b -> bounded m2 a b -> bounded (if c then m1 else m2) a b.
Proof. destruct c; auto. Qed.

Lemma bounded_spi_write v : bounded (spi_write v) 1 0.
Proof. intros s. unfold spi_write. simpl. lia. Qed.

Lemma bounded_wait_ms n : bounded (wait_ms n) 0 n.
Proof. intros s. unfold wait_ms. simpl. lia. Qed.

Lemma bounded_cs_write v : bounded (cs_write v) 0 0.
Proof. intros s. unfold cs_write. simpl. lia. Qed.

Lemma bounded_log_cmd c arg r1 : bounded (log_cmd c arg r1) 0 0.
Proof. intros s. unfold log_cmd. simpl. lia. Qed.

Lemma bounded_get {A} (f : SDFileSystem -> A) : bounded (get f) 0 0.
Proof. intros s. unfold get. simpl. lia. Qed.

Lemma bounded_waitReady n : bounded (waitReady n) n n.
Proof.
  induction n as [|k IH]; cbn [waitReady]; [apply bounded_ret|].
  apply (bounded_bind _ _ 1 0 k (S k)); [apply bounded_spi_write|].
  intros v. apply bounded_if.
  - apply (bounded_le _ 0 0); [apply bounded_ret|lia|lia].
  - apply (bounded_bind _ _ 0 1 k k); [apply bounded_wait_ms|].
    intros ?. exact IH.
Qed.

Lemma bounded_deselect : bounded deselect 1 0.
Proof.
  unfold deselect.
  apply (bounded_bind _ _ 0 0 1 0); [apply bounded_cs_write|]. intros ?.
  apply (bounded_bind _ _ 1 0 0 0); [apply bounded_spi_write|]. intros ?.
  apply bounded_ret.
Qed.

Lemma bounded_select : bounded select 502 500.
Proof.
  unfold select.
  apply (bounded_bind _ _ 0 0 502 500); [apply bounded_cs_write|]. intros ?.
  apply (bounded_bind _ _ 1 0 501 500); [apply bounded_spi_write|]. intros ?.
  apply (bounded_bind _ _ 500 500 1 0); [apply bounded_waitReady|].
  intros ready. apply bounded_if.
  - apply (bounded_le _ 0 0); [apply bounded_ret|lia|lia].
  - apply (bounded_bind _ _ 1 0 0 0); [apply bounded_deselect|]. intros ?.
    apply bounded_ret.
Qed.

Lemma bounded_send_bytes l : bounded (send_bytes l) (length l) 0.
Proof.
  induction l as [|b l IH]; cbn [send_bytes length]; [apply bounded_ret|].
  apply (bounded_bind _ _ 1 0 (length l) 0); [apply bounded_spi_write|].
  intros ?. exact IH.
Qed.

Lemma bounded_transmit cmd arg : bounded (transmit cmd arg) 7 0.
Proof.
  unfold transmit.
  apply (bounded_bind _ _ 0 0 7 0); [apply bounded_get|]. intros crc.
  apply (bounded_bind _ _ 6 0 1 0).
  { apply (bounded_send_bytes (cmdPacket crc cmd arg)). }
  intros ?. apply bounded_if.
  - apply (bounded_bind _ _ 1 0 0 0); [apply bounded_spi_write|]. intros ?.
    apply bounded_ret.
  - apply (bounded_le _ 0 0); [apply bounded_ret|lia|lia].
Qed.

Lemma bounded_recv_r1 n tok : bounded (recv_r1 n tok) n 0.
Proof.
  revert tok. induction n as [|k IH]; intros tok; cbn [recv_r1].
  - apply bounded_ret.
  - apply (bounded_bind _ _ 1 0 k 0); [apply bounded_spi_write|].
    intros v. apply bounded_if.
    + apply (bounded_le _ 0 0); [apply bounded_ret|lia|lia].
    + apply IH.
Qed.

Lemma bounded_read_response cmd resp : bounded (read_response cmd resp) 4 0.
Proof.
  unfold read_response. destruct resp as [old|].
  - apply bounded_if; [|apply bounded_if].
    + apply (bounded_bind _ _ 1 0 3 0); [apply bounded_spi_write|]. intros ?.
      apply (bounded_le _ 0 0); [apply bounded_ret|lia|lia].
    + apply (bounded_bind _ _ 1 0 3 0); [apply bounded_spi_write|]. intros ?.
      apply (bounded_bind _ _ 1 0 2 0); [apply bounded_spi_write|]. intros ?.
      apply (bounded_bind _ _ 1 0 1 0); [apply bounded_spi_write|]. intros ?.
      apply (bounded_bind _ _ 1 0 0 0); [apply bounded_spi_write|]. intros ?.
      apply bounded_ret.
    + apply (bounded_le _ 0 0); [apply bounded_ret|lia|lia].
  - apply (bounded_le _ 0 0); [apply bounded_ret|lia|lia].
Qed.

Lemma bounded_command_loop prefix p n cmd arg resp tok :
  bounded prefix p 0 ->
  bounded (command_loop prefix n cmd arg resp tok) (n * (p + 17) + 4) 0.
Proof.
  intros Hp. revert tok. induction n as [|k IH]; intros tok; cbn [command_loop].
  - apply (bounded_le _ 0 0); [apply bounded_ret|lia|lia].
  - assert (Hframe : forall t,
      bounded
        (transmit cmd arg ;;
         token <- recv_r1 9 t ;;
         log_cmd cmd arg token ;;
         (if token =? 255
          then ret (token, resp)
          else
            if negb (Z.land token (Z.shiftl 1 3) =? 0)
            then command_loop prefix k cmd arg resp token
            else
              if token >? 1
              then ret (token, resp)
              else r <- read_response cmd resp ;; ret (token, r)))
        (16 + (k * (p + 17) + 4)) 0).
    { intros t.
      apply (bounded_bind _ _ 7 0 (9 + (k * (p + 17) + 4)) 0);
        [apply bounded_transmit|]. intros ?.
      apply (bounded_bind _ _ 9 0 (k * (p + 17) + 4) 0);
        [apply bounded_recv_r1|]. intros token.
      apply (bounded_bind _ _ 0 0 (k * (p + 17) + 4) 0);
        [apply bounded_log_cmd|]. intros ?.
      apply bounded_if; [|apply bounded_if; [|apply bounded_if]].
      - apply (bounded_le _ 0 0); [apply bounded_ret|lia|lia].
      - apply IH.
      - apply (bounded_le _ 0 0); [apply bounded_ret|lia|lia].
      - apply (bounded_le _ (4 + 0) (0 + 0)); [|lia|lia].
        apply bounded_bind; [apply bounded_read_response|].
        intros r. apply bounded_ret. }
    apply bounded_if.
    + apply (bounded_le _ (p + (1 + (16 + (k * (p + 17) + 4)))) (0 + (0 + 0)));
        [|lia|lia].
      apply bounded_bind; [exact Hp|]. intros token.
      apply bounded_if.
      * apply (bounded_le _ 0 0); [apply bounded_ret|lia|lia].
      * apply bounded_bind; [apply bounded_spi_write|]. intros ?.
        apply Hframe.
    + apply (bounded_le _ (16 + (k * (p + 17) + 4)) 0); [apply Hframe|lia|lia].
Qed.

Lemma bounded_token_of m a b : bounded m a b -> bounded (token_of m) a b.
Proof.
  intros H. unfold token_of.
  apply (bounded_le _ (a + 0) (b + 0)); [|lia|lia].
  apply bounded_bind; [exact H|]. intros r. apply bounded_ret.
Qed.

Lemma bounded_command cmd arg resp : bounded (command cmd arg resp) 220 0.
Proof.
  rewrite command_unfold.
  apply (bounded_le _ (3 * (55 + 17) + 4) 0); [|lia|lia].
  apply bounded_command_loop. apply bounded_token_of.
  cbn [command_depth].
  apply (bounded_le _ (3 * (0 + 17) + 4) 0); [|lia|lia].
  apply bounded_command_loop. apply bounded_token_of.
  cbn [command_depth]. apply bounded_ret.
Qed.

Lemma bounded_commandTransaction cmd arg resp :
  bounded (commandTransaction cmd arg resp) 723 500.
Proof.
  unfold commandTransaction.
  apply (bounded_le _ (502 + 221) (500 + 0)); [|lia|lia].
  apply bounded_bind; [apply bounded_select|]. intros ok.
  apply bounded_if.
  - apply (bounded_le _ 0 0); [apply bounded_ret|lia|lia].
  - apply (bounded_le _ (220 + (1 + 0)) (0 + (0 + 0))); [|lia|lia].
    apply bounded_bind; [apply bounded_command|]. intros r.
    apply bounded_bind; [apply bounded_deselect|]. intros ?.
    apply bounded_ret.
Qed.

Lemma bounded_init_poll n cmd arg tok :
  bounded (init_poll n cmd arg tok) (n * 723) (n * 501).
Proof.
  revert tok. induction n as [|k IH]; intros tok; cbn [init_poll].
  - apply bounded_ret.
  - apply (bounded_le _ (723 + k * 723) (500 + (1 + k * 501))); [|lia|lia].
    apply bounded_bind.
    { apply bounded_token_of, bounded_commandTransaction. }
    intros token. apply bounded_if.
    + apply (bounded_le _ 0 0); [apply bounded_ret|lia|lia].
    + apply (bounded_le _ (0 + k * 723) (1 + k * 501)); [|lia|lia].
      apply bounded_bind; [apply bounded_wait_ms|]. intros ?. apply IH.
Qed.

Lemma bounded_recv_token n tok : bounded (recv_token n tok) n n.
Proof.
  revert tok. induction n as [|k IH]; intros tok; cbn [recv_token].
  - apply bounded_ret.
  - apply (bounded_bind _ _ 1 0 k (S k)); [apply bounded_spi_write|].
    intros v. apply bounded_if.
    + apply (bounded_le _ 0 0); [apply bounded_ret|lia|lia].
    + apply (bounded_bind _ _ 0 1 k k); [apply bounded_wait_ms|].
      intros ?. apply IH.
Qed.

(** ** The waits without a budget *)

Lemma wait_busy_S k s :
  wait_busy (S k) s
  = (let (v, s1) := spi_write 0xFF s in
     if v =? 0 then wait_busy k s1 else Some (tt, s1)).
Proof.
  cbn [wait_busy]. unfold bindP, liftP, retP.
  destruct (spi_write 0xFF s) as [v s1]. destruct (v =? 0); reflexivity.
Qed.

Lemma wait_busy_ends k fuel s :
  (forall j, (j < k)%nat -> frame (bits (m_Spi s)) s j = 0) ->
  frame (bits (m_Spi s)) s k <> 0 ->
  (k < fuel)%nat ->
  exists s', wait_busy fuel s = Some (tt, s') /\ spi_after (S k) s s'.
Proof.
  revert fuel s. induction k as [|k IH]; intros fuel s Hlow Hhigh Hfuel;
    (destruct fuel as [|f]; [lia|]); rewrite wait_busy_S;
    destruct (spi_write 0xFF s) as [v s1] eqn:E;
    destruct (spi_write_frame _ _ _ _ E) as (Hv & Ha).
  - apply Z.eqb_neq in Hhigh. rewrite Hv, Hhigh. eauto.
  - rewrite Hv, (Hlow 0%nat) by lia. rewrite Z.eqb_refl.
    assert (Hb : bits (m_Spi s1) = bits (m_Spi s)) by apply Ha.
    destruct (IH f s1) as (s' & Hw & Ha'); try lia.
    + intros j Hj. rewrite Hb, (frame_after _ 1 s s1 _ Ha). apply Hlow. lia.
    + rewrite Hb, (frame_after _ 1 s s1 _ Ha). exact Hhigh.
    + exists s'. split; [exact Hw|].
      apply (spi_after_trans 1 (S k) _ _ _ Ha Ha').
Qed.

Lemma wait_busy_stuck fuel s :
  (forall j, frame (bits (m_Spi s)) s j = 0) -> wait_busy fuel s = None.
Proof.
  revert s. induction fuel as [|f IH]; intros s Hlow; [reflexivity|].
  rewrite wait_busy_S.
  destruct (spi_write 0xFF s) as [v s1] eqn:E.
  destruct (spi_write_frame _ _ _ _ E) as (Hv & Ha).
  rewrite Hv, Hlow, Z.eqb_refl. apply IH.
  intros j. assert (Hb : bits (m_Spi s1) = bits (m_Spi s)) by apply Ha.
  rewrite Hb, (frame_after _ 1 s s1 _ Ha). apply Hlow.
Qed.

Lemma writeData_stuck fuel buffer off token s :
  (forall j, frame (bits (m_Spi s)) s j = 0) ->
  writeData fuel buffer off token s = None.
Proof.
  intros Hlow. unfold writeData, bindP at 1, liftP at 1.
  rewrite get_run. unfold bindP. rewrite (wait_busy_stuck fuel s Hlow).
  reflexivity.
Qed.

(** C8 as stated does not hold: the card-ready wait of [writeData] is
    [while (!m_Spi.write(0xFF));], and no budget of transfers ends it
    in front of a card that holds the data line low. *)
Lemma card_ready_wait_bounded_fails : ~ card_ready_wait_bounded.
Proof.
  intros [budget H].
  apply (H [] 0%nat 0xFE stuck_low).
  apply writeData_stuck. intros j. reflexivity.
Qed.

(** C8, amended.  The polls with a budget keep it for every sequence of
    bytes: [waitReady(timeout)] makes at most [timeout] transfers and
    sleeps at most [timeout] ms (500 in [select]), the wait for the data
    start token at most 200 of each, an activation poll at most 1000
    command transactions (723 transfers and 501 ms each at most).  The
    card-ready waits of [writeData], [writeBlocks] and [readBlocks] have
    no budget: such a wait ends at the first nonzero byte, after [k + 1]
    transfers when [k] zero bytes come first, and it never ends while
    the card keeps sending 0x00, so that [writeData] does not return. *)
Theorem poll_budgets :
  (forall n, bounded (waitReady n) n n)
  /\ bounded select 502 500
  /\ (forall tok, bounded (recv_token 200 tok) 200 200)
  /\ (forall cmd arg tok,
        bounded (init_poll 1000 cmd arg tok) (1000 * 723) (1000 * 501))
  /\ (forall k fuel s,
        (forall j, (j < k)%nat -> frame (bits (m_Spi s)) s j = 0) ->
        frame (bits (m_Spi s)) s k <> 0 ->
        (k < fuel)%nat ->
        exists s', wait_busy fuel s = Some (tt, s')
                   /\ xfers (m_Spi s') = (xfers (m_Spi s) + S k)%nat)
  /\ (forall fuel s,
        (forall j, frame (bits (m_Spi s)) s j = 0) ->
        wait_busy fuel s = None
        /\ forall buffer off token,
            writeData fuel buffer off token s = None).
Proof.
  split; [exact bounded_waitReady|].
  split; [exact bounded_select|].
  split; [exact (bounded_recv_token 200)|].
  split; [exact (bounded_init_poll 1000)|].
  split.
  - intros k fuel s Hlow Hhigh Hfuel.
    destruct (wait_busy_ends k fuel s Hlow Hhigh Hfuel) as (s' & Hw & Ha).
    exists s'. split; [exact Hw|apply Ha].
  - intros fuel s Hlow. split; [apply wait_busy_stuck, Hlow|].
    intros buffer off token. apply writeData_stuck, Hlow.
Qed.

Lemma poll_budgets_witness :
  (exists s', wait_busy 10 busy_three = Some (tt, s')
              /\ xfers (m_Spi s') = 4%nat)
  /\ writeData 1000 [] 0 0xFE stuck_low = None.
Proof.
  destruct poll_budgets as (_ & _ & _ & _ & Hends & Hstuck). split.
  - destruct (Hends 3%nat 10%nat busy_three) as (s' & Hw & Hx).
    + intros j Hj. do 3 (destruct j as [|j]; [reflexivity|]). lia.
    + vm_compute. discriminate.
    + lia.
    + exists s'. split; [exact Hw|exact Hx].
  - apply (Hstuck 1000%nat stuck_low). intros j. reflexivity.
Defined.

(** ** The steps of initialization *)

Lemma status_tx cmd arg resp s :
  m_Status (snd (commandTransaction cmd arg resp s)) = m_Status s.
Proof. apply keeps_commandTransaction; blind. Qed.

Lemma card_type_tx cmd arg resp s :
  m_CardType (snd (commandTransaction cmd arg resp s)) = m_CardType s.
Proof. apply keeps_commandTransaction; blind. Qed.

Lemma crc_tx cmd arg resp s :
  m_Crc (snd (commandTransaction cmd arg resp s)) = m_Crc s.
Proof. apply keeps_commandTransaction; blind. Qed.

Lemma status_poll n cmd arg tok s :
  m_Status (snd (init_poll n cmd arg tok s)) = m_Status s.
Proof. apply keeps_init_poll; blind. Qed.

Lemma status_clocks s : m_Status (snd (init_clocks s)) = m_Status s.
Proof. apply keeps_init_clocks; blind. Qed.

Lemma crc_clocks s : m_Crc (snd (init_clocks s)) = m_Crc s.
Proof. apply keeps_init_clocks; blind. Qed.

Lemma crc_checkSocket s : m_Crc (snd (checkSocket s)) = m_Crc s.
Proof.
  unfold checkSocket.
  destruct (cd_read s) as [pin s1] eqn:E. rewrite (bind_eqn _ _ _ _ _ E).
  rewrite (bind_eqn _ _ _ _ _ (get_run _ s1)).
  assert (H1 : m_Crc s1 = m_Crc s) by (injection E as _ <-; reflexivity).
  destruct (pin =? m_CD_ASSERT s1); [exact H1|].
  rewrite (bind_eqn _ _ _ _ _ (modify_run _ s1)). exact H1.
Qed.

Lemma disk_initialize_starts s :
  init_starts s -> disk_initialize s = init_reset (st_clocked s).
Proof.
  unfold init_starts, st_clocked, st_sampled, disk_initialize.
  destruct (checkSocket s) as [u sc] eqn:E1. cbn [snd]. intros [Hd Hi].
  rewrite (bind_eqn _ _ _ _ _ E1).
  rewrite (bind_eqn _ _ _ _ _ (get_run _ sc)), Hd.
  rewrite (bind_eqn _ _ _ _ _ (get_run _ sc)), Hi. cbn [negb].
  destruct (init_clocks sc) as [u2 s0] eqn:E2.
  rewrite (bind_eqn _ _ _ _ _ E2). reflexivity.
Qed.

Lemma init_reset_step s0 :
  init_reset s0
  = (if fst (fst (commandTransaction CMD0 0x00000000 None s0)) =? 0x01
     then init_crc (snd (commandTransaction CMD0 0x00000000 None s0))
     else init_failed (snd (commandTransaction CMD0 0x00000000 None s0))).
Proof.
  unfold init_reset.
  destruct (commandTransaction CMD0 0 None s0) as [[t r] s1] eqn:E.
  rewrite (bind_eqn _ _ _ _ _ (token_of_eqn _ _ _ _ _ E)). cbn [fst snd].
  destruct (t =? 1); reflexivity.
Qed.

Lemma init_crc_step s1 :
  init_crc s1
  = (if m_Crc s1 then
       if fst (fst (commandTransaction CMD59 0x00000001 None s1)) =? 0x01
       then init_probe (snd (commandTransaction CMD59 0x00000001 None s1))
       else init_failed (snd (commandTransaction CMD59 0x00000001 None s1))
     else init_probe s1).
Proof.
  unfold init_crc. rewrite (bind_eqn _ _ _ _ _ (get_run _ s1)).
  destruct (m_Crc s1); [|reflexivity].
  destruct (commandTransaction CMD59 1 None s1) as [[t r] s2] eqn:E.
  rewrite (bind_eqn _ _ _ _ _ (token_of_eqn _ _ _ _ _ E)). cbn [fst snd].
  destruct (t =? 1); reflexivity.
Qed.

Lemma crc_st_clocked s : m_Crc (st_clocked s) = m_Crc s.
Proof. unfold st_clocked, st_sampled. rewrite crc_clocks. apply crc_checkSocket. Qed.

Lemma crc_tx_cmd0 s : m_Crc (snd (tx_cmd0 s)) = m_Crc s.
Proof. unfold tx_cmd0. rewrite crc_tx. apply crc_st_clocked. Qed.

Lemma tx_cmd0_eq s :
  commandTransaction CMD0 0x00000000 None (st_clocked s) = tx_cmd0 s.
Proof. unfold tx_cmd0. reflexivity. Qed.

Lemma tx_cmd59_eq s :
  commandTransaction CMD59 0x00000001 None (snd (tx_cmd0 s)) = tx_cmd59 s.
Proof. unfold tx_cmd59. reflexivity. Qed.

(** With CMD0 (and CMD59) accepted, initialization reaches CMD8. *)
Lemma disk_initialize_probe s :
  init_starts s -> reset_accepted s ->
  disk_initialize s = init_probe (st_probe s).
Proof.
  intros Hs [H0 H59]. rewrite (disk_initialize_starts s Hs), init_reset_step.
  rewrite tx_cmd0_eq, H0, Z.eqb_refl.
  rewrite init_crc_step, crc_tx_cmd0. unfold st_probe.
  destruct (m_Crc s); [|reflexivity].
  rewrite tx_cmd59_eq, (H59 eq_refl), Z.eqb_refl. reflexivity.
Qed.

Lemma read_response_some cmd v s :
  exists v', fst (read_response cmd (Some v) s) = Some v'.
Proof.
  unfold read_response.
  destruct (Command_eqb cmd CMD13).
  - mstep x s1 E. cbn [ret fst]. eauto.
  - destruct (Command_eqb cmd CMD8 || Command_eqb cmd CMD58).
    + mstep b3 s1 E1. mstep b2 s2 E2. mstep b1 s3 E3. mstep b0 s4 E4.
      cbn [ret fst]. eauto.
    + cbn [ret fst]. eauto.
Qed.

Lemma command_loop_resp_some prefix n cmd arg v tok s :
  exists v',
    snd (fst (command_loop prefix n cmd arg (Some v) tok s)) = Some v'.
Proof.
  revert tok s. induction n as [|k IH]; intros tok s; cbn [command_loop].
  - cbn [ret fst snd]. eauto.
  - assert (Hframe : forall t s0,
      exists v',
        snd (fst ((transmit cmd arg ;;
                   token <- recv_r1 9 t ;;
                   log_cmd cmd arg token ;;
                   (if token =? 255
                    then ret (token, Some v)
                    else
                      if negb (Z.land token (Z.shiftl 1 3) =? 0)
                      then command_loop prefix k cmd arg (Some v) token
                      else
                        if token >? 1
                        then ret (token, Some v)
                        else r <- read_response cmd (Some v) ;;
                             ret (token, r))) s0)) = Some v').
    { intros t s0. mstep u1 s1 E1. mstep z s2 E2. mstep u3 s3 E3.
      destruct (z =? 255); [cbn [ret fst snd]; eauto|].
      destruct (negb (Z.land z (Z.shiftl 1 3) =? 0)); [apply IH|].
      destruct (z >? 1); [cbn [ret fst snd]; eauto|].
      destruct (read_response_some cmd v s3) as [v' Hv].
      mstep r4 s4 E4. cbn [ret fst snd]. eauto. }
    destruct (is_app_cmd cmd); [|apply Hframe].
    mstep t55 s1 E1.
    destruct (t55 >? 1); [cbn [ret fst snd]; eauto|].
    mstep u2 s2 E2. apply Hframe.
Qed.

Lemma commandTransaction_resp_some cmd arg v s :
  exists v', snd (fst (commandTransaction cmd arg (Some v) s)) = Some v'.
Proof.
  unfold commandTransaction. mstep ok s1 E1.
  destruct ok; cbn [negb]; [|cbn [ret fst snd]; eauto].
  rewrite command_unfold.
  match goal with
  | |- context [command_loop ?p 3 cmd arg (Some v) 0] =>
      destruct (command_loop_resp_some p 3 cmd arg v 0 s1) as [v' Hv];
      destruct (command_loop p 3 cmd arg (Some v) 0 s1) as [r s2] eqn:E2
  end.
  rewrite (bind_eqn _ _ _ _ _ E2). mstep u3 s3 E3.
  cbn [ret fst snd] in *. eauto.
Qed.

Lemma init_probe_step s :
  init_probe s
  = (if fst (fst (commandTransaction CMD8 0x000001AA (Some 0) s)) =? 0x01
     then init_sdv2
            (deref (snd (fst (commandTransaction CMD8 0x000001AA (Some 0) s))))
            (snd (commandTransaction CMD8 0x000001AA (Some 0) s))
     else init_sdv1_mmc
            (snd (fst (commandTransaction CMD8 0x000001AA (Some 0) s)))
            (snd (commandTransaction CMD8 0x000001AA (Some 0) s))).
Proof.
  unfold init_probe.
  destruct (commandTransaction CMD8 426 (Some 0) s) as [r s1] eqn:E.
  rewrite (bind_eqn _ _ _ _ _ E). cbn [fst snd].
  destruct (fst r =? 1); reflexivity.
Qed.

Lemma init_failed_run s :
  init_failed s = (m_Status s, set_CardType CARD_UNKNOWN s).
Proof. reflexivity. Qed.

Lemma init_failed_outcome s :
  m_CardType (snd (init_failed s)) = CARD_UNKNOWN
  /\ m_Status (snd (init_failed s)) = m_Status s.
Proof. split; reflexivity. Qed.

Lemma init_done_outcome s :
  m_CardType (snd (init_done s)) = m_CardType s
  /\ m_Status (snd (init_done s)) = Z.land (m_Status s) (Z.lnot STA_NOINIT).
Proof.
  unfold init_done.
  rewrite (bind_eqn _ _ _ _ _ (modify_run _ s)).
  rewrite (bind_eqn _ _ _ _ _ (get_run _ _)).
  rewrite (bind_eqn _ _ _ _ _ (get_run _ _)).
  match goal with
  | |- context [bind ?m ?k ?s0] =>
      assert (Hc : m_CardType (snd (m s0)) = m_CardType s0)
        by (destruct (_ && _); [|destruct (_ >? _)]; reflexivity);
      assert (Hs : m_Status (snd (m s0)) = m_Status s0)
        by (destruct (_ && _); [|destruct (_ >? _)]; reflexivity);
      destruct (m s0) as [u s1] eqn:E; rewrite (bind_eqn m k s0 _ _ E)
  end.
  cbn [fst snd] in *. rewrite get_run. cbn [snd].
  rewrite Hc, Hs. split; reflexivity.
Qed.

Lemma init_pullup_outcome s :
  let ok := CardType_eqb (m_CardType s) CARD_MMC
            || (fst (fst (commandTransaction ACMD42 0x00000000 None s)) =? 0x00)
  in
  m_CardType (snd (init_pullup s))
  = (if ok then m_CardType s else CARD_UNKNOWN)
  /\ m_Status (snd (init_pullup s))
     = (if ok then Z.land (m_Status s) (Z.lnot STA_NOINIT) else m_Status s).
Proof.
  cbv zeta. unfold init_pullup.
  rewrite (bind_eqn _ _ _ _ _ (get_run _ s)).
  destruct (CardType_eqb (m_CardType s) CARD_MMC); cbn [negb orb].
  - apply init_done_outcome.
  - pose proof (card_type_tx ACMD42 0 None s) as Hc.
    pose proof (status_tx ACMD42 0 None s) as Hs.
    destruct (commandTransaction ACMD42 0 None s) as [[t r] s1] eqn:E.
    rewrite (bind_eqn _ _ _ _ _ (token_of_eqn _ _ _ _ _ E)).
    cbn [fst snd] in *.
    destruct (t =? 0); cbn [negb].
    + rewrite <- Hc, <- Hs. apply init_done_outcome.
    + rewrite <- Hs. apply init_failed_outcome.
Qed.

(** After the decision tree: the chosen card type stays when CMD16 and
    ACMD42 are accepted and [STA_NOINIT] is cleared; it becomes
    [CARD_UNKNOWN], the status unchanged, when one of them is refused. *)
Lemma init_blocklen_outcome s :
  m_CardType (snd (init_blocklen s))
  = (if configured (m_CardType s) s then m_CardType s else CARD_UNKNOWN)
  /\ m_Status (snd (init_blocklen s))
     = (if configured (m_CardType s) s
        then Z.land (m_Status s) (Z.lnot STA_NOINIT) else m_Status s).
Proof.
  unfold init_blocklen, configured.
  rewrite (bind_eqn _ _ _ _ _ (get_run _ s)).
  destruct (CardType_eqb (m_CardType s) CARD_SDHC); cbn [negb orb andb].
  - apply (init_pullup_outcome s).
  - pose proof (card_type_tx CMD16 512 None s) as Hc.
    pose proof (status_tx CMD16 512 None s) as Hs.
    destruct (commandTransaction CMD16 512 None s) as [[t r] s1] eqn:E.
    rewrite (bind_eqn _ _ _ _ _ (token_of_eqn _ _ _ _ _ E)).
    cbn [fst snd] in *.
    destruct (t =? 0); cbn [negb andb].
    + rewrite <- Hc, <- Hs. apply (init_pullup_outcome s1).
    + rewrite <- Hs. apply init_failed_outcome.
Qed.

(** The SDv2 branch, when all its checks pass. *)
Lemma init_sdv2_accepted resp s :
  Z.land resp 0xFFF = 0x1AA ->
  let r := commandTransaction CMD58 0x00000000 (Some resp) s in
  fst (fst r) = 0x01 ->
  Z.land (deref (snd (fst r))) (Z.shiftl 1 20) <> 0 ->
  let p := init_poll 1000 ACMD41 0x40100000 0 (snd r) in
  fst p = 0x00 ->
  let r2 := commandTransaction CMD58 0x00000000 (snd (fst r)) (snd p) in
  fst (fst r2) = 0x00 ->
  init_sdv2 resp s
  = init_blocklen
      (set_CardType (if Z.testbit (deref (snd (fst r2))) 30
                     then CARD_SDHC else CARD_SD) (snd r2)).
Proof.
  cbv zeta. unfold init_sdv2. intros H1. rewrite H1, Z.eqb_refl. cbn [negb].
  destruct (commandTransaction CMD58 0 (Some resp) s) as [[t o] s1] eqn:E1.
  rewrite (bind_eqn _ _ _ _ _ E1). cbn [fst snd].
  intros -> Hbit. apply Z.eqb_neq in Hbit. rewrite Hbit, Z.eqb_refl.
  cbn [negb orb].
  destruct (init_poll 1000 ACMD41 1074790400 0 s1) as [tp sp] eqn:E2.
  rewrite (bind_eqn _ _ _ _ _ E2). cbn [fst snd].
  intros ->. rewrite Z.eqb_refl. cbn [negb].
  destruct (commandTransaction CMD58 0 o sp) as [[t2 o2] s2] eqn:E3.
  rewrite (bind_eqn _ _ _ _ _ E3). cbn [fst snd].
  intros ->. rewrite Z.eqb_refl.
  rewrite land_bit by lia. rewrite negb_involutive.
  destruct (Z.testbit (deref o2) 30);
    rewrite (bind_eqn _ _ _ _ _ (modify_run _ s2)); reflexivity.
Qed.

(** The other branch, when the voltage check passes. *)
Lemma init_sdv1_mmc_accepted resp s :
  let r := commandTransaction CMD58 0x00000000 resp s in
  fst (fst r) = 0x01 ->
  Z.land (deref (snd (fst r))) (Z.shiftl 1 20) <> 0 ->
  let p := init_poll 1000 ACMD41 0x00100000 0 (snd r) in
  let q := init_poll 1000 CMD1 0x00100000 (fst p) (snd p) in
  init_sdv1_mmc resp s
  = (if fst p =? 0x00 then init_blocklen (set_CardType CARD_SD (snd p))
     else if fst q =? 0x00 then init_blocklen (set_CardType CARD_MMC (snd q))
     else init_failed (snd q)).
Proof.
  cbv zeta. unfold init_sdv1_mmc.
  destruct (commandTransaction CMD58 0 resp s) as [[t o] s1] eqn:E1.
  rewrite (bind_eqn _ _ _ _ _ E1). cbn [fst snd].
  intros -> Hbit. apply Z.eqb_neq in Hbit. rewrite Hbit, Z.eqb_refl.
  cbn [negb orb].
  destruct (init_poll 1000 ACMD41 1048576 0 s1) as [tp sp] eqn:E2.
  rewrite (bind_eqn _ _ _ _ _ E2). cbn [fst snd].
  destruct (tp =? 0).
  - rewrite (bind_eqn _ _ _ _ _ (modify_run _ sp)). reflexivity.
  - destruct (init_poll 1000 CMD1 1048576 tp sp) as [tq sq] eqn:E3.
    rewrite (bind_eqn _ _ _ _ _ E3). cbn [fst snd].
    destruct (tq =? 0); [|reflexivity].
    rewrite (bind_eqn _ _ _ _ _ (modify_run _ sq)). reflexivity.
Qed.

(** The status is the one of the presence sample all along the tree. *)
Lemma status_st_clocked s : m_Status (st_clocked s) = m_Status (st_sampled s).
Proof. unfold st_clocked. apply status_clocks. Qed.

Lemma status_tx_cmd0 s : m_Status (snd (tx_cmd0 s)) = m_Status (st_sampled s).
Proof. unfold tx_cmd0. rewrite status_tx. apply status_st_clocked. Qed.

Lemma status_tx_cmd59 s : m_Status (snd (tx_cmd59 s)) = m_Status (st_sampled s).
Proof. unfold tx_cmd59. rewrite status_tx. apply status_tx_cmd0. Qed.

Lemma status_st_probe s : m_Status (st_probe s) = m_Status (st_sampled s).
Proof.
  unfold st_probe. destruct (m_Crc s);
    [apply status_tx_cmd59|apply status_tx_cmd0].
Qed.

Lemma status_tx_cmd8 s : m_Status (snd (tx_cmd8 s)) = m_Status (st_sampled s).
Proof. unfold tx_cmd8. rewrite status_tx. apply status_st_probe. Qed.

Lemma status_tx_ocr s : m_Status (snd (tx_ocr s)) = m_Status (st_sampled s).
Proof. unfold tx_ocr. rewrite status_tx. apply status_tx_cmd8. Qed.

Lemma status_poll_sdv2 s :
  m_Status (snd (poll_sdv2 s)) = m_Status (st_sampled s).
Proof. unfold poll_sdv2. rewrite status_poll. apply status_tx_ocr. Qed.

Lemma status_tx_ccs s : m_Status (snd (tx_ccs s)) = m_Status (st_sampled s).
Proof. unfold tx_ccs. rewrite status_tx. apply status_poll_sdv2. Qed.

Lemma status_poll_sdv1 s :
  m_Status (snd (poll_sdv1 s)) = m_Status (st_sampled s).
Proof. unfold poll_sdv1. rewrite status_poll. apply status_tx_ocr. Qed.

Lemma status_poll_mmc s :
  m_Status (snd (poll_mmc s)) = m_Status (st_sampled s).
Proof. unfold poll_mmc. rewrite status_poll. apply status_poll_sdv1. Qed.

(** The pointer handed to the first CMD58 holds the R7 of CMD8. *)
Lemma tx_cmd8_resp s :
  Some (deref (snd (fst (tx_cmd8 s)))) = snd (fst (tx_cmd8 s)).
Proof.
  unfold tx_cmd8.
  destruct (commandTransaction_resp_some CMD8 0x1AA 0 (st_probe s)) as [v Hv].
  rewrite Hv. reflexivity.
Qed.

(** What the decided card type becomes at the end of initialization. *)
Lemma decided_outcome kind s0 s :
  m_Status s0 = m_Status (st_sampled s) ->
  init_starts s ->
  let decided := set_CardType kind s0 in
  m_CardType (snd (init_blocklen decided))
  = (if configured kind decided then kind else CARD_UNKNOWN)
  /\ status_has STA_NOINIT (snd (init_blocklen decided))
     = negb (configured kind decided).
Proof.
  intros Hst [_ Hi] decided.
  destruct (init_blocklen_outcome decided) as [Hc Hs].
  change (m_CardType decided) with kind in Hc, Hs.
  split; [exact Hc|].
  unfold status_has in *. rewrite Hs.
  destruct (configured kind decided); cbn [negb].
  - rewrite land_clear_same. reflexivity.
  - change (m_Status decided) with (m_Status s0). rewrite Hst. exact Hi.
Qed.

Lemma tx_cmd8_eq s :
  commandTransaction CMD8 0x000001AA (Some 0) (st_probe s) = tx_cmd8 s.
Proof. unfold tx_cmd8. reflexivity. Qed.

Lemma tx_ocr_eq s :
  commandTransaction CMD58 0x00000000 (snd (fst (tx_cmd8 s))) (snd (tx_cmd8 s))
  = tx_ocr s.
Proof. unfold tx_ocr. reflexivity. Qed.

Lemma poll_sdv2_eq s :
  init_poll 1000 ACMD41 0x40100000 0 (snd (tx_ocr s)) = poll_sdv2 s.
Proof. unfold poll_sdv2. reflexivity. Qed.

Lemma tx_ccs_eq s :
  commandTransaction CMD58 0x00000000 (snd (fst (tx_ocr s))) (snd (poll_sdv2 s))
  = tx_ccs s.
Proof. unfold tx_ccs. reflexivity. Qed.

Lemma poll_sdv1_eq s :
  init_poll 1000 ACMD41 0x00100000 0 (snd (tx_ocr s)) = poll_sdv1 s.
Proof. unfold poll_sdv1. reflexivity. Qed.

Lemma poll_mmc_eq s :
  init_poll 1000 CMD1 0x00100000 (fst (poll_sdv1 s)) (snd (poll_sdv1 s))
  = poll_mmc s.
Proof. unfold poll_mmc. reflexivity. Qed.

(** The SDv2 branch of a run. *)
Lemma disk_initialize_sdv2 s :
  init_starts s -> reset_accepted s ->
  fst (fst (tx_cmd8 s)) = 0x01 -> sdv2_checks_pass s ->
  disk_initialize s
  = init_blocklen (set_CardType (kind_of_ccs s) (snd (tx_ccs s))).
Proof.
  intros Hs Hr H8 (H7 & (Ho1 & Ho2) & Hp & Hc).
  rewrite (disk_initialize_probe s Hs Hr), init_probe_step.
  rewrite tx_cmd8_eq, H8, Z.eqb_refl.
  pose proof (init_sdv2_accepted (deref (snd (fst (tx_cmd8 s))))
                (snd (tx_cmd8 s)) H7) as H.
  cbv zeta in H.
  rewrite tx_cmd8_resp, tx_ocr_eq, poll_sdv2_eq, tx_ccs_eq in H.
  rewrite (H Ho1 Ho2 Hp Hc). unfold kind_of_ccs. reflexivity.
Qed.

(** The other branch of a run. *)
Lemma disk_initialize_sdv1_mmc s :
  init_starts s -> reset_accepted s ->
  fst (fst (tx_cmd8 s)) <> 0x01 -> ocr_accepted s ->
  disk_initialize s
  = (if fst (poll_sdv1 s) =? 0x00
     then init_blocklen (set_CardType CARD_SD (snd (poll_sdv1 s)))
     else if fst (poll_mmc s) =? 0x00
     then init_blocklen (set_CardType CARD_MMC (snd (poll_mmc s)))
     else init_failed (snd (poll_mmc s))).
Proof.
  intros Hs Hr H8 (Ho1 & Ho2).
  rewrite (disk_initialize_probe s Hs Hr), init_probe_step.
  apply Z.eqb_neq in H8. rewrite tx_cmd8_eq, H8.
  pose proof (init_sdv1_mmc_accepted (snd (fst (tx_cmd8 s)))
                (snd (tx_cmd8 s))) as H.
  cbv zeta in H. rewrite tx_ocr_eq, poll_sdv1_eq, poll_mmc_eq in H.
  exact (H Ho1 Ho2).
Qed.

(** C1 as stated does not hold: the decision tree chooses SDHC for this
    card (CCS set in the OCR of the second CMD58), the ACMD42 that
    follows is not answered, and the final card type is Unknown. *)
Lemma tree_decides_final_kind_fails : ~ tree_decides_final_kind.
Proof.
  intros H. specialize (H sdhc_card_silent_on_acmd42).
  assert (E : m_CardType (snd (disk_initialize sdhc_card_silent_on_acmd42))
              = kind_of_ccs sdhc_card_silent_on_acmd42).
  { apply H.
    - split; vm_compute; reflexivity.
    - split; [vm_compute; reflexivity|intros _; vm_compute; reflexivity].
    - vm_compute. reflexivity.
    - split; [vm_compute; reflexivity|].
      split; [split; [vm_compute; reflexivity|vm_compute; discriminate]|].
      split; vm_compute; reflexivity. }
  vm_compute in E. discriminate.
Qed.

(** C1, amended.  In a run of [disk_initialize] in which CMD0 returns
    0x01 (and CMD59 returns 0x01 when CRC is enabled), the decision tree
    chooses the card type: with CMD8 answered 0x01 and the checks
    passed, SDHC exactly when bit 30 of the OCR of the second CMD58 is
    set and SD otherwise; with CMD8 not answered 0x01 and the voltage
    check passed, SD when the ACMD41(0x00100000) poll ends with 0x00,
    else MMC when the CMD1(0x00100000) poll ends with 0x00, else Unknown
    with NotInitialized still set.  The final card type is the chosen
    one when the CMD16 (unless SDHC) and ACMD42 (unless MMC) that follow
    are answered 0x00, and NotInitialized is then cleared; otherwise it
    is Unknown and NotInitialized stays set. *)
Theorem init_decision_tree s :
  init_starts s -> reset_accepted s ->
  (fst (fst (tx_cmd8 s)) = 0x01 -> sdv2_checks_pass s ->
   let decided := set_CardType (kind_of_ccs s) (snd (tx_ccs s)) in
   disk_initialize s = init_blocklen decided
   /\ m_CardType (snd (disk_initialize s))
      = (if configured (kind_of_ccs s) decided
         then kind_of_ccs s else CARD_UNKNOWN)
   /\ status_has STA_NOINIT (snd (disk_initialize s))
      = negb (configured (kind_of_ccs s) decided))
  /\ (fst (fst (tx_cmd8 s)) <> 0x01 -> ocr_accepted s ->
      (fst (poll_sdv1 s) = 0x00 ->
       let decided := set_CardType CARD_SD (snd (poll_sdv1 s)) in
       disk_initialize s = init_blocklen decided
       /\ m_CardType (snd (disk_initialize s))
          = (if configured CARD_SD decided then CARD_SD else CARD_UNKNOWN)
       /\ status_has STA_NOINIT (snd (disk_initialize s))
          = negb (configured CARD_SD decided))
      /\ (fst (poll_sdv1 s) <> 0x00 -> fst (poll_mmc s) = 0x00 ->
          let decided := set_CardType CARD_MMC (snd (poll_mmc s)) in
          disk_initialize s = init_blocklen decided
          /\ m_CardType (snd (disk_initialize s))
             = (if configured CARD_MMC decided
                then CARD_MMC else CARD_UNKNOWN)
          /\ status_has STA_NOINIT (snd (disk_initialize s))
             = negb (configured CARD_MMC decided))
      /\ (fst (poll_sdv1 s) <> 0x00 -> fst (poll_mmc s) <> 0x00 ->
          m_CardType (snd (disk_initialize s)) = CARD_UNKNOWN
          /\ status_has STA_NOINIT (snd (disk_initialize s)) = true)).
Proof.
  intros Hs Hr. split.
  - intros H8 Hchk decided.
    rewrite (disk_initialize_sdv2 s Hs Hr H8 Hchk).
    split; [reflexivity|].
    apply (decided_outcome (kind_of_ccs s) (snd (tx_ccs s)) s);
      [apply status_tx_ccs|exact Hs].
  - intros H8 Hocr.
    pose proof (disk_initialize_sdv1_mmc s Hs Hr H8 Hocr) as E.
    split; [|split].
    + intros Hp decided. rewrite Hp, Z.eqb_refl in E. rewrite E.
      split; [reflexivity|].
      apply (decided_outcome CARD_SD (snd (poll_sdv1 s)) s);
        [apply status_poll_sdv1|exact Hs].
    + intros Hp Hq decided. apply Z.eqb_neq in Hp.
      rewrite Hp, Hq, Z.eqb_refl in E. rewrite E.
      split; [reflexivity|].
      apply (decided_outcome CARD_MMC (snd (poll_mmc s)) s);
        [apply status_poll_mmc|exact Hs].
    + intros Hp Hq. apply Z.eqb_neq in Hp. apply Z.eqb_neq in Hq.
      rewrite Hp, Hq in E. rewrite E.
      destruct (init_failed_outcome (snd (poll_mmc s))) as [Hc Hst].
      split; [exact Hc|].
      unfold status_has. rewrite Hst, status_poll_mmc. apply Hs.
Qed.

Lemma init_decision_tree_witness :
  (m_CardType (snd (disk_initialize sdhc_card)) = CARD_SDHC
   /\ status_has STA_NOINIT (snd (disk_initialize sdhc_card)) = false)
  /\ (m_CardType (snd (disk_initialize mmc_card)) = CARD_MMC
      /\ status_has STA_NOINIT (snd (disk_initialize mmc_card)) = false).
Proof.
  split.
  - assert (Hs : init_starts sdhc_card) by (split; vm_compute; reflexivity).
    assert (Hr : reset_accepted sdhc_card)
      by (split; [vm_compute; reflexivity|intros _; vm_compute; reflexivity]).
    assert (H8 : fst (fst (tx_cmd8 sdhc_card)) = 0x01)
      by (vm_compute; reflexivity).
    assert (Hc : sdv2_checks_pass sdhc_card).
    { split; [vm_compute; reflexivity|].
      split; [split; [vm_compute; reflexivity|vm_compute; discriminate]|].
      split; vm_compute; reflexivity. }
    destruct (proj1 (init_decision_tree sdhc_card Hs Hr) H8 Hc)
      as (_ & Hkind & Hinit).
    split.
    + rewrite Hkind. vm_compute. reflexivity.
    + rewrite Hinit. vm_compute. reflexivity.
  - assert (Hs : init_starts mmc_card) by (split; vm_compute; reflexivity).
    assert (Hr : reset_accepted mmc_card)
      by (split; [vm_compute; reflexivity|intros _; vm_compute; reflexivity]).
    assert (H8 : fst (fst (tx_cmd8 mmc_card)) <> 0x01)
      by (vm_compute; discriminate).
    assert (Ho : ocr_accepted mmc_card)
      by (split; [vm_compute; reflexivity|vm_compute; discriminate]).
    destruct (proj2 (init_decision_tree mmc_card Hs Hr) H8 Ho)
      as (_ & Hmmc & _).
    destruct Hmmc as (_ & Hkind & Hinit);
      [vm_compute; discriminate|vm_compute; reflexivity|].
    split.
    + rewrite Hkind. vm_compute. reflexivity.
    + rewrite Hinit. vm_compute. reflexivity.
Defined.

(** ** What initialization logs *)

Lemma logs_only_ret ok {A} (a : A) : logs_only ok (ret a).
Proof. intros s. exists []. cbn [ret snd]. rewrite app_nil_r. auto. Qed.

Lemma logs_only_bind ok {A B} (m : M A) (k : A -> M B) :
  logs_only ok m -> (forall a, logs_only ok (k a)) -> logs_only ok (bind m k).
Proof.
  intros Hm Hk s. destruct (Hm s) as (e1 & L1 & F1).
  destruct (m s) as [a s1] eqn:E. rewrite (bind_eqn _ _ _ _ _ E).
  destruct (Hk a s1) as (e2 & L2 & F2). cbn [snd] in *.
  exists (e1 ++ e2). rewrite L2, L1, app_assoc. split; [reflexivity|].
  apply Forall_app. auto.
Qed.

Lemma logs_only_if ok {A} (c : bool) (m1 m2 : M A) :
  logs_only ok m1 -> logs_only ok m2 -> logs_only ok (if c then m1 else m2).
Proof. destruct c; auto. Qed.

Lemma logs_only_keeps ok {A} (m : M A) : keeps cmd_log m -> logs_only ok m.
Proof.
  intros K s. exists []. rewrite app_nil_r. split; [apply K|constructor].
Qed.

Lemma logs_only_log_cmd ok c arg r1 :
  ok c = true -> logs_only ok (log_cmd c arg r1).
Proof.
  intros H s. exists [mkCmdEvent c arg r1]. split; [reflexivity|].
  constructor; [exact H|constructor].
Qed.

Lemma logs_only_token_of ok m : logs_only ok m -> logs_only ok (token_of m).
Proof.
  intros H. unfold token_of. apply logs_only_bind; [exact H|].
  intros r. apply logs_only_ret.
Qed.

Lemma log_modify_CardType v : keeps cmd_log (modify (set_CardType v)).
Proof. intros s. reflexivity. Qed.

Lemma log_get {A} (f : SDFileSystem -> A) : keeps cmd_log (get f).
Proof. intros s. reflexivity. Qed.

Lemma log_wait_ms n : keeps cmd_log (wait_ms n).
Proof. intros s. reflexivity. Qed.

Lemma log_spi_frequency v : keeps cmd_log (spi_frequency v).
Proof. intros s. reflexivity. Qed.

Section LogsOnly.
Variable ok : Command -> bool.

Lemma logs_only_command_loop prefix n cmd arg resp tok :
  ok cmd = true ->
  logs_only ok prefix ->
  logs_only ok (command_loop prefix n cmd arg resp tok).
Proof.
  intros Hc Hp. revert tok.
  induction n as [|k IH]; intros tok; cbn [command_loop].
  - apply logs_only_ret.
  - assert (Hframe : forall t,
      logs_only ok
        (transmit cmd arg ;;
         token <- recv_r1 9 t ;;
         log_cmd cmd arg token ;;
         (if token =? 255
          then ret (token, resp)
          else
            if negb (Z.land token (Z.shiftl 1 3) =? 0)
            then command_loop prefix k cmd arg resp token
            else
              if token >? 1
              then ret (token, resp)
              else r <- read_response cmd resp ;; ret (token, r)))).
    { intros t.
      apply logs_only_bind; [apply logs_only_keeps, log_transmit|]. intros ?.
      apply logs_only_bind; [apply logs_only_keeps, log_recv_r1|].
      intros token.
      apply logs_only_bind; [apply logs_only_log_cmd, Hc|]. intros ?.
      apply logs_only_if; [apply logs_only_ret|].
      apply logs_only_if; [apply IH|].
      apply logs_only_if; [apply logs_only_ret|].
      apply logs_only_bind; [apply logs_only_keeps, log_read_response|].
      intros r. apply logs_only_ret. }
    apply logs_only_if; [|apply Hframe].
    apply logs_only_bind; [exact Hp|]. intros token.
    apply logs_only_if; [apply logs_only_ret|].
    apply logs_only_bind; [apply logs_only_keeps, log_spi_write|]. intros ?.
    apply Hframe.
Qed.

Hypothesis ok_cmd55 : ok CMD55 = true.

Lemma logs_only_command cmd arg resp :
  ok cmd = true -> logs_only ok (command cmd arg resp).
Proof.
  intros Hc. rewrite command_unfold.
  apply logs_only_command_loop; [exact Hc|].
  apply logs_only_token_of. cbn [command_depth].
  apply logs_only_command_loop; [exact ok_cmd55|].
  apply logs_only_token_of. cbn [command_depth]. apply logs_only_ret.
Qed.

Lemma logs_only_commandTransaction cmd arg resp :
  ok cmd = true -> logs_only ok (commandTransaction cmd arg resp).
Proof.
  intros Hc. unfold commandTransaction.
  apply logs_only_bind; [apply logs_only_keeps, log_select|]. intros okb.
  apply logs_only_if; [apply logs_only_ret|].
  apply logs_only_bind; [apply logs_only_command, Hc|]. intros r.
  apply logs_only_bind; [apply logs_only_keeps, log_deselect|]. intros ?.
  apply logs_only_ret.
Qed.

Lemma logs_only_init_poll n cmd arg tok :
  ok cmd = true -> logs_only ok (init_poll n cmd arg tok).
Proof.
  intros Hc. revert tok. induction n as [|k IH]; intros tok; cbn [init_poll].
  - apply logs_only_ret.
  - apply logs_only_bind.
    { apply logs_only_token_of, logs_only_commandTransaction, Hc. }
    intros token. apply logs_only_if; [apply logs_only_ret|].
    apply logs_only_bind; [apply logs_only_keeps, log_wait_ms|]. intros ?.
    apply IH.
Qed.

Lemma logs_only_init_failed : logs_only ok init_failed.
Proof. apply logs_only_keeps. intros s. reflexivity. Qed.

Lemma logs_only_init_done : logs_only ok init_done.
Proof.
  apply logs_only_keeps. unfold init_done.
  apply keeps_bind; [intros s; reflexivity|]. intros ?.
  apply keeps_bind; [apply log_get|]. intros ct.
  apply keeps_bind; [apply log_get|]. intros freq.
  apply keeps_bind; [|intros ?; apply log_get].
  repeat apply keeps_if; apply log_spi_frequency.
Qed.

Hypothesis ok_acmd42 : ok ACMD42 = true.
Hypothesis ok_cmd16 : ok CMD16 = true.
Hypothesis ok_cmd58 : ok CMD58 = true.
Hypothesis ok_acmd41 : ok ACMD41 = true.
Hypothesis ok_cmd1 : ok CMD1 = true.
Hypothesis ok_cmd8 : ok CMD8 = true.

Lemma logs_only_init_pullup : logs_only ok init_pullup.
Proof.
  unfold init_pullup.
  apply logs_only_bind; [apply logs_only_keeps, log_get|]. intros ct.
  apply logs_only_if; [|apply logs_only_init_done].
  apply logs_only_bind.
  { apply logs_only_token_of, logs_only_commandTransaction, ok_acmd42. }
  intros token.
  apply logs_only_if; [apply logs_only_init_failed|apply logs_only_init_done].
Qed.

Lemma logs_only_init_blocklen : logs_only ok init_blocklen.
Proof.
  unfold init_blocklen.
  apply logs_only_bind; [apply logs_only_keeps, log_get|]. intros ct.
  apply logs_only_if; [|apply logs_only_init_pullup].
  apply logs_only_bind.
  { apply logs_only_token_of, logs_only_commandTransaction, ok_cmd16. }
  intros token.
  apply logs_only_if; [apply logs_only_init_failed|apply logs_only_init_pullup].
Qed.

Lemma logs_only_decide v : logs_only ok (modify (set_CardType v) ;; init_blocklen).
Proof.
  apply logs_only_bind; [apply logs_only_keeps, log_modify_CardType|].
  intros ?. apply logs_only_init_blocklen.
Qed.

Lemma logs_only_init_sdv2 resp : logs_only ok (init_sdv2 resp).
Proof.
  unfold init_sdv2.
  apply logs_only_if; [apply logs_only_init_failed|].
  apply logs_only_bind; [apply logs_only_commandTransaction, ok_cmd58|].
  intros r. apply logs_only_if; [apply logs_only_init_failed|].
  apply logs_only_bind; [apply logs_only_init_poll, ok_acmd41|].
  intros token. apply logs_only_if; [apply logs_only_init_failed|].
  apply logs_only_bind; [apply logs_only_commandTransaction, ok_cmd58|].
  intros r2. apply logs_only_if; [|apply logs_only_init_failed].
  apply logs_only_bind; [|intros ?; apply logs_only_init_blocklen].
  apply logs_only_if; apply logs_only_keeps, log_modify_CardType.
Qed.

Lemma logs_only_init_sdv1_mmc resp : logs_only ok (init_sdv1_mmc resp).
Proof.
  unfold init_sdv1_mmc.
  apply logs_only_bind; [apply logs_only_commandTransaction, ok_cmd58|].
  intros r. apply logs_only_if; [apply logs_only_init_failed|].
  apply logs_only_bind; [apply logs_only_init_poll, ok_acmd41|].
  intros token. apply logs_only_if; [apply logs_only_decide|].
  apply logs_only_bind; [apply logs_only_init_poll, ok_cmd1|].
  intros token2.
  apply logs_only_if; [apply logs_only_decide|apply logs_only_init_failed].
Qed.

Lemma logs_only_init_probe : logs_only ok init_probe.
Proof.
  unfold init_probe.
  apply logs_only_bind; [apply logs_only_commandTransaction, ok_cmd8|].
  intros r.
  apply logs_only_if;
    [apply logs_only_init_sdv2|apply logs_only_init_sdv1_mmc].
Qed.

End LogsOnly.

(** The log of a transaction of a command without the CMD55 prefix. *)
Lemma tx_plain_log cmd arg resp s :
  is_app_cmd cmd = false ->
  exists rs,
    cmd_log (snd (commandTransaction cmd arg resp s))
    = cmd_log s ++ map (mkCmdEvent cmd arg) rs
    /\ (fst (fst (commandTransaction cmd arg resp s)) <> 0xFF ->
        exists p,
          rs = p ++ [fst (fst (commandTransaction cmd arg resp s))]).
Proof.
  intros Happ. unfold commandTransaction.
  destruct (select s) as [okb s1] eqn:E1. rewrite (bind_eqn _ _ _ _ _ E1).
  pose proof (keeps_eqn _ _ _ _ _ log_select E1) as L1.
  destruct okb; cbn [negb].
  - rewrite command_unfold.
    match goal with
    | |- context [command_loop ?p 3 cmd arg resp 0] =>
        destruct (command_loop_plain p 3 cmd arg resp 0 s1 Happ)
          as (rs & Hlog & _ & Hres & _ & Hhd & _);
        destruct (command_loop p 3 cmd arg resp 0 s1) as [r s2] eqn:E2
    end.
    rewrite (bind_eqn _ _ _ _ _ E2).
    destruct (deselect s2) as [u s3] eqn:E3. rewrite (bind_eqn _ _ _ _ _ E3).
    pose proof (keeps_eqn _ _ _ _ _ log_deselect E3) as L3.
    cbn [ret fst snd] in *.
    exists rs. rewrite L3, Hlog, L1. split; [reflexivity|]. intros _.
    assert (Hne : rs <> []).
    { intros ->. specialize (Hhd ltac:(discriminate)). discriminate. }
    exists (removelast rs). rewrite Hres.
    apply (app_removelast_last 0 Hne).
  - exists []. cbn [ret fst snd map]. rewrite app_nil_r, L1.
    split; [reflexivity|]. intros H. contradiction.
Qed.

Lemma events_of_cmd cmd arg rs :
  Forall (fun e => ev_cmd e = cmd /\ ev_arg e = arg)
         (map (mkCmdEvent cmd arg) rs).
Proof.
  apply Forall_forall. intros e He. apply in_map_iff in He.
  destruct He as (r & <- & _). split; reflexivity.
Qed.

Lemma past_reset_not_cmd59 evs :
  Forall (fun e => past_reset (ev_cmd e) = true) evs ->
  Forall (fun e => ev_cmd e <> CMD59) evs.
Proof.
  apply Forall_impl. intros e H E. rewrite E in H. discriminate.
Qed.

(** The log of the reset phase and of what follows, with CRC enabled. *)
Lemma init_reset_log_crc s0 :
  m_Crc s0 = true ->
  exists evs0 evs59 rest,
    cmd_log (snd (init_reset s0)) = cmd_log s0 ++ evs0 ++ evs59 ++ rest
    /\ Forall (fun e => ev_cmd e = CMD0 /\ ev_arg e = 0) evs0
    /\ Forall (fun e => ev_cmd e = CMD59 /\ ev_arg e = 1) evs59
    /\ Forall (fun e => past_reset (ev_cmd e) = true) rest
    /\ (evs59 <> [] -> exists p, evs0 = p ++ [mkCmdEvent CMD0 0 0x01])
    /\ (rest <> [] -> exists p, evs59 = p ++ [mkCmdEvent CMD59 1 0x01]).
Proof.
  intros Hcrc. rewrite init_reset_step.
  destruct (tx_plain_log CMD0 0 None s0 eq_refl) as (rs0 & L0 & P0).
  pose proof (crc_tx CMD0 0 None s0) as C0.
  destruct (commandTransaction CMD0 0 None s0) as [[t0 r0] s1] eqn:E0.
  cbn [fst snd] in *.
  destruct (Z.eqb_spec t0 1) as [->|Hne0].
  - destruct (P0 ltac:(discriminate)) as [p0 Hp0].
    rewrite init_crc_step, C0, Hcrc.
    destruct (tx_plain_log CMD59 1 None s1 eq_refl) as (rs59 & L59 & P59).
    destruct (commandTransaction CMD59 1 None s1) as [[t59 r59] s2] eqn:E59.
    cbn [fst snd] in *.
    destruct (Z.eqb_spec t59 1) as [->|Hne59].
    + destruct (P59 ltac:(discriminate)) as [p59 Hp59].
      destruct (logs_only_init_probe past_reset eq_refl eq_refl eq_refl
                  eq_refl eq_refl eq_refl eq_refl s2) as (rest & Lr & Fr).
      exists (map (mkCmdEvent CMD0 0) rs0), (map (mkCmdEvent CMD59 1) rs59),
        rest.
      rewrite Lr, L59, L0, <- !app_assoc.
      split; [reflexivity|]. split; [apply events_of_cmd|].
      split; [apply events_of_cmd|]. split; [exact Fr|]. split.
      * intros _. exists (map (mkCmdEvent CMD0 0) p0).
        rewrite Hp0, map_app. reflexivity.
      * intros _. exists (map (mkCmdEvent CMD59 1) p59).
        rewrite Hp59, map_app. reflexivity.
    + exists (map (mkCmdEvent CMD0 0) rs0), (map (mkCmdEvent CMD59 1) rs59),
        [].
      change (cmd_log (snd (init_failed s2))) with (cmd_log s2).
      rewrite L59, L0, app_nil_r, <- app_assoc.
      split; [reflexivity|]. split; [apply events_of_cmd|].
      split; [apply events_of_cmd|]. split; [constructor|]. split.
      * intros _. exists (map (mkCmdEvent CMD0 0) p0).
        rewrite Hp0, map_app. reflexivity.
      * intros H. contradiction.
  - exists (map (mkCmdEvent CMD0 0) rs0), [], [].
    change (cmd_log (snd (init_failed s1))) with (cmd_log s1).
    rewrite L0, !app_nil_r.
    split; [reflexivity|]. split; [apply events_of_cmd|].
    split; [constructor|]. split; [constructor|].
    split; intros H; contradiction.
Qed.

(** With CRC disabled, no CMD59 is logged. *)
Lemma init_reset_log_nocrc s0 :
  m_Crc s0 = false ->
  exists evs,
    cmd_log (snd (init_reset s0)) = cmd_log s0 ++ evs
    /\ Forall (fun e => ev_cmd e <> CMD59) evs.
Proof.
  intros Hcrc. rewrite init_reset_step.
  destruct (tx_plain_log CMD0 0 None s0 eq_refl) as (rs0 & L0 & _).
  pose proof (crc_tx CMD0 0 None s0) as C0.
  destruct (commandTransaction CMD0 0 None s0) as [[t0 r0] s1] eqn:E0.
  cbn [fst snd] in *.
  assert (F0 : Forall (fun e => ev_cmd e <> CMD59)
                      (map (mkCmdEvent CMD0 0) rs0)).
  { eapply Forall_impl; [|apply events_of_cmd].
    intros e [H _] E. rewrite E in H. discriminate. }
  destruct (t0 =? 1).
  - rewrite init_crc_step, C0, Hcrc.
    destruct (logs_only_init_probe past_reset eq_refl eq_refl eq_refl
                eq_refl eq_refl eq_refl eq_refl s1) as (rest & Lr & Fr).
    exists (map (mkCmdEvent CMD0 0) rs0 ++ rest).
    rewrite Lr, L0, <- app_assoc. split; [reflexivity|].
    apply Forall_app. split; [exact F0|apply past_reset_not_cmd59, Fr].
  - exists (map (mkCmdEvent CMD0 0) rs0).
    change (cmd_log (snd (init_failed s1))) with (cmd_log s1).
    rewrite L0. split; [reflexivity|exact F0].
Qed.

Lemma log_checkSocket s : cmd_log (snd (checkSocket s)) = cmd_log s.
Proof.
  unfold checkSocket.
  destruct (cd_read s) as [pin s1] eqn:E. rewrite (bind_eqn _ _ _ _ _ E).
  rewrite (bind_eqn _ _ _ _ _ (get_run _ s1)).
  assert (H1 : cmd_log s1 = cmd_log s) by (injection E as _ <-; reflexivity).
  destruct (pin =? m_CD_ASSERT s1); [exact H1|].
  rewrite (bind_eqn _ _ _ _ _ (modify_run _ s1)). exact H1.
Qed.

Lemma log_init_clocks s : cmd_log (snd (init_clocks s)) = cmd_log s.
Proof. apply keeps_init_clocks; blind. Qed.

(** [disk_initialize] is the reset phase from the clocked state, or
    returns right after the presence sample. *)
Lemma disk_initialize_cases s :
  disk_initialize s = init_reset (st_clocked s)
  \/ snd (disk_initialize s) = st_sampled s.
Proof.
  unfold st_clocked, st_sampled, disk_initialize.
  destruct (checkSocket s) as [u sc] eqn:E1. cbn [snd].
  rewrite (bind_eqn _ _ _ _ _ E1).
  rewrite (bind_eqn _ _ _ _ _ (get_run _ sc)).
  destruct (status_has STA_NODISK sc); [right; reflexivity|].
  rewrite (bind_eqn _ _ _ _ _ (get_run _ sc)).
  destruct (status_has STA_NOINIT sc); cbn [negb]; [|right; reflexivity].
  destruct (init_clocks sc) as [u2 s0] eqn:E2.
  rewrite (bind_eqn _ _ _ _ _ E2). left. reflexivity.
Qed.

Lemma log_st_clocked s : cmd_log (st_clocked s) = cmd_log s.
Proof.
  unfold st_clocked, st_sampled. rewrite log_init_clocks.
  apply log_checkSocket.
Qed.



(** * Between two operations *)

Lemma forget_run {A} (m : M A) s : forget m s = Some (tt, snd (m s)).
Proof. unfold forget, liftP. rewrite bind_run. reflexivity. Qed.

(** ** Rules for [preserves] and [establishes] *)

Lemma preserves_ret I {A} (a : A) : preserves I (ret a).
Proof. intros s H. exact H. Qed.

Lemma preserves_get I {A} (f : SDFileSystem -> A) : preserves I (get f).
Proof. intros s H. exact H. Qed.

Lemma preserves_bind I {A B} (m : M A) (k : A -> M B) :
  preserves I m -> (forall a, preserves I (k a)) -> preserves I (bind m k).
Proof.
  intros Hm Hk s H. rewrite bind_run. apply Hk, Hm, H.
Qed.

Lemma preserves_if I {A} (b : bool) (m1 m2 : M A) :
  preserves I m1 -> preserves I m2 -> preserves I (if b then m1 else m2).
Proof. destruct b; auto. Qed.

Lemma preserves_of_establishes I {A} (m : M A) :
  establishes I m -> preserves I m.
Proof. intros H s _. apply H. Qed.

Lemma preserves_token_of I m : preserves I m -> preserves I (token_of m).
Proof.
  intros H. unfold token_of. apply preserves_bind; [exact H|].
  intros r. apply preserves_ret.
Qed.

Lemma establishes_bind_l I {A B} (m : M A) (k : A -> M B) :
  establishes I m -> (forall a, preserves I (k a)) -> establishes I (bind m k).
Proof.
  intros Hm Hk s. rewrite bind_run. apply Hk, Hm.
Qed.

Lemma establishes_bind_r I {A B} (m : M A) (k : A -> M B) :
  (forall a, establishes I (k a)) -> establishes I (bind m k).
Proof.
  intros Hk s. rewrite bind_run. apply Hk.
Qed.

Lemma establishes_if I {A} (b : bool) (m1 m2 : M A) :
  establishes I m1 -> establishes I m2 -> establishes I (if b then m1 else m2).
Proof. destruct b; auto. Qed.

Lemma establishes_token_of I m : establishes I m -> establishes I (token_of m).
Proof.
  intros H. unfold token_of. apply establishes_bind_l; [exact H|].
  intros r. apply preserves_ret.
Qed.

Lemma preservesP_ret I {A} (a : A) : preservesP I (retP a).
Proof. intros s a' s' H E. injection E as _ <-. exact H. Qed.

Lemma preservesP_none I {A} : preservesP I (fun _ => @None (A * SDFileSystem)).
Proof. intros s a s' _ E. discriminate E. Qed.

Lemma preservesP_bind I {A B} (m : P A) (k : A -> P B) :
  preservesP I m -> (forall a, preservesP I (k a)) -> preservesP I (bindP m k).
Proof.
  intros Hm Hk s b s' H E.
  apply bindP_some in E. destruct E as (a & s1 & E1 & E2).
  exact (Hk a s1 b s' (Hm s a s1 H E1) E2).
Qed.

Lemma preservesP_if I {A} (b : bool) (m1 m2 : P A) :
  preservesP I m1 -> preservesP I m2 -> preservesP I (if b then m1 else m2).
Proof. destruct b; auto. Qed.

Lemma preservesP_lift I {A} (m : M A) : preserves I m -> preservesP I (liftP m).
Proof.
  intros Hm s a s' H E. apply liftP_some in E.
  specialize (Hm s H). rewrite E in Hm. exact Hm.
Qed.

Lemma preservesP_of_establishesP I {A} (m : P A) :
  establishesP I m -> preservesP I m.
Proof. intros H s a s' _ E. exact (H s a s' E). Qed.

Lemma establishesP_none I {A} :
  establishesP I (fun _ => @None (A * SDFileSystem)).
Proof. intros s a s' E. discriminate E. Qed.

Lemma establishesP_bind_l I {A B} (m : P A) (k : A -> P B) :
  establishesP I m -> (forall a, preservesP I (k a)) ->
  establishesP I (bindP m k).
Proof.
  intros Hm Hk s b s' E.
  apply bindP_some in E. destruct E as (a & s1 & E1 & E2).
  exact (Hk a s1 b s' (Hm s a s1 E1) E2).
Qed.

Lemma establishesP_bind_r I {A B} (m : P A) (k : A -> P B) :
  (forall a, establishesP I (k a)) -> establishesP I (bindP m k).
Proof.
  intros Hk s b s' E.
  apply bindP_some in E. destruct E as (a & s1 & E1 & E2).
  exact (Hk a s1 b s' E2).
Qed.

Lemma establishesP_if I {A} (b : bool) (m1 m2 : P A) :
  establishesP I m1 -> establishesP I m2 ->
  establishesP I (if b then m1 else m2).
Proof. destruct b; auto. Qed.

Lemma establishesP_lift I {A} (m : M A) :
  establishes I m -> establishesP I (liftP m).
Proof.
  intros Hm s a s' E. apply liftP_some in E.
  specialize (Hm s). rewrite E in Hm. exact Hm.
Qed.

Create HintDb inv discriminated.
#[export] Hint Resolve preserves_ret preserves_get preservesP_ret
  preservesP_none establishesP_none : inv.
#[export] Hint Extern 1 =>
  match goal with H : is_app_cmd _ = true |- _ => discriminate H end : inv.

(** The two tactics walk a computation: [pres] for what it keeps, [est]
    for what it ends in. *)
Ltac pres :=
  cbv zeta;
  first [ solve [auto with inv]
        | match goal with
          | |- preserves _ (if _ then _ else _) => apply preserves_if; pres
          | |- preservesP _ (if _ then _ else _) => apply preservesP_if; pres
          | |- preservesP _ (liftP _) => apply preservesP_lift; pres
          | |- preserves _ (token_of _) => apply preserves_token_of; pres
          | |- preserves _ (bind _ _) =>
              apply preserves_bind; [pres | intros ?; pres]
          | |- preservesP _ (bindP _ _) =>
              apply preservesP_bind; [pres | intros ?; pres]
          end
        | match goal with
          | |- preserves _ _ => apply preserves_of_establishes; est
          | |- preservesP _ _ => apply preservesP_of_establishesP; est
          end ]
with est :=
  cbv zeta;
  first [ solve [auto with inv]
        | match goal with
          | |- establishes _ (if _ then _ else _) =>
              apply establishes_if; est
          | |- establishesP _ (if _ then _ else _) =>
              apply establishesP_if; est
          | |- establishesP _ (liftP _) => apply establishesP_lift; est
          | |- establishes _ (token_of _) => apply establishes_token_of; est
          | |- establishes _ (bind _ _) =>
              first [ apply establishes_bind_l; [est | intros ?; pres]
                    | apply establishes_bind_r; intros ?; est ]
          | |- establishesP _ (bindP _ _) =>
              first [ apply establishesP_bind_l; [est | intros ?; pres]
                    | apply establishesP_bind_r; intros ?; est ]
          end ].

(** ** What the whole driver keeps when its primitives do

    [I] is kept by a transfer, by a wait, by /CS and by the payload
    engines; the entry of a command in the log is asked for the command
    at hand only. *)
Section OpsInvariant.
Variable I : SDFileSystem -> Prop.
Hypothesis I_write : forall v, preserves I (spi_write v).
Hypothesis I_wait : forall n, preserves I (wait_ms n).
Hypothesis I_cs : forall v, preserves I (cs_write v).

Hint Resolve I_write I_wait I_cs : inv.

Lemma pres_waitReady n : preserves I (waitReady n).
Proof. induction n; cbn [waitReady]; pres. Qed.

Lemma pres_deselect : preserves I deselect.
Proof. unfold deselect. pres. Qed.

Hint Resolve pres_waitReady pres_deselect : inv.

Lemma pres_select : preserves I select.
Proof. unfold select. pres. Qed.

Lemma pres_send_bytes l : preserves I (send_bytes l).
Proof. induction l; cbn [send_bytes]; pres. Qed.

Lemma pres_recv_r1 n token : preserves I (recv_r1 n token).
Proof. revert token. induction n; intros; cbn [recv_r1]; pres. Qed.

Lemma pres_read_response cmd resp : preserves I (read_response cmd resp).
Proof. unfold read_response. destruct resp; pres. Qed.

Hint Resolve pres_select pres_send_bytes pres_recv_r1
  pres_read_response : inv.

Lemma pres_transmit cmd arg : preserves I (transmit cmd arg).
Proof. unfold transmit. pres. Qed.

Hint Resolve pres_transmit : inv.

Lemma pres_command_loop prefix n cmd arg resp token :
  (is_app_cmd cmd = true -> preserves I prefix) ->
  (forall r, preserves I (log_cmd cmd arg r)) ->
  preserves I (command_loop prefix n cmd arg resp token).
Proof.
  intros Hp Hl. revert token.
  induction n; intros; cbn [command_loop]; [pres|].
  destruct (is_app_cmd cmd); [specialize (Hp eq_refl)|]; pres.
Qed.

Lemma pres_command cmd arg resp :
  (forall r, preserves I (log_cmd cmd arg r)) ->
  (is_app_cmd cmd = true -> forall r, preserves I (log_cmd CMD55 0 r)) ->
  preserves I (command cmd arg resp).
Proof.
  intros Hl H55. rewrite command_unfold.
  apply pres_command_loop; [|exact Hl].
  intros Happ. apply preserves_token_of. cbn [command_depth].
  apply pres_command_loop; [|exact (H55 Happ)].
  intros H. discriminate H.
Qed.

Hint Resolve pres_command : inv.

Lemma pres_commandTransaction cmd arg resp :
  (forall r, preserves I (log_cmd cmd arg r)) ->
  (is_app_cmd cmd = true -> forall r, preserves I (log_cmd CMD55 0 r)) ->
  preserves I (commandTransaction cmd arg resp).
Proof. intros Hl H55. unfold commandTransaction. pres. Qed.

Hint Resolve pres_commandTransaction : inv.

Lemma pres_init_poll n cmd arg token :
  (forall r, preserves I (log_cmd cmd arg r)) ->
  (is_app_cmd cmd = true -> forall r, preserves I (log_cmd CMD55 0 r)) ->
  preserves I (init_poll n cmd arg token).
Proof.
  intros Hl H55. revert token. induction n; intros; cbn [init_poll]; pres.
Qed.

Lemma pres_recv_token n token : preserves I (recv_token n token).
Proof. revert token. induction n; intros; cbn [recv_token]; pres. Qed.

Lemma pres_read_bytes n buffer i : preserves I (read_bytes n buffer i).
Proof. revert buffer i. induction n; intros; cbn [read_bytes]; pres. Qed.

Lemma pres_read_words n buffer i : preserves I (read_words n buffer i).
Proof. revert buffer i. induction n; intros; cbn [read_words]; pres. Qed.

Lemma pres_write_bytes n buffer i : preserves I (write_bytes n buffer i).
Proof. revert i. induction n; intros; cbn [write_bytes]; pres. Qed.

Lemma pres_write_words n buffer i : preserves I (write_words n buffer i).
Proof. revert i. induction n; intros; cbn [write_words]; pres. Qed.

Lemma pres_wait_busy fuel : preservesP I (wait_busy fuel).
Proof. induction fuel; cbn [wait_busy]; pres. Qed.

Hint Resolve pres_recv_token pres_read_bytes pres_read_words
  pres_write_bytes pres_write_words pres_wait_busy : inv.

(** The payload engines switch the frame format and switch it back. *)
Hypothesis I_payload :
  forall buffer off len, preserves I (read_payload buffer off len).
Hypothesis I_writeData :
  forall fuel buffer off token, preservesP I (writeData fuel buffer off token).

Hint Resolve I_payload I_writeData : inv.

Lemma pres_readData buffer off len : preserves I (readData buffer off len).
Proof. unfold readData. pres. Qed.

Lemma pres_read_failed buffer : preserves I (read_failed buffer).
Proof. unfold read_failed. pres. Qed.

Lemma pres_write_failed : preservesP I write_failed.
Proof. unfold write_failed. pres. Qed.

Hint Resolve pres_readData pres_read_failed pres_write_failed : inv.

Lemma pres_disk_sync : preserves I disk_sync.
Proof. unfold disk_sync. pres. Qed.

Lemma pres_disk_sectors :
  (forall r, preserves I (log_cmd CMD9 0 r)) -> preserves I disk_sectors.
Proof.
  intros H9. unfold disk_sectors.
  assert (L : forall n, preserves I (disk_sectors_loop n))
    by (induction n; cbn [disk_sectors_loop]; pres).
  pres.
Qed.

Lemma pres_programming_ok :
  (forall r, preserves I (log_cmd CMD13 0 r)) -> preserves I programming_ok.
Proof. intros H13. unfold programming_ok. pres. Qed.

Hint Resolve pres_programming_ok : inv.

(** [I] may know the card type: [good] is what it knows. *)
Variable good : CardType -> Prop.
Hypothesis I_ct : forall s, I s -> good (m_CardType s).

Lemma preserves_get_ct {A} (k : CardType -> M A) :
  (forall ct, good ct -> preserves I (k ct)) ->
  preserves I (bind (get m_CardType) k).
Proof.
  intros H s Hs. rewrite bind_run, get_run. cbn [fst snd].
  exact (H _ (I_ct s Hs) s Hs).
Qed.

Lemma preservesP_get_ct {A} (k : CardType -> P A) :
  (forall ct, good ct -> preservesP I (k ct)) ->
  preservesP I (bindP (liftP (get m_CardType)) k).
Proof.
  intros H s a s' Hs E. unfold bindP, liftP in E. rewrite get_run in E.
  exact (H _ (I_ct s Hs) s a s' Hs E).
Qed.

Lemma pres_well_written_blocks :
  (forall r, preserves I (log_cmd ACMD22 0 r)) ->
  preserves I well_written_blocks.
Proof.
  intros H22. unfold well_written_blocks.
  apply preserves_get_ct. intros ct _. pres.
Qed.

Hint Resolve pres_well_written_blocks : inv.

Lemma pres_readBlock buffer lba :
  (forall ct r, good ct -> preserves I (log_cmd CMD17 (block_addr ct lba) r)) ->
  preserves I (readBlock buffer lba).
Proof.
  intros H17. unfold readBlock. generalize 3%nat as n. intros n.
  revert buffer. induction n; intros; cbn [readBlock_loop]; [pres|].
  apply preserves_bind; [pres|intros ok].
  apply preserves_if; [pres|].
  apply preserves_get_ct. intros ct Hct. specialize (H17 ct).
  pres.
Qed.

Lemma pres_readBlocks_stream fuel c : preservesP I (readBlocks_stream fuel c).
Proof. revert c. induction fuel; intros; cbn [readBlocks_stream]; pres. Qed.

Hint Resolve pres_readBlocks_stream : inv.

Lemma pres_readBlocks fuel buffer lba count :
  (forall a r, preserves I (log_cmd CMD18 a r)) ->
  (forall r, preserves I (log_cmd CMD12 0 r)) ->
  preservesP I (readBlocks fuel buffer lba count).
Proof.
  intros H18 H12. unfold readBlocks.
  generalize (mkCursor buffer 0 lba count 0 0) as c.
  induction fuel; intros; cbn [readBlocks_loop]; [pres|].
  unfold readBlocks_failed. pres.
Qed.

Lemma pres_writeBlock fuel buffer lba :
  (forall ct r, good ct -> preserves I (log_cmd CMD24 (block_addr ct lba) r)) ->
  (forall r, preserves I (log_cmd CMD13 0 r)) ->
  preservesP I (writeBlock fuel buffer lba).
Proof.
  intros H24 H13. unfold writeBlock. generalize 3%nat as n.
  induction n; intros; cbn [writeBlock_loop]; [pres|].
  apply preservesP_bind; [pres|intros ok].
  apply preservesP_if; [pres|].
  apply preservesP_get_ct. intros ct Hct. specialize (H24 ct).
  pres.
Qed.

Lemma pres_writeBlocks_stream fuel c : preservesP I (writeBlocks_stream fuel c).
Proof. revert c. induction fuel; intros; cbn [writeBlocks_stream]; pres. Qed.

Hint Resolve pres_writeBlocks_stream : inv.

Lemma pres_writeBlocks fuel buffer lba count :
  (forall a r, preserves I (log_cmd ACMD23 a r)) ->
  (forall r, preserves I (log_cmd CMD55 0 r)) ->
  (forall a r, preserves I (log_cmd CMD25 a r)) ->
  (forall r, preserves I (log_cmd CMD12 0 r)) ->
  (forall r, preserves I (log_cmd CMD13 0 r)) ->
  (forall r, preserves I (log_cmd ACMD22 0 r)) ->
  preservesP I (writeBlocks fuel buffer lba count).
Proof.
  intros H23 H55 H25 H12 H13 H22. unfold writeBlocks.
  generalize (mkCursor buffer 0 lba count 0 0) as c.
  induction fuel; intros; cbn [writeBlocks_loop]; pres.
Qed.

Lemma pres_disk_read fuel buffer sector count :
  (forall ct r, good ct ->
     preserves I (log_cmd CMD17 (block_addr ct (to_uint64 sector)) r)) ->
  (forall a r, preserves I (log_cmd CMD18 a r)) ->
  (forall r, preserves I (log_cmd CMD12 0 r)) ->
  preservesP I (disk_read fuel buffer sector count).
Proof.
  intros H17 H18 H12.
  pose proof (pres_readBlock buffer (to_uint64 sector) H17).
  pose proof (pres_readBlocks fuel buffer (to_uint64 sector)
                (to_char count) H18 H12).
  unfold disk_read. pres.
Qed.

Lemma pres_disk_write fuel buffer sector count :
  (forall ct r, good ct ->
     preserves I (log_cmd CMD24 (block_addr ct (to_uint64 sector)) r)) ->
  (forall a r, preserves I (log_cmd ACMD23 a r)) ->
  (forall r, preserves I (log_cmd CMD55 0 r)) ->
  (forall a r, preserves I (log_cmd CMD25 a r)) ->
  (forall r, preserves I (log_cmd CMD12 0 r)) ->
  (forall r, preserves I (log_cmd CMD13 0 r)) ->
  (forall r, preserves I (log_cmd ACMD22 0 r)) ->
  preservesP I (disk_write fuel buffer sector count).
Proof.
  intros H24 H23 H55 H25 H12 H13 H22.
  pose proof (pres_writeBlock fuel buffer (to_uint64 sector) H24 H13).
  pose proof (pres_writeBlocks fuel buffer (to_uint64 sector)
                (to_char count) H23 H55 H25 H12 H13 H22).
  unfold disk_write. pres.
Qed.

End OpsInvariant.

#[export] Hint Resolve pres_waitReady pres_deselect pres_select
  pres_send_bytes pres_recv_r1 pres_read_response pres_transmit
  pres_command pres_commandTransaction pres_init_poll pres_recv_token
  pres_read_bytes pres_read_words pres_write_bytes pres_write_words
  pres_wait_busy pres_readData pres_read_failed pres_write_failed
  pres_disk_sync pres_disk_sectors pres_programming_ok : inv.

(** ** Initialization, and the operations built on it *)
Section InitInvariant.
Variable I : SDFileSystem -> Prop.
Hypothesis I_tx :
  forall cmd arg resp, preserves I (commandTransaction cmd arg resp).
Hypothesis I_write : forall v, preserves I (spi_write v).
Hypothesis I_wait : forall n, preserves I (wait_ms n).
Hypothesis I_cs1 : preserves I (cs_write 1).
Hypothesis I_freq : forall f, preserves I (spi_frequency f).
Hypothesis I_kind : forall v, preserves I (modify (set_CardType v)).
Hypothesis I_noinit :
  preserves I (modify (fun s =>
                 set_Status (Z.land (m_Status s) (Z.lnot STA_NOINIT)) s)).
Hypothesis I_socket : preserves I checkSocket.

Hint Resolve I_tx I_write I_wait I_cs1 I_freq I_kind I_noinit I_socket : inv.

Lemma pres_poll n cmd arg token : preserves I (init_poll n cmd arg token).
Proof. revert token. induction n; intros; cbn [init_poll]; pres. Qed.

Lemma pres_init_failed : preserves I init_failed.
Proof. unfold init_failed. pres. Qed.

Lemma pres_init_done : preserves I init_done.
Proof. unfold init_done. pres. Qed.

Hint Resolve pres_poll pres_init_failed pres_init_done : inv.

Lemma pres_init_pullup : preserves I init_pullup.
Proof. unfold init_pullup. pres. Qed.

Hint Resolve pres_init_pullup : inv.

Lemma pres_init_blocklen : preserves I init_blocklen.
Proof. unfold init_blocklen. pres. Qed.

Hint Resolve pres_init_blocklen : inv.

Lemma pres_init_sdv2 resp : preserves I (init_sdv2 resp).
Proof. unfold init_sdv2. pres. Qed.

Lemma pres_init_sdv1_mmc resp : preserves I (init_sdv1_mmc resp).
Proof. unfold init_sdv1_mmc. pres. Qed.

Hint Resolve pres_init_sdv2 pres_init_sdv1_mmc : inv.

Lemma pres_init_probe : preserves I init_probe.
Proof. unfold init_probe. pres. Qed.

Hint Resolve pres_init_probe : inv.

Lemma pres_init_crc : preserves I init_crc.
Proof. unfold init_crc. pres. Qed.

Hint Resolve pres_init_crc : inv.

Lemma pres_init_reset : preserves I init_reset.
Proof. unfold init_reset. pres. Qed.

Lemma pres_init_clocks : preserves I init_clocks.
Proof. unfold init_clocks. pres. Qed.

Hint Resolve pres_init_reset pres_init_clocks : inv.

Lemma pres_disk_initialize : preserves I disk_initialize.
Proof. unfold disk_initialize. pres. Qed.

Hint Resolve pres_disk_initialize : inv.

Lemma pres_card_type : preserves I card_type.
Proof. unfold card_type. pres. Qed.

Lemma pres_disk_status : preserves I disk_status.
Proof. unfold disk_status. pres. Qed.

Hypothesis I_crc : forall v, preserves I (modify (set_Crc v)).

Hint Resolve I_crc : inv.

Lemma pres_set_crc enabled : preserves I (set_crc enabled).
Proof. unfold set_crc. pres. Qed.

End InitInvariant.

(** ** From the operations to the reachable states *)
Section Reachable.
Variable I : SDFileSystem -> Prop.
Hypothesis I_construct :
  forall card pin cdtype hz0, I (construct card pin cdtype hz0).
Hypothesis I_initialize : preserves I disk_initialize.
Hypothesis I_socket : preserves I checkSocket.
Hypothesis I_read :
  forall fuel buffer sector count,
    preservesP I (disk_read fuel buffer sector count).
Hypothesis I_write :
  forall fuel buffer sector count,
    preservesP I (disk_write fuel buffer sector count).
Hypothesis I_sync : preserves I disk_sync.
Hypothesis I_sectors : preserves I disk_sectors.
Hypothesis I_unmount : preserves I unmount.
Hypothesis I_card_type : preserves I card_type.
Hypothesis I_set_crc : forall enabled, preserves I (set_crc enabled).
Hypothesis I_frames : forall v, preserves I (modify (set_LargeFrames v)).

Lemma step_preserves op s s' : step op s s' -> I s -> I s'.
Proof.
  intros [fuel H] Hs. destruct op; cbn [run_op] in H;
    try (apply forgetP_some in H; destruct H as [a H]);
    try (apply forget_some in H; subst s').
  - apply I_initialize, Hs.
  - unfold disk_status. rewrite bind_run. apply I_socket, Hs.
  - exact (I_read _ _ _ _ _ _ _ Hs H).
  - exact (I_write _ _ _ _ _ _ _ Hs H).
  - apply I_sync, Hs.
  - apply I_sectors, Hs.
  - apply I_unmount, Hs.
  - apply I_card_type, Hs.
  - exact Hs.
  - apply I_set_crc, Hs.
  - exact Hs.
  - apply (I_frames enabled), Hs.
  - apply I_socket, Hs.
Qed.

Lemma reachable_invariant s : reachable s -> I s.
Proof.
  induction 1 as [card pin cdtype hz0 | op s s' Hr IH Hstep].
  - apply I_construct.
  - exact (step_preserves op s s' Hstep IH).
Qed.

End Reachable.

(** ** /CS between two operations *)

Lemma cs_spi_write v : preserves cs_high (spi_write v).
Proof. intros s H. exact H. Qed.

Lemma cs_wait_ms n : preserves cs_high (wait_ms n).
Proof. intros s H. exact H. Qed.

Lemma cs_log_cmd c arg r : preserves cs_high (log_cmd c arg r).
Proof. intros s H. exact H. Qed.

Lemma cs_spi_format b : preserves cs_high (spi_format b).
Proof. intros s H. exact H. Qed.

Lemma cs_spi_frequency f : preserves cs_high (spi_frequency f).
Proof. intros s H. exact H. Qed.

Lemma cs_cd_read : preserves cs_high cd_read.
Proof. intros s H. exact H. Qed.

Lemma cs_set_CardType v : preserves cs_high (modify (set_CardType v)).
Proof. intros s H. exact H. Qed.

Lemma cs_set_Status g :
  preserves cs_high (modify (fun s => set_Status (g s) s)).
Proof. intros s H. exact H. Qed.

Lemma cs_set_Crc v : preserves cs_high (modify (set_Crc v)).
Proof. intros s H. exact H. Qed.

Lemma cs_set_LargeFrames v : preserves cs_high (modify (set_LargeFrames v)).
Proof. intros s H. exact H. Qed.

Lemma cs_deassert : establishes cs_high (cs_write 1).
Proof. intros s. reflexivity. Qed.

#[export] Hint Resolve cs_spi_write cs_wait_ms cs_log_cmd cs_spi_format
  cs_spi_frequency cs_cd_read cs_set_CardType cs_set_Status cs_set_Crc
  cs_set_LargeFrames cs_deassert : inv.

Lemma cs_deselect : establishes cs_high deselect.
Proof. unfold deselect. est. Qed.

Lemma cs_read_payload buffer off len :
  preserves cs_high (read_payload buffer off len).
Proof. unfold read_payload. pres. Qed.

Lemma cs_writeData fuel buffer off token :
  preservesP cs_high (writeData fuel buffer off token).
Proof. unfold writeData. pres. Qed.

#[export] Hint Resolve cs_deselect cs_read_payload cs_writeData : inv.

(** [select] leaves the card selected only when it returns true. *)
Lemma cs_select_failed s :
  fst (select s) = false -> cs_high (snd (select s)).
Proof.
  unfold select.
  mstep u1 s1 E1. mstep v s2 E2. mstep ready s3 E3.
  destruct ready; cbn [ret fst snd]; [discriminate|].
  intros _. rewrite bind_run. apply cs_deselect.
Qed.

Lemma cs_after_select {A} (k : bool -> M A) :
  establishes cs_high (k true) -> preserves cs_high (k false) ->
  establishes cs_high (bind select k).
Proof.
  intros Ht Hf s. rewrite bind_run.
  destruct (fst (select s)) eqn:E; [apply Ht|].
  apply Hf, cs_select_failed, E.
Qed.

Lemma cs_commandTransaction cmd arg resp :
  establishes cs_high (commandTransaction cmd arg resp).
Proof.
  unfold commandTransaction. apply cs_after_select; cbn [negb]; [est|pres].
Qed.

Lemma cs_disk_sync : establishes cs_high disk_sync.
Proof. unfold disk_sync. apply cs_after_select; [est|pres]. Qed.

Lemma cs_read_failed buffer : establishes cs_high (read_failed buffer).
Proof. unfold read_failed. est. Qed.

Lemma cs_write_failed : establishesP cs_high write_failed.
Proof. unfold write_failed. est. Qed.

#[export] Hint Resolve cs_commandTransaction cs_disk_sync cs_read_failed
  cs_write_failed : inv.

Lemma cs_programming_ok : establishes cs_high programming_ok.
Proof. unfold programming_ok. est. Qed.

Lemma cs_well_written_blocks : preserves cs_high well_written_blocks.
Proof. unfold well_written_blocks. pres. Qed.

#[export] Hint Resolve cs_programming_ok cs_well_written_blocks : inv.

Lemma cs_readBlock buffer lba : establishes cs_high (readBlock buffer lba).
Proof.
  unfold readBlock. generalize 3%nat as n. intros n. revert buffer.
  induction n; intros; cbn [readBlock_loop]; est.
Qed.

Lemma cs_readBlocks fuel buffer lba count :
  establishesP cs_high (readBlocks fuel buffer lba count).
Proof.
  unfold readBlocks. generalize (mkCursor buffer 0 lba count 0 0) as c.
  induction fuel; intros; cbn [readBlocks_loop]; [est|].
  unfold readBlocks_failed. est.
Qed.

Lemma cs_writeBlock fuel buffer lba :
  establishesP cs_high (writeBlock fuel buffer lba).
Proof.
  unfold writeBlock. generalize 3%nat as n.
  induction n; intros; cbn [writeBlock_loop]; est.
Qed.

Lemma cs_writeBlocks fuel buffer lba count :
  establishesP cs_high (writeBlocks fuel buffer lba count).
Proof.
  unfold writeBlocks. generalize (mkCursor buffer 0 lba count 0 0) as c.
  induction fuel; intros; cbn [writeBlocks_loop]; est.
Qed.

#[export] Hint Resolve cs_readBlock cs_readBlocks cs_writeBlock
  cs_writeBlocks : inv.

Lemma cs_disk_read fuel buffer sector count :
  preservesP cs_high (disk_read fuel buffer sector count).
Proof. unfold disk_read. pres. Qed.

Lemma cs_disk_write fuel buffer sector count :
  preservesP cs_high (disk_write fuel buffer sector count).
Proof. unfold disk_write. pres. Qed.

Lemma cs_disk_sectors : preserves cs_high disk_sectors.
Proof.
  unfold disk_sectors.
  assert (L : forall n, establishes cs_high (disk_sectors_loop n))
    by (induction n; cbn [disk_sectors_loop]; est).
  pres.
Qed.

Lemma cs_checkSocket : preserves cs_high checkSocket.
Proof. unfold checkSocket. pres. Qed.

Lemma cs_unmount : preserves cs_high unmount.
Proof. unfold unmount. pres. Qed.

Lemma cs_tx cmd arg resp :
  preserves cs_high (commandTransaction cmd arg resp).
Proof. apply preserves_of_establishes, cs_commandTransaction. Qed.

Lemma cs_assert_high : preserves cs_high (cs_write 1).
Proof. apply preserves_of_establishes, cs_deassert. Qed.

(** X1.  Between two operations the card is never left selected: in
    every state reachable from construction by the public operations,
    /CS is high, whatever the card answered and whichever way each
    operation returned. *)
Theorem cs_high_between_operations s : reachable s -> m_Cs s = 1.
Proof.
  apply (reachable_invariant cs_high).
  - reflexivity.
  - apply pres_disk_initialize;
      auto using cs_tx, cs_assert_high, cs_checkSocket with inv.
  - apply cs_checkSocket.
  - apply cs_disk_read.
  - apply cs_disk_write.
  - apply preserves_of_establishes, cs_disk_sync.
  - apply cs_disk_sectors.
  - apply cs_unmount.
  - apply pres_card_type;
      auto using cs_tx, cs_assert_high, cs_checkSocket with inv.
  - intros e. apply pres_set_crc;
      auto using cs_tx, cs_assert_high, cs_checkSocket with inv.
  - intros v. apply cs_set_LargeFrames.
Qed.

Lemma cs_high_between_operations_witness :
  m_Cs (snd (disk_initialize sdhc_card)) = 1.
Proof.
  apply cs_high_between_operations.
  apply (reach_step OpDiskInitialize sdhc_card);
    [unfold sdhc_card, socket; apply reach_construct|].
  exists 0%nat. apply forget_run.
Defined.

(** ** Invariants that every step of the driver keeps *)
Section PlainInvariant.
Variable I : SDFileSystem -> Prop.
Hypothesis I_construct :
  forall card pin cdtype hz0, I (construct card pin cdtype hz0).
Hypothesis I_write : forall v, preserves I (spi_write v).
Hypothesis I_wait : forall n, preserves I (wait_ms n).
Hypothesis I_cs : forall v, preserves I (cs_write v).
Hypothesis I_log : forall c arg r, preserves I (log_cmd c arg r).
Hypothesis I_payload :
  forall buffer off len, preserves I (read_payload buffer off len).
Hypothesis I_writeData :
  forall fuel buffer off token, preservesP I (writeData fuel buffer off token).
Hypothesis I_freq : forall f, preserves I (spi_frequency f).
Hypothesis I_kind : forall v, preserves I (modify (set_CardType v)).
Hypothesis I_noinit :
  preserves I (modify (fun s =>
                 set_Status (Z.land (m_Status s) (Z.lnot STA_NOINIT)) s)).
Hypothesis I_socket : preserves I checkSocket.
Hypothesis I_unmount : preserves I unmount.
Hypothesis I_crc : forall v, preserves I (modify (set_Crc v)).
Hypothesis I_frames : forall v, preserves I (modify (set_LargeFrames v)).

Hint Resolve I_write I_wait I_cs I_log I_payload I_writeData I_freq I_kind
  I_noinit I_socket I_unmount I_crc I_frames : inv.

Lemma plain_tx cmd arg resp :
  preserves I (commandTransaction cmd arg resp).
Proof. auto with inv. Qed.

Lemma plain_disk_read fuel buffer sector count :
  preservesP I (disk_read fuel buffer sector count).
Proof. apply (pres_disk_read I) with (good := fun _ => True); auto with inv. Qed.

Lemma plain_disk_write fuel buffer sector count :
  preservesP I (disk_write fuel buffer sector count).
Proof.
  apply (pres_disk_write I) with (good := fun _ => True); auto with inv.
Qed.

Lemma plain_reachable s : reachable s -> I s.
Proof.
  pose proof plain_tx as Htx.
  apply (reachable_invariant I); auto with inv.
  - apply pres_disk_initialize; auto with inv.
  - intros; apply plain_disk_read.
  - intros; apply plain_disk_write.
  - apply pres_card_type; auto with inv.
  - intros e. apply pres_set_crc; auto with inv.
Qed.

End PlainInvariant.

(** ** The frame format between two operations *)

Lemma fmt_spi_write v : preserves byte_frames (spi_write v).
Proof. intros s H. exact H. Qed.

Lemma fmt_wait_ms n : preserves byte_frames (wait_ms n).
Proof. intros s H. exact H. Qed.

Lemma fmt_cs_write v : preserves byte_frames (cs_write v).
Proof. intros s H. exact H. Qed.

Lemma fmt_log_cmd c arg r : preserves byte_frames (log_cmd c arg r).
Proof. intros s H. exact H. Qed.

Lemma fmt_spi_frequency f : preserves byte_frames (spi_frequency f).
Proof. intros s H. exact H. Qed.

Lemma fmt_cd_read : preserves byte_frames cd_read.
Proof. intros s H. exact H. Qed.

Lemma fmt_set_CardType v : preserves byte_frames (modify (set_CardType v)).
Proof. intros s H. exact H. Qed.

Lemma fmt_set_Status g :
  preserves byte_frames (modify (fun s => set_Status (g s) s)).
Proof. intros s H. exact H. Qed.

Lemma fmt_set_Crc v : preserves byte_frames (modify (set_Crc v)).
Proof. intros s H. exact H. Qed.

Lemma fmt_set_LargeFrames v :
  preserves byte_frames (modify (set_LargeFrames v)).
Proof. intros s H. exact H. Qed.

Lemma fmt_format_8 : establishes byte_frames (spi_format 8).
Proof. intros s. reflexivity. Qed.

#[export] Hint Resolve fmt_spi_write fmt_wait_ms fmt_cs_write fmt_log_cmd
  fmt_spi_frequency fmt_cd_read fmt_set_CardType fmt_set_Status fmt_set_Crc
  fmt_set_LargeFrames fmt_format_8 : inv.

(** Both payload engines end in 8-bit frames. *)
Lemma fmt_read_payload buffer off len :
  preserves byte_frames (read_payload buffer off len).
Proof. unfold read_payload. pres. Qed.

Lemma fmt_writeData fuel buffer off token :
  preservesP byte_frames (writeData fuel buffer off token).
Proof. unfold writeData. pres. Qed.

Lemma fmt_checkSocket : preserves byte_frames checkSocket.
Proof. unfold checkSocket. pres. Qed.

Lemma fmt_unmount : preserves byte_frames unmount.
Proof. unfold unmount. pres. Qed.

(** X2.  Between two operations the bus is in 8-bit frames: the 16-bit
    format that [readData] and [writeData] switch to when wide frames
    are enabled is always switched back before they return, so every
    reachable state has 8-bit frames. *)
Theorem byte_frames_between_operations s :
  reachable s -> bits (m_Spi s) = 8.
Proof.
  apply (plain_reachable byte_frames);
    auto using fmt_read_payload, fmt_writeData, fmt_checkSocket, fmt_unmount
      with inv.
  reflexivity.
Qed.

Lemma byte_frames_between_operations_witness :
  bits (m_Spi (snd (disk_initialize
                      (snd (set_large_frames true sdhc_card))))) = 8.
Proof.
  apply byte_frames_between_operations.
  apply (reach_step OpDiskInitialize (snd (set_large_frames true sdhc_card)));
    [|exists 0%nat; apply forget_run].
  apply (reach_step (OpSetLargeFrames true) sdhc_card);
    [unfold sdhc_card, socket; apply reach_construct|].
  exists 0%nat. apply forget_run.
Defined.

(** ** The write-protect bit *)

Lemma prot_spi_write v : preserves unprotected (spi_write v).
Proof. intros s H. exact H. Qed.

Lemma prot_wait_ms n : preserves unprotected (wait_ms n).
Proof. intros s H. exact H. Qed.

Lemma prot_cs_write v : preserves unprotected (cs_write v).
Proof. intros s H. exact H. Qed.

Lemma prot_log_cmd c arg r : preserves unprotected (log_cmd c arg r).
Proof. intros s H. exact H. Qed.

Lemma prot_spi_format b : preserves unprotected (spi_format b).
Proof. intros s H. exact H. Qed.

Lemma prot_spi_frequency f : preserves unprotected (spi_frequency f).
Proof. intros s H. exact H. Qed.

Lemma prot_cd_read : preserves unprotected cd_read.
Proof. intros s H. exact H. Qed.

Lemma prot_set_CardType v : preserves unprotected (modify (set_CardType v)).
Proof. intros s H. exact H. Qed.

Lemma prot_set_Crc v : preserves unprotected (modify (set_Crc v)).
Proof. intros s H. exact H. Qed.

Lemma prot_set_LargeFrames v :
  preserves unprotected (modify (set_LargeFrames v)).
Proof. intros s H. exact H. Qed.

(** The three updates of the status leave bit 2 as it is. *)
Lemma prot_clear_noinit :
  preserves unprotected
    (modify (fun s => set_Status (Z.land (m_Status s) (Z.lnot STA_NOINIT)) s)).
Proof.
  intros s H. unfold unprotected, protect_bit in *.
  change (Z.land (Z.land (m_Status s) (Z.lnot STA_NOINIT)) STA_PROTECT = 0).
  rewrite <- Z.land_assoc. exact H.
Qed.

Lemma prot_clear_nodisk :
  preserves unprotected
    (modify (fun s => set_Status (Z.land (m_Status s) (Z.lnot STA_NODISK)) s)).
Proof.
  intros s H. unfold unprotected, protect_bit in *.
  change (Z.land (Z.land (m_Status s) (Z.lnot STA_NODISK)) STA_PROTECT = 0).
  rewrite <- Z.land_assoc. exact H.
Qed.

Lemma prot_set_low extra :
  Z.land extra STA_PROTECT = 0 ->
  preserves unprotected
    (modify (fun s => set_Status (Z.lor (m_Status s) extra) s)).
Proof.
  intros He s H. unfold unprotected, protect_bit in *.
  change (Z.land (Z.lor (m_Status s) extra) STA_PROTECT = 0).
  rewrite Z.land_lor_distr_l, H, He. reflexivity.
Qed.

#[export] Hint Resolve prot_spi_write prot_wait_ms prot_cs_write prot_log_cmd
  prot_spi_format prot_spi_frequency prot_cd_read prot_set_CardType
  prot_set_Crc prot_set_LargeFrames prot_clear_noinit prot_clear_nodisk : inv.

Lemma prot_read_payload buffer off len :
  preserves unprotected (read_payload buffer off len).
Proof. unfold read_payload. pres. Qed.

Lemma prot_writeData fuel buffer off token :
  preservesP unprotected (writeData fuel buffer off token).
Proof. unfold writeData. pres. Qed.

Lemma prot_checkSocket : preserves unprotected checkSocket.
Proof.
  pose proof (prot_set_low (Z.lor STA_NODISK STA_NOINIT) eq_refl).
  unfold checkSocket. pres.
Qed.

Lemma prot_unmount : preserves unprotected unmount.
Proof.
  pose proof (prot_set_low STA_NOINIT eq_refl).
  unfold unmount. pres.
Qed.

Lemma unprotected_reachable s : reachable s -> unprotected s.
Proof.
  apply (plain_reachable unprotected);
    auto using prot_read_payload, prot_writeData, prot_checkSocket,
      prot_unmount with inv.
  reflexivity.
Qed.

Lemma disk_write_wrprt fuel buffer sector count s r s' :
  disk_write fuel buffer sector count s = Some (r, s') ->
  r = RES_WRPRT -> status_has STA_PROTECT s = true.
Proof.
  unfold disk_write, bindP, liftP, retP. rewrite get_run.
  destruct (status_has STA_NOINIT s); [intros E; injection E as <- _; discriminate|].
  rewrite get_run.
  destruct (status_has STA_PROTECT s); [intros; reflexivity|].
  destruct (to_char count >? 1);
    [destruct (writeBlocks fuel buffer (to_uint64 sector) (to_char count) s)
       as [[ok s1]|]
    |destruct (writeBlock fuel buffer (to_uint64 sector) s) as [[ok s1]|]];
    try discriminate;
    destruct ok; intros E; injection E as <- _; discriminate.
Qed.

(** X3.  The driver never reports write protection.  No operation sets
    the [STA_PROTECT] bit of the status, so it is clear in every
    reachable state, [disk_status] never shows it and [disk_write]
    never returns [RES_WRPRT]. *)
Theorem never_write_protected s :
  reachable s ->
  status_has STA_PROTECT s = false
  /\ status_has STA_PROTECT (snd (disk_status s)) = false
  /\ (forall fuel buffer sector count r s',
        disk_write fuel buffer sector count s = Some (r, s') ->
        r <> RES_WRPRT).
Proof.
  intros Hr.
  assert (Hp : forall s0, unprotected s0 -> status_has STA_PROTECT s0 = false).
  { intros s0 H. unfold status_has. unfold unprotected, protect_bit in H.
    rewrite H. reflexivity. }
  pose proof (unprotected_reachable s Hr) as Hs.
  split; [exact (Hp s Hs)|]. split.
  - apply Hp. unfold disk_status. rewrite bind_run.
    apply prot_checkSocket, Hs.
  - intros fuel buffer sector count r s' E Hw.
    specialize (Hp s Hs).
    rewrite (disk_write_wrprt _ _ _ _ _ _ _ E Hw) in Hp. discriminate Hp.
Qed.

Lemma never_write_protected_witness :
  status_has STA_PROTECT (snd (unmount (snd (disk_initialize mmc_card))))
  = false.
Proof.
  apply never_write_protected.
  apply (reach_step OpUnmount (snd (disk_initialize mmc_card)));
    [|exists 0%nat; apply forget_run].
  apply (reach_step OpDiskInitialize mmc_card);
    [unfold mmc_card, socket; apply reach_construct|].
  exists 0%nat. apply forget_run.
Defined.

(** ** How initialization ends *)

Lemma hoare_bind Pre Mid Post {A B} (m : M A) (k : A -> M B) :
  hoare Pre m Mid -> (forall a, hoare Mid (k a) Post) ->
  hoare Pre (bind m k) Post.
Proof. intros Hm Hk s H. rewrite bind_run. apply Hk, Hm, H. Qed.

Lemma hoare_keep Pre Post {A B} (m : M A) (k : A -> M B) :
  preserves Pre m -> (forall a, hoare Pre (k a) Post) ->
  hoare Pre (bind m k) Post.
Proof. intros Hm Hk. exact (hoare_bind Pre Pre Post m k Hm Hk). Qed.

Lemma hoare_if Pre Post {A} (b : bool) (m1 m2 : M A) :
  hoare Pre m1 Post -> hoare Pre m2 Post ->
  hoare Pre (if b then m1 else m2) Post.
Proof. destruct b; auto. Qed.

Section InitOutcome.
Variables st fr : Z.

Lemma ing_spi_write v : preserves (initializing st fr) (spi_write v).
Proof. intros s H. exact H. Qed.

Lemma ing_wait_ms n : preserves (initializing st fr) (wait_ms n).
Proof. intros s H. exact H. Qed.

Lemma ing_cs_write v : preserves (initializing st fr) (cs_write v).
Proof. intros s H. exact H. Qed.

Lemma ing_log_cmd c arg r : preserves (initializing st fr) (log_cmd c arg r).
Proof. intros s H. exact H. Qed.

Lemma ing_spi_frequency f : preserves (initializing st fr) (spi_frequency f).
Proof. intros s H. exact H. Qed.

Lemma dec_spi_write v : preserves (decided st fr) (spi_write v).
Proof. intros s H. exact H. Qed.

Lemma dec_wait_ms n : preserves (decided st fr) (wait_ms n).
Proof. intros s H. exact H. Qed.

Lemma dec_cs_write v : preserves (decided st fr) (cs_write v).
Proof. intros s H. exact H. Qed.

Lemma dec_log_cmd c arg r : preserves (decided st fr) (log_cmd c arg r).
Proof. intros s H. exact H. Qed.

Hint Resolve ing_spi_write ing_wait_ms ing_cs_write ing_log_cmd
  ing_spi_frequency dec_spi_write dec_wait_ms dec_cs_write dec_log_cmd : inv.

Lemma ing_tx cmd arg resp :
  preserves (initializing st fr) (commandTransaction cmd arg resp).
Proof. auto with inv. Qed.

Lemma dec_tx cmd arg resp :
  preserves (decided st fr) (commandTransaction cmd arg resp).
Proof. auto with inv. Qed.

Lemma ing_poll n cmd arg token :
  preserves (initializing st fr) (init_poll n cmd arg token).
Proof. auto with inv. Qed.

Lemma ing_clocks : preserves (initializing st fr) init_clocks.
Proof. unfold init_clocks. pres. Qed.

Hint Resolve ing_tx dec_tx ing_poll : inv.

Lemma ing_failed : hoare (initializing st fr) init_failed (init_outcome st fr).
Proof.
  intros s [Hs Hf]. rewrite init_failed_run. cbn [snd].
  split; [exact Hf|]. left. split; [exact Hs|reflexivity].
Qed.

Lemma dec_failed : hoare (decided st fr) init_failed (init_outcome st fr).
Proof. intros s [H _]. apply ing_failed, H. Qed.

Lemma min_limit ct freq :
  (if CardType_eqb ct CARD_MMC && (freq >? 20000000) then 20000000
   else if freq >? 25000000 then 25000000 else freq)
  = Z.min freq (speed_limit ct).
Proof.
  destruct ct; cbn [CardType_eqb speed_limit andb];
    try change (CardType_eqb _ _) with false;
    try change (CardType_eqb _ _) with true; cbn [andb];
    repeat match goal with
           | |- context [?a >? ?b] => destruct (Z.gtb_spec a b)
           end; lia.
Qed.

Lemma dec_done : hoare (decided st fr) init_done (init_outcome st fr).
Proof.
  intros s [[Hs Hf] Hu]. unfold init_done.
  rewrite (bind_eqn _ _ _ _ _ (modify_run _ s)).
  rewrite (bind_eqn _ _ _ _ _ (get_run _ _)).
  rewrite (bind_eqn _ _ _ _ _ (get_run _ _)).
  rewrite bind_run, get_run. cbn [snd].
  match goal with
  | |- init_outcome _ _ (snd (?m ?s1)) =>
      assert (E : m s1
                  = spi_frequency
                      (Z.min (m_FREQ s) (speed_limit (m_CardType s))) s1)
        by (rewrite <- min_limit;
            change (m_CardType s1) with (m_CardType s);
            change (m_FREQ s1) with (m_FREQ s);
            destruct (_ && _); [|destruct (_ >? _)]; reflexivity);
      rewrite E
  end.
  split; [exact Hf|]. right. split; [|split].
  - cbn. rewrite Hs. reflexivity.
  - exact Hu.
  - cbn. rewrite Hf. reflexivity.
Qed.

Hint Resolve ing_failed dec_failed dec_done : inv.

Ltac hoare_tac :=
  cbv zeta;
  first [ solve [auto with inv]
        | match goal with
          | |- hoare _ (if _ then _ else _) _ => apply hoare_if; hoare_tac
          | |- hoare _ (bind _ _) _ =>
              apply hoare_keep; [solve [pres] | intros ?; hoare_tac]
          end ].

Lemma dec_pullup : hoare (decided st fr) init_pullup (init_outcome st fr).
Proof. unfold init_pullup. hoare_tac. Qed.

Hint Resolve dec_pullup : inv.

Lemma dec_blocklen : hoare (decided st fr) init_blocklen (init_outcome st fr).
Proof. unfold init_blocklen. hoare_tac. Qed.

Lemma ing_decide kind :
  usable kind = true ->
  hoare (initializing st fr) (modify (set_CardType kind) ;; init_blocklen)
        (init_outcome st fr).
Proof.
  intros Hk. apply (hoare_bind _ (decided st fr)).
  - intros s H. split; [exact H|exact Hk].
  - intros _. apply dec_blocklen.
Qed.

Hint Resolve ing_decide : inv.

Lemma ing_sdv2 resp :
  hoare (initializing st fr) (init_sdv2 resp) (init_outcome st fr).
Proof.
  unfold init_sdv2.
  assert (Hk : forall b : bool,
    hoare (initializing st fr)
      ((if b then modify (set_CardType CARD_SDHC)
        else modify (set_CardType CARD_SD)) ;; init_blocklen)
      (init_outcome st fr))
    by (intros [|]; apply ing_decide; reflexivity).
  hoare_tac.
Qed.

Lemma ing_sdv1_mmc resp :
  hoare (initializing st fr) (init_sdv1_mmc resp) (init_outcome st fr).
Proof. unfold init_sdv1_mmc. hoare_tac. Qed.

Hint Resolve ing_sdv2 ing_sdv1_mmc : inv.

Lemma ing_probe : hoare (initializing st fr) init_probe (init_outcome st fr).
Proof. unfold init_probe. hoare_tac. Qed.

Hint Resolve ing_probe : inv.

Lemma ing_crc : hoare (initializing st fr) init_crc (init_outcome st fr).
Proof. unfold init_crc. hoare_tac. Qed.

Hint Resolve ing_crc : inv.

Lemma ing_reset : hoare (initializing st fr) init_reset (init_outcome st fr).
Proof. unfold init_reset. hoare_tac. Qed.

End InitOutcome.

(** ** Initialized, usable and at full speed *)

Lemma rdy_spi_write v : preserves ready_consistent (spi_write v).
Proof. intros s H. exact H. Qed.

Lemma rdy_wait_ms n : preserves ready_consistent (wait_ms n).
Proof. intros s H. exact H. Qed.

Lemma rdy_cs_write v : preserves ready_consistent (cs_write v).
Proof. intros s H. exact H. Qed.

Lemma rdy_log_cmd c arg r : preserves ready_consistent (log_cmd c arg r).
Proof. intros s H. exact H. Qed.

Lemma rdy_spi_format b : preserves ready_consistent (spi_format b).
Proof. intros s H. exact H. Qed.

Lemma rdy_cd_read : preserves ready_consistent cd_read.
Proof. intros s H. exact H. Qed.

Lemma rdy_set_Crc v : preserves ready_consistent (modify (set_Crc v)).
Proof. intros s H. exact H. Qed.

Lemma rdy_set_LargeFrames v :
  preserves ready_consistent (modify (set_LargeFrames v)).
Proof. intros s H. exact H. Qed.

#[export] Hint Resolve rdy_spi_write rdy_wait_ms rdy_cs_write rdy_log_cmd
  rdy_spi_format rdy_cd_read rdy_set_Crc rdy_set_LargeFrames : inv.

Lemma rdy_read_payload buffer off len :
  preserves ready_consistent (read_payload buffer off len).
Proof. unfold read_payload. pres. Qed.

Lemma rdy_writeData fuel buffer off token :
  preservesP ready_consistent (writeData fuel buffer off token).
Proof. unfold writeData. pres. Qed.

#[export] Hint Resolve rdy_read_payload rdy_writeData : inv.

Lemma rdy_tx cmd arg resp :
  preserves ready_consistent (commandTransaction cmd arg resp).
Proof. auto with inv. Qed.

(** Clearing [STA_NODISK] leaves the [STA_NOINIT] bit as it is; setting
    [STA_NOINIT] sets it. *)
Lemma noinit_clear_nodisk s :
  status_has STA_NOINIT
    (set_Status (Z.land (m_Status s) (Z.lnot STA_NODISK)) s)
  = status_has STA_NOINIT s.
Proof.
  unfold status_has.
  change (m_Status (set_Status ?v s)) with v.
  rewrite <- Z.land_assoc. reflexivity.
Qed.

Lemma noinit_set extra s :
  Z.land extra STA_NOINIT = STA_NOINIT ->
  status_has STA_NOINIT (set_Status (Z.lor (m_Status s) extra) s) = true.
Proof.
  intros He. unfold status_has.
  change (m_Status (set_Status ?v s)) with v.
  apply negb_true_iff, Z.eqb_neq, land_set_same; [discriminate|exact He].
Qed.

Lemma noinit_cleared st s :
  m_Status s = Z.land st (Z.lnot STA_NOINIT) -> status_has STA_NOINIT s = false.
Proof.
  intros H. unfold status_has. rewrite H, land_clear_same. reflexivity.
Qed.

Lemma rdy_not_ready s :
  status_has STA_NOINIT s = true -> usable (m_CardType s) = false ->
  ready_consistent s.
Proof.
  intros Hi Hu. split; [split|]; intros H; congruence.
Qed.

Lemma rdy_checkSocket : preserves ready_consistent checkSocket.
Proof.
  intros s H. unfold checkSocket.
  rewrite bind_run. rewrite (bind_eqn _ _ _ _ _ (get_run _ _)).
  destruct (_ =? _).
  - rewrite modify_run. cbn [snd].
    destruct H as [H1 H2]. split.
    + rewrite noinit_clear_nodisk. exact H1.
    + rewrite noinit_clear_nodisk. exact H2.
  - rewrite bind_run, modify_run, modify_run. cbn [snd].
    apply rdy_not_ready; [|reflexivity].
    exact (noinit_set (Z.lor STA_NODISK STA_NOINIT) _ eq_refl).
Qed.

Lemma rdy_unmount : preserves ready_consistent unmount.
Proof.
  intros s H. unfold unmount.
  rewrite bind_run, bind_run, modify_run, modify_run. cbn [snd ret].
  apply rdy_not_ready; [|reflexivity].
  exact (noinit_set STA_NOINIT _ eq_refl).
Qed.

Lemma rdy_of_outcome st fr s :
  negb (Z.land st STA_NOINIT =? 0) = true ->
  init_outcome st fr s -> ready_consistent s.
Proof.
  intros Hst [Hf [[Hs Hc]|(Hs & Hu & Hz)]].
  - apply rdy_not_ready; [|rewrite Hc; reflexivity].
    unfold status_has. rewrite Hs. exact Hst.
  - pose proof (noinit_cleared st s Hs) as Hi.
    split; [split; intros; assumption|].
    intros _. rewrite Hf. exact Hz.
Qed.

Lemma rdy_disk_initialize : preserves ready_consistent disk_initialize.
Proof.
  intros s H. apply rdy_checkSocket in H. unfold disk_initialize.
  rewrite bind_run. rewrite (bind_eqn _ _ _ _ _ (get_run _ _)).
  destruct (status_has STA_NODISK (snd (checkSocket s))); [exact H|].
  rewrite (bind_eqn _ _ _ _ _ (get_run _ _)).
  destruct (status_has STA_NOINIT (snd (checkSocket s))) eqn:Hi;
    cbn [negb]; [|exact H].
  rewrite bind_run.
  apply (rdy_of_outcome (m_Status (snd (checkSocket s)))
                        (m_FREQ (snd (checkSocket s)))); [exact Hi|].
  apply ing_reset, ing_clocks. split; reflexivity.
Qed.

#[export] Hint Resolve rdy_tx rdy_checkSocket rdy_unmount
  rdy_disk_initialize : inv.

Lemma ready_reachable s : reachable s -> ready_consistent s.
Proof.
  apply (reachable_invariant ready_consistent); auto with inv.
  - intros. apply rdy_not_ready; reflexivity.
  - intros. apply (pres_disk_read ready_consistent) with (good := fun _ => True);
      auto with inv.
  - intros. apply (pres_disk_write ready_consistent) with (good := fun _ => True);
      auto with inv.
  - unfold card_type. pres.
  - intros e. unfold set_crc. pres.
Qed.

(** X4.  The driver is initialized exactly when it knows a usable card
    type: in every reachable state [STA_NOINIT] is clear if and only if
    the card type is MMC, SD or SDHC, so that [CARD_NONE] and
    [CARD_UNKNOWN] always come with NotInitialized. *)
Theorem initialized_iff_usable s :
  reachable s ->
  (status_has STA_NOINIT s = false <-> usable (m_CardType s) = true).
Proof. intros H. exact (proj1 (ready_reachable s H)). Qed.

Lemma initialized_iff_usable_witness :
  usable (m_CardType (snd (disk_initialize sdhc_card))) = true
  /\ status_has STA_NOINIT (snd (disk_initialize sdhc_card_silent_on_acmd42))
     = true.
Proof.
  assert (R : forall s0 : SDFileSystem,
             reachable s0 -> reachable (snd (disk_initialize s0))).
  { intros s0 H. apply (reach_step OpDiskInitialize s0); [exact H|].
    exists 0%nat. apply forget_run. }
  split.
  - apply initialized_iff_usable.
    + apply R. unfold sdhc_card, socket. apply reach_construct.
    + vm_compute. reflexivity.
  - destruct (status_has STA_NOINIT
                (snd (disk_initialize sdhc_card_silent_on_acmd42))) eqn:E;
      [reflexivity|].
    apply initialized_iff_usable in E.
    + vm_compute in E. discriminate E.
    + apply R. unfold sdhc_card_silent_on_acmd42, socket. apply reach_construct.
Defined.

(** X5.  An initialized card is clocked at full speed and never above
    its limit: in every reachable state with [STA_NOINIT] clear the SPI
    frequency is the target frequency of the constructor, capped at
    20 MHz for an MMC and at 25 MHz for an SD card. *)
Theorem initialized_at_full_speed s :
  reachable s -> status_has STA_NOINIT s = false ->
  hz (m_Spi s) = Z.min (m_FREQ s) (speed_limit (m_CardType s)).
Proof. intros H. exact (proj2 (ready_reachable s H)). Qed.

Lemma initialized_at_full_speed_witness :
  hz (m_Spi (snd (disk_initialize sdhc_card))) = 25000000
  /\ hz (m_Spi (snd (disk_initialize mmc_card))) = 20000000.
Proof.
  assert (R : forall s0 : SDFileSystem,
             reachable s0 -> reachable (snd (disk_initialize s0))).
  { intros s0 H. apply (reach_step OpDiskInitialize s0); [exact H|].
    exists 0%nat. apply forget_run. }
  split.
  - rewrite initialized_at_full_speed.
    + vm_compute. reflexivity.
    + apply R. unfold sdhc_card, socket. apply reach_construct.
    + vm_compute. reflexivity.
  - rewrite initialized_at_full_speed.
    + vm_compute. reflexivity.
    + apply R. unfold mmc_card, socket. apply reach_construct.
    + vm_compute. reflexivity.
Defined.

(** * The bus gateway *)

Lemma waitReady_S n s :
  waitReady (S n) s
  = (if frame (bits (m_Spi s)) s 0 =? 0xFF
     then (true, snd (spi_write 0xFF s))
     else waitReady n (snd (wait_ms 1 (snd (spi_write 0xFF s))))).
Proof.
  cbn [waitReady]. destruct (spi_write 0xFF s) as [v s1] eqn:E.
  rewrite (bind_eqn _ _ _ _ _ E).
  destruct (spi_write_frame _ _ _ _ E) as [-> _]. cbn [snd].
  destruct (_ =? _); [reflexivity|]. rewrite bind_run. reflexivity.
Qed.

Lemma spi_write_after v s :
  spi_after 1 s (snd (spi_write v s))
  /\ elapsed_ms (snd (spi_write v s)) = elapsed_ms s
  /\ m_Cs (snd (spi_write v s)) = m_Cs s.
Proof.
  split; [|split; reflexivity].
  destruct (spi_write v s) as [a s1] eqn:E.
  exact (proj2 (spi_write_frame _ _ _ _ E)).
Qed.

(** One poll that finds the card busy: a transfer and a millisecond. *)
Lemma busy_poll s :
  let s' := snd (wait_ms 1 (snd (spi_write 0xFF s))) in
  spi_after 1 s s' /\ elapsed_ms s' = S (elapsed_ms s) /\ m_Cs s' = m_Cs s.
Proof.
  cbv zeta. split; [|split].
  - unfold spi_after, spi_write, wait_ms.
    cbn [set_Spi set_elapsed m_Spi miso xfers bits snd].
    rewrite Nat.add_1_r. auto.
  - unfold spi_write, wait_ms. cbn [set_Spi set_elapsed elapsed_ms snd].
    apply Nat.add_1_r.
  - reflexivity.
Qed.

Lemma waitReady_ready n s i :
  (i < n)%nat ->
  (forall j, (j < i)%nat -> frame (bits (m_Spi s)) s j <> 0xFF) ->
  frame (bits (m_Spi s)) s i = 0xFF ->
  fst (waitReady n s) = true
  /\ spi_after (S i) s (snd (waitReady n s))
  /\ elapsed_ms (snd (waitReady n s)) = (elapsed_ms s + i)%nat
  /\ m_Cs (snd (waitReady n s)) = m_Cs s.
Proof.
  revert s i. induction n as [|n IH]; intros s i Hi Hbusy Hrdy; [lia|].
  rewrite waitReady_S. destruct i as [|i].
  - rewrite Hrdy, Z.eqb_refl. cbn [fst snd].
    destruct (spi_write_after 0xFF s) as (Ha & He & Hc).
    split; [reflexivity|]. split; [exact Ha|].
    split; [rewrite He; symmetry; apply Nat.add_0_r|exact Hc].
  - assert (H0 : frame (bits (m_Spi s)) s 0 <> 0xFF) by (apply Hbusy; lia).
    apply Z.eqb_neq in H0. rewrite H0.
    destruct (busy_poll s) as (Ha & He & Hc).
    set (s' := snd (wait_ms 1 (snd (spi_write 0xFF s)))) in *.
    assert (Hb : bits (m_Spi s') = bits (m_Spi s)) by apply Ha.
    destruct (IH s' i) as (R1 & R2 & R3 & R4); [lia| | |].
    + intros j Hj. rewrite Hb, (frame_after _ 1 s s' _ Ha).
      apply Hbusy. lia.
    + rewrite Hb, (frame_after _ 1 s s' _ Ha). exact Hrdy.
    + split; [exact R1|]. split; [|split].
      * exact (spi_after_trans 1 (S i) _ _ _ Ha R2).
      * rewrite R3, He. lia.
      * rewrite R4. exact Hc.
Qed.

Lemma waitReady_timeout n s :
  (forall j, (j < n)%nat -> frame (bits (m_Spi s)) s j <> 0xFF) ->
  fst (waitReady n s) = false
  /\ spi_after n s (snd (waitReady n s))
  /\ elapsed_ms (snd (waitReady n s)) = (elapsed_ms s + n)%nat
  /\ m_Cs (snd (waitReady n s)) = m_Cs s.
Proof.
  revert s. induction n as [|n IH]; intros s Hbusy.
  - cbn [waitReady ret fst snd]. split; [reflexivity|].
    split; [apply spi_after_refl|].
    split; [symmetry; apply Nat.add_0_r|reflexivity].
  - rewrite waitReady_S.
    assert (H0 : frame (bits (m_Spi s)) s 0 <> 0xFF) by (apply Hbusy; lia).
    apply Z.eqb_neq in H0. rewrite H0.
    destruct (busy_poll s) as (Ha & He & Hc).
    set (s' := snd (wait_ms 1 (snd (spi_write 0xFF s)))) in *.
    assert (Hb : bits (m_Spi s') = bits (m_Spi s)) by apply Ha.
    destruct (IH s') as (R1 & R2 & R3 & R4).
    + intros j Hj. rewrite Hb, (frame_after _ 1 s s' _ Ha).
      apply Hbusy. lia.
    + split; [exact R1|]. split; [|split].
      * exact (spi_after_trans 1 n _ _ _ Ha R2).
      * rewrite R3, He. lia.
      * rewrite R4. exact Hc.
Qed.

(** The state in which [select] starts to poll. *)
Lemma select_run s :
  select s
  = (let s1 := snd (spi_write 0xFF (snd (cs_write 0 s))) in
     if fst (waitReady 500 s1) then (true, snd (waitReady 500 s1))
     else (false, snd (deselect (snd (waitReady 500 s1))))).
Proof.
  unfold select. rewrite bind_run, bind_run, bind_run. cbv zeta.
  destruct (fst (waitReady 500 _)); [reflexivity|].
  rewrite bind_run. reflexivity.
Qed.

Lemma select_polls s :
  let s1 := snd (spi_write 0xFF (snd (cs_write 0 s))) in
  spi_after 1 s s1 /\ elapsed_ms s1 = elapsed_ms s /\ m_Cs s1 = 0.
Proof.
  cbv zeta. split; [|split; reflexivity].
  unfold spi_after, spi_write, cs_write.
  cbn [set_Spi set_Cs m_Spi miso xfers bits snd].
  rewrite Nat.add_1_r. auto.
Qed.

Lemma deselect_after s :
  spi_after 1 s (snd (deselect s))
  /\ elapsed_ms (snd (deselect s)) = elapsed_ms s
  /\ m_Cs (snd (deselect s)) = 1.
Proof.
  unfold deselect. rewrite bind_run, bind_run. cbn [ret snd].
  split; [|split; reflexivity].
  unfold spi_after, spi_write, cs_write.
  cbn [set_Spi set_Cs m_Spi miso xfers bits snd].
  rewrite Nat.add_1_r. auto.
Qed.

Lemma select_ready s i :
  (i < 500)%nat ->
  (forall j, (j < i)%nat -> frame (bits (m_Spi s)) s (S j) <> 0xFF) ->
  frame (bits (m_Spi s)) s (S i) = 0xFF ->
  fst (select s) = true
  /\ m_Cs (snd (select s)) = 0
  /\ spi_after (2 + i) s (snd (select s))
  /\ elapsed_ms (snd (select s)) = (elapsed_ms s + i)%nat.
Proof.
  intros Hi Hbusy Hrdy. rewrite select_run. cbv zeta.
  destruct (select_polls s) as (Ha & He & Hc).
  set (s1 := snd (spi_write 0xFF (snd (cs_write 0 s)))) in *.
  assert (Hb : bits (m_Spi s1) = bits (m_Spi s)) by apply Ha.
  destruct (waitReady_ready 500 s1 i Hi) as (R1 & R2 & R3 & R4).
  - intros j Hj. rewrite Hb, (frame_after _ 1 s s1 _ Ha). apply Hbusy, Hj.
  - rewrite Hb, (frame_after _ 1 s s1 _ Ha). exact Hrdy.
  - rewrite R1. cbn [fst snd]. split; [reflexivity|].
    split; [rewrite R4; exact Hc|]. split.
    + exact (spi_after_trans 1 (S i) _ _ _ Ha R2).
    + rewrite R3, He. reflexivity.
Qed.

Lemma select_timeout s :
  (forall j, (j < 500)%nat -> frame (bits (m_Spi s)) s (S j) <> 0xFF) ->
  fst (select s) = false
  /\ m_Cs (snd (select s)) = 1
  /\ spi_after 502 s (snd (select s))
  /\ elapsed_ms (snd (select s)) = (elapsed_ms s + 500)%nat.
Proof.
  intros Hbusy. rewrite select_run. cbv zeta.
  destruct (select_polls s) as (Ha & He & Hc).
  set (s1 := snd (spi_write 0xFF (snd (cs_write 0 s)))) in *.
  assert (Hb : bits (m_Spi s1) = bits (m_Spi s)) by apply Ha.
  destruct (waitReady_timeout 500 s1) as (R1 & R2 & R3 & R4).
  - intros j Hj. rewrite Hb, (frame_after _ 1 s s1 _ Ha). apply Hbusy, Hj.
  - rewrite R1. cbn [fst snd].
    destruct (deselect_after (snd (waitReady 500 s1))) as (D1 & D2 & D3).
    split; [reflexivity|]. split; [exact D3|]. split.
    + exact (spi_after_trans 501 1 _ _ _
               (spi_after_trans 1 500 _ _ _ Ha R2) D1).
    + rewrite D2, R3, He. reflexivity.
Qed.

(** Either some poll among the first [n] finds the card ready, and then
    there is a first one, or all of them find it busy. *)
Lemma ready_or_busy (f : nat -> Z) n :
  (exists i, (i < n)%nat /\ f i = 0xFF /\ forall j, (j < i)%nat -> f j <> 0xFF)
  \/ (forall j, (j < n)%nat -> f j <> 0xFF).
Proof.
  induction n as [|n [(i & Hi & Hr & Hb)|Hb]].
  - right. intros j Hj. lia.
  - left. exists i. split; [lia|]. split; assumption.
  - destruct (Z.eq_dec (f n) 0xFF) as [E|E].
    + left. exists n. split; [lia|]. split; assumption.
    + right. intros j Hj. destruct (Nat.eq_dec j n) as [->|]; [exact E|].
      apply Hb. lia.
Qed.

(** X6.  [select] asserts /CS, clocks one dummy byte and polls the card
    up to 500 times, one millisecond apart.  It returns true at the
    first poll that reads 0xFF, with the card selected; when all 500
    polls read something else it returns false after 502 transfers and
    500 ms, and the card is deselected again. *)
Theorem select_outcome s :
  let w := bits (m_Spi s) in
  (forall i,
      (i < 500)%nat ->
      (forall j, (j < i)%nat -> frame w s (S j) <> 0xFF) ->
      frame w s (S i) = 0xFF ->
      fst (select s) = true
      /\ m_Cs (snd (select s)) = 0
      /\ xfers (m_Spi (snd (select s))) = (xfers (m_Spi s) + (2 + i))%nat
      /\ elapsed_ms (snd (select s)) = (elapsed_ms s + i)%nat)
  /\ ((forall j, (j < 500)%nat -> frame w s (S j) <> 0xFF) ->
      fst (select s) = false
      /\ m_Cs (snd (select s)) = 1
      /\ xfers (m_Spi (snd (select s))) = (xfers (m_Spi s) + 502)%nat
      /\ elapsed_ms (snd (select s)) = (elapsed_ms s + 500)%nat).
Proof.
  cbv zeta. split.
  - intros i Hi Hbusy Hrdy.
    destruct (select_ready s i Hi Hbusy Hrdy) as (H1 & H2 & H3 & H4).
    split; [exact H1|]. split; [exact H2|]. split; [apply H3|exact H4].
  - intros Hbusy.
    destruct (select_timeout s Hbusy) as (H1 & H2 & H3 & H4).
    split; [exact H1|]. split; [exact H2|]. split; [apply H3|exact H4].
Qed.

Lemma select_outcome_witness :
  (fst (select busy_three) = true
   /\ elapsed_ms (snd (select busy_three)) = 2%nat)
  /\ (fst (select stuck_low) = false
      /\ m_Cs (snd (select stuck_low)) = 1
      /\ xfers (m_Spi (snd (select stuck_low))) = 502%nat).
Proof.
  split.
  - destruct (proj1 (select_outcome busy_three) 2%nat) as (H1 & _ & _ & H4).
    + lia.
    + intros j Hj. do 2 (destruct j as [|j]; [vm_compute; discriminate|]). lia.
    + reflexivity.
    + split; [exact H1|exact H4].
  - destruct (proj2 (select_outcome stuck_low)) as (H1 & H2 & H3 & _).
    + intros j _. vm_compute. discriminate.
    + split; [exact H1|]. split; [exact H2|exact H3].
Defined.

(** X7.  [disk_sync] returns [RES_OK] exactly when one of the 500 polls
    of [select] finds the card ready and [RES_ERROR] otherwise; it
    makes at most 502 transfers and always leaves /CS high. *)
Theorem disk_sync_outcome s :
  (fst (disk_sync s) = RES_OK
   <-> exists i, (i < 500)%nat /\ frame (bits (m_Spi s)) s (S i) = 0xFF)
  /\ (fst (disk_sync s) = RES_OK \/ fst (disk_sync s) = RES_ERROR)
  /\ m_Cs (snd (disk_sync s)) = 1
  /\ (xfers (m_Spi (snd (disk_sync s))) <= xfers (m_Spi s) + 502)%nat.
Proof.
  unfold disk_sync. rewrite bind_run.
  destruct (ready_or_busy (fun i => frame (bits (m_Spi s)) s (S i)) 500)
    as [(i & Hi & Hr & Hb)|Hb].
  - destruct (select_ready s i Hi Hb Hr) as (H1 & H2 & H3 & H4).
    rewrite H1, bind_run. cbn [ret fst snd].
    destruct (deselect_after (snd (select s))) as (D1 & _ & D3).
    split; [split; [intros _; eauto|reflexivity]|].
    split; [left; reflexivity|]. split; [exact D3|].
    pose proof (spi_after_trans (2 + i) 1 _ _ _ H3 D1) as Ha.
    destruct Ha as (_ & -> & _). lia.
  - destruct (select_timeout s Hb) as (H1 & H2 & H3 & H4).
    rewrite H1. cbn [ret fst snd].
    split; [split; [discriminate|]|].
    + intros (i & Hi & Hr). exfalso. exact (Hb i Hi Hr).
    + split; [right; reflexivity|]. split; [exact H2|].
      destruct H3 as (_ & -> & _). lia.
Qed.

Lemma disk_sync_outcome_witness :
  fst (disk_sync (socket [] 0)) = RES_OK.
Proof.
  apply (proj1 (disk_sync_outcome (socket [] 0))).
  exists 0%nat. split; [lia|vm_compute; reflexivity].
Defined.

Lemma log_command_none cmd arg resp s :
  fst (select s) = false ->
  commandTransaction cmd arg resp s = ((0xFF, resp), snd (select s)).
Proof.
  intros H. unfold commandTransaction. rewrite bind_run, H. reflexivity.
Qed.

(** X8.  A card that stays busy blocks every command: when the 500
    polls of [select] all read something other than 0xFF,
    [commandTransaction] returns 0xFF without sending the command,
    leaves the response variable as it was, and ends with /CS high
    after 502 transfers. *)
Theorem busy_card_blocks_commands cmd arg resp s :
  (forall j, (j < 500)%nat -> frame (bits (m_Spi s)) s (S j) <> 0xFF) ->
  fst (commandTransaction cmd arg resp s) = (0xFF, resp)
  /\ cmd_log (snd (commandTransaction cmd arg resp s)) = cmd_log s
  /\ m_Cs (snd (commandTransaction cmd arg resp s)) = 1
  /\ xfers (m_Spi (snd (commandTransaction cmd arg resp s)))
     = (xfers (m_Spi s) + 502)%nat
  /\ elapsed_ms (snd (commandTransaction cmd arg resp s))
     = (elapsed_ms s + 500)%nat.
Proof.
  intros Hb. destruct (select_timeout s Hb) as (H1 & H2 & H3 & H4).
  rewrite (log_command_none cmd arg resp s H1). cbn [fst snd].
  split; [reflexivity|]. split; [apply log_select|].
  split; [exact H2|]. split; [apply H3|exact H4].
Qed.

Lemma busy_card_blocks_commands_witness :
  fst (commandTransaction CMD17 0 None stuck_low) = (0xFF, None)
  /\ cmd_log (snd (commandTransaction CMD17 0 None stuck_low)) = [].
Proof.
  destruct (busy_card_blocks_commands CMD17 0 None stuck_low)
    as (H1 & H2 & _).
  - intros j _. vm_compute. discriminate.
  - split; [exact H1|exact H2].
Defined.

(** * The block-device facade without a ready card *)

Lemma checkSocket_run s :
  checkSocket s
  = (tt, let s1 := snd (cd_read s) in
         if fst (cd_read s) =? m_CD_ASSERT s
         then set_Status (Z.land (m_Status s) (Z.lnot STA_NODISK)) s1
         else set_CardType CARD_NONE
                (set_Status (Z.lor (m_Status s) (Z.lor STA_NODISK STA_NOINIT))
                            s1)).
Proof.
  unfold checkSocket. rewrite bind_run.
  rewrite (bind_eqn _ _ _ _ _ (get_run _ _)). cbv zeta.
  change (m_CD_ASSERT (snd (cd_read s))) with (m_CD_ASSERT s).
  destruct (fst (cd_read s) =? m_CD_ASSERT s).
  - reflexivity.
  - rewrite bind_run. reflexivity.
Qed.

Lemma refused_when_noinit s fuel buffer sector count :
  status_has STA_NOINIT s = true ->
  disk_read fuel buffer sector count s = Some ((RES_NOTRDY, buffer), s)
  /\ disk_write fuel buffer sector count s = Some (RES_NOTRDY, s)
  /\ disk_sectors s = (0, s).
Proof.
  intros H. split; [|split].
  - unfold disk_read, bindP, liftP. rewrite get_run, H. reflexivity.
  - unfold disk_write, bindP, liftP. rewrite get_run, H. reflexivity.
  - unfold disk_sectors. rewrite (bind_eqn _ _ _ _ _ (get_run _ s)), H.
    reflexivity.
Qed.

(** X9.  Without an initialized card the block operations refuse
    without touching the bus: while [STA_NOINIT] is set, [disk_read]
    and [disk_write] return [RES_NOTRDY] and [disk_sectors] returns 0,
    the driver and the buffer unchanged.  That is the case after every
    [unmount], which returns 0, sets [STA_NOINIT], resets the card type
    and sends nothing to the card, and after every presence sample
    that finds the socket empty. *)
Theorem refused_until_initialized s fuel buffer sector count :
  (status_has STA_NOINIT s = true ->
   disk_read fuel buffer sector count s = Some ((RES_NOTRDY, buffer), s)
   /\ disk_write fuel buffer sector count s = Some (RES_NOTRDY, s)
   /\ disk_sectors s = (0, s))
  /\ (fst (unmount s) = 0
      /\ status_has STA_NOINIT (snd (unmount s)) = true
      /\ m_CardType (snd (unmount s)) = CARD_NONE
      /\ m_Spi (snd (unmount s)) = m_Spi s
      /\ cmd_log (snd (unmount s)) = cmd_log s)
  /\ (fst (cd_read s) <> m_CD_ASSERT s ->
      status_has STA_NOINIT (snd (disk_status s)) = true
      /\ m_Spi (snd (disk_status s)) = m_Spi s).
Proof.
  split; [apply refused_when_noinit|]. split.
  - unfold unmount. rewrite bind_run, bind_run, modify_run, modify_run.
    cbn [ret fst snd]. split; [reflexivity|].
    split; [exact (noinit_set STA_NOINIT s eq_refl)|].
    repeat split.
  - intros H. apply Z.eqb_neq in H.
    unfold disk_status. rewrite bind_run, checkSocket_run, H.
    cbn [get fst snd]. split; [|reflexivity].
    exact (noinit_set (Z.lor STA_NODISK STA_NOINIT) (snd (cd_read s)) eq_refl).
Qed.

Lemma refused_until_initialized_witness :
  let s := snd (unmount (snd (disk_initialize sdhc_card))) in
  disk_read 10 [] 0 1 s = Some ((RES_NOTRDY, []), s)
  /\ disk_sectors s = (0, s)
  /\ status_has STA_NOINIT (snd (disk_status (socket [] 1))) = true.
Proof.
  intros s.
  destruct (refused_until_initialized s 10%nat [] 0 1) as (H & _ & _).
  destruct H as (H1 & _ & H3); [vm_compute; reflexivity|].
  split; [exact H1|]. split; [exact H3|].
  destruct (refused_until_initialized (socket [] 1) 0%nat [] 0 0)
    as (_ & _ & H).
  apply H. vm_compute. discriminate.
Defined.

Lemma disk_initialize_run s :
  disk_initialize s
  = (let sc := snd (checkSocket s) in
     if status_has STA_NODISK sc then (m_Status sc, sc)
     else if status_has STA_NOINIT sc
          then init_reset (snd (init_clocks sc))
          else (m_Status sc, sc)).
Proof.
  unfold disk_initialize. rewrite bind_run. cbv zeta.
  rewrite (bind_eqn _ _ _ _ _ (get_run _ _)).
  destruct (status_has STA_NODISK (snd (checkSocket s))); [reflexivity|].
  rewrite (bind_eqn _ _ _ _ _ (get_run _ _)).
  destruct (status_has STA_NOINIT (snd (checkSocket s))); cbn [negb];
    [|reflexivity].
  rewrite bind_run. reflexivity.
Qed.

Lemma card_type_run s :
  card_type s
  = (let sc := snd (checkSocket s) in
     if negb (status_has STA_NODISK sc) && status_has STA_NOINIT sc
     then (m_CardType (snd (disk_initialize sc)), snd (disk_initialize sc))
     else (m_CardType sc, sc)).
Proof.
  unfold card_type. rewrite bind_run. cbv zeta.
  rewrite (bind_eqn _ _ _ _ _ (get_run _ _)).
  rewrite (bind_eqn _ _ _ _ _ (get_run _ _)).
  destruct (negb _ && _).
  - rewrite bind_run, bind_run. reflexivity.
  - rewrite bind_run. reflexivity.
Qed.

Lemma nodisk_set extra s :
  Z.land extra STA_NODISK = STA_NODISK ->
  status_has STA_NODISK (set_Status (Z.lor (m_Status s) extra) s) = true.
Proof.
  intros He. unfold status_has.
  change (m_Status (set_Status ?v s)) with v.
  apply negb_true_iff, Z.eqb_neq, land_set_same; [discriminate|exact He].
Qed.

Lemma nodisk_cleared s s1 :
  status_has STA_NODISK
    (set_Status (Z.land (m_Status s) (Z.lnot STA_NODISK)) s1) = false.
Proof.
  unfold status_has.
  change (m_Status (set_Status ?v s1)) with v.
  rewrite land_clear_same. reflexivity.
Qed.

(** X10.  [disk_initialize] and [card_type] leave the card alone when
    there is nothing to initialize.  With the socket empty they report
    NoDisk and NotInitialized, and [CARD_NONE]; with a card that is
    already initialized they report the status with NoDisk cleared, and
    the card type as it is.  In both cases nothing is transferred, no
    command is sent and /CS is not touched, so a second call does not
    reset the card. *)
Theorem nothing_to_initialize s :
  (fst (cd_read s) <> m_CD_ASSERT s ->
   fst (disk_initialize s) = Z.lor (m_Status s) (Z.lor STA_NODISK STA_NOINIT)
   /\ m_Status (snd (disk_initialize s)) = fst (disk_initialize s)
   /\ m_CardType (snd (disk_initialize s)) = CARD_NONE
   /\ fst (card_type s) = CARD_NONE
   /\ m_Spi (snd (disk_initialize s)) = m_Spi s
   /\ m_Spi (snd (card_type s)) = m_Spi s
   /\ cmd_log (snd (disk_initialize s)) = cmd_log s
   /\ m_Cs (snd (disk_initialize s)) = m_Cs s)
  /\ (fst (cd_read s) = m_CD_ASSERT s -> status_has STA_NOINIT s = false ->
      fst (disk_initialize s) = Z.land (m_Status s) (Z.lnot STA_NODISK)
      /\ m_Status (snd (disk_initialize s)) = fst (disk_initialize s)
      /\ m_CardType (snd (disk_initialize s)) = m_CardType s
      /\ fst (card_type s) = m_CardType s
      /\ m_Spi (snd (disk_initialize s)) = m_Spi s
      /\ m_Spi (snd (card_type s)) = m_Spi s
      /\ cmd_log (snd (disk_initialize s)) = cmd_log s
      /\ m_Cs (snd (disk_initialize s)) = m_Cs s).
Proof.
  split.
  - intros H. apply Z.eqb_neq in H.
    rewrite disk_initialize_run, card_type_run, checkSocket_run, H.
    cbv zeta. cbn [snd].
    set (sc := set_CardType CARD_NONE
                 (set_Status (Z.lor (m_Status s) (Z.lor STA_NODISK STA_NOINIT))
                             (snd (cd_read s)))).
    assert (Hd : status_has STA_NODISK sc = true)
      by exact (nodisk_set (Z.lor STA_NODISK STA_NOINIT) (snd (cd_read s))
                           eq_refl).
    rewrite Hd. cbn [negb andb fst snd]. repeat split.
  - intros H Hi. apply Z.eqb_eq in H.
    rewrite disk_initialize_run, card_type_run, checkSocket_run, H.
    cbv zeta. cbn [snd].
    set (sc := set_Status (Z.land (m_Status s) (Z.lnot STA_NODISK))
                          (snd (cd_read s))).
    assert (Hd : status_has STA_NODISK sc = false)
      by apply nodisk_cleared.
    assert (Hn : status_has STA_NOINIT sc = false).
    { rewrite <- Hi. exact (noinit_clear_nodisk (snd (cd_read s))). }
    rewrite Hd, Hn. cbn [negb andb fst snd]. repeat split.
Qed.

Lemma nothing_to_initialize_witness :
  let s1 := snd (disk_initialize sdhc_card) in
  (m_Spi (snd (disk_initialize s1)) = m_Spi s1
   /\ fst (card_type s1) = CARD_SDHC)
  /\ fst (card_type (socket [] 1)) = CARD_NONE.
Proof.
  intros s1. split.
  - destruct (proj2 (nothing_to_initialize s1))
      as (_ & _ & _ & Hc & Hs & _); try (vm_compute; reflexivity).
    split; [exact Hs|]. rewrite Hc. vm_compute. reflexivity.
  - destruct (proj1 (nothing_to_initialize (socket [] 1)))
      as (_ & _ & _ & Hc & _); [vm_compute; discriminate|exact Hc].
Defined.

(** * The command codec *)

Lemma to_char_mod z : to_char z = z mod 256.
Proof.
  unfold to_char. change 0xFF with (Z.ones 8).
  rewrite Z.land_ones by lia. reflexivity.
Qed.

(** The four argument bytes of a packet are the big-endian digits of
    the argument, taken modulo 2^32. *)
Lemma arg_bytes arg :
  to_char (Z.shiftr arg 24) * 2 ^ 24 + to_char (Z.shiftr arg 16) * 2 ^ 16
  + to_char (Z.shiftr arg 8) * 2 ^ 8 + to_char arg
  = to_uint32 arg.
Proof.
  rewrite !to_char_mod, !Z.shiftr_div_pow2 by lia. unfold to_uint32.
  assert (H16 : arg / 2 ^ 16 = arg / 2 ^ 8 / 2 ^ 8)
    by (rewrite Z.div_div by lia; reflexivity).
  assert (H24 : arg / 2 ^ 24 = arg / 2 ^ 16 / 2 ^ 8)
    by (rewrite Z.div_div by lia; reflexivity).
  assert (H32 : arg / 2 ^ 32 = arg / 2 ^ 24 / 2 ^ 8)
    by (rewrite Z.div_div by lia; reflexivity).
  pose proof (Z.div_mod arg (2 ^ 8) ltac:(lia)) as D0.
  pose proof (Z.div_mod (arg / 2 ^ 8) (2 ^ 8) ltac:(lia)) as D1.
  pose proof (Z.div_mod (arg / 2 ^ 16) (2 ^ 8) ltac:(lia)) as D2.
  pose proof (Z.div_mod (arg / 2 ^ 24) (2 ^ 8) ltac:(lia)) as D3.
  pose proof (Z.div_mod arg (2 ^ 32) ltac:(lia)) as D.
  rewrite <- H16 in D1. rewrite <- H24 in D2. rewrite <- H32 in D3.
  change (2 ^ 8) with 256 in *. change (2 ^ 16) with 65536 in *.
  change (2 ^ 24) with 16777216 in *. change (2 ^ 32) with 4294967296 in *.
  lia.
Qed.

Lemma cmd_byte_char cmd : to_char (cmd_byte cmd) = cmd_byte cmd.
Proof. destruct cmd; reflexivity. Qed.

Lemma odd_char z : Z.testbit (to_char (Z.lor z 0x01)) 0 = true.
Proof.
  unfold to_char. rewrite Z.land_spec, Z.lor_spec.
  change (Z.testbit 0x01 0) with true. change (Z.testbit 0xFF 0) with true.
  rewrite orb_true_r. reflexivity.
Qed.

Lemma cmdPacket_bytes crc cmd arg : Forall is_byte (cmdPacket crc cmd arg).
Proof.
  unfold cmdPacket, cmdHeader.
  do 5 (apply Forall_cons; [apply to_char_range|]).
  apply Forall_cons; [|apply Forall_nil].
  destruct (_ || _); [apply to_char_range|unfold is_byte; lia].
Qed.

Lemma spi_write_sends v s :
  mosi (m_Spi (snd (spi_write v s)))
  = Z.land v (Z.ones (bits (m_Spi s))) :: mosi (m_Spi s).
Proof. reflexivity. Qed.

Lemma byte_frame_sent v s :
  bits (m_Spi s) = 8 -> is_byte v ->
  mosi (m_Spi (snd (spi_write v s))) = v :: mosi (m_Spi s).
Proof.
  intros Hb Hv. rewrite spi_write_sends, Hb. f_equal.
  exact (to_char_byte v Hv).
Qed.

(** The bytes of a list go out in order; the log has the last one
    first. *)
Lemma send_bytes_sends l s :
  bits (m_Spi s) = 8 -> Forall is_byte l ->
  mosi (m_Spi (snd (send_bytes l s))) = rev l ++ mosi (m_Spi s)
  /\ spi_after (length l) s (snd (send_bytes l s)).
Proof.
  revert s. induction l as [|b l IH]; intros s Hb Hl.
  - cbn [send_bytes ret snd rev app length]. split; [reflexivity|].
    apply spi_after_refl.
  - cbn [send_bytes]. rewrite bind_run.
    apply Forall_cons_iff in Hl. destruct Hl as [Hbyte Hl].
    destruct (spi_write_after b s) as (Ha & _).
    assert (Hb1 : bits (m_Spi (snd (spi_write b s))) = 8)
      by (rewrite <- Hb; apply Ha).
    destruct (IH _ Hb1 Hl) as (Hm & Hafter).
    split.
    + rewrite Hm, (byte_frame_sent b s Hb Hbyte).
      cbn [rev]. rewrite <- app_assoc. reflexivity.
    + exact (spi_after_trans 1 (length l) _ _ _ Ha Hafter).
Qed.

Lemma send_then_stuff l (stuff : bool) s :
  bits (m_Spi s) = 8 -> Forall is_byte l ->
  mosi (m_Spi (snd ((send_bytes l ;;
                     if stuff then spi_write 0xFF ;; ret tt else ret tt) s)))
  = (if stuff then [0xFF] else []) ++ rev l ++ mosi (m_Spi s).
Proof.
  intros Hb Hl. rewrite bind_run.
  destruct (send_bytes_sends l s Hb Hl) as (Hm & Ha).
  generalize dependent (snd (send_bytes l s)). intros s1 Hm Ha.
  destruct stuff.
  - rewrite bind_run, ret_run. cbn [snd]. rewrite byte_frame_sent.
    + rewrite Hm. reflexivity.
    + rewrite <- Hb. apply Ha.
    + unfold is_byte. lia.
  - rewrite ret_run. exact Hm.
Qed.

(** X11.  The command packet of [command] is six bytes: the command
    byte, the argument as four bytes, most significant first, whose
    value is the argument modulo 2^32, and a last byte whose bit 0 (the
    end bit) is always set.  The last byte carries the CRC7 of the five
    before it when CRC is enabled and always for CMD0 and CMD8; it is
    0x01 otherwise.  These six bytes are what [command] shifts out, in
    this order, followed by one stuff byte 0xFF after CMD12. *)
Theorem command_packet_layout crc cmd arg :
  (exists b3 b2 b1 b0 c,
      cmdPacket crc cmd arg = [cmd_byte cmd; b3; b2; b1; b0; c]
      /\ Forall is_byte [b3; b2; b1; b0; c]
      /\ b3 * 2 ^ 24 + b2 * 2 ^ 16 + b1 * 2 ^ 8 + b0 = to_uint32 arg
      /\ Z.testbit c 0 = true
      /\ c = (if crc || Command_eqb cmd CMD0 || Command_eqb cmd CMD8
              then to_char
                     (Z.lor (Z.shiftl (CRC7 [cmd_byte cmd; b3; b2; b1; b0]) 1)
                            0x01)
              else 0x01))
  /\ (forall s,
        bits (m_Spi s) = 8 ->
        mosi (m_Spi (snd (transmit cmd arg s)))
        = (if Command_eqb cmd CMD12 then [0xFF] else [])
          ++ rev (cmdPacket (m_Crc s) cmd arg) ++ mosi (m_Spi s)).
Proof.
  split.
  - unfold cmdPacket, cmdHeader. rewrite cmd_byte_char.
    eexists _, _, _, _, _. split; [reflexivity|].
    split.
    + do 4 (apply Forall_cons; [apply to_char_range|]).
      apply Forall_cons; [|apply Forall_nil].
      destruct (_ || _); [apply to_char_range|unfold is_byte; lia].
    + split; [apply arg_bytes|]. split; [|reflexivity].
      destruct (_ || _); [apply odd_char|reflexivity].
  - intros s Hb. unfold transmit.
    rewrite (bind_eqn _ _ _ _ _ (get_run _ s)).
    apply send_then_stuff; [exact Hb|apply cmdPacket_bytes].
Qed.

Lemma command_packet_layout_witness :
  mosi (m_Spi (snd (transmit CMD0 0 (socket [] 0))))
  = [0x95; 0x00; 0x00; 0x00; 0x00; 0x40]
  /\ mosi (m_Spi (snd (transmit CMD12 0 (crc_disabled (socket [] 0)))))
     = [0xFF; 0x01; 0x00; 0x00; 0x00; 0x00; 0x4C].
Proof.
  split.
  - rewrite (proj2 (command_packet_layout true CMD0 0)) by reflexivity.
    vm_compute. reflexivity.
  - rewrite (proj2 (command_packet_layout true CMD12 0)) by reflexivity.
    vm_compute. reflexivity.
Defined.

(** ** The response variable *)

Lemma to_uint32_range z : 0 <= to_uint32 z < 2 ^ 32.
Proof. unfold to_uint32. apply Z.mod_pos_bound. lia. Qed.

Lemma read_response_discipline cmd resp t s :
  0 <= t <= 1 ->
  resp_discipline cmd resp (t, fst (read_response cmd resp s)).
Proof.
  intros Ht. unfold read_response, resp_discipline, has_response_value.
  destruct resp as [old|]; [|left; reflexivity].
  destruct (Command_eqb cmd CMD13) eqn:E13.
  - mstep v s1 E. right. cbn [ret fst snd orb]. split; [exact Ht|].
    split; [reflexivity|]. exists old, (to_uint32 v).
    split; [reflexivity|]. split; [reflexivity|apply to_uint32_range].
  - cbn [orb]. destruct (Command_eqb cmd CMD8 || Command_eqb cmd CMD58).
    + mstep b3 s1 E1. mstep b2 s2 E2. mstep b1 s3 E3. mstep b0 s4 E4.
      right. cbn [ret fst snd]. split; [exact Ht|].
      split; [reflexivity|]. eexists old, _.
      split; [reflexivity|]. split; [reflexivity|apply to_uint32_range].
    + left. reflexivity.
Qed.

(** The token of a response window is a byte. *)
Lemma recv_r1_byte tok s : is_byte (fst (recv_r1 9 tok s)).
Proof.
  destruct (recv_r1_window 9 tok s) as (i & _ & -> & _); [discriminate|].
  unfold rx. apply to_char_range.
Qed.

Lemma command_loop_discipline prefix n cmd arg resp tok s :
  resp_discipline cmd resp (fst (command_loop prefix n cmd arg resp tok s)).
Proof.
  revert tok s. induction n as [|k IH]; intros tok s; cbn [command_loop].
  - left. reflexivity.
  - assert (Hframe : forall t s0,
      resp_discipline cmd resp
        (fst ((transmit cmd arg ;;
               token <- recv_r1 9 t ;;
               log_cmd cmd arg token ;;
               (if token =? 255
                then ret (token, resp)
                else
                  if negb (Z.land token (Z.shiftl 1 3) =? 0)
                  then command_loop prefix k cmd arg resp token
                  else
                    if token >? 1
                    then ret (token, resp)
                    else r <- read_response cmd resp ;;
                         ret (token, r))) s0))).
    { intros t s0. mstep u1 s1 E1.
      pose proof (recv_r1_byte t s1) as [Hz _].
      mstep z s2 E2. mstep u3 s3 E3.
      destruct (z =? 255); [left; reflexivity|].
      destruct (negb (Z.land z (Z.shiftl 1 3) =? 0)); [apply IH|].
      destruct (Z.gtb_spec z 1) as [Hgt|Hle]; [left; reflexivity|].
      pose proof (read_response_discipline cmd resp z s3) as Hr.
      mstep r4 s4 E4. cbn [ret fst snd] in *.
      apply Hr. split; [exact Hz|exact Hle]. }
    destruct (is_app_cmd cmd); [|apply Hframe].
    mstep t55 s1 E1.
    destruct (t55 >? 1); [left; reflexivity|].
    mstep u2 s2 E2. apply Hframe.
Qed.

(** X12.  [command] and [commandTransaction] write the response
    variable only on success: [*resp] is assigned only by a call that
    returns an R1 of 0x00 or 0x01, for CMD8, CMD13 or CMD58, and then
    with a 32-bit value; in every other case (a null pointer, another
    command, no response, an error token, a refused CMD55, a busy card)
    it is what it was before the call. *)
Theorem response_written_on_success cmd arg resp s :
  resp_discipline cmd resp (fst (command cmd arg resp s))
  /\ resp_discipline cmd resp (fst (commandTransaction cmd arg resp s))
  /\ (1 < fst (fst (commandTransaction cmd arg resp s)) ->
      snd (fst (commandTransaction cmd arg resp s)) = resp)
  /\ snd (fst (commandTransaction cmd arg None s)) = None.
Proof.
  assert (Hc : forall r0 s0,
             resp_discipline cmd r0 (fst (command cmd arg r0 s0))).
  { intros r0 s0. rewrite command_unfold. apply command_loop_discipline. }
  assert (Ht : forall r0 s0,
             resp_discipline cmd r0 (fst (commandTransaction cmd arg r0 s0))).
  { intros r0 s0. unfold commandTransaction. mstep ok s1 E1.
    destruct ok; cbn [negb]; [|left; reflexivity].
    rewrite bind_run, bind_run. exact (Hc r0 s1). }
  split; [apply Hc|]. split; [apply Ht|]. split.
  - intros Hgt. destruct (Ht resp s) as [H|(H & _)]; [exact H|lia].
  - destruct (Ht None s) as [H|(_ & _ & old & v & H & _)];
      [exact H|discriminate H].
Qed.

Lemma response_written_on_success_witness :
  fst (commandTransaction CMD8 0x1AA (Some 7) (socket (reply 0x05 []) 0))
  = (0x05, Some 7).
Proof.
  destruct (response_written_on_success CMD8 0x1AA (Some 7)
              (socket (reply 0x05 []) 0)) as (_ & _ & H & _).
  assert (E : fst (fst (commandTransaction CMD8 0x1AA (Some 7)
                          (socket (reply 0x05 []) 0))) = 0x05)
    by (vm_compute; reflexivity).
  rewrite E in H. specialize (H ltac:(lia)).
  destruct (fst (commandTransaction CMD8 0x1AA (Some 7)
                   (socket (reply 0x05 []) 0))) as [t r].
  cbn [fst snd] in *. subst. reflexivity.
Defined.

(** * A data block on the wire *)

Lemma slice_S buffer i n :
  slice buffer i (S n) = peek buffer i :: slice buffer (S i) n.
Proof. reflexivity. Qed.

Lemma slice_bytes buffer i n : Forall is_byte buffer -> Forall is_byte (slice buffer i n).
Proof.
  intros H. unfold slice. apply Forall_forall. intros x Hx.
  apply in_map_iff in Hx. destruct Hx as (j & <- & _). apply peek_byte, H.
Qed.

Lemma write_bytes_sends n buffer i s :
  bits (m_Spi s) = 8 -> Forall is_byte buffer ->
  mosi (m_Spi (snd (write_bytes n buffer i s)))
  = rev (slice buffer i n) ++ mosi (m_Spi s)
  /\ spi_after n s (snd (write_bytes n buffer i s)).
Proof.
  intros Hb Hbuf. revert i s Hb.
  induction n as [|n IH]; intros i s Hb.
  - cbn [write_bytes ret snd]. split; [reflexivity|apply spi_after_refl].
  - cbn [write_bytes]. rewrite bind_run, slice_S.
    destruct (spi_write_after (peek buffer i) s) as (Ha & _).
    assert (Hb1 : bits (m_Spi (snd (spi_write (peek buffer i) s))) = 8)
      by (rewrite <- Hb; apply Ha).
    destruct (IH (S i) _ Hb1) as (Hm & Hafter).
    split.
    + rewrite Hm, (byte_frame_sent _ s Hb (peek_byte buffer i Hbuf)).
      cbn [rev]. rewrite <- app_assoc. reflexivity.
    + exact (spi_after_trans 1 n _ _ _ Ha Hafter).
Qed.

Lemma word_of_bytes hi lo :
  is_byte hi -> is_byte lo ->
  0 <= Z.lor (Z.shiftl hi 8) lo < 2 ^ 16.
Proof.
  unfold is_byte. intros Hh Hl.
  apply lor_bound; [|lia]. rewrite Z.shiftl_mul_pow2 by lia. lia.
Qed.

Lemma to_uint16_small z : 0 <= z < 2 ^ 16 -> Z.land z (Z.ones 16) = z.
Proof. intros H. rewrite Z.land_ones by lia. apply Z.mod_small. lia. Qed.

Lemma write_words_sends n buffer i s :
  bits (m_Spi s) = 16 -> Forall is_byte buffer ->
  mosi (m_Spi (snd (write_words n buffer i s)))
  = rev (pack_words (slice buffer i (2 * n))) ++ mosi (m_Spi s)
  /\ spi_after n s (snd (write_words n buffer i s)).
Proof.
  intros Hb Hbuf. revert i s Hb.
  induction n as [|n IH]; intros i s Hb.
  - cbn [write_words ret snd]. split; [reflexivity|apply spi_after_refl].
  - cbn [write_words]. rewrite bind_run.
    replace (2 * S n)%nat with (S (S (2 * n))) by lia.
    rewrite !slice_S. cbn [pack_words].
    set (w := Z.lor (Z.shiftl (peek buffer i) 8) (peek buffer (S i))).
    destruct (spi_write_after w s) as (Ha & _).
    assert (Hb1 : bits (m_Spi (snd (spi_write w s))) = 16)
      by (rewrite <- Hb; apply Ha).
    destruct (IH (S (S i)) _ Hb1) as (Hm & Hafter).
    split.
    + rewrite Hm, spi_write_sends, Hb, to_uint16_small
        by (apply word_of_bytes; apply peek_byte, Hbuf).
      cbn [rev]. rewrite <- app_assoc. reflexivity.
    + exact (spi_after_trans 1 n _ _ _ Ha Hafter).
Qed.

(** Wide frames carry the same bytes. *)
Lemma unpack_pack data :
  Forall is_byte data -> Nat.Even (length data) ->
  unpack_words (pack_words data) = data.
Proof.
  intros Hb [k Hk]. revert data Hb Hk.
  induction k as [|k IH]; intros data Hb Hk.
  - destruct data; [reflexivity|discriminate Hk].
  - destruct data as [|hi [|lo rest]]; try (cbn in Hk; lia).
    apply Forall_cons_iff in Hb. destruct Hb as [Hhi Hb].
    apply Forall_cons_iff in Hb. destruct Hb as [Hlo Hb].
    cbn [pack_words unpack_words flat_map app].
    fold (unpack_words (pack_words rest)).
    rewrite (IH rest Hb) by (cbn in Hk; lia).
    unfold is_byte in *. f_equal; [|f_equal].
    + rewrite Z.shiftr_lor, Z.shiftr_shiftl_l, Z.sub_diag, Z.shiftl_0_r by lia.
      rewrite (Z.shiftr_div_pow2 lo) by lia.
      rewrite (Z.div_small lo) by lia. apply Z.lor_0_r.
    + change 0xFF with (Z.ones 8).
      rewrite Z.land_lor_distr_l, !Z.land_ones by lia.
      rewrite Z.shiftl_mul_pow2, Z.mod_mul by lia.
      rewrite Z.mod_small by lia. reflexivity.
Qed.

Lemma sent_app l1 l2 s s1 s2 :
  sent l1 s s1 -> sent l2 s1 s2 -> sent (l1 ++ l2) s s2.
Proof.
  unfold sent. intros (M1 & I1 & X1) (M2 & I2 & X2).
  rewrite M2, M1, I2, I1, X2, X1, rev_app_distr, length_app, app_assoc.
  repeat split. lia.
Qed.

Lemma sent_format b s : sent [] s (snd (spi_format b s)).
Proof.
  unfold sent, spi_format. cbn [snd set_Spi m_Spi mosi miso xfers rev app length].
  rewrite Nat.add_0_r. auto.
Qed.

Lemma sent_write v s :
  sent [Z.land v (Z.ones (bits (m_Spi s)))] s (snd (spi_write v s)).
Proof.
  unfold sent, spi_write. cbn [snd set_Spi m_Spi mosi miso xfers rev app length].
  rewrite Nat.add_1_r. auto.
Qed.

Lemma sent_byte v s :
  bits (m_Spi s) = 8 -> is_byte v -> sent [v] s (snd (spi_write v s)).
Proof.
  intros Hb Hv. pose proof (sent_write v s) as H.
  rewrite Hb in H. change (Z.land v (Z.ones 8)) with (to_char v) in H.
  rewrite (to_char_byte v Hv) in H. exact H.
Qed.

Lemma sent_of_after l s s' :
  mosi (m_Spi s') = rev l ++ mosi (m_Spi s) ->
  spi_after (length l) s s' -> sent l s s'.
Proof. intros Hm (Hi & Hx & _). split; [exact Hm|]. split; assumption. Qed.

Lemma length_slice buffer i n : length (slice buffer i n) = n.
Proof. unfold slice. rewrite length_map, length_seq. reflexivity. Qed.

Lemma length_pack_slice buffer i n :
  length (pack_words (slice buffer i (2 * n))) = n.
Proof.
  revert i. induction n as [|n IH]; intros i; [reflexivity|].
  replace (2 * S n)%nat with (S (S (2 * n))) by lia.
  rewrite !slice_S. cbn [pack_words length]. rewrite IH. reflexivity.
Qed.

Lemma sent_write_bytes n buffer i s :
  bits (m_Spi s) = 8 -> Forall is_byte buffer ->
  sent (slice buffer i n) s (snd (write_bytes n buffer i s))
  /\ bits (m_Spi (snd (write_bytes n buffer i s))) = 8.
Proof.
  intros Hb Hbuf.
  destruct (write_bytes_sends n buffer i s Hb Hbuf) as (Hm & Ha).
  split.
  - apply sent_of_after; [exact Hm|]. rewrite length_slice. exact Ha.
  - rewrite <- Hb. apply Ha.
Qed.

Lemma sent_write_words n buffer i s :
  bits (m_Spi s) = 16 -> Forall is_byte buffer ->
  sent (pack_words (slice buffer i (2 * n))) s
       (snd (write_words n buffer i s))
  /\ bits (m_Spi (snd (write_words n buffer i s))) = 16.
Proof.
  intros Hb Hbuf.
  destruct (write_words_sends n buffer i s Hb Hbuf) as (Hm & Ha).
  split.
  - apply sent_of_after; [exact Hm|]. rewrite length_pack_slice. exact Ha.
  - rewrite <- Hb. apply Ha.
Qed.

Lemma bits_spi_write v s :
  bits (m_Spi (snd (spi_write v s))) = bits (m_Spi s).
Proof. reflexivity. Qed.

Lemma bits_spi_format b s : bits (m_Spi (snd (spi_format b s))) = b.
Proof. reflexivity. Qed.

Lemma sent_word v s :
  bits (m_Spi s) = 16 -> sent [to_uint16 v] s (snd (spi_write v s)).
Proof. intros Hb. pose proof (sent_write v s) as H. rewrite Hb in H. exact H. Qed.

Lemma sent_char v s :
  bits (m_Spi s) = 8 -> sent [to_char v] s (snd (spi_write v s)).
Proof. intros Hb. pose proof (sent_write v s) as H. rewrite Hb in H. exact H. Qed.

(** The frames of a block in wide frames, from any frame format. *)
Lemma wide_block_sent buffer off crc s :
  Forall is_byte buffer ->
  let s' := snd ((spi_format 16 ;; write_words 256 buffer off ;;
                  spi_write crc ;; spi_format 8) s) in
  sent (pack_words (slice buffer off (2 * 256)) ++ [to_uint16 crc]) s s'
  /\ bits (m_Spi s') = 8.
Proof.
  intros Hbuf. cbv zeta. rewrite !bind_run.
  pose proof (sent_format 16 s) as S0.
  pose proof (bits_spi_format 16 s) as Ba.
  generalize dependent (snd (spi_format 16 s)). intros sa S0 Ba.
  destruct (sent_write_words 256 buffer off sa Ba Hbuf) as (Sw & Bw).
  generalize dependent (snd (write_words 256 buffer off sa)). intros sb Sw Bw.
  pose proof (sent_word crc sb Bw) as Sc.
  generalize dependent (snd (spi_write crc sb)). intros sc Sc.
  split; [|apply bits_spi_format].
  pose proof (sent_app _ _ _ _ _
                (sent_app _ _ _ _ _ (sent_app _ _ _ _ _ S0 Sw) Sc)
                (sent_format 8 sc)) as H.
  rewrite app_nil_r in H. exact H.
Qed.

(** The same in 8-bit frames. *)
Lemma narrow_block_sent buffer off crc s :
  bits (m_Spi s) = 8 -> Forall is_byte buffer ->
  let s' := snd ((write_bytes 512 buffer off ;; spi_write (Z.shiftr crc 8) ;;
                  spi_write crc ;; ret tt) s) in
  sent (slice buffer off 512 ++ [to_char (Z.shiftr crc 8); to_char crc]) s s'
  /\ bits (m_Spi s') = 8.
Proof.
  intros Hb Hbuf. cbv zeta. rewrite !bind_run, ret_run.
  destruct (sent_write_bytes 512 buffer off s Hb Hbuf) as (Sw & Bw).
  generalize dependent (snd (write_bytes 512 buffer off s)). intros sa Sw Bw.
  pose proof (sent_char (Z.shiftr crc 8) sa Bw) as S1.
  pose proof (bits_spi_write (Z.shiftr crc 8) sa) as B1. rewrite Bw in B1.
  generalize dependent (snd (spi_write (Z.shiftr crc 8) sa)). intros sb S1 B1.
  pose proof (sent_char crc sb B1) as S2.
  pose proof (bits_spi_write crc sb) as B2. rewrite B1 in B2.
  generalize dependent (snd (spi_write crc sb)). intros sc S2 B2.
  split; [|exact B2].
  pose proof (sent_app _ _ _ _ _ (sent_app _ _ _ _ _ Sw S1) S2) as H.
  rewrite <- app_assoc in H. exact H.
Qed.

Lemma block_on_wire_length large token buffer off crc :
  length (block_on_wire large token (slice buffer off (2 * 256)) crc)
  = (if large then 259 else 516)%nat.
Proof.
  unfold block_on_wire. rewrite !length_app. destruct large.
  - rewrite length_app, length_pack_slice. reflexivity.
  - rewrite length_app, length_slice. reflexivity.
Qed.

(** X13.  What [writeData] puts on the wire.  Once the card-ready wait
    is over, it shifts out the token, the 512 bytes of the block in
    order, and the CRC16 of the block, high byte first (0xFFFF when
    CRC is disabled), then one 0xFF under which it reads the data
    response, of which it returns the low five bits.  With wide frames
    the same bytes go out two per frame, high byte first: 259 frames
    instead of 516.  The bus is back in 8-bit frames at the end. *)
Theorem writeData_wire fuel buffer off token s s1 :
  bits (m_Spi s) = 8 -> is_byte token -> Forall is_byte buffer ->
  wait_busy fuel s = Some (tt, s1) ->
  let data := slice buffer off 512 in
  let crc := if m_Crc s then CRC16 data else 0xFFFF in
  let wire := block_on_wire (m_LargeFrames s) token data crc in
  exists s',
    writeData fuel buffer off token s
    = Some (Z.land (frame 8 s1 (length wire - 1)) 0x1F, s')
    /\ sent wire s1 s'
    /\ bits (m_Spi s') = 8
    /\ length wire = (if m_LargeFrames s then 259 else 516)%nat
    /\ unpack_words (pack_words data) = data.
Proof.
  intros Hb Htok Hbuf Hw.
  assert (E512 : 512%nat = (2 * 256)%nat) by reflexivity.
  rewrite E512. cbv zeta.
  assert (Hb1 : bits (m_Spi s1) = 8)
    by exact (pres_wait_busy byte_frames fmt_spi_write fuel s tt s1 Hb Hw).
  assert (Hl : m_LargeFrames s1 = m_LargeFrames s)
    by (apply (keepsP_wait_busy m_LargeFrames) with (fuel := fuel) (a := tt);
        [blind|exact Hw]).
  unfold writeData, bindP at 1, liftP at 1. rewrite get_run.
  rewrite E512.
  generalize (if m_Crc s then CRC16 (slice buffer off (2 * 256)) else 0xFFFF).
  intros crc.
  unfold bindP. rewrite Hw. unfold liftP.
  rewrite bind_run.
  pose proof (sent_byte token s1 Hb1 Htok) as St.
  pose proof (bits_spi_write token s1) as Bt. rewrite Hb1 in Bt.
  assert (Lt : m_LargeFrames (snd (spi_write token s1)) = m_LargeFrames s)
    by exact Hl.
  generalize dependent (snd (spi_write token s1)). intros sa St Bt Lt.
  rewrite (bind_eqn _ _ _ _ _ (get_run _ sa)), Lt.
  pose proof (block_on_wire_length (m_LargeFrames s) token buffer off crc)
    as Hlen.
  assert (Hsent : exists sb,
    (forall A (k : unit -> M A),
      bind (if m_LargeFrames s
            then spi_format 16 ;; write_words 256 buffer off ;;
                 spi_write crc ;; spi_format 8
            else write_bytes 512 buffer off ;; spi_write (Z.shiftr crc 8) ;;
                 spi_write crc ;; ret tt) k sa = k tt sb)
    /\ sent (if m_LargeFrames s
             then pack_words (slice buffer off (2 * 256)) ++ [to_uint16 crc]
             else slice buffer off (2 * 256)
                  ++ [to_char (Z.shiftr crc 8); to_char crc]) sa sb
    /\ bits (m_Spi sb) = 8).
  { destruct (m_LargeFrames s).
    - destruct (wide_block_sent buffer off crc sa Hbuf) as (Sb & Bb).
      cbv zeta in Sb, Bb. eexists. split; [|split; [exact Sb|exact Bb]].
      intros A k. rewrite bind_run. destruct (fst _). reflexivity.
    - destruct (narrow_block_sent buffer off crc sa Bt Hbuf) as (Sb & Bb).
      cbv zeta in Sb, Bb. rewrite E512 in Sb.
      eexists. split; [|split; [exact Sb|exact Bb]].
      intros A k. rewrite bind_run. destruct (fst _). reflexivity. }
  destruct Hsent as (sb & Hrun & Sb & Bb).
  rewrite Hrun. rewrite bind_run, ret_run.
  pose proof (sent_byte 0xFF sb Bb ltac:(unfold is_byte; lia)) as Sf.
  pose proof (sent_app _ _ _ _ _ St Sb) as Stb.
  assert (Hwire : sent (block_on_wire (m_LargeFrames s) token
                          (slice buffer off (2 * 256)) crc) s1
                       (snd (spi_write 0xFF sb))).
  { unfold block_on_wire.
    destruct (m_LargeFrames s); exact (sent_app _ _ _ _ _ Stb Sf). }
  assert (Hv : fst (spi_write 0xFF sb)
               = frame 8 s1 (length (block_on_wire (m_LargeFrames s) token
                                       (slice buffer off (2 * 256)) crc) - 1)).
  { destruct (spi_write 0xFF sb) as [v sf] eqn:Ef.
    destruct (spi_write_frame _ _ _ _ Ef) as [-> _]. cbn [fst].
    rewrite Bb. unfold frame.
    destruct Stb as (_ & Hi & Hx).
    rewrite Hi, Hx, Nat.add_0_r, Hlen. do 3 f_equal.
    destruct (m_LargeFrames s).
    + cbn [length app]. rewrite length_app, length_pack_slice. reflexivity.
    + cbn [length app]. rewrite length_app, length_slice. reflexivity. }
  rewrite Hv.
  exists (snd (spi_write 0xFF sb)).
  split; [reflexivity|]. split; [exact Hwire|].
  split; [rewrite bits_spi_write; exact Bb|]. split; [exact Hlen|].
  apply unpack_pack.
  - apply slice_bytes, Hbuf.
  - rewrite length_slice. exists 256%nat. reflexivity.
Qed.

Lemma writeData_wire_witness :
  exists s',
    writeData 1 (repeat 0xAB 512) 0 0xFE (socket [] 0) = Some (0x1F, s')
    /\ xfers (m_Spi s') = 517%nat.
Proof.
  destruct (writeData_wire 1 (repeat 0xAB 512) 0 0xFE (socket [] 0)
              (snd (spi_write 0xFF (socket [] 0))))
    as (s' & E & S & _).
  - reflexivity.
  - unfold is_byte. lia.
  - apply Forall_forall. intros x Hx. apply repeat_spec in Hx. subst.
    unfold is_byte. lia.
  - vm_compute. reflexivity.
  - exists s'. split.
    + rewrite E. vm_compute. reflexivity.
    + destruct S as (_ & _ & ->). vm_compute. reflexivity.
Defined.

(** * The capacity of a standard capacity card *)

Lemma land_low_bound a k : 0 <= k -> 0 <= Z.land a (Z.ones k) < 2 ^ k.
Proof.
  intros Hk. rewrite Z.land_ones by exact Hk. apply Z.mod_pos_bound.
  apply Z.pow_pos_nonneg; lia.
Qed.

Lemma land_mask_bound a m k :
  0 <= k -> Z.land m (Z.ones k) = m -> 0 <= Z.land a m < 2 ^ k.
Proof.
  intros Hk Hm. rewrite <- Hm, Z.land_assoc. apply land_low_bound, Hk.
Qed.

Lemma csd_v1_fields csd :
  Forall is_byte csd ->
  0 <= csd_v1_c_size csd < 2 ^ 12
  /\ 0 <= csd_v1_c_size_mult csd < 2 ^ 3
  /\ 0 <= csd_v1_read_bl_len csd < 2 ^ 4.
Proof.
  intros Hb.
  pose proof (peek_byte csd 7 Hb) as H7.
  pose proof (peek_byte csd 8 Hb) as H8.
  pose proof (peek_byte csd 10 Hb) as H10.
  unfold is_byte in *.
  unfold csd_v1_c_size, csd_v1_c_size_mult, csd_v1_read_bl_len.
  pose proof (land_low_bound (peek csd 6) 2 ltac:(lia)) as L6.
  pose proof (land_low_bound (peek csd 9) 2 ltac:(lia)) as L9.
  pose proof (land_low_bound (peek csd 5) 4 ltac:(lia)) as L5.
  change (Z.ones 2) with 0x03 in *. change (Z.ones 4) with 0x0F in *.
  assert (A8 : 0 <= Z.land (peek csd 8) 0xC0 < 2 ^ 8)
    by (apply land_mask_bound; [lia|reflexivity]).
  assert (A10 : 0 <= Z.land (peek csd 10) 0x80 < 2 ^ 8)
    by (apply land_mask_bound; [lia|reflexivity]).
  split; [|split; [|exact L5]].
  - apply lor_bound; [apply lor_bound|].
    + rewrite Z.shiftl_mul_pow2 by lia. lia.
    + rewrite Z.shiftl_mul_pow2 by lia. lia.
    + rewrite Z.shiftr_div_pow2 by lia.
      split; [apply Z.div_pos; lia|].
      apply Z.div_lt_upper_bound; lia.
  - apply lor_bound.
    + rewrite Z.shiftl_mul_pow2 by lia. lia.
    + rewrite Z.shiftr_div_pow2 by lia.
      split; [apply Z.div_pos; lia|].
      apply Z.div_lt_upper_bound; lia.
Qed.

(** The version 1 branch of the CSD decoding, on bytes: none of the
    intermediate values overflows. *)
Lemma csd_sectors_v1 csd :
  Forall is_byte csd ->
  Z.shiftr (peek csd 0) 6 <> 0x01 ->
  csd_sectors csd
  = ((csd_v1_c_size csd + 1)
     * 2 ^ (csd_v1_c_size_mult csd + 2 + csd_v1_read_bl_len csd)) / 512.
Proof.
  intros Hb Hv. destruct (csd_v1_fields csd Hb) as (Hc & Hm & Hr).
  unfold csd_sectors. apply Z.eqb_neq in Hv. rewrite Hv. cbv zeta.
  fold (csd_v1_c_size csd). fold (csd_v1_c_size_mult csd).
  fold (csd_v1_read_bl_len csd).
  set (c := csd_v1_c_size csd) in *. set (m := csd_v1_c_size_mult csd) in *.
  set (r := csd_v1_read_bl_len csd) in *.
  assert (H32 : to_int32 (c + 1) = c + 1).
  { unfold to_int32, to_uint32. rewrite Z.mod_small by lia.
    destruct (c + 1 <? 2 ^ 31) eqn:E; [reflexivity|].
    apply Z.ltb_ge in E. lia. }
  rewrite H32. unfold to_uint64.
  rewrite (Z.mod_small (c + 1)) by lia.
  assert (Pm : 0 < 2 ^ (m + 2) <= 2 ^ 9).
  { split; [apply Z.pow_pos_nonneg; lia|apply Z.pow_le_mono_r; lia]. }
  assert (Pr : 0 < 2 ^ r <= 2 ^ 15).
  { split; [apply Z.pow_pos_nonneg; lia|apply Z.pow_le_mono_r; lia]. }
  rewrite (Z.shiftl_mul_pow2 (c + 1)) by lia.
  assert (B2 : 0 <= (c + 1) * 2 ^ (m + 2) <= 2 ^ 12 * 2 ^ 9).
  { split; [apply Z.mul_nonneg_nonneg; lia|].
    apply Z.mul_le_mono_nonneg; lia. }
  rewrite (Z.mod_small ((c + 1) * 2 ^ (m + 2))) by lia.
  rewrite Z.shiftl_mul_pow2 by lia.
  assert (B3 : 0 <= (c + 1) * 2 ^ (m + 2) * 2 ^ r <= 2 ^ 21 * 2 ^ 15).
  { split; [apply Z.mul_nonneg_nonneg; lia|].
    apply Z.mul_le_mono_nonneg; lia. }
  rewrite Z.mod_small by lia.
  rewrite Z.shiftr_div_pow2 by lia.
  rewrite <- Z.mul_assoc, <- Z.pow_add_r by lia. reflexivity.
Qed.

(** X14.  When [disk_sectors] reads a CSD whose structure field is not
    1, it takes it for a version 1 CSD (standard capacity):
    it returns [(C_SIZE + 1) * 2^(C_SIZE_MULT + 2 + READ_BL_LEN) / 512]
    with the three fields taken from bytes 5 to 10 of the register; no
    intermediate value overflows, and the count is at most 2^27
    sectors.  For the CSD of a 2 GB card (C_SIZE = 3771, C_SIZE_MULT =
    7, READ_BL_LEN = 10) that is 3,862,528 sectors. *)
Theorem disk_sectors_csd_v1 (s : SDFileSystem) :
  let s1 := snd (select s) in
  let s2 := snd (command CMD9 0x00000000 None s1) in
  let r := readData (repeat 0 16) 0 16 s2 in
  let csd := snd (fst r) in
  status_has STA_NOINIT s = false ->
  fst (select s) = true ->
  fst (fst (command CMD9 0x00000000 None s1)) = 0x00 ->
  fst (fst r) = true ->
  Z.shiftr (peek csd 0) 6 <> 0x01 ->
  fst (disk_sectors s)
  = ((csd_v1_c_size csd + 1)
     * 2 ^ (csd_v1_c_size_mult csd + 2 + csd_v1_read_bl_len csd)) / 512
  /\ 0 <= fst (disk_sectors s) <= 2 ^ 27.
Proof.
  cbv zeta.
  destruct (select s) as [ok s1] eqn:E1. cbn [fst snd].
  destruct (command CMD9 0 None s1) as [[t r] s2] eqn:E2. cbn [fst snd].
  pose proof (readData_byte (repeat 0 16) 0 16 s2) as Hb.
  destruct (readData (repeat 0 16) 0 16 s2) as [[okr csd] s3] eqn:E3.
  cbn [fst snd] in *.
  intros Hi -> -> -> Hv.
  assert (Hbytes : Forall is_byte csd).
  { apply Hb. apply Forall_forall. intros x Hx.
    apply repeat_spec in Hx. subst. unfold is_byte. lia. }
  assert (Hd : fst (disk_sectors s) = csd_sectors csd).
  { unfold disk_sectors.
    rewrite (bind_eqn _ _ _ _ _ (get_run _ s)), Hi.
    exact (disk_sectors_loop_read 2 s s1 r s2 csd s3 E1 E2 E3). }
  rewrite Hd, (csd_sectors_v1 csd Hbytes Hv). split; [reflexivity|].
  destruct (csd_v1_fields csd Hbytes) as (Hc & Hm & Hr).
  set (c := csd_v1_c_size csd) in *. set (m := csd_v1_c_size_mult csd) in *.
  set (l := csd_v1_read_bl_len csd) in *.
  assert (Pe : 0 < 2 ^ (m + 2 + l) <= 2 ^ 24).
  { split; [apply Z.pow_pos_nonneg; lia|apply Z.pow_le_mono_r; lia]. }
  assert (B : 0 <= (c + 1) * 2 ^ (m + 2 + l) <= 2 ^ 12 * 2 ^ 24).
  { split; [apply Z.mul_nonneg_nonneg; lia|].
    apply Z.mul_le_mono_nonneg; lia. }
  split; [apply Z.div_pos; lia|].
  apply Z.div_le_upper_bound; lia.
Qed.

Lemma disk_sectors_csd_v1_witness :
  fst (disk_sectors (initialized (csd_script csd_2gb))) = 3862528.
Proof.
  pose (s := initialized (csd_script csd_2gb)).
  pose (s2 := snd (command CMD9 0x00000000 None (snd (select s)))).
  pose (r := readData (repeat 0 16) 0 16 s2).
  assert (H0 : status_has STA_NOINIT s = false) by (vm_compute; reflexivity).
  assert (H1 : fst (select s) = true) by (vm_compute; reflexivity).
  assert (H2 : fst (fst (command CMD9 0x00000000 None (snd (select s)))) = 0x00)
    by (vm_compute; reflexivity).
  assert (H3 : fst (fst r) = true) by (vm_compute; reflexivity).
  assert (H4 : Z.shiftr (peek (snd (fst r)) 0) 6 <> 0x01)
    by (vm_compute; discriminate).
  destruct (disk_sectors_csd_v1 s H0 H1 H2 H3 H4) as (Hd & _).
  change (fst (disk_sectors s) = 3862528).
  rewrite Hd. vm_compute. reflexivity.
Defined.

(** * What the block operations send *)

Section Emitting.
Variable Q : CmdEvent -> Prop.
Variable ct : CardType.
Variable l0 : list CmdEvent.

Lemma emit_spi_write v : preserves (emitting Q ct l0) (spi_write v).
Proof. intros s H. exact H. Qed.

Lemma emit_wait_ms n : preserves (emitting Q ct l0) (wait_ms n).
Proof. intros s H. exact H. Qed.

Lemma emit_cs_write v : preserves (emitting Q ct l0) (cs_write v).
Proof. intros s H. exact H. Qed.

Lemma emit_spi_format b : preserves (emitting Q ct l0) (spi_format b).
Proof. intros s H. exact H. Qed.

Lemma emit_cd_read : preserves (emitting Q ct l0) cd_read.
Proof. intros s H. exact H. Qed.

Lemma emit_set_Crc v : preserves (emitting Q ct l0) (modify (set_Crc v)).
Proof. intros s H. exact H. Qed.

Lemma emit_set_Status g :
  preserves (emitting Q ct l0) (modify (fun s => set_Status (g s) s)).
Proof. intros s H. exact H. Qed.

Lemma emit_log_cmd c arg r :
  Q (mkCmdEvent c arg r) -> preserves (emitting Q ct l0) (log_cmd c arg r).
Proof.
  intros Hq s (Hc & evs & Hl & Hf). split; [exact Hc|].
  exists (evs ++ [mkCmdEvent c arg r]). split.
  - unfold log_cmd. cbn [snd set_log cmd_log]. rewrite Hl, app_assoc.
    reflexivity.
  - apply Forall_app. split; [exact Hf|]. constructor; [exact Hq|constructor].
Qed.

Hint Resolve emit_spi_write emit_wait_ms emit_cs_write emit_spi_format
  emit_cd_read emit_set_Crc emit_set_Status : inv.

Lemma emit_read_payload buffer off len :
  preserves (emitting Q ct l0) (read_payload buffer off len).
Proof. unfold read_payload. pres. Qed.

Lemma emit_writeData fuel buffer off token :
  preservesP (emitting Q ct l0) (writeData fuel buffer off token).
Proof. unfold writeData. pres. Qed.

Lemma emit_card_type s : emitting Q ct l0 s -> m_CardType s = ct.
Proof. intros [H _]. exact H. Qed.

End Emitting.

Lemma emitting_start Q s : emitting Q (m_CardType s) (cmd_log s) s.
Proof.
  split; [reflexivity|]. exists []. rewrite app_nil_r.
  split; [reflexivity|constructor].
Qed.

Lemma block_addr_wire ct lba : block_addr ct lba = wire_address ct lba.
Proof.
  unfold block_addr, wire_address, to_uint32, to_uint64.
  destruct ct; cbn [CardType_eqb]; try reflexivity;
    rewrite <- !Z.land_ones by lia;
    rewrite <- Z.land_assoc; reflexivity.
Qed.

(** X15.  A read only sends read commands.  Every frame that
    [disk_read] sends is CMD17 with the address of the sector (the
    block number for an SDHC card, the byte offset for the others,
    modulo 2^32), CMD18 or CMD12(0); with a count of 0 or 1 all of them
    are that CMD17.  In particular a read never resets the card and
    never sends a write or an erase command; the card type is not
    changed. *)
Theorem disk_read_commands fuel buffer sector count s r s' :
  disk_read fuel buffer sector count s = Some (r, s') ->
  m_CardType s' = m_CardType s
  /\ exists evs,
      cmd_log s' = cmd_log s ++ evs
      /\ Forall (read_event (m_CardType s) (to_uint64 sector)) evs
      /\ (to_char count <= 1 ->
          Forall (single_read_event (m_CardType s) (to_uint64 sector)) evs).
Proof.
  intros E.
  assert (H17 : forall (Q : CmdEvent -> Prop) l0,
    (forall e, single_read_event (m_CardType s) (to_uint64 sector) e -> Q e) ->
    forall ct r0, ct = m_CardType s ->
      preserves (emitting Q (m_CardType s) l0)
        (log_cmd CMD17 (block_addr ct (to_uint64 sector)) r0)).
  { intros Q l0 HQ ct r0 ->. apply emit_log_cmd, HQ.
    split; [reflexivity|apply block_addr_wire]. }
  assert (Hall : emitting (read_event (m_CardType s) (to_uint64 sector))
                          (m_CardType s) (cmd_log s) s').
  { refine (pres_disk_read _ (emit_spi_write _ _ _) (emit_wait_ms _ _ _)
              (emit_cs_write _ _ _) (emit_read_payload _ _ _)
              (fun c => c = m_CardType s) (emit_card_type _ _ _)
              fuel buffer sector count _ _ _ s r s' (emitting_start _ s) E).
    - apply H17. intros e He. left. exact He.
    - intros a r0. apply emit_log_cmd. right. left. reflexivity.
    - intros r0. apply emit_log_cmd. right. right. split; reflexivity. }
  destruct Hall as (Hc & evs & Hl & Hf).
  split; [exact Hc|]. exists evs. split; [exact Hl|]. split; [exact Hf|].
  intros Hcount.
  assert (Hone : emitting (single_read_event (m_CardType s) (to_uint64 sector))
                          (m_CardType s) (cmd_log s) s').
  { revert E. unfold disk_read, bindP, liftP. rewrite get_run.
    destruct (status_has STA_NOINIT s).
    - intros E. injection E as _ <-. apply emitting_start.
    - replace (to_char count >? 1) with false
        by (destruct (Z.gtb_spec (to_char count) 1); [lia|reflexivity]).
      pose proof (pres_readBlock _ (emit_spi_write _ _ _) (emit_wait_ms _ _ _)
                    (emit_cs_write _ _ _) (emit_read_payload _ _ _)
                    (fun c => c = m_CardType s) (emit_card_type _ _ _)
                    buffer (to_uint64 sector)
                    (H17 _ (cmd_log s) (fun e He => He))
                    s (emitting_start _ s)) as H.
      destruct (readBlock buffer (to_uint64 sector) s) as [[ok b] s1].
      cbn [fst snd] in *.
      destruct ok; intros E; injection E as _ <-; exact H. }
  destruct Hone as (_ & evs1 & Hl1 & Hf1).
  rewrite Hl in Hl1. apply app_inv_head in Hl1. subst evs1. exact Hf1.
Qed.

Lemma disk_read_commands_witness :
  match disk_read 0 [] 5 1 (initialized []) with
  | Some (_, s') => Forall (single_read_event CARD_SDHC 5) (cmd_log s')
  | None => False
  end.
Proof.
  destruct (disk_read 0 [] 5 1 (initialized [])) as [[r s']|] eqn:E;
    [|vm_compute in E; discriminate E].
  destruct (disk_read_commands _ _ _ _ _ _ _ E) as (_ & evs & Hl & _ & H1).
  change (cmd_log s' = evs) in Hl. rewrite Hl. apply H1.
  vm_compute. discriminate.
Defined.

(** X16.  A write only sends write commands.  Every frame that
    [disk_write] sends is CMD24 with the address of the sector, CMD13(0)
    to check the programming, or, for a count above 1, CMD55(0),
    ACMD23, CMD25, CMD12(0) and ACMD22(0); with a count of 0 or 1 all
    of them are that CMD24 or CMD13(0).  A write never resets the card
    and never sends a read command; the card type is not changed. *)
Theorem disk_write_commands fuel buffer sector count s r s' :
  disk_write fuel buffer sector count s = Some (r, s') ->
  m_CardType s' = m_CardType s
  /\ exists evs,
      cmd_log s' = cmd_log s ++ evs
      /\ Forall (write_event (m_CardType s) (to_uint64 sector)) evs
      /\ (to_char count <= 1 ->
          Forall (single_write_event (m_CardType s) (to_uint64 sector)) evs).
Proof.
  intros E.
  assert (H24 : forall (Q : CmdEvent -> Prop) l0,
    (forall e, single_write_event (m_CardType s) (to_uint64 sector) e -> Q e) ->
    forall ct r0, ct = m_CardType s ->
      preserves (emitting Q (m_CardType s) l0)
        (log_cmd CMD24 (block_addr ct (to_uint64 sector)) r0)).
  { intros Q l0 HQ ct r0 ->. apply emit_log_cmd, HQ.
    left. split; [reflexivity|apply block_addr_wire]. }
  assert (H13 : forall (Q : CmdEvent -> Prop) l0,
    (forall e, single_write_event (m_CardType s) (to_uint64 sector) e -> Q e) ->
    forall r0, preserves (emitting Q (m_CardType s) l0) (log_cmd CMD13 0 r0)).
  { intros Q l0 HQ r0. apply emit_log_cmd, HQ. right. split; reflexivity. }
  assert (Hall : emitting (write_event (m_CardType s) (to_uint64 sector))
                          (m_CardType s) (cmd_log s) s').
  { refine (pres_disk_write _ (emit_spi_write _ _ _) (emit_wait_ms _ _ _)
              (emit_cs_write _ _ _) (emit_read_payload _ _ _)
              (emit_writeData _ _ _)
              (fun c => c = m_CardType s) (emit_card_type _ _ _)
              fuel buffer sector count _ _ _ _ _ _ _
              s r s' (emitting_start _ s) E).
    - apply H24. intros e He. left. exact He.
    - intros a r0. apply emit_log_cmd. right. right. left. reflexivity.
    - intros r0. apply emit_log_cmd. right. left. split; reflexivity.
    - intros a r0. apply emit_log_cmd. do 3 right. left. reflexivity.
    - intros r0. apply emit_log_cmd. do 4 right. left. split; reflexivity.
    - apply H13. intros e He. left. exact He.
    - intros r0. apply emit_log_cmd. do 5 right. split; reflexivity. }
  destruct Hall as (Hc & evs & Hl & Hf).
  split; [exact Hc|]. exists evs. split; [exact Hl|]. split; [exact Hf|].
  intros Hcount.
  assert (Hone : emitting (single_write_event (m_CardType s) (to_uint64 sector))
                          (m_CardType s) (cmd_log s) s').
  { revert E. unfold disk_write, bindP at 1, liftP at 1. rewrite get_run.
    destruct (status_has STA_NOINIT s).
    - intros E. injection E as _ <-. apply emitting_start.
    - unfold bindP at 1, liftP at 1. rewrite get_run.
      destruct (status_has STA_PROTECT s).
      + intros E. injection E as _ <-. apply emitting_start.
      + replace (to_char count >? 1) with false
          by (destruct (Z.gtb_spec (to_char count) 1); [lia|reflexivity]).
        pose proof (pres_writeBlock _ (emit_spi_write _ _ _)
                      (emit_wait_ms _ _ _) (emit_cs_write _ _ _)
                      (emit_writeData _ _ _)
                      (fun c => c = m_CardType s) (emit_card_type _ _ _)
                      fuel buffer (to_uint64 sector)
                      (H24 _ (cmd_log s) (fun e He => He))
                      (H13 _ (cmd_log s) (fun e He => He))
                      s) as H.
        unfold bindP.
        destruct (writeBlock fuel buffer (to_uint64 sector) s)
          as [[ok s1]|]; [|discriminate].
        specialize (H ok s1 (emitting_start _ s) eq_refl).
        destruct ok; intros E; injection E as _ <-; exact H. }
  destruct Hone as (_ & evs1 & Hl1 & Hf1).
  rewrite Hl in Hl1. apply app_inv_head in Hl1. subst evs1. exact Hf1.
Qed.

Lemma disk_write_commands_witness :
  match disk_write 5 (repeat 0 512) 5 1 (initialized []) with
  | Some (_, s') => Forall (single_write_event CARD_SDHC 5) (cmd_log s')
  | None => False
  end.
Proof.
  destruct (disk_write 5 (repeat 0 512) 5 1 (initialized []))
    as [[r s']|] eqn:E; [|vm_compute in E; discriminate E].
  destruct (disk_write_commands _ _ _ _ _ _ _ E) as (_ & evs & Hl & _ & H1).
  change (cmd_log s' = evs) in Hl. rewrite Hl. apply H1.
  vm_compute. discriminate.
Defined.

(** * What a read returns *)

Lemma preserves_and I J {A} (m : M A) :
  preserves I m -> preserves J m -> preserves (fun s => I s /\ J s) m.
Proof. intros HI HJ s [H1 H2]. split; [apply HI, H1|apply HJ, H2]. Qed.

Section Streaming.
Variable s0 : SDFileSystem.

Lemma stream_spi_write v : preserves (same_stream s0) (spi_write v).
Proof.
  intros s (H1 & H2 & H3 & H4). split; [exact H1|].
  split; [|split; assumption].
  unfold spi_write. cbn [snd set_Spi m_Spi xfers]. lia.
Qed.

Lemma stream_wait_ms n : preserves (same_stream s0) (wait_ms n).
Proof. intros s H. exact H. Qed.

Lemma stream_cs_write v : preserves (same_stream s0) (cs_write v).
Proof. intros s H. exact H. Qed.

Lemma stream_log_cmd c arg r : preserves (same_stream s0) (log_cmd c arg r).
Proof. intros s H. exact H. Qed.

Lemma stream_spi_format b : preserves (same_stream s0) (spi_format b).
Proof. intros s H. exact H. Qed.

Hint Resolve stream_spi_write stream_wait_ms stream_cs_write stream_log_cmd
  stream_spi_format : inv.

Lemma stream_read_payload buffer off len :
  preserves (same_stream s0) (read_payload buffer off len).
Proof. unfold read_payload. pres. Qed.

Lemma streaming_spi_write v : preserves (streaming s0) (spi_write v).
Proof. apply preserves_and; auto with inv. Qed.

Lemma streaming_wait_ms n : preserves (streaming s0) (wait_ms n).
Proof. apply preserves_and; auto with inv. Qed.

Lemma streaming_cs_write v : preserves (streaming s0) (cs_write v).
Proof. apply preserves_and; auto with inv. Qed.

Lemma streaming_log_cmd c arg r : preserves (streaming s0) (log_cmd c arg r).
Proof. apply preserves_and; auto with inv. Qed.

Lemma streaming_read_payload buffer off len :
  preserves (streaming s0) (read_payload buffer off len).
Proof.
  apply preserves_and; [apply stream_read_payload|apply fmt_read_payload].
Qed.

Lemma streaming_trans s1 s2 :
  streaming s0 s1 -> streaming s1 s2 -> streaming s0 s2.
Proof.
  intros [(A1 & A2 & A3 & A4) _] [(B1 & B2 & B3 & B4) B].
  split; [|exact B]. split; [congruence|]. split; [lia|].
  split; congruence.
Qed.

End Streaming.

Lemma streaming_refl s : byte_frames s -> streaming s s.
Proof. intros H. split; [|exact H]. split; [reflexivity|]. auto. Qed.

(** The wait for the start token: the token is the last frame read. *)
Lemma recv_token_last n tok s :
  n <> 0%nat ->
  let r := recv_token n tok s in
  fst r = to_char (Z.land (miso (m_Spi s) (xfers (m_Spi (snd r)) - 1))
                          (Z.ones (bits (m_Spi s))))
  /\ (xfers (m_Spi s) < xfers (m_Spi (snd r)))%nat.
Proof.
  revert tok s. induction n as [|n IH]; intros tok s Hn; [contradiction|].
  cbv zeta. cbn [recv_token].
  destruct (spi_write 0xFF s) as [v s1] eqn:E.
  rewrite (bind_eqn _ _ _ _ _ E).
  destruct (spi_write_frame _ _ _ _ E) as (Hv & Hm & Hx & Hb).
  destruct (negb (to_char v =? 0xFF)).
  - cbn [ret fst snd]. rewrite Hx, Hv. unfold frame.
    replace (xfers (m_Spi s) + 1 - 1)%nat with (xfers (m_Spi s) + 0)%nat by lia.
    split; [reflexivity|lia].
  - rewrite bind_run.
    set (s2 := snd (wait_ms 1 s1)).
    assert (Hm2 : miso (m_Spi s2) = miso (m_Spi s)) by exact Hm.
    assert (Hx2 : xfers (m_Spi s2) = (xfers (m_Spi s) + 1)%nat) by exact Hx.
    assert (Hb2 : bits (m_Spi s2) = bits (m_Spi s)) by exact Hb.
    destruct n as [|n].
    + cbn [recv_token ret fst snd]. rewrite Hx2, Hv. unfold frame.
      replace (xfers (m_Spi s) + 1 - 1)%nat with (xfers (m_Spi s) + 0)%nat
        by lia.
      split; [reflexivity|lia].
    + destruct (IH (to_char v) s2 ltac:(discriminate)) as (H1 & H2).
      rewrite H1, Hm2, Hb2. split; [reflexivity|lia].
Qed.

(** The payload engine writes the bytes of the block and nothing else. *)
Lemma read_payload_frame buffer off len s :
  bits (m_Spi s) = 8 ->
  (off + stored_bytes s len <= length buffer)%nat ->
  length (fst (fst (read_payload buffer off len s))) = length buffer
  /\ forall j,
      (j < off \/ off + stored_bytes s len <= j)%nat ->
      peek (fst (fst (read_payload buffer off len s))) j = peek buffer j.
Proof.
  intros Hbits Hroom. unfold read_payload. unfold stored_bytes in *.
  rewrite (bind_eqn _ _ _ _ _ (get_run m_LargeFrames s)).
  destruct (m_LargeFrames s).
  - mstep u1 s1 E1. mstep b s2 E2. mstep c s3 E3. mstep u4 s4 E4.
    cbn [ret fst snd].
    destruct (spi_format_eqn _ _ _ _ E1) as (_ & _ & B1).
    destruct (read_words_spec _ _ _ _ _ _ E2 B1) as (_ & L2 & P2); [lia|].
    split; [exact L2|]. intros j Hj. rewrite P2.
    destruct (off <=? j)%nat eqn:Ea; cbn [andb]; [|reflexivity].
    destruct (j <? off + 2 * Nat.div2 (S len))%nat eqn:Eb; [|reflexivity].
    apply Nat.leb_le in Ea. apply Nat.ltb_lt in Eb. lia.
  - mstep b s2 E2. mstep hi s3 E3. mstep lo s4 E4. cbn [ret fst snd].
    destruct (read_bytes_spec _ _ _ _ _ _ E2) as (_ & L2 & P2); [lia|].
    split; [exact L2|]. intros j Hj. rewrite P2.
    destruct (off <=? j)%nat eqn:Ea; cbn [andb]; [|reflexivity].
    destruct (j <? off + len)%nat eqn:Eb; [|reflexivity].
    apply Nat.leb_le in Ea. apply Nat.ltb_lt in Eb. lia.
Qed.

(** [readData]: the buffer outside the block is untouched, and a block
    that is accepted came out of the card behind a start token, with a
    matching CRC16 when CRC is enabled. *)
Lemma readData_checked buffer off len s :
  bits (m_Spi s) = 8 ->
  (off + stored_bytes s len <= length buffer)%nat ->
  length (snd (fst (readData buffer off len s))) = length buffer
  /\ (forall j,
        (j < off \/ off + stored_bytes s len <= j)%nat ->
        peek (snd (fst (readData buffer off len s))) j = peek buffer j)
  /\ (fst (fst (readData buffer off len s)) = true ->
      block_received s (slice (snd (fst (readData buffer off len s))) off len))
  /\ streaming s (snd (readData buffer off len s)).
Proof.
  intros Hbits Hroom. unfold readData.
  destruct (recv_token_last 200 0 s ltac:(discriminate)) as (Ht & Hx).
  pose proof (pres_recv_token (streaming s) (streaming_spi_write s)
                (streaming_wait_ms s) 200 0 s (streaming_refl s Hbits)) as St.
  destruct (recv_token 200 0 s) as [token s1] eqn:E1.
  rewrite (bind_eqn _ _ _ _ _ E1). cbn [fst snd] in *.
  destruct (token =? 0xFE) eqn:Etok; cbn [negb].
  - apply Z.eqb_eq in Etok.
    assert (Hb1 : bits (m_Spi s1) = 8) by apply St.
    assert (Hl1 : m_LargeFrames s1 = m_LargeFrames s) by apply St.
    assert (Hc1 : m_Crc s1 = m_Crc s) by apply St.
    assert (Hroom1 : (off + stored_bytes s1 len <= length buffer)%nat)
      by (unfold stored_bytes in *; rewrite Hl1; exact Hroom).
    destruct (read_payload_spec buffer off len s1 Hb1 Hroom1)
      as (Hdata & Hcrc & _ & _).
    destruct (read_payload_frame buffer off len s1 Hb1 Hroom1) as (Hlen & Hout).
    pose proof (streaming_read_payload s buffer off len s1 St) as S2.
    destruct (read_payload buffer off len s1) as [[b c] s2] eqn:E2.
    rewrite (bind_eqn _ _ _ _ _ E2).
    rewrite (bind_eqn _ _ _ _ _ (get_run m_Crc s2)).
    cbn [ret fst snd] in *.
    split; [exact Hlen|]. split.
    + intros j Hj. apply Hout. unfold stored_bytes in *. rewrite Hl1. exact Hj.
    + split; [|exact S2]. intros Hok.
      exists s1. split; [apply St|]. split; [exact Hx|].
      split; [rewrite <- Etok, Ht, Hbits; reflexivity|].
      rewrite length_slice. split; [exact Hdata|].
      intros Hcrc_on.
      assert (Hc2 : m_Crc s2 = true)
        by (destruct S2 as [(_ & _ & -> & _) _]; exact Hcrc_on).
      rewrite Hc2 in Hok. cbn [negb orb] in Hok.
      apply Z.eqb_eq in Hok. rewrite <- Hcrc. exact Hok.
  - cbn [ret fst snd]. split; [reflexivity|]. split; [reflexivity|].
    split; [discriminate|exact St].
Qed.

Lemma stored_512 s : stored_bytes s 512 = 512%nat.
Proof. unfold stored_bytes. destruct (m_LargeFrames s); reflexivity. Qed.

Lemma block_received_from s0 s block :
  streaming s0 s -> block_received s block -> block_received s0 block.
Proof.
  intros [(A1 & A2 & A3 & A4) _] (s1 & (B1 & B2 & B3 & B4) & Hx & Ht & Hd & Hc).
  exists s1. split.
  - split; [congruence|]. split; [lia|]. split; congruence.
  - split; [lia|]. split; [rewrite <- A1; exact Ht|].
    split; [exact Hd|]. rewrite <- A3. exact Hc.
Qed.

Lemma readBlock_loop_checked n s0 buffer lba s :
  streaming s0 s -> (512 <= length buffer)%nat ->
  length (snd (fst (readBlock_loop n buffer lba s))) = length buffer
  /\ (forall j, (512 <= j)%nat ->
        peek (snd (fst (readBlock_loop n buffer lba s))) j = peek buffer j)
  /\ (fst (fst (readBlock_loop n buffer lba s)) = true ->
      block_received s0
        (slice (snd (fst (readBlock_loop n buffer lba s))) 0 512)).
Proof.
  revert buffer s. induction n as [|n IH]; intros buffer s Hs Hroom;
    cbn [readBlock_loop].
  - unfold read_failed. rewrite bind_run. cbn [ret fst snd].
    split; [reflexivity|]. split; [reflexivity|discriminate].
  - pose proof (pres_select (streaming s0) (streaming_spi_write s0)
                  (streaming_wait_ms s0) (streaming_cs_write s0) s Hs) as S1.
    destruct (select s) as [ok s1] eqn:E1.
    rewrite (bind_eqn _ _ _ _ _ E1). cbn [snd] in S1.
    destruct ok; cbn [negb].
    + rewrite (bind_eqn _ _ _ _ _ (get_run _ s1)).
      pose proof (pres_command (streaming s0) (streaming_spi_write s0)
                    CMD17 (block_addr (m_CardType s1) lba) None
                    (streaming_log_cmd s0 _ _)
                    (fun _ => streaming_log_cmd s0 _ _) s1 S1) as S2.
      destruct (command CMD17 (block_addr (m_CardType s1) lba) None s1)
        as [[t r] s2] eqn:E2.
      rewrite (bind_eqn _ _ _ _ _ (token_of_eqn _ _ _ _ _ E2)).
      cbn [snd] in S2.
      destruct (t =? 0).
      * assert (Hb2 : bits (m_Spi s2) = 8) by apply S2.
        destruct (readData_checked buffer 0 512 s2 Hb2)
          as (Hlen & Hout & Hok & S3); [rewrite stored_512; exact Hroom|].
        destruct (readData buffer 0 512 s2) as [[okr b] s3] eqn:E3.
        rewrite (bind_eqn _ _ _ _ _ E3). cbn [fst snd] in *.
        rewrite bind_run.
        destruct okr.
        -- cbn [ret fst snd]. split; [exact Hlen|]. split.
           ++ intros j Hj. apply Hout. rewrite stored_512. lia.
           ++ intros _. apply (block_received_from s0 s2); [exact S2|].
              apply Hok. reflexivity.
        -- assert (S4 : streaming s0 (snd (deselect s3))).
           { apply (pres_deselect (streaming s0) (streaming_spi_write s0)
                      (streaming_cs_write s0)).
             exact (streaming_trans s0 s2 s3 S2 S3). }
           destruct (IH b (snd (deselect s3)) S4) as (L & O & K);
             [rewrite Hlen; exact Hroom|].
           split; [rewrite L; exact Hlen|]. split; [|exact K].
           intros j Hj. rewrite O by exact Hj. apply Hout.
           rewrite stored_512. lia.
      * unfold read_failed. rewrite bind_run. cbn [ret fst snd].
        split; [reflexivity|]. split; [reflexivity|discriminate].
    + unfold read_failed. rewrite bind_run. cbn [ret fst snd].
      split; [reflexivity|]. split; [reflexivity|discriminate].
Qed.

(** X17.  What a single block read returns.  [disk_read] with a count
    of 0 or 1 writes into the first 512 bytes of the buffer only and
    returns [RES_OK], [RES_ERROR] or [RES_NOTRDY].  When it returns
    [RES_OK], these 512 bytes are a block that the card sent during the
    call behind a start token 0xFE, and, when CRC is enabled, the two
    bytes after the block are its CRC16: a block with a wrong checksum
    is never returned as good. *)
Theorem single_block_read_checked fuel buffer sector count s res b s' :
  bits (m_Spi s) = 8 -> (512 <= length buffer)%nat -> to_char count <= 1 ->
  disk_read fuel buffer sector count s = Some ((res, b), s') ->
  length b = length buffer
  /\ (forall j, (512 <= j)%nat -> peek b j = peek buffer j)
  /\ (res = RES_OK -> block_received s (slice b 0 512))
  /\ (res = RES_OK \/ res = RES_ERROR \/ res = RES_NOTRDY).
Proof.
  intros Hb Hroom Hcount.
  unfold disk_read, bindP, liftP. rewrite get_run.
  destruct (status_has STA_NOINIT s).
  - intros E. injection E as <- <- _.
    split; [reflexivity|]. split; [reflexivity|].
    split; [discriminate|right; right; reflexivity].
  - replace (to_char count >? 1) with false
      by (destruct (Z.gtb_spec (to_char count) 1); [lia|reflexivity]).
    destruct (readBlock_loop_checked 3 s buffer (to_uint64 sector) s
                (streaming_refl s Hb) Hroom) as (H1 & H2 & H3).
    fold (readBlock buffer (to_uint64 sector)) in H1, H2, H3.
    destruct (readBlock buffer (to_uint64 sector) s) as [[ok b1] s1].
    cbn [fst snd] in *.
    destruct ok; intros E; injection E as <- <- _.
    + split; [exact H1|]. split; [exact H2|].
      split; [intros _; apply H3; reflexivity|left; reflexivity].
    + split; [exact H1|]. split; [exact H2|].
      split; [discriminate|right; left; reflexivity].
Qed.

Lemma single_block_read_checked_witness :
  let s := initialized (csd_script (repeat 0x5A 512)) in
  match disk_read 0 (repeat 0 600) 7 1 s with
  | Some ((res, b), _) =>
      res = RES_OK /\ block_received s (slice b 0 512) /\ peek b 512 = 0
  | None => False
  end.
Proof.
  intros s.
  destruct (disk_read 0 (repeat 0 600) 7 1 s) as [[[res b] s']|] eqn:E;
    [|vm_compute in E; discriminate E].
  assert (Hres : res = RES_OK).
  { vm_compute in E. injection E as <- _ _. reflexivity. }
  destruct (single_block_read_checked 0 (repeat 0 600) 7 1 s res b s')
    as (_ & Hout & Hok & _).
  - reflexivity.
  - rewrite repeat_length. lia.
  - vm_compute. discriminate.
  - exact E.
  - split; [exact Hres|]. split; [exact (Hok Hres)|].
    rewrite Hout by lia. reflexivity.
Defined.

(** * What a write reports *)

Lemma ensuresP_bind Pre {A B} (m : P A) (k : A -> P B) Post :
  preservesP Pre m -> (forall a, ensuresP Pre (k a) Post) ->
  ensuresP Pre (bindP m k) Post.
Proof.
  intros Hm Hk s b s' H E.
  apply bindP_some in E. destruct E as (a & s1 & E1 & E2).
  exact (Hk a s1 b s' (Hm s a s1 H E1) E2).
Qed.

Lemma ensuresP_if Pre {A} (c : bool) (m1 m2 : P A) Post :
  ensuresP Pre m1 Post -> ensuresP Pre m2 Post ->
  ensuresP Pre (if c then m1 else m2) Post.
Proof. destruct c; auto. Qed.

Lemma ensuresP_none Pre {A} Post :
  ensuresP Pre (fun _ => @None (A * SDFileSystem)) Post.
Proof. intros s a s' _ E. discriminate E. Qed.

Section Verified.
Variable ct : CardType.
Variable l0 : list CmdEvent.

Lemma log_spi_write' v : preserves (logging ct l0) (spi_write v).
Proof. apply emit_spi_write. Qed.

Lemma log_wait_ms' n : preserves (logging ct l0) (wait_ms n).
Proof. apply emit_wait_ms. Qed.

Lemma log_cs_write' v : preserves (logging ct l0) (cs_write v).
Proof. apply emit_cs_write. Qed.

Lemma log_any c arg r : preserves (logging ct l0) (log_cmd c arg r).
Proof. apply emit_log_cmd. exact I. Qed.

Lemma log_read_payload' buffer off len :
  preserves (logging ct l0) (read_payload buffer off len).
Proof. apply emit_read_payload. Qed.

Lemma log_writeData' fuel buffer off token :
  preservesP (logging ct l0) (writeData fuel buffer off token).
Proof. apply emit_writeData. Qed.

Hint Resolve log_spi_write' log_wait_ms' log_cs_write' log_any
  log_read_payload' log_writeData' : inv.

Lemma log_well_written_blocks' :
  preserves (logging ct l0) well_written_blocks.
Proof.
  apply (pres_well_written_blocks (logging ct l0)) with (good := fun _ => True);
    auto with inv.
Qed.

Lemma log_writeBlocks_stream' fuel c :
  preservesP (logging ct l0) (writeBlocks_stream fuel c).
Proof. apply pres_writeBlocks_stream; auto with inv. Qed.

Hint Resolve log_well_written_blocks' log_writeBlocks_stream' : inv.

Lemma ens_write_failed :
  ensuresP (logging ct l0) write_failed (checked_write l0).
Proof.
  intros s a s' _ E. unfold write_failed in E. apply liftP_some in E.
  rewrite bind_run in E. injection E as <- _. discriminate.
Qed.

(** CMD13 answered 0x00 is the last frame of a clean status check. *)
Lemma ens_programming_ok :
  ensuresP (logging ct l0)
    (bindP (liftP programming_ok)
           (fun ok => if negb ok then write_failed else retP true))
    (checked_write l0).
Proof.
  intros s a s' Hs E.
  apply bindP_some in E. destruct E as (ok & s1 & E1 & E2).
  apply liftP_some in E1. destruct ok; cbn [negb] in E2.
  - injection E2 as <- <-. intros _.
    unfold programming_ok in E1.
    destruct (tx_plain_log CMD13 0 (Some 0) s eq_refl) as (rs & Hl & Hlast).
    destruct (commandTransaction CMD13 0 (Some 0) s) as [[t r] s2] eqn:Et.
    rewrite (bind_eqn _ _ _ _ _ Et) in E1. cbn [ret fst snd] in *.
    injection E1 as Hok <-.
    assert (Ht : t = 0).
    { destruct (t =? 0) eqn:E0; [apply Z.eqb_eq; exact E0|].
      cbn [negb orb] in Hok. discriminate Hok. }
    subst t. destruct Hlast as (p & ->); [discriminate|].
    destruct Hs as (_ & evs & Hl0 & _).
    exists (evs ++ map (mkCmdEvent CMD13 0) p).
    rewrite Hl, Hl0, map_app, <- !app_assoc. reflexivity.
  - intros Ha.
    unfold write_failed in E2. apply liftP_some in E2.
    rewrite bind_run in E2. injection E2 as <- _. discriminate Ha.
Qed.

Hint Resolve ens_write_failed ens_programming_ok ensuresP_none : inv.

Ltac ens :=
  cbv zeta;
  first [ solve [auto with inv]
        | match goal with
          | |- ensuresP _ (if _ then _ else _) _ => apply ensuresP_if; ens
          | |- ensuresP _ (bindP _ _) _ =>
              apply ensuresP_bind; [solve [pres] | intros ?; ens]
          end ].

Lemma ens_writeBlock fuel buffer lba :
  ensuresP (logging ct l0) (writeBlock fuel buffer lba) (checked_write l0).
Proof.
  unfold writeBlock. generalize 3%nat as n.
  induction n; intros; cbn [writeBlock_loop]; ens.
Qed.

Lemma ens_writeBlocks fuel buffer lba count :
  ensuresP (logging ct l0) (writeBlocks fuel buffer lba count)
           (checked_write l0).
Proof.
  unfold writeBlocks. generalize (mkCursor buffer 0 lba count 0 0) as c.
  induction fuel; intros; cbn [writeBlocks_loop]; ens.
Qed.

End Verified.



(** * Switching CRC *)

Lemma spi_checkSocket s : m_Spi (snd (checkSocket s)) = m_Spi s.
Proof.
  rewrite checkSocket_run. cbv zeta. cbn [snd].
  destruct (_ =? _); reflexivity.
Qed.

Lemma set_crc_run enabled s :
  set_crc enabled s
  = (let sc := snd (checkSocket s) in
     if status_has STA_NOINIT sc then (tt, set_Crc enabled sc)
     else if enabled && negb (m_Crc sc)
          then (tt, snd (commandTransaction CMD59 0x00000001 None
                           (set_Crc true sc)))
          else if negb enabled && m_Crc sc
               then (tt, set_Crc false
                           (snd (commandTransaction CMD59 0x00000000 None sc)))
               else (tt, sc)).
Proof.
  unfold set_crc. rewrite bind_run. cbv zeta.
  rewrite (bind_eqn _ _ _ _ _ (get_run _ _)).
  destruct (status_has STA_NOINIT (snd (checkSocket s))); [reflexivity|].
  rewrite (bind_eqn _ _ _ _ _ (get_run _ _)).
  destruct (enabled && negb (m_Crc (snd (checkSocket s)))).
  - rewrite bind_run, bind_run, modify_run. reflexivity.
  - destruct (negb enabled && m_Crc (snd (checkSocket s))); [|reflexivity].
    rewrite bind_run, modify_run. reflexivity.
Qed.

(** X19.  [crc(enabled)] always ends with the CRC flag equal to
    [enabled], whatever the card answers: the R1 of CMD59 is not
    looked at.  It sends CMD59, with argument 1 to enable and 0 to
    disable, only when a card is initialized and the flag changes;
    otherwise nothing goes over the bus.  In both directions the CMD59
    frame itself is sent while the flag is set, so it carries a CRC7. *)
Theorem set_crc_outcome enabled s :
  let sc := snd (checkSocket s) in
  let s' := snd (set_crc enabled s) in
  m_Crc s' = enabled
  /\ fst (crc s') = enabled
  /\ (exists rs,
        cmd_log s'
        = cmd_log s ++ map (mkCmdEvent CMD59 (if enabled then 1 else 0)) rs)
  /\ (status_has STA_NOINIT sc = true \/ m_Crc s = enabled ->
      cmd_log s' = cmd_log s /\ m_Spi s' = m_Spi s)
  /\ (status_has STA_NOINIT sc = false -> m_Crc s <> enabled ->
      s' = (if enabled
            then snd (commandTransaction CMD59 1 None (set_Crc true sc))
            else set_Crc false (snd (commandTransaction CMD59 0 None sc)))).
Proof.
  cbv zeta. rewrite set_crc_run. cbv zeta.
  pose proof (crc_checkSocket s) as Hc.
  pose proof (log_checkSocket s) as Hl.
  pose proof (spi_checkSocket s) as Hp.
  set (sc := snd (checkSocket s)) in *.
  destruct (status_has STA_NOINIT sc).
  - cbn [snd]. split; [reflexivity|]. split; [reflexivity|]. split.
    + exists []. cbn [map]. rewrite app_nil_r. exact Hl.
    + split; [intros _; split; assumption|discriminate].
  - rewrite Hc. destruct enabled, (m_Crc s) eqn:Hcrc; cbn [negb andb snd].
    + split; [exact Hc|]. split; [exact Hc|].
      split; [exists []; cbn [map]; rewrite app_nil_r; exact Hl|].
      split; [intros _; split; assumption|]. intros _ H. contradiction.
    + pose proof (crc_tx CMD59 1 None (set_Crc true sc)) as Hk.
      destruct (tx_plain_log CMD59 1 None (set_Crc true sc) eq_refl)
        as (rs & Hlog & _).
      split; [exact Hk|]. split; [exact Hk|]. split.
      * exists rs. rewrite Hlog. change (cmd_log (set_Crc true sc))
          with (cmd_log sc). rewrite Hl. reflexivity.
      * split; [intros [H|H]; discriminate H|reflexivity].
    + destruct (tx_plain_log CMD59 0 None sc eq_refl) as (rs & Hlog & _).
      split; [reflexivity|]. split; [reflexivity|]. split.
      * exists rs.
        change (cmd_log (set_Crc false ?x)) with (cmd_log x).
        rewrite Hlog, Hl. reflexivity.
      * split; [intros [H|H]; discriminate H|reflexivity].
    + split; [exact Hc|]. split; [exact Hc|].
      split; [exists []; cbn [map]; rewrite app_nil_r; exact Hl|].
      split; [intros _; split; assumption|]. intros _ H. contradiction.
Qed.

Lemma set_crc_outcome_witness :
  let s1 := snd (disk_initialize sdhc_card) in
  m_Crc (snd (set_crc false s1)) = false
  /\ m_Spi (snd (set_crc true s1)) = m_Spi s1
  /\ snd (set_crc false s1)
     = set_Crc false
         (snd (commandTransaction CMD59 0 None (snd (checkSocket s1)))).
Proof.
  intros s1.
  destruct (set_crc_outcome false s1) as (H1 & _ & _ & _ & H5).
  destruct (set_crc_outcome true s1) as (_ & _ & _ & H4 & _).
  split; [exact H1|]. split.
  - apply H4. right. vm_compute. reflexivity.
  - apply H5; [vm_compute; reflexivity|vm_compute; discriminate].
Defined.

(** * Budgets of the reads *)

Lemma bounded_spi_format b : bounded (spi_format b) 0 0.
Proof. intros s. unfold spi_format. simpl. lia. Qed.

Lemma bounded_read_bytes n buffer i : bounded (read_bytes n buffer i) n 0.
Proof.
  revert buffer i. induction n as [|k IH]; intros buffer i; cbn [read_bytes].
  - apply bounded_ret.
  - apply (bounded_bind _ _ 1 0 k 0); [apply bounded_spi_write|].
    intros v. apply IH.
Qed.

Lemma bounded_read_words n buffer i : bounded (read_words n buffer i) n 0.
Proof.
  revert buffer i. induction n as [|k IH]; intros buffer i; cbn [read_words].
  - apply bounded_ret.
  - apply (bounded_bind _ _ 1 0 k 0); [apply bounded_spi_write|].
    intros v. apply IH.
Qed.

Lemma div2_le n : (Nat.div2 (S n) <= n + 1)%nat.
Proof.
  pose proof (Nat.div2_decr (S n) n (Nat.le_refl _)). lia.
Qed.

Lemma bounded_read_payload buffer off len :
  bounded (read_payload buffer off len) (len + 2) 0.
Proof.
  unfold read_payload.
  apply (bounded_bind _ _ 0 0 (len + 2) 0); [apply bounded_get|].
  intros large. apply bounded_if.
  - apply (bounded_le _ (0 + (Nat.div2 (S len) + (1 + (0 + 0))))
                        (0 + (0 + (0 + (0 + 0))))).
    + apply bounded_bind; [apply bounded_spi_format|]. intros ?.
      apply bounded_bind; [apply bounded_read_words|]. intros b.
      apply bounded_bind; [apply bounded_spi_write|]. intros c.
      apply bounded_bind; [apply bounded_spi_format|]. intros ?.
      apply bounded_ret.
    + pose proof (div2_le len). lia.
    + lia.
  - apply (bounded_le _ (len + (1 + (1 + 0))) (0 + (0 + (0 + 0))));
      [|lia|lia].
    apply bounded_bind; [apply bounded_read_bytes|]. intros b.
    apply bounded_bind; [apply bounded_spi_write|]. intros hi.
    apply bounded_bind; [apply bounded_spi_write|]. intros lo.
    apply bounded_ret.
Qed.

Lemma bounded_readData buffer off len :
  bounded (readData buffer off len) (len + 202) 200.
Proof.
  unfold readData.
  apply (bounded_le _ (200 + (len + 2)) (200 + 0)); [|lia|lia].
  apply bounded_bind; [apply bounded_recv_token|]. intros token.
  apply bounded_if.
  - apply (bounded_le _ 0 0); [apply bounded_ret|lia|lia].
  - apply (bounded_le _ (len + 2 + (0 + 0)) (0 + (0 + 0))); [|lia|lia].
    apply bounded_bind; [apply bounded_read_payload|]. intros r.
    apply bounded_bind; [apply bounded_get|]. intros c.
    apply bounded_ret.
Qed.

Lemma bounded_read_failed buffer : bounded (read_failed buffer) 1 0.
Proof.
  unfold read_failed.
  apply (bounded_bind _ _ 1 0 0 0); [apply bounded_deselect|]. intros ?.
  apply bounded_ret.
Qed.

Lemma bounded_readBlock_loop n buffer lba :
  bounded (readBlock_loop n buffer lba) (n * 1437 + 1) (n * 700).
Proof.
  revert buffer. induction n as [|k IH]; intros buffer; cbn [readBlock_loop].
  - apply bounded_read_failed.
  - apply (bounded_le _ (502 + (935 + (k * 1437 + 1))) (500 + (200 + k * 700)));
      [|lia|lia].
    apply bounded_bind; [apply bounded_select|]. intros ok.
    apply bounded_if.
    { apply (bounded_le _ 1 0); [apply bounded_read_failed|lia|lia]. }
    apply (bounded_le _ (0 + (220 + (715 + (k * 1437 + 1))))
                        (0 + (0 + (200 + k * 700)))); [|lia|lia].
    apply bounded_bind; [apply bounded_get|]. intros ct.
    apply bounded_bind; [apply bounded_token_of, bounded_command|].
    intros token. apply bounded_if.
    + apply (bounded_le _ (512 + 202 + (1 + (k * 1437 + 1)))
                          (200 + (0 + k * 700))); [|lia|lia].
      apply bounded_bind; [apply bounded_readData|]. intros r.
      apply bounded_bind; [apply bounded_deselect|]. intros ?.
      apply bounded_if.
      * apply (bounded_le _ 0 0); [apply bounded_ret|lia|lia].
      * apply IH.
    + apply (bounded_le _ 1 0); [apply bounded_read_failed|lia|lia].
Qed.

Lemma bounded_disk_sectors_loop n :
  bounded (disk_sectors_loop n) (n * 941 + 1) (n * 700).
Proof.
  induction n as [|k IH]; cbn [disk_sectors_loop].
  - apply (bounded_bind _ _ 1 0 0 0); [apply bounded_deselect|]. intros ?.
    apply bounded_ret.
  - apply (bounded_le _ (502 + (439 + (k * 941 + 1))) (500 + (200 + k * 700)));
      [|lia|lia].
    apply bounded_bind; [apply bounded_select|]. intros ok.
    apply bounded_if.
    { apply (bounded_le _ (1 + 0) (0 + 0)); [|lia|lia].
      apply bounded_bind; [apply bounded_deselect|]. intros ?.
      apply bounded_ret. }
    apply (bounded_le _ (220 + (219 + (k * 941 + 1))) (0 + (200 + k * 700)));
      [|lia|lia].
    apply bounded_bind; [apply bounded_token_of, bounded_command|].
    intros token. apply bounded_if.
    + apply (bounded_le _ (16 + 202 + (1 + (k * 941 + 1)))
                          (200 + (0 + k * 700))); [|lia|lia].
      apply bounded_bind; [apply bounded_readData|]. intros r.
      apply bounded_bind; [apply bounded_deselect|]. intros ?.
      apply bounded_if.
      * apply (bounded_le _ 0 0); [apply bounded_ret|lia|lia].
      * apply IH.
    + apply (bounded_le _ (1 + 0) (0 + 0)); [|lia|lia].
      apply bounded_bind; [apply bounded_deselect|]. intros ?.
      apply bounded_ret.
Qed.

(** X20.  The reads always come back.  Whatever the card sends,
    [readData] makes at most [N + 202] transfers and waits at most
    200 ms; a single block read makes at most 3 * 1437 + 1 transfers
    and waits at most 2.1 s; [disk_sectors] makes at most 3 * 941 + 1
    transfers and waits at most 2.1 s; so [disk_read] with a count of
    0 or 1 needs no fuel to return. *)
Theorem read_budgets :
  (forall buffer off len, bounded (readData buffer off len) (len + 202) 200)
  /\ (forall buffer lba,
        bounded (readBlock buffer lba) (3 * 1437 + 1) (3 * 700))
  /\ bounded disk_sectors (3 * 941 + 1) (3 * 700)
  /\ (forall buffer sector count s,
        to_char count <= 1 ->
        exists r s',
          disk_read 0 buffer sector count s = Some (r, s')
          /\ (xfers (m_Spi s') <= xfers (m_Spi s) + (3 * 1437 + 1))%nat
          /\ (elapsed_ms s' <= elapsed_ms s + 3 * 700)%nat).
Proof.
  split; [exact bounded_readData|].
  split; [intros; apply bounded_readBlock_loop|].
  split.
  - unfold disk_sectors.
    apply (bounded_le _ (0 + (3 * 941 + 1)) (0 + 3 * 700)); [|lia|lia].
    apply bounded_bind; [apply bounded_get|]. intros noinit.
    apply bounded_if; [|apply bounded_disk_sectors_loop].
    apply (bounded_le _ 0 0); [apply bounded_ret|lia|lia].
  - intros buffer sector count s Hcount.
    unfold disk_read, bindP, liftP. rewrite get_run.
    destruct (status_has STA_NOINIT s).
    + eexists _, _. split; [reflexivity|]. cbn [snd]. lia.
    + replace (to_char count >? 1) with false
        by (destruct (Z.gtb_spec (to_char count) 1); [lia|reflexivity]).
      pose proof (bounded_readBlock_loop 3 buffer (to_uint64 sector) s) as Hb.
      fold (readBlock buffer (to_uint64 sector)) in Hb.
      destruct (readBlock buffer (to_uint64 sector) s) as [[ok b] s1].
      cbn [fst snd] in *.
      destruct ok; eexists _, _; (split; [reflexivity|exact Hb]).
Qed.

Lemma read_budgets_witness :
  exists r s',
    disk_read 0 [] 0 0 (initialized []) = Some (r, s')
    /\ (xfers (m_Spi s') <= 4312)%nat.
Proof.
  destruct read_budgets as (_ & _ & _ & H).
  destruct (H [] 0 0 (initialized [])) as (r & s' & E & Hx & _).
  - vm_compute. discriminate.
  - exists r, s'. split; [exact E|exact Hx].
Defined.

(** * The rollback query of a multiple block write *)

Lemma lor_disjoint a lo n :
  0 <= n -> 0 <= lo < 2 ^ n -> a mod 2 ^ n = 0 -> Z.lor a lo = a + lo.
Proof.
  intros Hn Hlo Ha. rewrite <- (Z.add_lor_land a lo).
  assert (H0 : Z.land a lo = 0); [|rewrite H0; lia].
  apply Z.bits_inj'. intros i Hi. rewrite Z.land_spec, Z.bits_0.
  destruct (Z.lt_ge_cases i n) as [Hlt|Hge].
  - pose proof (Z.div_mod a (2 ^ n) ltac:(lia)) as D. rewrite Ha in D.
    replace a with (a / 2 ^ n * 2 ^ n) by lia.
    rewrite Z.mul_pow2_bits_low by lia. reflexivity.
  - rewrite <- (Z.mod_small lo (2 ^ n)) by lia.
    rewrite Z.mod_pow2_bits_high by lia. apply andb_false_r.
Qed.

(** Four bytes put together as [writeBlocks] does it are the
    big-endian number they spell. *)
Lemma big_endian_32 b0 b1 b2 b3 :
  is_byte b0 -> is_byte b1 -> is_byte b2 -> is_byte b3 ->
  to_uint32 (Z.lor (Z.lor (Z.lor (Z.shiftl b0 24) (Z.shiftl b1 16))
                          (Z.shiftl b2 8)) b3)
  = (b0 * 2 ^ 24 + b1 * 2 ^ 16 + b2 * 2 ^ 8 + b3) mod 2 ^ 32.
Proof.
  unfold is_byte. intros H0 H1 H2 H3. unfold to_uint32.
  rewrite !Z.shiftl_mul_pow2 by lia.
  rewrite (lor_disjoint (b0 * 2 ^ 24) (b1 * 2 ^ 16) 24);
    [|lia|lia|apply Z.mod_mul; lia].
  rewrite (lor_disjoint (b0 * 2 ^ 24 + b1 * 2 ^ 16) (b2 * 2 ^ 8) 16);
    [|lia|lia|].
  - rewrite (lor_disjoint _ b3 8); [reflexivity|lia|lia|].
    replace (b0 * 2 ^ 24 + b1 * 2 ^ 16 + b2 * 2 ^ 8)
      with ((b0 * 2 ^ 16 + b1 * 2 ^ 8 + b2) * 2 ^ 8) by lia.
    apply Z.mod_mul. lia.
  - replace (b0 * 2 ^ 24 + b1 * 2 ^ 16)
      with ((b0 * 2 ^ 8 + b1) * 2 ^ 16) by lia.
    apply Z.mod_mul. lia.
Qed.

Lemma well_written_blocks_run s :
  well_written_blocks s
  = (if CardType_eqb (m_CardType s) CARD_MMC then (0, s)
     else
       let t := commandTransaction ACMD22 0x00000000 None s in
       if fst (fst t) =? 0x00 then
         let r := readData [0; 0; 0; 0] 0 4 (snd t) in
         (if fst (fst r)
          then to_uint32
                 (Z.lor (Z.lor (Z.lor (Z.shiftl (peek (snd (fst r)) 0) 24)
                                      (Z.shiftl (peek (snd (fst r)) 1) 16))
                               (Z.shiftl (peek (snd (fst r)) 2) 8))
                        (peek (snd (fst r)) 3))
          else 0, snd r)
       else (0, snd t)).
Proof.
  unfold well_written_blocks.
  rewrite (bind_eqn _ _ _ _ _ (get_run _ s)).
  destruct (CardType_eqb (m_CardType s) CARD_MMC); cbn [negb]; [reflexivity|].
  cbv zeta.
  destruct (commandTransaction ACMD22 0 None s) as [[t o] s1] eqn:E.
  rewrite (bind_eqn _ _ _ _ _ (token_of_eqn _ _ _ _ _ E)). cbn [fst snd].
  destruct (t =? 0); [|reflexivity].
  destruct (readData [0; 0; 0; 0] 0 4 s1) as [[ok b] s2] eqn:E2.
  rewrite (bind_eqn _ _ _ _ _ E2). cbn [fst snd].
  destruct ok; reflexivity.
Qed.

(** X21.  The rollback query of [writeBlocks].  After a CRC error in a
    multiple block write, the number of well written blocks is asked
    with ACMD22: the command goes out as a plain command, without the
    CMD55 that precedes ACMD23, ACMD41 and ACMD42; the transaction ends
    with /CS high, and the four bytes of the answer are read after
    that, with the card deselected.  The count is the big-endian value
    of the four bytes when the block is accepted and 0 in every other
    case, as for an MMC, which is not asked at all. *)
Theorem rollback_query s :
  let t := commandTransaction ACMD22 0x00000000 None s in
  (exists rs,
      cmd_log (snd (well_written_blocks s))
      = cmd_log s ++ map (mkCmdEvent ACMD22 0) rs)
  /\ m_Cs (snd t) = 1
  /\ (m_CardType s <> CARD_MMC -> fst (fst t) = 0x00 ->
      let r := readData [0; 0; 0; 0] 0 4 (snd t) in
      let b := snd (fst r) in
      snd (well_written_blocks s) = snd r
      /\ m_Cs (snd (well_written_blocks s)) = 1
      /\ fst (well_written_blocks s)
         = (if fst (fst r)
            then (peek b 0 * 2 ^ 24 + peek b 1 * 2 ^ 16 + peek b 2 * 2 ^ 8
                  + peek b 3) mod 2 ^ 32
            else 0))
  /\ (m_CardType s <> CARD_MMC -> fst (fst t) <> 0x00 ->
      well_written_blocks s = (0, snd t))
  /\ (m_CardType s = CARD_MMC -> well_written_blocks s = (0, s))
  /\ 0 <= fst (well_written_blocks s) < 2 ^ 32.
Proof.
  cbv zeta. rewrite well_written_blocks_run.
  pose proof (cs_commandTransaction ACMD22 0 None s) as Hcs.
  destruct (tx_plain_log ACMD22 0 None s eq_refl) as (rs & Hlog & _).
  assert (Hrd : forall s1,
             cmd_log (snd (readData [0; 0; 0; 0] 0 4 s1)) = cmd_log s1
             /\ m_Cs (snd (readData [0; 0; 0; 0] 0 4 s1)) = m_Cs s1).
  { intros s1. split; apply keeps_readData; blind. }
  set (t := commandTransaction ACMD22 0 None s) in *.
  split; [|split; [exact Hcs|]].
  - destruct (CardType_eqb (m_CardType s) CARD_MMC).
    + exists []. cbn [map snd]. rewrite app_nil_r. reflexivity.
    + cbv zeta. destruct (fst (fst t) =? 0); cbn [snd].
      * exists rs. rewrite (proj1 (Hrd (snd t))). exact Hlog.
      * exists rs. exact Hlog.
  - split; [|split; [|split]].
    + intros Hct Ht.
      replace (CardType_eqb (m_CardType s) CARD_MMC) with false
        by (destruct (m_CardType s); try reflexivity; contradiction).
      cbv zeta. rewrite Ht, Z.eqb_refl. cbn [snd fst].
      split; [reflexivity|].
      split; [rewrite (proj2 (Hrd (snd t))); exact Hcs|].
      assert (Hb : Forall is_byte
                     (snd (fst (readData [0; 0; 0; 0] 0 4 (snd t))))).
      { apply readData_byte. repeat constructor; unfold is_byte; lia. }
      destruct (fst (fst (readData [0; 0; 0; 0] 0 4 (snd t)))); [|reflexivity].
      apply big_endian_32; apply peek_byte, Hb.
    + intros Hct Ht.
      replace (CardType_eqb (m_CardType s) CARD_MMC) with false
        by (destruct (m_CardType s); try reflexivity; contradiction).
      cbv zeta. apply Z.eqb_neq in Ht. rewrite Ht. reflexivity.
    + intros ->. reflexivity.
    + destruct (CardType_eqb (m_CardType s) CARD_MMC); [cbn [fst]; lia|].
      cbv zeta. destruct (fst (fst t) =? 0); [|cbn [fst]; lia].
      cbn [fst].
      destruct (fst (fst (readData [0; 0; 0; 0] 0 4 (snd t))));
        [apply to_uint32_range|lia].
Qed.

Lemma rollback_query_witness :
  let s := set_CardType CARD_SD (initialized (reply 0x00 [])) in
  m_Cs (snd (well_written_blocks s)) = 1
  /\ cmd_log (snd (well_written_blocks s)) = [mkCmdEvent ACMD22 0 0x00]
  /\ fst (well_written_blocks s) = 0.
Proof.
  intros s.
  destruct (rollback_query s) as (_ & _ & H & _).
  destruct H as (_ & Hcs & _); [discriminate|vm_compute; reflexivity|].
  split; [exact Hcs|]. split; vm_compute; reflexivity.
Defined.
